(* ===== verification/_CoqProject ===== *)
-Q . S2P
Prelude.v
AdvTable.v
AdvTableInv.v
AdvTableSpec.v
AdvTableRefine.v
AdvTableMap.v
AdvTableHist.v
AdvTableProps.v
EventMgr.v
EventMgrSpec.v
EventMgrProps.v
LedsBlinking.v
LedsCtrl2.v
LedsCtrl.v
Leds.v
LedsFacts.v
LedsProps.v
GwCfg.v
AdvPostSig.v
AdvPostNrf52.v
AdvPostNrf52Inv.v
AdvPostTimers.v
AdvPostAsync.v
NetworkTimeout.v
AdvPostCfgCache.v
AdvPostGreenLed.v
AdvPostState.v
AdvRecv.v
AdvPostSignals.v
AdvPostAsyncInv.v
AdvRecvFacts.v
AdvPostTaskInv.v
AdvRecvInv.v
Examples.v
AdvPostNrf52Props.v
AdvPostAsyncProps.v
AdvRecvProps.v
AdvPostTaskProps.v
