(* ===== verification/Prelude.v ===== *)
(** * Ruuvi Gateway ESP32 firmware: verification library

    The firmware receives Bluetooth advertisements from an nRF52 co-processor over
    a UART, keeps the last report of every tag, and relays the reports by HTTP and
    MQTT.  This library models the part of src/main that collects and relays the
    reports, with the command channel to the nRF52, the event manager and the LEDs,
    and proves what these components promise each other.

    ** How the program is put together

    - The UART driver calls back into adv_post.c.  A received report is filtered by
      the cached configuration (adv_post_cfg_cache.c) and put into the advertisement
      table (adv_table.c); acknowledgements of commands go to adv_post_nrf52.c.
    - The advertisement task (adv_post_task.c) handles one signal at a time
      (adv_post_signals.c).  Timers (adv_post_timers.c) and events of the event
      manager (event_mgr.c, adv_post_events.c) are its signals.  On
      [ADV_POST_SIG_DO_ASYNC_COMM] it makes one step of the transfer in progress
      (adv_post_async_comm.c, adv_post_statistics.c), which reads a list of the table.
    - Commands to the nRF52 (its configuration and the state of the green LED) are
      sent one at a time (adv_post_nrf52.c, adv_post_green_led.c).
    - The network watchdog (network_timeout.c) restarts a gateway without network.
    - The LED task (leds.c) turns events into a phase of the gateway (leds_ctrl.c,
      leds_ctrl2.c) and plays the blinking sequence of the phase (leds_blinking.c).

    ** Conventions

    A C function that touches state is a program [prog S E A] (below): a function
    from the state [S] of its component to a fault or a result, the new state and
    the list of calls [E] made to code that is not modelled, in order.  Failed
    assertions (the build enables them), null pointers, accesses outside an array,
    shifts by the width of a type and the corruption of an intrusive list are faults.
    Integers are [Z] with [u8], [u16], [u32] and [i32] written where the source converts.  Mutex calls are
    events of the component that makes them.  Answers of code outside the model
    (the heap, the network, the configuration, the clock) are fields of an
    environment record, quantified in the theorems.  Constants and functions of
    submodules that are not in src are type classes: [CaUart], [CaUartReports]
    (the UART protocol) and [FreeRtos] (ticks).  The combinators [zoom], [map_events]
    and [interp] run a component inside a larger state.  Names are the source's.

    ** Files

    - Prelude: machine integers, outcomes, programs, their notations, the relation
      [run] and the lemmas and tactics for runs; [for_each].
    - AdvTable: adv_table.c over an array of elements whose hash buckets and lists
      (the queues STAILQ and TAILQ of the source) are lists of indices; unlinking an
      element that is not linked is a fault.  AdvTableInv: the invariant [table_inv] of
      the links (no list holds an element twice), kept by every elementary update.  AdvTableSpec: an abstract table,
      the order of last updates and one queue per consumer.  AdvTableRefine: every
      operation does what the specification says, and keeps [table_ok], the invariant
      of the links together with the one of the contents, that a report fits its
      buffer.  AdvTableMap: the table as a bounded map from addresses.  AdvTableHist:
      time order of the history.  AdvTableProps: the claims.
    - EventMgr: event_mgr.c with subscriber nodes in a store; linking a node that is
      linked is a fault.  EventMgrSpec: lists of
      subscriptions, and the refinement.  EventMgrProps: the claims.
    - LedsBlinking, LedsCtrl2, LedsCtrl, Leds: the four files of the LEDs.  LedsFacts:
      runs of the handlers.  LedsProps: the claims.
    - GwCfg: the parts of gw_cfg.h that others copy.
    - AdvPostSig: the signals.  AdvPostTimers, AdvPostAsync, NetworkTimeout,
      AdvPostCfgCache, AdvPostGreenLed, AdvPostNrf52: the C file of the same name
      (AdvPostAsync also adv_post_statistics.c).  AdvPostState: their states together.
      AdvRecv: adv_post.c.  AdvPostSignals: adv_post_signals.c, adv_post_events.c and
      adv_post_task.c.
    - AdvPostNrf52Inv, AdvPostAsyncInv, AdvRecvFacts, AdvPostTaskInv, AdvRecvInv: the
      invariants and what each operation does.  Examples: concrete states.
      AdvPostNrf52Props, AdvPostAsyncProps, AdvRecvProps, AdvPostTaskProps: the claims.

    ** What is shown

    - The table: every sequence of operations, on reports that fit their buffers,
      refines the abstract table and keeps the invariant; an accepted report is the
      one read out by every consumer, once, in the order of the queue; the hash search
      finds what a linear search finds; the history gives exactly the reports of the
      requested window, newest first.
    - The event manager: a notification sends exactly the signals subscribed, in the
      order of subscription.
    - The LEDs: only the events the state machine rejects make it assert; the
      order of the phases up to the connected one; solid green exactly when all is
      well; the phase before a reboot is left only if the nRF52 reboots; a sequence is
      played character by character; the task never asks for red and green together
      (the green LED itself is driven by the nRF52).
    - The nRF52: no assertion fails, at most one command waits for an
      acknowledgement, a waiting command has a timer, outside the manual reset mode
      a configuration is sent again until it is acknowledged, and the tenth timeout in a
      row resets.
    - The task: from the start of the firmware no sequence of signals, received
      advertisements (of whole chunks) and replies makes a handler fail, and the mutex of the HTTP server
      and the report buffers are balanced; a received report reaches the table exactly
      when it must (if the report is logged, provided its chunks can be read); MQTT
      publishes exactly what waits, one report a step, as long as publishing succeeds.
    - Five theorems show where the code does not do what it means to; each says under
      which circumstances.

    ** Bounds and fuel

    Loops over lists and arrays are structural.  Two have fuel: the actions of the
    LED state machine ([leds_ctrl_do_actions], fuel 11, where the proofs bound the
    chain of actions), and [get_ble_manuf_id], whose pointer grows by at least one in
    every round, so that one more round than the buffer has bytes ends or leaves it.
    [OutOfFuel] is a fault, and the theorems that exclude faults exclude it.

    ** What is not modelled

    - Concurrency inside a function: a function is one step.  Where the source
      protects data by a mutex, the lock and unlock calls are events; the callbacks
      of the UART and the handlers of the task interleave as whole steps.
    - The HTTP client and server, MQTT, JSON, the configuration and its storage, the
      firmware of the nRF52 and its flashing, firmware update, network and start-up:
      see the events and environments for what the modelled code asks of them.
    - Log output, except where its arguments are computed from data (the
      manufacturer of a logged advertisement).
    - The submodules under src/components are empty; their functions are events.

    To be added: the configuration (gw_cfg.h, gw_cfg_cmp.c, gw_cfg.c), the MQTT task
    (adv_mqtt*.c), text and JSON conversions (time_str.c, url_encode.c, bin2hex.c,
    http_json.c, mqtt_json.c), nrf52fw_info_txt.c, fw_update.c and main_loop.c. *)

From Stdlib Require Export Ascii ZArith Lia.
From stdpp Require Export base list list_numbers option decidable numbers gmap sets strings.
From stdpp Require Export tactics list.

(** ** Machine integers

    Values of the C types are carried as [Z]; conversions to a fixed width are
    written out where the source performs them. *)

Definition u8 (z : Z) : Z := (z mod 2 ^ 8)%Z.
Definition u16 (z : Z) : Z := (z mod 2 ^ 16)%Z.
Definition u32 (z : Z) : Z := (z mod 2 ^ 32)%Z.
Definition i32 (z : Z) : Z := ((z + 2 ^ 31) mod 2 ^ 32 - 2 ^ 31)%Z.

(** ** Runs of C code

    A fault is an event after which the firmware does not continue normally:
    a failed [assert] (the build enables assertions, so it aborts), or an
    access through a null or dangling pointer or outside an array.
    [UndefinedShift] is a shift by the width of the type or more.  [ListCorrupted]
    is the linking of an element that is already linked into an intrusive list,
    after which the list has no meaning.  [OutOfFuel]
    is a loop that did not end within the bound the model gives it; the theorems
    show that it does not occur. *)

Inductive fault :=
| AssertFailed
| NullDeref
| OutOfBounds
| UndefinedShift
| ListCorrupted
| OutOfFuel.

Inductive outcome (A : Type) :=
| Done (a : A)
| Fault (f : fault).
Arguments Done {A} a.
Arguments Fault {A} f.

#[export] Instance fault_eq_dec : EqDecision fault.
Proof. solve_decision. Defined.

(** A program over a state [S] that calls the outside world: the calls it makes
    are the events [E], in order. *)
Definition prog (S E A : Type) : Type := S → outcome (A * S * list E).

#[export] Instance prog_ret {S E} : MRet (prog S E) := λ A a s, Done (a, s, []).
#[export] Instance prog_bind {S E} : MBind (prog S E) := λ A B k m s,
  match m s with
  | Done (a, s1, es1) =>
      match k a s1 with
      | Done (b, s2, es2) => Done (b, s2, es1 ++ es2)
      | Fault f => Fault f
      end
  | Fault f => Fault f
  end.

Section prog_ops.
Context {S E : Type}.

Definition skip : prog S E unit := mret tt.
Definition getst : prog S E S := λ s, Done (s, s, []).
Definition gets {A} (f : S → A) : prog S E A := λ s, Done (f s, s, []).
Definition modify (f : S → S) : prog S E unit := λ s, Done (tt, f s, []).
Definition emit (e : E) : prog S E unit := λ s, Done (tt, s, [e]).
Definition fail {A} (f : fault) : prog S E A := λ _, Fault f.
(** [assert(b)] of <assert.h>. *)
Definition assert_c (b : bool) : prog S E unit :=
  if b then skip else fail AssertFailed.
End prog_ops.

(** Run a program of a component on that component's part of a larger state. *)
Definition zoom {S T E A} (get : S → T) (put : T → S → S) (m : prog T E A) : prog S E A :=
  λ s, match m (get s) with
       | Done (a, t, es) => Done (a, put t s, es)
       | Fault f => Fault f
       end.

(** Interpret the calls of a component in the system that contains it. *)
Definition map_events {S E E' A} (f : E → list E') (m : prog S E A) : prog S E' A :=
  λ s, match m s with
       | Done (a, s', es) => Done (a, s', es ≫= f)
       | Fault e => Fault e
       end.

(** [for (...) body] over a list of loop values. *)
Fixpoint for_each {S E A} (l : list A) (body : A → prog S E unit) : prog S E unit :=
  match l with
  | [] => skip
  | x :: l' => body x ;; for_each l' body
  end.

(** Run a program of a component on that component's part of a larger state, and
    let a handler carry out its calls in that state. *)
Definition interp {S T E E' A} (get : S → T) (put : T → S → S) (h : E → prog S E' unit) (m : prog T E A)
    : prog S E' A :=
  λ s, match m (get s) with
       | Done (a, t, es) => (for_each es h ≫= λ _, mret a) (put t s)
       | Fault f => Fault f
       end.

(** ** Reasoning about runs

    [run m s a s' es]: from state [s], [m] returns [a] in state [s'] after the
    calls [es].  The lemmas below execute a program symbolically, one call of
    [eapply] per step. *)

Definition run {S E A} (m : prog S E A) (s : S) (a : A) (s' : S) (es : list E) : Prop :=
  m s = Done (a, s', es).

(** No fault occurs. *)
Definition safe {S E A} (m : prog S E A) (s : S) : Prop := ∃ a s' es, run m s a s' es.

Section run_lemmas.
Context {S E : Type}.
Implicit Types (s : S) (es : list E).

Lemma run_ret {A} (a : A) s : run (E:=E) (mret a) s a s [].
Proof. reflexivity. Qed.
Lemma run_skip s : run (E:=E) skip s tt s [].
Proof. reflexivity. Qed.
Lemma run_gets {A} (f : S → A) s : run (E:=E) (gets f) s (f s) s [].
Proof. reflexivity. Qed.
Lemma run_getst s : run (E:=E) getst s s s [].
Proof. reflexivity. Qed.
Lemma run_modify f s : run (E:=E) (modify f) s tt (f s) [].
Proof. reflexivity. Qed.
Lemma run_emit (e : E) s : run (emit e) s tt s [e].
Proof. reflexivity. Qed.

Lemma run_bind {A B} (m : prog S E A) (k : A → prog S E B) s a s1 e1 b s2 e2 :
  run m s a s1 e1 → run (k a) s1 b s2 e2 → run (m ≫= k) s b s2 (e1 ++ e2).
Proof. unfold run, mbind, prog_bind. intros -> ->. reflexivity. Qed.

(** A step that makes no call. *)
Lemma run_bind_silent {A B} (m : prog S E A) (k : A → prog S E B) s a s1 b s2 es :
  run m s a s1 [] → run (k a) s1 b s2 es → run (m ≫= k) s b s2 es.
Proof. apply (run_bind m k s a s1 []). Qed.

Lemma run_bind_inv {A B} (m : prog S E A) (k : A → prog S E B) s b s2 es :
  run (m ≫= k) s b s2 es →
  ∃ a s1 e1 e2, run m s a s1 e1 ∧ run (k a) s1 b s2 e2 ∧ es = e1 ++ e2.
Proof.
  unfold run, mbind, prog_bind. destruct (m s) as [[[a s1] e1]|]; [|done].
  destruct (k a s1) as [[[b' s2'] e2]|] eqn:Hk; [|done].
  intros [= <- <- <-]. eauto 10.
Qed.

Lemma run_det {A} (m : prog S E A) s a s1 e1 b s2 e2 :
  run m s a s1 e1 → run m s b s2 e2 → a = b ∧ s1 = s2 ∧ e1 = e2.
Proof. unfold run. intros H1 H2. rewrite H1 in H2. by simplify_eq. Qed.

Lemma run_assert b s : b = true → run (E:=E) (assert_c b) s tt s [].
Proof. by intros ->. Qed.

Lemma run_bind_emit {B} (e : E) (k : unit → prog S E B) s b s2 es :
  run (k tt) s b s2 es → run (emit e ≫= k) s b s2 (e :: es).
Proof. intros H. by apply (run_bind (emit e) k s tt s [e]). Qed.

(** Invariants of loops. *)
Lemma run_for_each {A} (I : S → Prop) (l : list A) (body : A → prog S E unit) s :
  (∀ x s, x ∈ l → I s → ∃ s', run (body x) s tt s' [] ∧ I s') →
  I s → ∃ s', run (for_each l body) s tt s' [] ∧ I s'.
Proof.
  revert s. induction l as [|x l IH]; intros s Hb Hi; simpl.
  - exists s. split; [apply run_skip|done].
  - destruct (Hb x s ltac:(set_solver) Hi) as (s1 & H1 & Hi1).
    destruct (IH s1 ltac:(set_solver) Hi1) as (s2 & H2 & Hi2).
    exists s2. split; [|done]. eapply run_bind_silent; eauto.
Qed.
End run_lemmas.

Lemma run_zoom {S T E A} (get : S → T) (put : T → S → S) (m : prog T E A) s a t es :
  run m (get s) a t es → run (zoom get put m) s a (put t s) es.
Proof. unfold run, zoom. by intros ->. Qed.

Lemma run_interp {S T E E' A} (get : S → T) (put : T → S → S) (h : E → prog S E' unit) (m : prog T E A)
    s a t es s' es' :
  run m (get s) a t es → run (for_each es h) (put t s) tt s' es' → run (interp get put h m) s a s' es'.
Proof.
  unfold run at 1, interp. intros Hm Hh. unfold run. rewrite Hm.
  rewrite <- (app_nil_r es'). by apply (run_bind _ _ _ _ _ _ _ _ [] Hh).
Qed.

Lemma run_map_events {S E E' A} (f : E → list E') (m : prog S E A) s a s' es :
  run m s a s' es → run (map_events f m) s a s' (es ≫= f).
Proof. unfold run, map_events. by intros ->. Qed.

Create HintDb run.
#[export] Hint Resolve run_ret run_skip run_gets run_getst run_modify run_emit : run.

#[export] Hint Resolve run_assert run_zoom run_map_events : run.

(** Execute one silent step of the program in the goal. *)
Ltac run_step := eapply run_bind_silent; [solve [eauto with run] | cbv beta].

(** ** C strings

    A string constant is its characters without the terminating null character;
    reading at its length gives that character, and reading further is out of
    bounds. *)

Definition NUL : Ascii.ascii := Ascii.zero.

Definition c_char_at (s : string) (i : Z) : option Ascii.ascii :=
  if (i <? 0)%Z then None
  else if (i =? Z.of_nat (String.length s))%Z then Some NUL
  else String.get (Z.to_nat i) s.

(** ** Lists *)

Section lists.
Context {A : Type}.
Implicit Types l : list A.

Lemma list_alter_same (f : A → A) l i :
  (∀ x, l !! i = Some x → f x = x) → alter f i l = l.
Proof.
  intros Hf. apply list_eq. intros j. destruct (decide (j = i)) as [->|].
  - rewrite list_lookup_alter_eq. destruct (l !! i) as [x|] eqn:Hx; simpl; [|done]. by rewrite Hf.
  - by rewrite list_lookup_alter_ne.
Qed.

Lemma list_alter_insert (f : A → A) l i x : l !! i = Some x → alter f i l = <[i := f x]> l.
Proof.
  intros Hx. apply list_eq. intros j. destruct (decide (j = i)) as [->|].
  - rewrite list_lookup_alter_eq, Hx, list_lookup_insert_eq; [done|]. by eapply lookup_lt_Some.
  - by rewrite list_lookup_alter_ne, list_lookup_insert_ne.
Qed.

Lemma take_insert_snoc l i x :
  (i < length l)%nat → take (S i) (<[i := x]> l) = take i l ++ [x].
Proof.
  intros Hi. rewrite (take_S_r _ i x); [|by apply list_lookup_insert_eq].
  by rewrite take_insert_ge by lia.
Qed.

Lemma length_omap_some {B} (f : A → option B) l :
  (∀ x, x ∈ l → is_Some (f x)) → length (omap f l) = length l.
Proof.
  induction l as [|x l IH]; intros Hl; [done|]. cbn.
  destruct (Hl x ltac:(set_solver)) as [y ->]. cbn. rewrite IH; [done|]. set_solver.
Qed.

Lemma last_perm_in l x : last l = Some x → x ∈ l.
Proof. intros (l' & ->)%last_Some. set_solver. Qed.
End lists.

(** ** Record update

    A record declares how it is rebuilt from its fields ([Eta]); the update
    notation then derives the setter of a field from its projection. *)

Class Eta (R : Type) := eta : R → R.
Class Setter {R T : Type} (proj : R → T) := set_field : T → R → R.
Arguments set_field {R T} proj {_} v r.

Ltac derive_setter R proj :=
  let v := fresh "v" in let r := fresh "r" in
  intros v r;
  let t := eval hnf in (eta r) in
  let t := eval pattern (proj r) in t in
  match t with ?F _ => let u := eval cbv beta in (F v) in exact u end.

#[export] Hint Extern 1 (@Setter ?R _ ?proj) => derive_setter R proj : typeclass_instances.

Declare Scope gw_scope.
Delimit Scope gw_scope with gw.
Notation "r <| proj := v |>" := (set_field proj v r)
  (at level 1, left associativity, format "r  <| proj  :=  v |>") : gw_scope.
Open Scope gw_scope.

(** A field the state [s1] has from [s]. *)
Ltac same_field f s1 s := change (f s1) with (f s).
