(* ===== verification/AdvTable.v ===== *)
(** * The advertisement table (src/main/adv_table.c)

    The table keeps the last report of up to [MAX_ADVS_TABLE] tags in a fixed
    array of elements.  An element is linked into a bucket of a hash table keyed
    by MAC address, into up to three retransmission lists (one per consumer:
    HTTP to Ruuvi, HTTP to a custom server, MQTT) and into the history list, which
    is ordered by the time of the last update.  Pointers to elements are indexes
    into the array; the intrusive lists of <sys/queue.h> are lists of indexes. *)

From S2P Require Import Prelude.
Open Scope Z_scope.

(** ** Data *)

Definition MAX_ADVS_TABLE : nat := 100.
Definition ADV_TABLE_HASH_SIZE : Z := 101.
Definition BLE_MAX_REGULAR_ADV_DATA_LEN : Z := 31.
(** The size of [data_buf] (ruuvi_gateway.h). *)
Definition ADV_DATA_MAX_LEN : Z := 48.

(** [mac_address_bin_t]: the bytes of the address. *)
Definition mac_address_bin_t : Type := list Z.

Record adv_report_t := AdvReport {
  timestamp : Z;
  samples_counter : Z;
  tag_mac : mac_address_bin_t;
  rssi : Z;
  primary_phy : Z;
  secondary_phy : Z;
  ch_index : Z;
  is_coded_phy : bool;
  tx_power : Z;
  data_len : Z;
  data_buf : list Z;
}.
#[export] Instance adv_report_eta : Eta adv_report_t := λ r,
  AdvReport (timestamp r) (samples_counter r) (tag_mac r) (rssi r) (primary_phy r) (secondary_phy r)
    (ch_index r) (is_coded_phy r) (tx_power r) (data_len r) (data_buf r).
#[export] Instance adv_report_eq_dec : EqDecision adv_report_t.
Proof. solve_decision. Defined.

Record adv_report_table_t := AdvReportTable {
  num_of_advs : Z;
  table : list adv_report_t;
}.
#[export] Instance adv_report_table_eta : Eta adv_report_table_t := λ r,
  AdvReportTable (num_of_advs r) (table r).

(** The retransmission lists 1, 2 and 3. *)
Inductive rl_id := RL1 | RL2 | RL3.
#[export] Instance rl_id_eq_dec : EqDecision rl_id.
Proof. solve_decision. Defined.

Record adv_reports_list_elem_t := AdvElem {
  is_in_hash_table : bool;
  is_in_retransmission_list1 : bool;
  is_in_retransmission_list2 : bool;
  is_in_retransmission_list3 : bool;
  adv_report : adv_report_t;
}.
#[export] Instance adv_elem_eta : Eta adv_reports_list_elem_t := λ r,
  AdvElem (is_in_hash_table r) (is_in_retransmission_list1 r) (is_in_retransmission_list2 r)
    (is_in_retransmission_list3 r) (adv_report r).

Record adv_table_t := AdvTableState {
  g_arr_of_adv_reports : list adv_reports_list_elem_t;
  g_adv_hash_table : list (list nat);
  g_adv_reports_retransmission_list1 : list nat;
  g_adv_reports_retransmission_list2 : list nat;
  g_adv_reports_retransmission_list3 : list nat;
  g_adv_reports_hist_list : list nat;
}.
#[export] Instance adv_table_eta : Eta adv_table_t := λ r,
  AdvTableState (g_arr_of_adv_reports r) (g_adv_hash_table r) (g_adv_reports_retransmission_list1 r)
    (g_adv_reports_retransmission_list2 r) (g_adv_reports_retransmission_list3 r)
    (g_adv_reports_hist_list r).

(** The calls the component makes to the operating system. *)
Inductive adv_table_ev := AdvMutexCreate | AdvMutexDelete | AdvMutexLock | AdvMutexUnlock.

Abbreviation tprog := (prog adv_table_t adv_table_ev).

(** ** Selecting one of the three retransmission lists *)

Definition is_in_rl (k : rl_id) (e : adv_reports_list_elem_t) : bool :=
  match k with
  | RL1 => is_in_retransmission_list1 e
  | RL2 => is_in_retransmission_list2 e
  | RL3 => is_in_retransmission_list3 e
  end.

Definition set_in_rl (k : rl_id) (b : bool) (e : adv_reports_list_elem_t) : adv_reports_list_elem_t :=
  match k with
  | RL1 => e <| is_in_retransmission_list1 := b |>
  | RL2 => e <| is_in_retransmission_list2 := b |>
  | RL3 => e <| is_in_retransmission_list3 := b |>
  end.

Definition rl_list (k : rl_id) (st : adv_table_t) : list nat :=
  match k with
  | RL1 => g_adv_reports_retransmission_list1 st
  | RL2 => g_adv_reports_retransmission_list2 st
  | RL3 => g_adv_reports_retransmission_list3 st
  end.

Definition set_rl_list (k : rl_id) (l : list nat) (st : adv_table_t) : adv_table_t :=
  match k with
  | RL1 => st <| g_adv_reports_retransmission_list1 := l |>
  | RL2 => st <| g_adv_reports_retransmission_list2 := l |>
  | RL3 => st <| g_adv_reports_retransmission_list3 := l |>
  end.

(** ** Elements and intrusive lists *)

Definition elem_at (i : nat) : tprog adv_reports_list_elem_t := λ st,
  match g_arr_of_adv_reports st !! i with
  | Some e => Done (e, st, [])
  | None => Fault OutOfBounds
  end.

Definition alter_elem (f : adv_reports_list_elem_t → adv_reports_list_elem_t) (i : nat)
    (st : adv_table_t) : adv_table_t :=
  st <| g_arr_of_adv_reports := alter f i (g_arr_of_adv_reports st) |>.

Definition set_report (f : adv_report_t → adv_report_t) (e : adv_reports_list_elem_t)
    : adv_reports_list_elem_t :=
  e <| adv_report := f (adv_report e) |>.

(** [STAILQ_REMOVE] / [TAILQ_REMOVE]: unlinking an element that is not linked
    dereferences a null or stale pointer. *)
Definition queue_remove (i : nat) (l : list nat) : option (list nat) :=
  if decide (i ∈ l) then Some (filter (λ j, j ≠ i) l) else None.

(** ** Initialisation *)

Definition zero_report : adv_report_t :=
  AdvReport 0 0 (replicate 6 0) 0 0 0 0 false 0 0 (replicate 48 0).

Definition zero_elem : adv_reports_list_elem_t := AdvElem false false false false zero_report.

Definition init_state : adv_table_t :=
  AdvTableState (replicate MAX_ADVS_TABLE zero_elem) (replicate (Z.to_nat ADV_TABLE_HASH_SIZE) [])
    [] [] [] (seq 0 MAX_ADVS_TABLE).

Definition adv_table_init : tprog unit :=
  emit AdvMutexCreate ;; modify (λ _, init_state).

Definition adv_table_deinit : tprog unit := emit AdvMutexDelete.

(** ** Hash table *)

Definition mac_address_is_equal (p_mac1 p_mac2 : mac_address_bin_t) : bool :=
  bool_decide (p_mac1 = p_mac2).

Definition adv_report_calc_hash (p_mac : mac_address_bin_t) : Z :=
  fold_left
    (λ hash_val i,
      Z.lor hash_val (u32 (Z.shiftl (Z.lxor (nth i p_mac 0) (nth (i + 3) p_mac 0)) (8 * Z.of_nat i))))
    (seq 0 3) 0.

Definition hash_idx (p_mac : mac_address_bin_t) : nat :=
  Z.to_nat (adv_report_calc_hash p_mac mod ADV_TABLE_HASH_SIZE).

Definition bucket (idx : nat) : tprog (list nat) := λ st,
  match g_adv_hash_table st !! idx with
  | Some l => Done (l, st, [])
  | None => Fault OutOfBounds
  end.

Fixpoint search_bucket (p_mac : mac_address_bin_t) (l : list nat) : tprog (option nat) :=
  match l with
  | [] => mret None
  | i :: l' =>
      e ← elem_at i;
      if mac_address_is_equal p_mac (tag_mac (adv_report e))
      then mret (Some i)
      else search_bucket p_mac l'
  end.

Definition adv_hash_table_search (p_mac : mac_address_bin_t) : tprog (option nat) :=
  l ← bucket (hash_idx p_mac);
  search_bucket p_mac l.

Definition set_bucket (idx : nat) (l : list nat) (st : adv_table_t) : adv_table_t :=
  st <| g_adv_hash_table := <[idx := l]> (g_adv_hash_table st) |>.

Definition adv_hash_table_add (i : nat) : tprog unit :=
  e ← elem_at i;
  let idx := hash_idx (tag_mac (adv_report e)) in
  l ← bucket idx;
  modify (set_bucket idx (l ++ [i])) ;;
  modify (alter_elem (λ e, e <| is_in_hash_table := true |>) i).

Definition adv_hash_table_remove (i : nat) : tprog unit :=
  e ← elem_at i;
  if negb (is_in_hash_table e) then skip
  else
    let idx := hash_idx (tag_mac (adv_report e)) in
    l ← bucket idx;
    match queue_remove i l with
    | None => fail NullDeref
    | Some l' =>
        modify (set_bucket idx l') ;;
        modify (alter_elem (λ e, e <| is_in_hash_table := false |>) i)
    end.

(** ** Inserting a report *)

(** [0 == memcmp(buf1, buf2, n)] for two buffers [uint8_t data_buf[ADV_DATA_MAX_LEN]]:
    comparing more bytes than a buffer has reads past its end. *)
Definition data_buf_is_equal (buf1 buf2 : list Z) (n : Z) : tprog bool :=
  if ADV_DATA_MAX_LEN <? n then fail OutOfBounds
  else mret (bool_decide (take (Z.to_nat n) buf1 = take (Z.to_nat n) buf2)).

Definition adv_table_check_if_adv_must_be_discarded (p_adv p_prev_adv : adv_report_t) : tprog bool :=
  is_same ← (if data_len p_prev_adv =? data_len p_adv
             then data_buf_is_equal (data_buf p_prev_adv) (data_buf p_adv) (data_len p_adv)
             else mret false);
  if (is_same : bool) then mret true
  else
    let is_prev_ext_adv := BLE_MAX_REGULAR_ADV_DATA_LEN <? data_len p_prev_adv in
    let is_new_ext_adv := BLE_MAX_REGULAR_ADV_DATA_LEN <? data_len p_adv in
    if is_prev_ext_adv && negb is_new_ext_adv then mret true else mret false.

(** [if (!p_elem->is_in_retransmission_listK) { STAILQ_INSERT_TAIL; flag = true; }] *)
Definition enqueue_rl (i : nat) (k : rl_id) : tprog unit :=
  e ← elem_at i;
  if negb (is_in_rl k e)
  then modify (λ st, set_rl_list k (rl_list k st ++ [i]) st) ;;
       modify (alter_elem (set_in_rl k true) i)
  else skip.

Definition hist_move_to_head (i : nat) : tprog unit := λ st,
  match queue_remove i (g_adv_reports_hist_list st) with
  | None => Fault NullDeref
  | Some l => Done (tt, st <| g_adv_reports_hist_list := i :: l |>, [])
  end.

Definition hist_last : tprog nat := λ st,
  match last (g_adv_reports_hist_list st) with
  | None => Fault NullDeref
  | Some i => Done (i, st, [])
  end.

Definition adv_table_put_unsafe (p_adv : adv_report_t) : tprog bool :=
  found ← adv_hash_table_search (tag_mac p_adv);
  '(flag_updated, i) ←
    match found with
    | None =>
        i ← hist_last;
        adv_hash_table_remove i ;;
        modify (alter_elem (set_report (λ _, p_adv)) i) ;;
        adv_hash_table_add i ;;
        mret (true, i)
    | Some i =>
        e ← elem_at i;
        must_be_discarded ← adv_table_check_if_adv_must_be_discarded p_adv (adv_report e);
        if negb must_be_discarded
        then
          let prev_counter := samples_counter (adv_report e) in
          modify (alter_elem (set_report (λ _, p_adv)) i) ;;
          modify (alter_elem (set_report (λ r, r <| samples_counter := u32 (prev_counter + 1) |>)) i) ;;
          mret (true, i)
        else
          modify (alter_elem
                    (set_report (λ r, r <| samples_counter := u32 (samples_counter r + 1) |>)) i) ;;
          mret (false, i)
    end;
  (if (flag_updated : bool)
   then
     enqueue_rl i RL1 ;;
     enqueue_rl i RL2 ;;
     enqueue_rl i RL3 ;;
     hist_move_to_head i
   else skip) ;;
  mret flag_updated.

(** Every public operation runs its body under the mutex of the table. *)
Definition with_mutex {A} (m : tprog A) : tprog A :=
  emit AdvMutexLock ;; a ← m; emit AdvMutexUnlock ;; mret a.

Definition adv_table_put (p_adv : adv_report_t) : tprog bool :=
  with_mutex (adv_table_put_unsafe p_adv).

(** ** Reading the retransmission lists *)

Definition table_put (p_reports : adv_report_table_t) (r : adv_report_t) : adv_report_table_t :=
  p_reports <| table := <[Z.to_nat (num_of_advs p_reports) := r]> (table p_reports) |>
            <| num_of_advs := u32 (num_of_advs p_reports + 1) |>.

(** The loop takes the head of the list until the list is empty; [l] is the list
    at the start of an iteration. *)
Fixpoint read_rl_loop (k : rl_id) (l : list nat) (p_reports : adv_report_table_t)
    : tprog adv_report_table_t :=
  match l with
  | [] => mret p_reports
  | i :: l' =>
      modify (set_rl_list k l') ;;
      modify (alter_elem (set_in_rl k false) i) ;;
      if Z.of_nat MAX_ADVS_TABLE <=? num_of_advs p_reports
      then mret p_reports
      else
        e ← elem_at i;
        read_rl_loop k l' (table_put p_reports (adv_report e))
  end.

Definition read_rl_and_clear (k : rl_id) (p_reports : adv_report_table_t) : tprog adv_report_table_t :=
  l ← gets (rl_list k);
  read_rl_loop k l (p_reports <| num_of_advs := 0 |>).

Definition adv_table_read_retransmission_list1_and_clear_unsafe := read_rl_and_clear RL1.
Definition adv_table_read_retransmission_list2_and_clear_unsafe := read_rl_and_clear RL2.
Definition adv_table_read_retransmission_list3_and_clear_unsafe := read_rl_and_clear RL3.

Definition adv_table_read_retransmission_list1_and_clear (p_reports : adv_report_table_t)
    : tprog adv_report_table_t :=
  with_mutex (adv_table_read_retransmission_list1_and_clear_unsafe p_reports).
Definition adv_table_read_retransmission_list2_and_clear (p_reports : adv_report_table_t)
    : tprog adv_report_table_t :=
  with_mutex (adv_table_read_retransmission_list2_and_clear_unsafe p_reports).
Definition adv_table_read_retransmission_list3_and_clear (p_reports : adv_report_table_t)
    : tprog adv_report_table_t :=
  with_mutex (adv_table_read_retransmission_list3_and_clear_unsafe p_reports).

(** The result is [None] when the function returns [false]. *)
Definition adv_table_read_retransmission_list3_head_unsafe : tprog (option adv_report_t) :=
  l ← gets (rl_list RL3);
  match l with
  | [] => mret None
  | i :: l' =>
      modify (set_rl_list RL3 l') ;;
      modify (alter_elem (set_in_rl RL3 false) i) ;;
      e ← elem_at i;
      mret (Some (adv_report e))
  end.

Definition adv_table_read_retransmission_list3_head : tprog (option adv_report_t) :=
  with_mutex adv_table_read_retransmission_list3_head_unsafe.

Definition adv_table_read_retransmission_list3_is_empty : tprog bool :=
  with_mutex (gets (λ st, match rl_list RL3 st with [] => true | _ => false end)).

(** ** History and statistics *)

(** [time_t] is a 32-bit signed integer; it meets the [uint32_t] filter as an
    unsigned one, and the counter difference is converted back to [int32_t]. *)
Definition history_stop (cur_time : Z) (flag_use_timestamps : bool) (filter : Z) (flag_use_filter : bool)
    (r : adv_report_t) : bool :=
  if flag_use_timestamps
  then flag_use_filter && (filter <? u32 (cur_time - timestamp r))
  else flag_use_filter && (i32 (u32 (timestamp r - filter)) <=? 0).

Fixpoint read_history_loop (cur_time : Z) (flag_use_timestamps : bool) (filter : Z)
    (flag_use_filter : bool) (l : list nat) (p_reports : adv_report_table_t)
    : tprog adv_report_table_t :=
  match l with
  | [] => mret p_reports
  | i :: l' =>
      e ← elem_at i;
      if Z.of_nat MAX_ADVS_TABLE <=? num_of_advs p_reports then mret p_reports
      else if data_len (adv_report e) =? 0 then mret p_reports
      else if history_stop cur_time flag_use_timestamps filter flag_use_filter (adv_report e)
      then mret p_reports
      else read_history_loop cur_time flag_use_timestamps filter flag_use_filter l'
             (table_put p_reports (adv_report e))
  end.

Definition adv_table_read_history_unsafe (p_reports : adv_report_table_t) (cur_time : Z)
    (flag_use_timestamps : bool) (filter : Z) (flag_use_filter : bool) : tprog adv_report_table_t :=
  l ← gets g_adv_reports_hist_list;
  read_history_loop cur_time flag_use_timestamps filter flag_use_filter l
    (p_reports <| num_of_advs := 0 |>).

Definition adv_table_history_read (p_reports : adv_report_table_t) (cur_time : Z)
    (flag_use_timestamps : bool) (filter : Z) (flag_use_filter : bool) : tprog adv_report_table_t :=
  with_mutex (adv_table_read_history_unsafe p_reports cur_time flag_use_timestamps filter flag_use_filter).

Fixpoint read_statistics_loop (l : list nat) (p_reports : adv_report_table_t)
    : tprog adv_report_table_t :=
  match l with
  | [] => mret p_reports
  | i :: l' =>
      e ← elem_at i;
      if Z.of_nat MAX_ADVS_TABLE <=? num_of_advs p_reports then mret p_reports
      else if timestamp (adv_report e) =? 0 then mret p_reports
      else
        modify (alter_elem (set_report (λ r, r <| samples_counter := 0 |>)) i) ;;
        read_statistics_loop l' (table_put p_reports (adv_report e))
  end.

Definition adv_table_read_statistics_unsafe (p_reports : adv_report_table_t) : tprog adv_report_table_t :=
  l ← gets g_adv_reports_hist_list;
  read_statistics_loop l (p_reports <| num_of_advs := 0 |>).

Definition adv_table_statistics_read (p_reports : adv_report_table_t) : tprog adv_report_table_t :=
  with_mutex (adv_table_read_statistics_unsafe p_reports).

(** ** Clearing *)

Fixpoint rl_clear_loop (k : rl_id) (l : list nat) : tprog unit :=
  match l with
  | [] => skip
  | i :: l' =>
      modify (set_rl_list k l') ;;
      modify (alter_elem (set_in_rl k false) i) ;;
      rl_clear_loop k l'
  end.

Definition rl_clear (k : rl_id) : tprog unit := l ← gets (rl_list k); rl_clear_loop k l.

Definition adv_retransmission_list1_clear_unsafe : tprog unit := rl_clear RL1.
Definition adv_retransmission_list2_clear_unsafe : tprog unit := rl_clear RL2.
Definition adv_retransmission_list3_clear_unsafe : tprog unit := rl_clear RL3.

Definition free_report (r : adv_report_t) : adv_report_t :=
  r <| timestamp := 0 |> <| samples_counter := 0 |> <| data_len := 0 |>.

Definition adv_table_clear : tprog unit :=
  with_mutex (
    adv_retransmission_list1_clear_unsafe ;;
    adv_retransmission_list2_clear_unsafe ;;
    adv_retransmission_list3_clear_unsafe ;;
    l ← gets g_adv_reports_hist_list;
    for_each l (λ i, modify (alter_elem (set_report free_report) i))).
