(* ===== verification/AdvTableInv.v ===== *)
(** * Well-formedness of the advertisement table

    The invariant of the linked structure of adv_table.c and the fact that every
    elementary update of the structure keeps it. *)

From S2P Require Import Prelude AdvTable.
Open Scope Z_scope.

Abbreviation arr := g_arr_of_adv_reports.

(** Element [i] is linked in the hash table under address [m]. *)
Definition live_at (a : list adv_reports_list_elem_t) (i : nat) (m : mac_address_bin_t) : Prop :=
  ∃ e, a !! i = Some e ∧ is_in_hash_table e = true ∧ tag_mac (adv_report e) = m.

(** Element [i] carries the flag of retransmission list [k]. *)
Definition flag_at (a : list adv_reports_list_elem_t) (k : rl_id) (i : nat) : Prop :=
  ∃ e, a !! i = Some e ∧ is_in_rl k e = true.

(** The buckets agree with the flags and the addresses of the elements. *)
Definition hash_ok (a : list adv_reports_list_elem_t) (h : list (list nat)) : Prop :=
  ∀ b l, h !! b = Some l → NoDup l ∧ ∀ i, i ∈ l ↔ ∃ m, live_at a i m ∧ hash_idx m = b.

(** [x] is the element, if any, that is being moved between buckets. *)
Record table_inv_x (x : option nat) (st : adv_table_t) : Prop := TableInv {
  inv_len : length (arr st) = MAX_ADVS_TABLE;
  inv_hash_len : length (g_adv_hash_table st) = Z.to_nat ADV_TABLE_HASH_SIZE;
  inv_hist : g_adv_reports_hist_list st ≡ₚ seq 0 MAX_ADVS_TABLE;
  inv_rl_nodup : ∀ k, NoDup (rl_list k st);
  inv_rl : ∀ k i, i ∈ rl_list k st ↔ flag_at (arr st) k i;
  inv_hash : hash_ok (arr st) (g_adv_hash_table st);
  inv_mac : ∀ i j m, live_at (arr st) i m → live_at (arr st) j m → i = j;
  inv_rl_live : ∀ k i, flag_at (arr st) k i → x = Some i ∨ ∃ m, live_at (arr st) i m;
}.

Abbreviation table_inv := (table_inv_x None).

(** ** Projections of updated states *)

Lemma rl_list_set k k' l st :
  rl_list k (set_rl_list k' l st) = if decide (k = k') then l else rl_list k st.
Proof. by destruct k, k'. Qed.
Lemma arr_set_rl k l st : arr (set_rl_list k l st) = arr st.
Proof. by destruct k. Qed.
Lemma hash_set_rl k l st : g_adv_hash_table (set_rl_list k l st) = g_adv_hash_table st.
Proof. by destruct k. Qed.
Lemma hist_set_rl k l st : g_adv_reports_hist_list (set_rl_list k l st) = g_adv_reports_hist_list st.
Proof. by destruct k. Qed.
Lemma rl_alter_elem k f i st : rl_list k (alter_elem f i st) = rl_list k st.
Proof. by destruct k. Qed.
Lemma rl_set_bucket k b l st : rl_list k (set_bucket b l st) = rl_list k st.
Proof. by destruct k. Qed.
Lemma rl_set_hist k l st : rl_list k (st <| g_adv_reports_hist_list := l |>) = rl_list k st.
Proof. by destruct k. Qed.
Lemma arr_alter_elem f i st : arr (alter_elem f i st) = alter f i (arr st).
Proof. done. Qed.
Lemma hist_alter_elem f i st :
  g_adv_reports_hist_list (alter_elem f i st) = g_adv_reports_hist_list st.
Proof. done. Qed.

Lemma hash_alter_elem f i st : g_adv_hash_table (alter_elem f i st) = g_adv_hash_table st.
Proof. done. Qed.

Create Rewrite HintDb table.
#[export] Hint Rewrite hash_alter_elem rl_list_set arr_set_rl hash_set_rl hist_set_rl rl_alter_elem rl_set_bucket
  rl_set_hist arr_alter_elem hist_alter_elem : table.

Lemma is_in_rl_set k k' b e :
  is_in_rl k (set_in_rl k' b e) = if decide (k = k') then b else is_in_rl k e.
Proof. by destruct k, k'. Qed.
Lemma in_hash_set_rl k b e : is_in_hash_table (set_in_rl k b e) = is_in_hash_table e.
Proof. by destruct k. Qed.
Lemma report_set_rl k b e : adv_report (set_in_rl k b e) = adv_report e.
Proof. by destruct k. Qed.
Lemma is_in_rl_set_report k f e : is_in_rl k (set_report f e) = is_in_rl k e.
Proof. by destruct k. Qed.
Lemma is_in_rl_set_hash k b e : is_in_rl k (e <| is_in_hash_table := b |>) = is_in_rl k e.
Proof. by destruct k. Qed.

#[export] Hint Rewrite is_in_rl_set in_hash_set_rl report_set_rl is_in_rl_set_report
  is_in_rl_set_hash : table.

Lemma hash_idx_lt m : (hash_idx m < Z.to_nat ADV_TABLE_HASH_SIZE)%nat.
Proof.
  unfold hash_idx, ADV_TABLE_HASH_SIZE.
  pose proof (Z.mod_pos_bound (adv_report_calc_hash m) 101 ltac:(lia)). lia.
Qed.

(** ** The predicates under [alter] *)

Lemma live_at_alter f j a i m :
  live_at (alter f j a) i m ↔
  (i ≠ j ∧ live_at a i m) ∨
  (i = j ∧ ∃ e, a !! j = Some e ∧ is_in_hash_table (f e) = true ∧ tag_mac (adv_report (f e)) = m).
Proof.
  unfold live_at. destruct (decide (i = j)) as [->|Hij].
  - rewrite list_lookup_alter_eq. split.
    + intros (e & He & ?). apply fmap_Some in He as (e0 & ? & ->). eauto 10.
    + intros [[? _]|(_ & e & He & ?)]; [done|]. exists (f e). by rewrite He.
  - rewrite list_lookup_alter_ne by done. naive_solver.
Qed.

Lemma flag_at_alter f j a k i :
  flag_at (alter f j a) k i ↔
  (i ≠ j ∧ flag_at a k i) ∨ (i = j ∧ ∃ e, a !! j = Some e ∧ is_in_rl k (f e) = true).
Proof.
  unfold flag_at. destruct (decide (i = j)) as [->|Hij].
  - rewrite list_lookup_alter_eq. split.
    + intros (e & He & ?). apply fmap_Some in He as (e0 & ? & ->). eauto 10.
    + intros [[? _]|(_ & e & He & ?)]; [done|]. exists (f e). by rewrite He.
  - rewrite list_lookup_alter_ne by done. naive_solver.
Qed.

(** An update that keeps the hash flag and the address keeps [live_at]. *)
Lemma live_at_alter_same f j a i m :
  (∀ e, a !! j = Some e → is_in_hash_table (f e) = is_in_hash_table e ∧
        tag_mac (adv_report (f e)) = tag_mac (adv_report e)) →
  live_at (alter f j a) i m ↔ live_at a i m.
Proof.
  intros Hf. rewrite live_at_alter. unfold live_at.
  split.
  - intros [[_ ?]|(-> & e & He & Hh & Hm)]; [done|].
    destruct (Hf e He) as [E1 E2]. rewrite E1 in Hh. rewrite E2 in Hm. eauto.
  - intros (e & He & Hh & Hm). destruct (decide (i = j)) as [->|]; [right|left; eauto 10].
    split; [done|]. exists e. destruct (Hf e He) as [E1 E2]. by rewrite E1, E2.
Qed.

Lemma flag_at_alter_same f j a k i :
  (∀ e, a !! j = Some e → is_in_rl k (f e) = is_in_rl k e) →
  flag_at (alter f j a) k i ↔ flag_at a k i.
Proof.
  intros Hf. rewrite flag_at_alter. unfold flag_at. split.
  - intros [[_ ?]|(-> & e & He & Hh)]; [done|]. rewrite (Hf e He) in Hh. eauto.
  - intros (e & He & Hh). destruct (decide (i = j)) as [->|]; [right|left; eauto].
    split; [done|]. exists e. by rewrite (Hf e He).
Qed.

Lemma live_at_fun a i m m' : live_at a i m → live_at a i m' → m = m'.
Proof. intros (e & He & _ & <-) (e' & He' & _ & <-). by simplify_eq. Qed.

(** ** Elementary updates keep the invariant *)

Section inv.
Context (x : option nat) (st : adv_table_t) (Hinv : table_inv_x x st).

Lemma inv_elem i : (i < MAX_ADVS_TABLE)%nat → is_Some (arr st !! i).
Proof. intros ?. apply lookup_lt_is_Some. by rewrite (inv_len x). Qed.

Lemma inv_hist_in i : i ∈ g_adv_reports_hist_list st ↔ (i < MAX_ADVS_TABLE)%nat.
Proof. rewrite (inv_hist x st Hinv), elem_of_seq. lia. Qed.

Lemma inv_hist_nodup : NoDup (g_adv_reports_hist_list st).
Proof. rewrite (inv_hist x st Hinv). apply NoDup_seq. Qed.

Lemma inv_live_lt i m : live_at (arr st) i m → (i < MAX_ADVS_TABLE)%nat.
Proof. intros (e & He & _). apply lookup_lt_Some in He. by rewrite (inv_len x) in He. Qed.

Lemma inv_bucket m : is_Some (g_adv_hash_table st !! hash_idx m).
Proof. apply lookup_lt_is_Some. rewrite (inv_hash_len x) by done. apply hash_idx_lt. Qed.

(** Updates of an element that keep its address and its flags. *)
Lemma inv_alter_report f i :
  (∀ e, arr st !! i = Some e → tag_mac (f (adv_report e)) = tag_mac (adv_report e)) →
  table_inv_x x (alter_elem (set_report f) i st).
Proof.
  intros Hf.
  assert (Hl : ∀ j m, live_at (arr (alter_elem (set_report f) i st)) j m ↔ live_at (arr st) j m).
  { intros j m. apply live_at_alter_same. intros e He. split; [done|by apply Hf]. }
  assert (Hk : ∀ k j, flag_at (arr (alter_elem (set_report f) i st)) k j ↔ flag_at (arr st) k j).
  { intros k j. apply flag_at_alter_same. intros e _. apply is_in_rl_set_report. }
  destruct Hinv. split; autorewrite with table.
  all: try (intros; rewrite ?rl_alter_elem; by eauto).
  - by rewrite length_alter.
  - intros k j. rewrite rl_alter_elem, Hk. done.
  - intros b l Hb. destruct (inv_hash0 b l Hb) as [? Hl']. split; [done|].
    intros j. rewrite Hl'. by setoid_rewrite Hl.
  - intros j j' m. setoid_rewrite Hl. eauto.
  - intros k j. setoid_rewrite Hk. setoid_rewrite Hl. eauto.
Qed.

(** Taking the head of a retransmission list. *)
Lemma inv_dequeue k i l :
  rl_list k st = i :: l →
  table_inv_x x (alter_elem (set_in_rl k false) i (set_rl_list k l st)).
Proof.
  intros Hk. set (st' := alter_elem _ _ _).
  assert (Ha : arr st' = alter (set_in_rl k false) i (arr st)).
  { unfold st'. by autorewrite with table. }
  assert (Hl : ∀ j m, live_at (arr st') j m ↔ live_at (arr st) j m).
  { intros j m. rewrite Ha. apply live_at_alter_same. intros e _. by autorewrite with table. }
  assert (Hf : ∀ k' j, flag_at (arr st') k' j ↔ flag_at (arr st) k' j ∧ ¬ (k' = k ∧ j = i)).
  { intros k' j. rewrite Ha, flag_at_alter. setoid_rewrite is_in_rl_set. unfold flag_at.
    destruct (decide (k' = k)) as [->|]; [naive_solver|].
    destruct (decide (j = i)) as [->|]; naive_solver. }
  pose proof (inv_rl_nodup x st Hinv k) as Hnd. rewrite Hk in Hnd. apply NoDup_cons in Hnd as [Hni Hnd].
  destruct Hinv. split.
  - rewrite Ha. by rewrite length_alter.
  - unfold st'. by autorewrite with table.
  - unfold st'. by autorewrite with table.
  - intros k'. unfold st'. autorewrite with table. case_decide; [done|eauto].
  - intros k' j. rewrite Hf, <- inv_rl0. unfold st'. autorewrite with table.
    case_decide as Hkk; [subst k'|naive_solver]. rewrite Hk, elem_of_cons. naive_solver.
  - intros b l0 Hb. unfold st' in Hb. autorewrite with table in Hb.
    destruct (inv_hash0 b l0 Hb) as [? Hl']. split; [done|].
    intros j. rewrite Hl'. by setoid_rewrite Hl.
  - intros j j' m. setoid_rewrite Hl. eauto.
  - intros k' j. setoid_rewrite Hf. setoid_rewrite Hl. intros [? _]. eauto.
Qed.

(** Appending a live element to a retransmission list. *)
Lemma inv_enqueue k i m e :
  live_at (arr st) i m → arr st !! i = Some e → is_in_rl k e = false →
  table_inv_x x (alter_elem (set_in_rl k true) i (set_rl_list k (rl_list k st ++ [i]) st)).
Proof.
  intros Hlive He Hfl. set (st' := alter_elem _ _ _).
  assert (Ha : arr st' = alter (set_in_rl k true) i (arr st)).
  { unfold st'. by autorewrite with table. }
  assert (Hl : ∀ j m, live_at (arr st') j m ↔ live_at (arr st) j m).
  { intros j m'. rewrite Ha. apply live_at_alter_same. intros e' _. by autorewrite with table. }
  assert (Hf : ∀ k' j, flag_at (arr st') k' j ↔ flag_at (arr st) k' j ∨ (k' = k ∧ j = i)).
  { intros k' j. rewrite Ha, flag_at_alter. setoid_rewrite is_in_rl_set. unfold flag_at.
    destruct (decide (k' = k)) as [->|]; destruct (decide (j = i)) as [->|]; naive_solver. }
  assert (Hni : i ∉ rl_list k st).
  { rewrite (inv_rl x st Hinv). intros (e' & ? & ?). simplify_eq. congruence. }
  destruct Hinv. split.
  - rewrite Ha. by rewrite length_alter.
  - unfold st'. by autorewrite with table.
  - unfold st'. by autorewrite with table.
  - intros k'. unfold st'. autorewrite with table. case_decide; [|eauto].
    apply NoDup_app. split_and!; [eauto| |apply NoDup_singleton]. set_solver.
  - intros k' j. rewrite Hf, <- inv_rl0. unfold st'. autorewrite with table.
    case_decide as Hkk; [subst k'|naive_solver]. rewrite elem_of_app, list_elem_of_singleton.
    naive_solver.
  - intros b l0 Hb. unfold st' in Hb. autorewrite with table in Hb.
    destruct (inv_hash0 b l0 Hb) as [? Hl']. split; [done|].
    intros j. rewrite Hl'. by setoid_rewrite Hl.
  - intros j j' m'. setoid_rewrite Hl. eauto.
  - intros k' j. setoid_rewrite Hf. setoid_rewrite Hl. intros [?|[-> ->]]; eauto.
Qed.

Lemma inv_set_hist l :
  l ≡ₚ g_adv_reports_hist_list st → table_inv_x x (st <| g_adv_reports_hist_list := l |>).
Proof. intros Hl. destruct Hinv. split; try done. cbn. by rewrite Hl. Qed.

(** Changing the report of an element that is not in the hash table. *)
Lemma inv_alter_unlinked f i :
  (∀ m, ¬ live_at (arr st) i m) → table_inv_x x (alter_elem (set_report f) i st).
Proof.
  intros Hnl.
  assert (Hl : ∀ j m, live_at (arr (alter_elem (set_report f) i st)) j m ↔ live_at (arr st) j m).
  { intros j m. rewrite arr_alter_elem, live_at_alter. split; [|].
    - intros [[_ ?]|(-> & e & He & Hh & _)]; [done|]. cbn in Hh. destruct (Hnl (tag_mac (adv_report e))).
      exists e. done.
    - intros Hj. left. split; [|done]. intros ->. by destruct (Hnl m). }
  assert (Hk : ∀ k j, flag_at (arr (alter_elem (set_report f) i st)) k j ↔ flag_at (arr st) k j).
  { intros k j. apply flag_at_alter_same. intros e _. apply is_in_rl_set_report. }
  destruct Hinv. split; try done.
  - by rewrite arr_alter_elem, length_alter.
  - intros k j. rewrite rl_alter_elem, Hk. done.
  - intros b l Hb. destruct (inv_hash0 b l Hb) as [? Hl']. split; [done|].
    intros j. rewrite Hl'. by setoid_rewrite Hl.
  - intros j j' m. setoid_rewrite Hl. eauto.
  - intros k j. setoid_rewrite Hk. setoid_rewrite Hl. eauto.
Qed.
End inv.

(** ** The hash table operations *)

Section hash_ops.
Context (st : adv_table_t).

(** The optimised lookup is the search among the linked elements. *)
Lemma search_bucket_run mac l :
  (∀ i, i ∈ l → is_Some (arr st !! i)) →
  ∃ o, run (search_bucket mac l) st o st [] ∧
    match o with
    | Some i => i ∈ l ∧ ∃ e, arr st !! i = Some e ∧ tag_mac (adv_report e) = mac
    | None => ∀ i e, i ∈ l → arr st !! i = Some e → tag_mac (adv_report e) ≠ mac
    end.
Proof.
  induction l as [|i l IH]; intros Hl; simpl.
  - exists None. split; [apply run_ret|]. set_solver.
  - destruct (Hl i ltac:(set_solver)) as [e He].
    assert (Hel : run (elem_at i) st e st []) by (unfold run, elem_at; by rewrite He).
    destruct (mac_address_is_equal mac (tag_mac (adv_report e))) eqn:Hm;
      unfold mac_address_is_equal in Hm.
    + apply bool_decide_eq_true in Hm. exists (Some i). split.
      * eapply run_bind_silent; [exact Hel|]. unfold mac_address_is_equal.
        rewrite bool_decide_true by done. apply run_ret.
      * set_solver.
    + apply bool_decide_eq_false in Hm.
      destruct IH as (o & Ho & Hspec); [set_solver|]. exists o. split.
      * eapply run_bind_silent; [exact Hel|]. unfold mac_address_is_equal.
        rewrite bool_decide_false by done. exact Ho.
      * destruct o; [set_solver|]. intros j e' Hj He'.
        apply elem_of_cons in Hj as [->|Hj]; [|eauto]. simplify_eq. congruence.
Qed.

Lemma hash_search_run x mac :
  table_inv_x x st →
  ∃ o, run (adv_hash_table_search mac) st o st [] ∧
    match o with
    | Some i => live_at (arr st) i mac
    | None => ∀ i, ¬ live_at (arr st) i mac
    end.
Proof.
  intros Hinv. destruct (inv_bucket x st Hinv mac) as [l Hl].
  destruct (inv_hash x st Hinv _ _ Hl) as [_ Hin].
  destruct (search_bucket_run mac l) as (o & Ho & Hspec).
  { intros i Hi. apply Hin in Hi as (m & (e & He & _) & _). eauto. }
  exists o. split.
  { unfold adv_hash_table_search. eapply run_bind_silent; [|exact Ho].
    unfold run, bucket. by rewrite Hl. }
  destruct o as [i|].
  - destruct Hspec as (Hi & e & He & Hm). apply Hin in Hi as (m & (e' & He' & Hh & Hm') & _).
    simplify_eq. by exists e'.
  - intros i Hlive. pose proof Hlive as (e & He & _ & Hm).
    refine (Hspec i e _ He Hm). apply Hin. eauto.
Qed.

Lemma elem_at_run i e : arr st !! i = Some e → run (elem_at i) st e st [].
Proof. intros He. unfold run, elem_at. by rewrite He. Qed.

Lemma bucket_run m l : g_adv_hash_table st !! hash_idx m = Some l → run (bucket (hash_idx m)) st l st [].
Proof. intros Hl. unfold run, bucket. by rewrite Hl. Qed.
End hash_ops.
#[export] Hint Resolve elem_at_run bucket_run : run.

Abbreviation set_linked b := (λ e : adv_reports_list_elem_t, e <| is_in_hash_table := b |>).

Lemma live_at_set_linked b i a j m :
  live_at (alter (set_linked b) i a) j m ↔
  (j ≠ i ∧ live_at a j m) ∨ (j = i ∧ b = true ∧ ∃ e, a !! i = Some e ∧ tag_mac (adv_report e) = m).
Proof. rewrite live_at_alter. naive_solver. Qed.

Lemma flag_at_set_linked b i a k j : flag_at (alter (set_linked b) i a) k j ↔ flag_at a k j.
Proof. apply flag_at_alter_same. intros e _. apply is_in_rl_set_hash. Qed.

(** Changing one bucket together with the link flag of one element. *)
Lemma inv_relink x y st i b idx l' :
  table_inv_x x st →
  hash_ok (alter (set_linked b) i (arr st)) (<[idx := l']> (g_adv_hash_table st)) →
  (∀ j m, live_at (alter (set_linked b) i (arr st)) i m →
          live_at (alter (set_linked b) i (arr st)) j m → j = i) →
  (∀ k j, flag_at (arr st) k j →
     y = Some j ∨ ∃ m, live_at (alter (set_linked b) i (arr st)) j m) →
  table_inv_x y (alter_elem (set_linked b) i (set_bucket idx l' st)).
Proof.
  intros Hinv Hh Hm Hrl. destruct Hinv. split; try done.
  - by rewrite arr_alter_elem, length_alter.
  - cbn. by rewrite length_insert.
  - intros k j. rewrite rl_alter_elem, rl_set_bucket, arr_alter_elem, flag_at_set_linked. done.
  - intros j j' m Hj Hj'. rewrite arr_alter_elem in Hj, Hj'.
    destruct (decide (j = i)) as [->|Hne]; [symmetry; eauto|].
    destruct (decide (j' = i)) as [->|Hne']; [eauto|].
    apply live_at_set_linked in Hj as [[_ Hj]|[? _]]; [|done].
    apply live_at_set_linked in Hj' as [[_ Hj']|[? _]]; [|done]. eauto.
  - intros k j. rewrite arr_alter_elem, flag_at_set_linked. apply Hrl.
Qed.

Lemma hash_remove_run st i e :
  table_inv st → arr st !! i = Some e →
  ∃ st1, run (adv_hash_table_remove i) st tt st1 [] ∧ table_inv_x (Some i) st1 ∧
    arr st1 = alter (set_linked false) i (arr st) ∧
    g_adv_reports_hist_list st1 = g_adv_reports_hist_list st ∧
    ∀ k, rl_list k st1 = rl_list k st.
Proof.
  intros Hinv He. unfold adv_hash_table_remove.
  destruct (is_in_hash_table e) eqn:Hlink; cycle 1.
  { exists st. split_and!; try done.
    - run_step. by rewrite Hlink.
    - destruct Hinv; split; try done. naive_solver.
    - symmetry. apply list_alter_same. intros e' He'. simplify_eq. by destruct e; cbn in *; subst. }
  set (m := tag_mac (adv_report e)).
  assert (Hlive : live_at (arr st) i m) by by exists e.
  destruct (inv_bucket None st Hinv m) as [l Hl].
  destruct (inv_hash None st Hinv _ _ Hl) as [Hnd Hin].
  assert (Hil : i ∈ l) by (apply Hin; eauto).
  eexists. split_and!.
  - run_step. rewrite Hlink. cbn [negb]. fold m. run_step.
    unfold queue_remove. rewrite decide_True by done. run_step. apply run_modify.
  - apply (inv_relink None); [done| | |].
    + intros b l' Hb. destruct (decide (b = hash_idx m)) as [->|Hne].
      * rewrite list_lookup_insert_eq in Hb by (by eapply lookup_lt_Some).
        simplify_eq. split; [by apply NoDup_filter|]. intros j.
        rewrite list_elem_of_filter, Hin. setoid_rewrite live_at_set_linked. naive_solver.
      * rewrite list_lookup_insert_ne in Hb by done.
        destruct (inv_hash None st Hinv _ _ Hb) as [? Hin']. split; [done|]. intros j.
        rewrite Hin'. setoid_rewrite live_at_set_linked. split; [|naive_solver].
        intros (m' & Hj & <-). exists m'. split; [left|done]. split; [|done]. intros ->.
        by rewrite (live_at_fun _ _ _ _ Hlive Hj) in Hne.
    + intros j m'. rewrite live_at_set_linked. naive_solver.
    + intros k j Hf. setoid_rewrite live_at_set_linked.
      destruct (inv_rl_live None st Hinv k j Hf) as [?|[m' ?]]; [done|].
      destruct (decide (j = i)) as [->|]; [by left|]. right. exists m'. by left.
  - done.
  - done.
  - intros k. by rewrite rl_alter_elem, rl_set_bucket.
Qed.

Lemma hash_add_run st i e :
  table_inv_x (Some i) st → arr st !! i = Some e →
  is_in_hash_table e = false → (∀ j, ¬ live_at (arr st) j (tag_mac (adv_report e))) →
  ∃ st1, run (adv_hash_table_add i) st tt st1 [] ∧ table_inv st1 ∧
    arr st1 = alter (set_linked true) i (arr st) ∧
    g_adv_reports_hist_list st1 = g_adv_reports_hist_list st ∧
    ∀ k, rl_list k st1 = rl_list k st.
Proof.
  intros Hinv He Hlink Hfresh. unfold adv_hash_table_add.
  set (m := tag_mac (adv_report e)) in *.
  assert (Hnl : ∀ m', ¬ live_at (arr st) i m').
  { intros m' (e' & ? & ? & _). simplify_eq. congruence. }
  destruct (inv_bucket _ st Hinv m) as [l Hl].
  destruct (inv_hash _ st Hinv _ _ Hl) as [Hnd Hin].
  assert (Hil : i ∉ l).
  { rewrite Hin. intros (m' & Hc & _). by apply Hnl in Hc. }
  eexists. split_and!.
  - run_step. fold m. run_step. run_step. apply run_modify.
  - apply (inv_relink (Some i)); [done| | |].
    + intros b l' Hb. destruct (decide (b = hash_idx m)) as [->|Hne].
      * rewrite list_lookup_insert_eq in Hb by (by eapply lookup_lt_Some).
        simplify_eq. split.
        { apply NoDup_app. split_and!; [done|set_solver|apply NoDup_singleton]. }
        intros j. rewrite elem_of_app, list_elem_of_singleton, Hin.
        setoid_rewrite live_at_set_linked. split.
        { intros [(m' & Hj & Hb)| ->].
          - exists m'. split; [left|done]. split; [|done]. intros ->. by destruct (Hnl m').
          - exists m. split; [right|done]. eauto. }
        naive_solver.
      * rewrite list_lookup_insert_ne in Hb by done.
        destruct (inv_hash _ st Hinv _ _ Hb) as [? Hin']. split; [done|]. intros j.
        rewrite Hin'. setoid_rewrite live_at_set_linked. split.
        { intros (m' & Hj & Hb'). exists m'. split; [left|done]. split; [|done]. intros ->.
          by destruct (Hnl m'). }
        intros (m' & [[_ ?]|(-> & _ & e' & ? & <-)] & <-); [eauto|].
        by simplify_eq.
    + intros j m'. rewrite !live_at_set_linked.
      intros [[? _]|(_ & _ & e' & He' & <-)]; [done|]. simplify_eq.
      intros [[_ Hj]|[? _]]; [|done]. by destruct (Hfresh j).
    + intros k j Hf. setoid_rewrite live_at_set_linked.
      destruct (decide (j = i)) as [->|]; [right; exists m; right; eauto|].
      destruct (inv_rl_live _ st Hinv k j Hf) as [?|[m' ?]]; [naive_solver|]. eauto 10.
  - done.
  - done.
  - intros k. by rewrite rl_alter_elem, rl_set_bucket.
Qed.
