(* ===== verification/AdvTableSpec.v ===== *)
(** * Specification of the advertisement table and refinement

    The specification forgets the hash table and the link flags: a state is the
    list of slots in order of last update (most recent first) and, per consumer,
    the queue of slots whose report has not been taken yet. *)

From S2P Require Import Prelude AdvTable AdvTableInv.
Open Scope Z_scope.

(** ** The specification *)

Record spec_entry := SpecEntry {
  se_id : nat;
  se_live : bool;
  se_report : adv_report_t;
}.

Record spec_state := SpecState {
  s_hist : list spec_entry;
  s_pending : rl_id → list nat;
}.

(** Two states are the same when their queues agree pointwise. *)
#[export] Instance spec_state_equiv : Equiv spec_state := λ s1 s2,
  s_hist s1 = s_hist s2 ∧ ∀ k, s_pending s1 k = s_pending s2 k.

#[export] Instance spec_state_equivalence : Equivalence (≡@{spec_state}).
Proof.
  split.
  - by intros s.
  - by intros s1 s2 [? ?].
  - intros s1 s2 s3 [E1 F1] [E2 F2]. split; [congruence|]. intros k. by rewrite F1.
Qed.

(** Appending to a queue that holds each slot at most once. *)
Definition pend_push (i : nat) (l : list nat) : list nat := if decide (i ∈ l) then l else l ++ [i].

(** Put a slot first in the history and make it pending for every consumer. *)
Definition spec_touch (e : spec_entry) (s : spec_state) : spec_state :=
  SpecState (e :: filter (λ e', se_id e' ≠ se_id e) (s_hist s))
            (λ k, pend_push (se_id e) (s_pending s k)).

Definition spec_alter (i : nat) (f : adv_report_t → adv_report_t) (s : spec_state) : spec_state :=
  SpecState
    ((λ e, if decide (se_id e = i) then SpecEntry i (se_live e) (f (se_report e)) else e) <$> s_hist s)
    (s_pending s).

Definition spec_find (mac : mac_address_bin_t) (l : list spec_entry) : option spec_entry :=
  snd <$> list_find (λ e, se_live e = true ∧ tag_mac (se_report e) = mac) l.

Definition bump (r : adv_report_t) : adv_report_t :=
  r <| samples_counter := u32 (samples_counter r + 1) |>.

(** The bytes of an advertisement. *)
Definition payload (r : adv_report_t) : list Z := take (Z.to_nat (data_len r)) (data_buf r).

(** A report brings nothing new if it repeats the bytes of the previous one, or if
    it is a regular advertisement after an extended one. *)
Definition adds_nothing (r prev : adv_report_t) : bool :=
  bool_decide (data_len prev = data_len r ∧ payload prev = payload r) ||
  ((31 <? data_len prev) && (data_len r <=? 31)).

Definition spec_put (r : adv_report_t) (s : spec_state) : bool * spec_state :=
  match spec_find (tag_mac r) (s_hist s) with
  | Some e =>
      if adds_nothing r (se_report e)
      then (false, spec_alter (se_id e) bump s)
      else (true, spec_touch
                    (SpecEntry (se_id e) true
                       (r <| samples_counter := u32 (samples_counter (se_report e) + 1) |>)) s)
  | None =>
      match last (s_hist s) with
      | Some e => (true, spec_touch (SpecEntry (se_id e) true r) s)
      | None => (false, s)
      end
  end.

#[export] Instance spec_touch_proper : Proper ((=) ==> (≡) ==> (≡)) spec_touch.
Proof.
  intros e ? <- s1 s2 [E F]. unfold spec_touch. split; cbn; [by rewrite E|]. intros k. by rewrite F.
Qed.

#[export] Instance spec_alter_proper : Proper ((=) ==> (=) ==> (≡) ==> (≡)) spec_alter.
Proof. intros i ? <- f ? <- s1 s2 [E F]. unfold spec_alter. split; cbn; [by rewrite E|done]. Qed.

(** ** Abstraction *)

Definition eview (e : adv_reports_list_elem_t) : bool * adv_report_t :=
  (is_in_hash_table e, adv_report e).

Definition entry_of (a : list adv_reports_list_elem_t) (i : nat) : option spec_entry :=
  (λ v, SpecEntry i v.1 v.2) <$> (eview <$> a !! i).

Definition entries (a : list adv_reports_list_elem_t) (l : list nat) : list spec_entry :=
  omap (entry_of a) l.
#[global] Arguments entries : simpl never.

Definition absr (st : adv_table_t) : spec_state :=
  SpecState (entries (arr st) (g_adv_reports_hist_list st)) (λ k, rl_list k st).

(** Two arrays that show the same links and reports. *)
Definition same_view (a a' : list adv_reports_list_elem_t) : Prop :=
  ∀ i, eview <$> a !! i = eview <$> a' !! i.

#[export] Instance same_view_equivalence : Equivalence same_view.
Proof.
  split; [by intros a i|by intros a a' H i|]. intros a b c H1 H2 i. by rewrite H1.
Qed.

#[export] Instance entry_of_proper : Proper (same_view ==> (=) ==> (=)) entry_of.
Proof. intros a a' Ha i ? <-. unfold entry_of. by rewrite Ha. Qed.

#[export] Instance entries_proper : Proper (same_view ==> (=) ==> (=)) entries.
Proof.
  intros a a' Ha l ? <-. unfold entries. induction l as [|i l IH]; [done|]. cbn.
  rewrite (entry_of_proper a a' Ha i i eq_refl). by rewrite IH.
Qed.

Lemma live_at_view a a' i m : same_view a a' → live_at a i m → live_at a' i m.
Proof.
  intros Hv (e1 & E1 & Hh & Hm). specialize (Hv i). rewrite E1 in Hv.
  destruct (a' !! i) as [e2|] eqn:E2; [|done]. cbn in Hv. injection Hv as V1 V2.
  exists e2. split; [done|]. by rewrite <- V1, <- V2.
Qed.

Lemma entry_of_id a i e : entry_of a i = Some e → se_id e = i.
Proof. unfold entry_of. destruct (a !! i); cbn; [|done]. by intros [= <-]. Qed.

Lemma entries_in a l e : e ∈ entries a l ↔ se_id e ∈ l ∧ entry_of a (se_id e) = Some e.
Proof.
  unfold entries. rewrite list_elem_of_omap. split.
  - intros (i & Hi & He). pose proof (entry_of_id _ _ _ He) as ->. done.
  - intros [? ?]. eauto.
Qed.

Lemma entries_cons a i l :
  entries a (i :: l) = match entry_of a i with Some e => e :: entries a l | None => entries a l end.
Proof. done. Qed.

Lemma entries_filter a l i :
  entries a (filter (λ j, j ≠ i) l) = filter (λ e, se_id e ≠ i) (entries a l).
Proof.
  induction l as [|j l IH]; [done|]. rewrite filter_cons, entries_cons.
  destruct (entry_of a j) as [e|] eqn:He.
  - rewrite filter_cons, (entry_of_id _ _ _ He).
    case_decide; [by rewrite entries_cons, He, IH|done].
  - case_decide; [by rewrite entries_cons, He|done].
Qed.

Lemma entry_of_alter f j a i :
  entry_of (alter f j a) i =
    if decide (i = j) then (λ e, SpecEntry i (eview (f e)).1 (eview (f e)).2) <$> a !! i
    else entry_of a i.
Proof.
  unfold entry_of. case_decide as Hd.
  - subst j. rewrite list_lookup_alter_eq. by destruct (a !! i).
  - by rewrite list_lookup_alter_ne.
Qed.

Lemma entries_alter_out f j a l : j ∉ l → entries (alter f j a) l = entries a l.
Proof.
  induction l as [|i l IH]; intros Hj; [done|]. rewrite !entries_cons, entry_of_alter.
  rewrite decide_False by set_solver. by rewrite IH by set_solver.
Qed.

Lemma entries_alter_report f j a l :
  entries (alter (set_report f) j a) l =
    (λ e, if decide (se_id e = j) then SpecEntry j (se_live e) (f (se_report e)) else e) <$> entries a l.
Proof.
  induction l as [|i l IH]; [done|]. rewrite !entries_cons, entry_of_alter, IH.
  unfold entry_of. case_decide as Hd.
  - subst j. destruct (a !! i); cbn; [|done]. by rewrite decide_True.
  - destruct (a !! i); cbn; [|done]. by rewrite decide_False.
Qed.

(** ** Lookup in the abstract state *)

Section find.
Context (st : adv_table_t) (Hinv : table_inv st).

Lemma spec_find_live i m :
  live_at (arr st) i m →
  ∃ e, arr st !! i = Some e ∧
    spec_find m (s_hist (absr st)) = Some (SpecEntry i true (adv_report e)).
Proof.
  intros Hlive. pose proof Hlive as (e & He & Hl & Hm). exists e. split; [done|].
  unfold spec_find. cbn.
  assert (Hin : SpecEntry i true (adv_report e) ∈ entries (arr st) (g_adv_reports_hist_list st)).
  { apply entries_in. cbn. rewrite (inv_hist_in None st Hinv). split; [by eapply inv_live_lt|].
    unfold entry_of. rewrite He. cbn. by rewrite Hl. }
  destruct (list_find_elem_of (λ e, se_live e = true ∧ tag_mac (se_report e) = m) _ _ Hin)
    as [[n e'] Hf]; [done|].
  rewrite Hf. cbn. f_equal. apply list_find_Some in Hf as (Hlk & [Hl' Hm'] & _).
  apply list_elem_of_lookup_2, entries_in in Hlk as [_ Heo].
  unfold entry_of in Heo. destruct (arr st !! se_id e') as [x|] eqn:Hx; [|done]. cbn in Heo.
  assert (se_id e' = i) as Hid.
  { eapply (inv_mac _ st Hinv _ _ m); [|done]. exists x. split; [done|].
    destruct e'; cbn in *. by simplify_eq. }
  destruct e'; cbn in *. simplify_eq. congruence.
Qed.

Lemma spec_find_none m :
  (∀ i, ¬ live_at (arr st) i m) → spec_find m (s_hist (absr st)) = None.
Proof.
  intros Hn. unfold spec_find. cbn.
  rewrite (proj2 (list_find_None (λ e, se_live e = true ∧ tag_mac (se_report e) = m)
    (entries (arr st) (g_adv_reports_hist_list st)))); [done|]. apply Forall_forall.
  intros e [_ He]%entries_in [Hl Hm]. unfold entry_of in He.
  destruct (arr st !! se_id e) as [x|] eqn:Hx; [|done]. cbn in He.
  apply (Hn (se_id e)). exists x. destruct e; cbn in *. by simplify_eq.
Qed.
End find.

(** ** [adv_table_put] refines [spec_put] *)

Lemma entries_ext_except a a' i l :
  (∀ j, j ≠ i → eview <$> a !! j = eview <$> a' !! j) →
  entries a (filter (λ j, j ≠ i) l) = entries a' (filter (λ j, j ≠ i) l).
Proof.
  intros Hv. induction l as [|j l IH]; [done|]. rewrite filter_cons. case_decide; [|done].
  rewrite !entries_cons, IH. unfold entry_of. by rewrite Hv.
Qed.

Lemma spec_touch_ext i b r st st' :
  (∀ j, j ≠ i → eview <$> arr st !! j = eview <$> arr st' !! j) →
  g_adv_reports_hist_list st = g_adv_reports_hist_list st' →
  (∀ k, rl_list k st = rl_list k st') →
  spec_touch (SpecEntry i b r) (absr st) ≡ spec_touch (SpecEntry i b r) (absr st').
Proof.
  intros Hv Hh Hk. split; cbn.
  - f_equal. rewrite <- !entries_filter, Hh. by apply entries_ext_except.
  - intros k. by rewrite Hk.
Qed.

Lemma enqueue_run st i k m :
  table_inv st → live_at (arr st) i m →
  ∃ st', run (enqueue_rl i k) st tt st' [] ∧ table_inv st' ∧ same_view (arr st) (arr st') ∧
    g_adv_reports_hist_list st' = g_adv_reports_hist_list st ∧
    ∀ k', rl_list k' st' = if decide (k' = k) then pend_push i (rl_list k st) else rl_list k' st.
Proof.
  intros Hinv Hlive. pose proof Hlive as (e & He & _). unfold enqueue_rl.
  destruct (is_in_rl k e) eqn:Hf.
  - exists st. split_and!; try done.
    + run_step. rewrite Hf. apply run_skip.
    + intros k'. case_decide; [subst k'|done]. unfold pend_push. rewrite decide_True; [done|].
      rewrite (inv_rl None st Hinv). by exists e.
  - eexists. split_and!.
    + run_step. rewrite Hf. cbn [negb]. run_step. apply run_modify.
    + by eapply inv_enqueue.
    + intros j. rewrite arr_alter_elem, arr_set_rl.
      destruct (decide (j = i)) as [->|]; [|by rewrite list_lookup_alter_ne].
      rewrite list_lookup_alter_eq, He. cbn. unfold eview.
      by rewrite in_hash_set_rl, report_set_rl.
    + by rewrite hist_alter_elem, hist_set_rl.
    + intros k'. rewrite rl_alter_elem, rl_list_set. case_decide; [|done].
      unfold pend_push. rewrite decide_False; [done|].
      rewrite (inv_rl None st Hinv). intros (e' & ? & ?). simplify_eq. congruence.
Qed.

Lemma queue_remove_run i st :
  table_inv st → (i < MAX_ADVS_TABLE)%nat →
  run (hist_move_to_head i) st tt
    (st <| g_adv_reports_hist_list := i :: filter (λ j, j ≠ i) (g_adv_reports_hist_list st) |>) [] ∧
  i :: filter (λ j, j ≠ i) (g_adv_reports_hist_list st) ≡ₚ g_adv_reports_hist_list st.
Proof.
  intros Hinv Hi. apply (inv_hist_in None st Hinv) in Hi.
  pose proof (inv_hist_nodup None st Hinv) as Hnd.
  split.
  - unfold run, hist_move_to_head, queue_remove. by rewrite decide_True.
  - apply NoDup_Permutation; [|done|].
    + apply NoDup_cons. split; [|by apply NoDup_filter]. rewrite list_elem_of_filter. naive_solver.
    + intros j. rewrite elem_of_cons, list_elem_of_filter. destruct (decide (j = i)); naive_solver.
Qed.

(** The tail of the update: queue the slot for the three consumers, first in history. *)
Definition touch_prog (i : nat) : tprog unit :=
  enqueue_rl i RL1 ;; enqueue_rl i RL2 ;; enqueue_rl i RL3 ;; hist_move_to_head i.

Lemma touch_run st i e m :
  table_inv st → live_at (arr st) i m → arr st !! i = Some e →
  ∃ st', run (touch_prog i) st tt st' [] ∧ table_inv st' ∧
    absr st' ≡ spec_touch (SpecEntry i (is_in_hash_table e) (adv_report e)) (absr st).
Proof.
  intros Hinv Hlive He.
  destruct (enqueue_run st i RL1 m Hinv Hlive) as (s1 & R1 & I1 & V1 & H1 & K1).
  pose proof (live_at_view _ _ _ _ V1 Hlive) as L1.
  destruct (enqueue_run s1 i RL2 m I1 L1) as (s2 & R2 & I2 & V2 & H2 & K2).
  pose proof (live_at_view _ _ _ _ V2 L1) as L2.
  destruct (enqueue_run s2 i RL3 m I2 L2) as (s3 & R3 & I3 & V3 & H3 & K3).
  destruct (queue_remove_run i s3 I3) as [R4 P4].
  { by eapply (inv_live_lt None st Hinv). }
  assert (HV : same_view (arr st) (arr s3)) by (etransitivity; [done|]; by etransitivity).
  eexists. split_and!.
  - unfold touch_prog. eapply run_bind_silent; [exact R1|]. eapply run_bind_silent; [exact R2|].
    eapply run_bind_silent; [exact R3|exact R4].
  - by apply inv_set_hist.
  - split.
    + cbn [s_hist absr spec_touch]. cbn. rewrite entries_cons.
      unfold entry_of. rewrite <- (HV i), He. cbn. f_equal.
      rewrite entries_filter, H3, H2, H1. by rewrite <- (entries_proper _ _ HV _ _ eq_refl).
    + intros k. cbn. rewrite rl_set_hist, K3.
      destruct k; repeat (rewrite ?K3, ?K2, ?K1; first [rewrite decide_True by done
        | rewrite decide_False by done]); done.
Qed.

Lemma entries_last a l i :
  (∀ j, j ∈ l → is_Some (a !! j)) → last l = Some i →
  ∃ e, a !! i = Some e ∧ last (entries a l) = Some (SpecEntry i (is_in_hash_table e) (adv_report e)).
Proof.
  intros Hl (l' & ->)%last_Some. destruct (Hl i ltac:(set_solver)) as [e He].
  exists e. split; [done|]. unfold entries. rewrite omap_app. cbn.
  unfold entry_of at 2. rewrite He. cbn. by rewrite last_snoc.
Qed.

Lemma put_found_run st r i e :
  table_inv st → live_at (arr st) i (tag_mac r) → arr st !! i = Some e →
  adds_nothing r (adv_report e) = false →
  let r' := r <| samples_counter := u32 (samples_counter (adv_report e) + 1) |> in
  let st2 := alter_elem (set_report (λ x, x <| samples_counter := u32 (samples_counter (adv_report e) + 1) |>)) i
               (alter_elem (set_report (λ _, r)) i st) in
  table_inv st2 ∧ ∃ st', run (touch_prog i) st2 tt st' [] ∧ table_inv st' ∧
    absr st' ≡ spec_touch (SpecEntry i true r') (absr st).
Proof.
  intros Hinv Hlive He Hd r' st2.
  pose proof Hlive as (e0 & He0 & Hh & Hm). assert (e0 = e) as -> by congruence. clear He0.
  assert (Hst2 : st2 = alter_elem (set_report (λ _, r')) i st).
  { unfold st2, alter_elem. cbn. by rewrite list_alter_alter_eq. }
  assert (Ha : arr st2 !! i = Some (set_report (λ _, r') e)).
  { rewrite Hst2, arr_alter_elem, list_lookup_alter_eq, He. done. }
  assert (Hl2 : live_at (arr st2) i (tag_mac r)) by by eexists.
  assert (I2 : table_inv st2).
  { rewrite Hst2. apply inv_alter_report; [done|]. intros e' He'. by simplify_eq. }
  split; [done|].
  destruct (touch_run st2 i _ _ I2 Hl2 Ha) as (st' & R & I & Habs).
  exists st'. split_and!; [done|done|]. rewrite Habs. cbn. rewrite Hh. apply spec_touch_ext.
  - intros j Hj. by rewrite Hst2, arr_alter_elem, list_lookup_alter_ne by done.
  - by rewrite Hst2.
  - intros k. by rewrite Hst2, rl_alter_elem.
Qed.

Lemma put_new_run st r i e :
  table_inv st → (∀ j, ¬ live_at (arr st) j (tag_mac r)) → arr st !! i = Some e →
  ∃ st1 st3 st', run (adv_hash_table_remove i) st tt st1 [] ∧
    run (adv_hash_table_add i) (alter_elem (set_report (λ _, r)) i st1) tt st3 [] ∧
    run (touch_prog i) st3 tt st' [] ∧ table_inv st' ∧
    absr st' ≡ spec_touch (SpecEntry i true r) (absr st).
Proof.
  intros Hinv Hfresh He.
  destruct (hash_remove_run st i e Hinv He) as (st1 & R1 & I1 & A1 & H1 & K1).
  set (st2 := alter_elem (set_report (λ _, r)) i st1).
  assert (Hnl : ∀ m, ¬ live_at (arr st1) i m).
  { intros m. rewrite A1, live_at_set_linked. naive_solver. }
  pose proof (inv_alter_unlinked _ st1 I1 (λ _, r) i Hnl) as I2. fold st2 in I2.
  assert (E2 : arr st2 !! i = Some (set_report (λ _, r) (set_linked false e))).
  { unfold st2. rewrite arr_alter_elem, list_lookup_alter_eq, A1, list_lookup_alter_eq, He. done. }
  destruct (hash_add_run st2 i _ I2 E2) as (st3 & R3 & I3 & A3 & H3 & K3); [done| |].
  { intros j. unfold st2. cbn. rewrite live_at_alter, A1. rewrite live_at_set_linked.
    intros [[Hne [[_ Hj]|[? _]]]|(_ & x & Hx & Hl & _)]; [by eapply Hfresh|done|].
    rewrite list_lookup_alter_eq, He in Hx. cbn in Hx. by simplify_eq. }
  assert (E3 : arr st3 !! i = Some (set_linked true (set_report (λ _, r) (set_linked false e)))).
  { by rewrite A3, list_lookup_alter_eq, E2. }
  destruct (touch_run st3 i _ (tag_mac r) I3 ltac:(by eexists) E3) as (st' & R & I & Habs).
  exists st1, st3, st'. split_and!; [done..|]. rewrite Habs. cbn. apply spec_touch_ext.
  - intros j Hj. rewrite A3, list_lookup_alter_ne by done. unfold st2.
    rewrite arr_alter_elem, list_lookup_alter_ne by done. by rewrite A1, list_lookup_alter_ne.
  - rewrite H3. unfold st2. by rewrite hist_alter_elem.
  - intros k. rewrite K3. unfold st2. by rewrite rl_alter_elem.
Qed.

(** No report of the table is longer than its buffer. *)
Definition reports_ok (s : spec_state) : Prop :=
  Forall (λ e, data_len (se_report e) ≤ ADV_DATA_MAX_LEN) (s_hist s).

(** The comparison of a report with one that fits its buffer stays within both. *)
Lemma must_be_discarded_run r prev st :
  data_len prev ≤ ADV_DATA_MAX_LEN →
  run (adv_table_check_if_adv_must_be_discarded r prev) st (adds_nothing r prev) st [].
Proof.
  intros Hp. unfold adv_table_check_if_adv_must_be_discarded, adds_nothing, payload, run.
  destruct (Z.eqb_spec (data_len prev) (data_len r)) as [E|E].
  - unfold data_buf_is_equal. rewrite (proj2 (Z.ltb_ge ADV_DATA_MAX_LEN _)) by lia. rewrite E.
    destruct (decide (take (Z.to_nat (data_len r)) (data_buf prev) = take (Z.to_nat (data_len r)) (data_buf r))).
    + by rewrite !bool_decide_true by done.
    + rewrite !bool_decide_false by naive_solver. unfold BLE_MAX_REGULAR_ADV_DATA_LEN.
      by destruct (Z.ltb_spec 31 (data_len r)), (Z.leb_spec (data_len r) 31); try lia.
  - rewrite bool_decide_false by naive_solver. unfold BLE_MAX_REGULAR_ADV_DATA_LEN.
    destruct (31 <? data_len prev), (Z.ltb_spec 31 (data_len r)), (Z.leb_spec (data_len r) 31); try lia; done.
Qed.

Lemma elem_fits st i e :
  table_inv st → reports_ok (absr st) → arr st !! i = Some e → data_len (adv_report e) ≤ ADV_DATA_MAX_LEN.
Proof.
  intros Hinv Hok He.
  apply (proj1 (Forall_forall _ _) Hok (SpecEntry i (is_in_hash_table e) (adv_report e))).
  apply entries_in. cbn. rewrite (inv_hist_in None st Hinv). unfold entry_of. rewrite He. split; [|done].
  apply lookup_lt_Some in He. by rewrite (inv_len None st Hinv) in He.
Qed.

Lemma put_unsafe_run st r :
  table_inv st → reports_ok (absr st) →
  ∃ b st', run (adv_table_put_unsafe r) st b st' [] ∧ table_inv st' ∧
    b = fst (spec_put r (absr st)) ∧ absr st' ≡ snd (spec_put r (absr st)).
Proof.
  intros Hinv Hok. unfold adv_table_put_unsafe, spec_put.
  destruct (hash_search_run st None (tag_mac r) Hinv) as (o & Ho & Hspec).
  destruct o as [i|].
  - destruct (spec_find_live st Hinv i _ Hspec) as (e & He & ->).
    pose proof (must_be_discarded_run r _ st (elem_fits st i e Hinv Hok He)) as Hc.
    cbn [se_id se_live se_report].
    destruct (adds_nothing r (adv_report e)) eqn:Hd.
    + eexists false, _. split_and!; [| | done |].
      * eapply run_bind_silent; [exact Ho|]. cbv beta iota.
        eapply run_bind_silent.
        { run_step. eapply run_bind_silent; [exact Hc|]. cbn [negb]. run_step. apply run_ret. }
        run_step. apply run_ret.
      * apply inv_alter_report; [done|]. intros e' He'. done.
      * split; [|intros k; cbn; by rewrite rl_alter_elem].
        cbn. apply entries_alter_report.
    + destruct (put_found_run st r i e Hinv Hspec He Hd) as (I2 & st' & R & I & Habs).
      exists true, st'. split_and!; [|done|done|done].
      eapply run_bind_silent; [exact Ho|]. cbv beta iota.
      eapply run_bind_silent.
      { run_step. eapply run_bind_silent; [exact Hc|]. cbn [negb]. run_step. run_step. apply run_ret. }
      eapply run_bind_silent; [exact R|apply run_ret].
  - rewrite (spec_find_none st _ Hspec).
    destruct (last (g_adv_reports_hist_list st)) as [i|] eqn:Hlast; cycle 1.
    { apply last_None in Hlast. pose proof (inv_hist None st Hinv) as Hp. rewrite Hlast in Hp.
      apply Permutation_length in Hp. done. }
    assert (Hi : ∀ j, j ∈ g_adv_reports_hist_list st → is_Some (arr st !! j)).
    { intros j. rewrite (inv_hist_in None st Hinv). apply (inv_elem None st Hinv). }
    destruct (entries_last _ _ _ Hi Hlast) as (e & He & Hel). cbn [s_hist absr]. rewrite Hel.
    cbn [se_id].
    destruct (put_new_run st r i e Hinv Hspec He) as (st1 & st3 & st' & R1 & R3 & R & I & Habs).
    exists true, st'. split_and!; [|done|done|done].
    eapply run_bind_silent; [exact Ho|]. cbv beta iota.
    eapply run_bind_silent.
    { eapply run_bind_silent; [unfold run, hist_last; by rewrite Hlast|].
      eapply run_bind_silent; [exact R1|]. eapply run_bind_silent; [apply run_modify|].
      eapply run_bind_silent; [exact R3|apply run_ret]. }
    eapply run_bind_silent; [exact R|apply run_ret].
Qed.

Lemma with_mutex_run {A} (m : tprog A) st a st' :
  run m st a st' [] → run (with_mutex m) st a st' [AdvMutexLock; AdvMutexUnlock].
Proof.
  intros Hm. unfold with_mutex.
  change [AdvMutexLock; AdvMutexUnlock] with ([AdvMutexLock] ++ [] ++ [AdvMutexUnlock] ++ [] : list adv_table_ev).
  eapply run_bind; [apply run_emit|]. eapply run_bind; [exact Hm|].
  eapply run_bind; [apply run_emit|apply run_ret].
Qed.

(** ** The whole interface *)

(** The leading elements that satisfy a test, as a loop with [break] keeps them. *)
Fixpoint take_while {A} (P : A → bool) (l : list A) : list A :=
  match l with
  | x :: l' => if P x then x :: take_while P l' else []
  | [] => []
  end.

(** One call of the public interface; the buffers are those the caller passes. *)
Inductive table_op :=
| OpPut (r : adv_report_t)
| OpReadRl (k : rl_id) (p : adv_report_table_t)
| OpRl3Head
| OpRl3IsEmpty
| OpHistory (p : adv_report_table_t) (cur_time : Z) (use_ts : bool) (filter : Z) (use_filter : bool)
| OpStatistics (p : adv_report_table_t)
| OpClear.

Inductive op_result :=
| ResBool (b : bool)
| ResReports (l : list adv_report_t)
| ResReport (o : option adv_report_t)
| ResUnit.

(** The caller reads [num_of_advs] entries of the buffer. *)
Definition reports_of (p : adv_report_table_t) : op_result :=
  ResReports (take (Z.to_nat (num_of_advs p)) (table p)).

Definition read_rl_op (k : rl_id) : adv_report_table_t → tprog adv_report_table_t :=
  match k with
  | RL1 => adv_table_read_retransmission_list1_and_clear
  | RL2 => adv_table_read_retransmission_list2_and_clear
  | RL3 => adv_table_read_retransmission_list3_and_clear
  end.

Definition exec_op (op : table_op) : tprog op_result :=
  match op with
  | OpPut r => b ← adv_table_put r; mret (ResBool b)
  | OpReadRl k p => p' ← read_rl_op k p; mret (reports_of p')
  | OpRl3Head => o ← adv_table_read_retransmission_list3_head; mret (ResReport o)
  | OpRl3IsEmpty => b ← adv_table_read_retransmission_list3_is_empty; mret (ResBool b)
  | OpHistory p t ut f uf => p' ← adv_table_history_read p t ut f uf; mret (reports_of p')
  | OpStatistics p => p' ← adv_table_statistics_read p; mret (reports_of p')
  | OpClear => adv_table_clear ;; mret ResUnit
  end.

(** Reports and buffers are [adv_report_t] and [adv_report_table_t] objects, and a
    report announces no more bytes than its buffer has. *)
Definition op_wf (op : table_op) : Prop :=
  match op with
  | OpPut r => data_len r ≤ ADV_DATA_MAX_LEN ∧ length (data_buf r) = Z.to_nat ADV_DATA_MAX_LEN
  | OpReadRl _ p | OpHistory p _ _ _ _ | OpStatistics p => length (table p) = MAX_ADVS_TABLE
  | _ => True
  end.

Definition spec_lookup (s : spec_state) (i : nat) : option adv_report_t :=
  (se_report ∘ snd) <$> list_find (λ e, se_id e = i) (s_hist s).

Definition set_pending (k : rl_id) (l : list nat) (s : spec_state) : spec_state :=
  SpecState (s_hist s) (λ k', if decide (k' = k) then l else s_pending s k').

Definition in_history (cur_time : Z) (use_ts : bool) (filter : Z) (use_filter : bool)
    (r : adv_report_t) : bool :=
  negb (data_len r =? 0) && negb (history_stop cur_time use_ts filter use_filter r).

(** Reset the counters of the slots up to the first one with a zero timestamp. *)
Fixpoint reset_counters (l : list spec_entry) : list spec_entry :=
  match l with
  | e :: l' =>
      if timestamp (se_report e) =? 0 then l
      else SpecEntry (se_id e) (se_live e) ((se_report e) <| samples_counter := 0 |>) :: reset_counters l'
  | [] => []
  end.

Definition spec_exec (op : table_op) (s : spec_state) : op_result * spec_state :=
  match op with
  | OpPut r => let '(b, s') := spec_put r s in (ResBool b, s')
  | OpReadRl k _ => (ResReports (omap (spec_lookup s) (s_pending s k)), set_pending k [] s)
  | OpRl3Head =>
      match s_pending s RL3 with
      | [] => (ResReport None, s)
      | i :: l => (ResReport (spec_lookup s i), set_pending RL3 l s)
      end
  | OpRl3IsEmpty => (ResBool (match s_pending s RL3 with [] => true | _ => false end), s)
  | OpHistory _ t ut f uf =>
      (ResReports (take_while (in_history t ut f uf) (se_report <$> s_hist s)), s)
  | OpStatistics _ =>
      (ResReports (take_while (λ r, negb (timestamp r =? 0)) (se_report <$> s_hist s)),
       SpecState (reset_counters (s_hist s)) (s_pending s))
  | OpClear =>
      (ResUnit, SpecState ((λ e, SpecEntry (se_id e) (se_live e) (free_report (se_report e))) <$> s_hist s)
                  (λ _, []))
  end.

(** ** The reports of the table stay within their buffers *)

Lemma reports_ok_touch e s :
  data_len (se_report e) ≤ ADV_DATA_MAX_LEN → reports_ok s → reports_ok (spec_touch e s).
Proof.
  intros He Hs. constructor; [exact He|]. apply Forall_forall. intros x [_ Hx]%list_elem_of_filter.
  by apply (proj1 (Forall_forall _ _) Hs).
Qed.

Lemma reports_ok_put r s : data_len r ≤ ADV_DATA_MAX_LEN → reports_ok s → reports_ok (snd (spec_put r s)).
Proof.
  intros Hr Hs. unfold spec_put. destruct (spec_find _ _) as [e|].
  - destruct (adds_nothing r (se_report e)); cbn [snd]; [|by apply reports_ok_touch].
    apply Forall_fmap. eapply Forall_impl; [exact Hs|]. intros x Hx. cbn. by case_decide.
  - destruct (last (s_hist s)) as [e|]; cbn [snd]; [by apply reports_ok_touch|done].
Qed.

Lemma reports_ok_reset l :
  Forall (λ e, data_len (se_report e) ≤ ADV_DATA_MAX_LEN) l →
  Forall (λ e, data_len (se_report e) ≤ ADV_DATA_MAX_LEN) (reset_counters l).
Proof. induction 1 as [|e l He Hl IH]; cbn; [done|]. case_match; by constructor. Qed.

Lemma reports_ok_exec op s : op_wf op → reports_ok s → reports_ok (snd (spec_exec op s)).
Proof.
  intros Hwf Hs. destruct op as [r|k p| | |p t ut f uf|p|]; cbn; try done.
  - pose proof (reports_ok_put r s (proj1 Hwf) Hs) as H. by destruct (spec_put r s).
  - by destruct (s_pending s RL3).
  - by apply reports_ok_reset.
  - apply Forall_fmap, Forall_true. by intros e.
Qed.

#[export] Instance reports_ok_equiv : Proper ((≡) ==> iff) reports_ok.
Proof. intros s1 s2 [E _]. unfold reports_ok. by rewrite E. Qed.

Lemma spec_put_proper r s1 s2 :
  s1 ≡ s2 → fst (spec_put r s1) = fst (spec_put r s2) ∧ snd (spec_put r s1) ≡ snd (spec_put r s2).
Proof.
  intros Hs. pose proof Hs as [E _]. unfold spec_put. rewrite E.
  destruct (spec_find _ _) as [e|].
  - destruct (adds_nothing r (se_report e)); cbn; by rewrite Hs.
  - destruct (last (s_hist s2)) as [e|]; cbn; by rewrite Hs.
Qed.

Lemma spec_exec_proper op s1 s2 :
  s1 ≡ s2 → fst (spec_exec op s1) = fst (spec_exec op s2) ∧ snd (spec_exec op s1) ≡ snd (spec_exec op s2).
Proof.
  intros Hs. pose proof Hs as [E F]. destruct op as [r|k p| | |p t ut f uf|p|]; cbn.
  - destruct (spec_put_proper r s1 s2 Hs) as [E1 E2].
    destruct (spec_put r s1), (spec_put r s2). cbn in *. by subst.
  - rewrite F. unfold spec_lookup. rewrite E. split; [done|]. split; [done|].
    intros k'. cbn. case_decide; by rewrite ?F.
  - rewrite <- (F RL3). unfold spec_lookup. rewrite E. destruct (s_pending s1 RL3); [done|].
    split; [done|]. split; [done|]. intros k'. cbn. case_decide; by rewrite ?F.
  - by rewrite F.
  - by rewrite E.
  - rewrite E. split; [done|]. split; [done|]. apply F.
  - rewrite E. done.
Qed.
