(* ===== verification/AdvTableRefine.v ===== *)
(** * Every operation of the advertisement table refines the specification *)

From S2P Require Import Prelude AdvTable AdvTableInv AdvTableSpec.
Open Scope Z_scope.

(** The buffer [p] holds the reports [acc]. *)
Record filled (p : adv_report_table_t) (acc : list adv_report_t) : Prop := Filled {
  filled_num : num_of_advs p = Z.of_nat (length acc);
  filled_len : length (table p) = MAX_ADVS_TABLE;
  filled_take : take (length acc) (table p) = acc;
}.

Lemma filled_nil p : length (table p) = MAX_ADVS_TABLE → filled (p <| num_of_advs := 0 |>) [].
Proof. intros Hp. by split. Qed.

Lemma filled_reports p acc : filled p acc → reports_of p = ResReports acc.
Proof. intros [Hn _ Ht]. unfold reports_of. by rewrite Hn, Nat2Z.id, Ht. Qed.

Lemma filled_put p acc r :
  filled p acc → (length acc < MAX_ADVS_TABLE)%nat → filled (table_put p r) (acc ++ [r]).
Proof.
  intros [Hn Hl Ht] Hlt. unfold MAX_ADVS_TABLE in *. split; cbn.
  - rewrite Hn, length_app. cbn. unfold u32. rewrite Z.mod_small by lia. lia.
  - by rewrite length_insert.
  - rewrite length_app, Nat.add_comm. cbn [length Nat.add]. rewrite Hn, Nat2Z.id.
    rewrite take_insert_snoc by lia. by rewrite Ht.
Qed.

Lemma filled_room p acc :
  filled p acc → (length acc < MAX_ADVS_TABLE)%nat → (Z.of_nat MAX_ADVS_TABLE <=? num_of_advs p) = false.
Proof. intros [Hn _ _] Hlt. rewrite Hn. lia. Qed.

Section lookup.
Context (st : adv_table_t) (Hinv : table_inv st).

Lemma spec_lookup_absr i :
  (i < MAX_ADVS_TABLE)%nat → spec_lookup (absr st) i = adv_report <$> arr st !! i.
Proof.
  intros Hi. destruct (inv_elem None st Hinv i Hi) as [e He].
  assert (Hin : SpecEntry i (is_in_hash_table e) (adv_report e) ∈ entries (arr st) (g_adv_reports_hist_list st)).
  { apply entries_in. cbn. rewrite (inv_hist_in None st Hinv). split; [done|].
    unfold entry_of. by rewrite He. }
  unfold spec_lookup. cbn.
  destruct (list_find_elem_of (λ e, se_id e = i) _ _ Hin) as [[n e'] Hf]; [done|].
  rewrite Hf. cbn. apply list_find_Some in Hf as (Hlk & Hid & _).
  apply list_elem_of_lookup_2, entries_in in Hlk as [_ Heo]. rewrite Hid in Heo.
  unfold entry_of in Heo. rewrite He in Heo. cbn in Heo. rewrite He. cbn.
  by injection Heo as <-.
Qed.

Lemma pending_lt k i : i ∈ rl_list k st → (i < MAX_ADVS_TABLE)%nat.
Proof.
  intros Hi. apply (inv_rl None st Hinv) in Hi as (e & He & _). apply lookup_lt_Some in He.
  by rewrite (inv_len None st Hinv) in He.
Qed.

Lemma pending_length k : (length (rl_list k st) ≤ MAX_ADVS_TABLE)%nat.
Proof.
  rewrite <- (length_seq MAX_ADVS_TABLE 0). apply submseteq_length, NoDup_submseteq.
  - apply (inv_rl_nodup None st Hinv).
  - intros i Hi. apply elem_of_seq. apply pending_lt in Hi. lia.
Qed.

Lemma entries_reports l :
  (∀ i, i ∈ l → (i < MAX_ADVS_TABLE)%nat) →
  se_report <$> entries (arr st) l = omap (λ i, adv_report <$> arr st !! i) l.
Proof.
  induction l as [|i l IH]; intros Hl; [done|]. rewrite entries_cons.
  destruct (inv_elem None st Hinv i (Hl i ltac:(set_solver))) as [e He].
  unfold entry_of. rewrite He. cbn. rewrite He. cbn. rewrite IH; [done|]. set_solver.
Qed.
End lookup.

Lemma same_view_set_rl k b i a : same_view (alter (set_in_rl k b) i a) a.
Proof.
  intros j. destruct (decide (j = i)) as [->|]; [|by rewrite list_lookup_alter_ne].
  rewrite list_lookup_alter_eq. destruct (a !! i); cbn; [|done].
  unfold eview. by rewrite in_hash_set_rl, report_set_rl.
Qed.

Lemma absr_dequeue k i l st :
  absr (alter_elem (set_in_rl k false) i (set_rl_list k l st)) ≡ set_pending k l (absr st).
Proof.
  split; cbn.
  - rewrite arr_set_rl, hist_set_rl. apply entries_proper; [apply same_view_set_rl|done].
  - intros k'. by rewrite rl_alter_elem, rl_list_set.
Qed.

Lemma same_view_report a a' i : same_view a a' → adv_report <$> a !! i = adv_report <$> a' !! i.
Proof.
  intros Hv. specialize (Hv i). destruct (a !! i), (a' !! i); cbn in *; try done.
  by injection Hv as _ ->.
Qed.

(** ** Retransmission lists *)

Lemma read_rl_loop_run k l st p acc :
  table_inv st → rl_list k st = l → filled p acc → (length acc + length l ≤ MAX_ADVS_TABLE)%nat →
  ∃ p' st', run (read_rl_loop k l p) st p' st' [] ∧ table_inv st' ∧
    filled p' (acc ++ omap (λ i, adv_report <$> arr st !! i) l) ∧
    absr st' ≡ set_pending k [] (absr st).
Proof.
  revert st p acc. induction l as [|i l IH]; intros st p acc Hinv Hl Hp Hlen.
  - exists p, st. split_and!; [apply run_ret|done|by rewrite app_nil_r|].
    split; [done|]. intros k'. cbn. case_decide; congruence.
  - set (st1 := alter_elem (set_in_rl k false) i (set_rl_list k l st)).
    assert (I1 : table_inv st1) by by apply inv_dequeue.
    assert (L1 : rl_list k st1 = l).
    { unfold st1. rewrite rl_alter_elem, rl_list_set. by rewrite decide_True. }
    destruct (inv_elem None st Hinv i) as [e He].
    { apply (pending_lt st Hinv k). rewrite Hl. set_solver. }
    assert (V1 : same_view (arr st1) (arr st)).
    { unfold st1. rewrite arr_alter_elem, arr_set_rl. apply same_view_set_rl. }
    assert (He1 : arr st1 !! i = Some (set_in_rl k false e)).
    { unfold st1. rewrite arr_alter_elem, arr_set_rl, list_lookup_alter_eq, He. done. }
    cbn [length] in Hlen.
    destruct (IH st1 (table_put p (adv_report e)) (acc ++ [adv_report e]) I1 L1)
      as (p' & st' & R & I' & F' & A').
    { apply filled_put; [done|lia]. }
    { rewrite length_app. cbn. lia. }
    exists p', st'. split_and!; [|done| |].
    + cbn [read_rl_loop]. run_step. run_step. fold st1.
      rewrite (filled_room _ _ Hp) by lia. eapply run_bind_silent; [by apply elem_at_run|].
      by rewrite report_set_rl.
    + cbn. rewrite He. cbn. rewrite <- app_assoc in F'. cbn in F'.
      rewrite (list_omap_ext _ (λ j, adv_report <$> arr st1 !! j) l l); [exact F'|].
      apply Forall_Forall2_diag, Forall_forall. intros j _. symmetry. by apply same_view_report.
    + rewrite A'. pose proof (absr_dequeue k i l st) as [E F]. split; [done|].
      intros k'. cbn. case_decide; [done|]. unfold st1. rewrite rl_alter_elem, rl_list_set.
      by rewrite decide_False.
Qed.

Lemma read_rl_run k p st :
  table_inv st → length (table p) = MAX_ADVS_TABLE →
  ∃ p' st', run (read_rl_and_clear k p) st p' st' [] ∧ table_inv st' ∧
    filled p' (omap (spec_lookup (absr st)) (rl_list k st)) ∧
    absr st' ≡ set_pending k [] (absr st).
Proof.
  intros Hinv Hp.
  destruct (read_rl_loop_run k (rl_list k st) st _ [] Hinv eq_refl (filled_nil p Hp))
    as (p' & st' & R & I & F & A).
  { apply (pending_length st Hinv). }
  exists p', st'. split_and!; [|done| |done].
  - unfold read_rl_and_clear. run_step. exact R.
  - cbn [app] in F. erewrite list_omap_ext; [exact F|].
    apply Forall_Forall2_diag, Forall_forall. intros i Hi. apply spec_lookup_absr; [done|].
    by eapply (pending_lt st Hinv).
Qed.

Lemma rl3_head_run st :
  table_inv st →
  ∃ o st', run adv_table_read_retransmission_list3_head_unsafe st o st' [] ∧ table_inv st' ∧
    ResReport o = fst (spec_exec OpRl3Head (absr st)) ∧
    absr st' ≡ snd (spec_exec OpRl3Head (absr st)).
Proof.
  intros Hinv. unfold adv_table_read_retransmission_list3_head_unsafe. cbn [spec_exec absr s_pending].
  destruct (rl_list RL3 st) as [|i l] eqn:Hl.
  - exists None, st. split_and!; [|done..]. run_step. rewrite Hl. apply run_ret.
  - assert (Hi : (i < MAX_ADVS_TABLE)%nat) by (apply (pending_lt st Hinv RL3); rewrite Hl; set_solver).
    destruct (inv_elem None st Hinv i Hi) as [e He].
    exists (Some (adv_report e)), (alter_elem (set_in_rl RL3 false) i (set_rl_list RL3 l st)).
    split_and!.
    + run_step. rewrite Hl. run_step. run_step. eapply run_bind_silent; [|apply (run_ret (Some (adv_report (set_in_rl RL3 false e))))].
      apply elem_at_run. rewrite arr_alter_elem, arr_set_rl, list_lookup_alter_eq, He. done.
    + by apply inv_dequeue.
    + cbn [fst]. f_equal. change (Some (adv_report e) = spec_lookup (absr st) i).
      by rewrite (spec_lookup_absr st Hinv i Hi), He.
    + apply absr_dequeue.
Qed.

(** ** History *)

Lemma read_history_loop_run cur ut f uf l st p acc :
  table_inv st → (∀ i, i ∈ l → (i < MAX_ADVS_TABLE)%nat) → filled p acc →
  (length acc + length l ≤ MAX_ADVS_TABLE)%nat →
  ∃ p', run (read_history_loop cur ut f uf l p) st p' st [] ∧
    filled p' (acc ++ take_while (in_history cur ut f uf) (se_report <$> entries (arr st) l)).
Proof.
  intros Hinv. revert p acc. induction l as [|i l IH]; intros p acc Hl Hp Hlen.
  - exists p. split; [apply run_ret|]. by rewrite app_nil_r.
  - cbn [length] in Hlen. destruct (inv_elem None st Hinv i (Hl i ltac:(set_solver))) as [e He].
    rewrite entries_cons. unfold entry_of. rewrite He. cbn [read_history_loop fmap option_fmap option_map
      eview fst snd list_fmap se_report take_while]. unfold in_history at 1.
    destruct (data_len (adv_report e) =? 0) eqn:H0; cbn [negb andb].
    { exists p. rewrite app_nil_r. split; [|done]. run_step. rewrite (filled_room _ _ Hp) by lia.
      rewrite H0. apply run_ret. }
    destruct (history_stop cur ut f uf (adv_report e)) eqn:Hs; cbn [negb andb].
    { exists p. rewrite app_nil_r. split; [|done]. run_step. rewrite (filled_room _ _ Hp) by lia.
      rewrite H0, Hs. apply run_ret. }
    destruct (IH (table_put p (adv_report e)) (acc ++ [adv_report e])) as (p' & R & F).
    { set_solver. }
    { apply filled_put; [done|lia]. }
    { rewrite length_app. cbn. lia. }
    exists p'. rewrite <- app_assoc in F. split; [|exact F].
    run_step. rewrite (filled_room _ _ Hp) by lia. by rewrite H0, Hs.
Qed.

(** ** Statistics *)

Lemma read_statistics_loop_run l st p acc :
  table_inv st → NoDup l → (∀ i, i ∈ l → (i < MAX_ADVS_TABLE)%nat) → filled p acc →
  (length acc + length l ≤ MAX_ADVS_TABLE)%nat →
  ∃ p' st', run (read_statistics_loop l p) st p' st' [] ∧ table_inv st' ∧
    filled p' (acc ++ take_while (λ r, negb (timestamp r =? 0)) (se_report <$> entries (arr st) l)) ∧
    entries (arr st') l = reset_counters (entries (arr st) l) ∧
    (∀ j, j ∉ l → arr st' !! j = arr st !! j) ∧
    g_adv_reports_hist_list st' = g_adv_reports_hist_list st ∧
    (∀ k, rl_list k st' = rl_list k st).
Proof.
  revert st p acc. induction l as [|i l IH]; intros st p acc Hinv Hnd Hl Hp Hlen.
  - exists p, st. split_and!; try done. by rewrite app_nil_r.
  - cbn [length] in Hlen. apply NoDup_cons in Hnd as [Hni Hnd].
    destruct (inv_elem None st Hinv i (Hl i ltac:(set_solver))) as [e He].
    assert (Heo : entry_of (arr st) i = Some (SpecEntry i (is_in_hash_table e) (adv_report e))).
    { unfold entry_of. by rewrite He. }
    rewrite entries_cons, Heo. cbn [fmap list_fmap se_report take_while reset_counters].
    destruct (timestamp (adv_report e) =? 0) eqn:H0; cbn [negb].
    { exists p, st. split_and!; try done; [|by rewrite app_nil_r|by rewrite entries_cons, Heo].
      cbn [read_statistics_loop]. run_step. rewrite (filled_room _ _ Hp) by lia. rewrite H0.
      apply run_ret. }
    set (st1 := alter_elem (set_report (λ r, r <| samples_counter := 0 |>)) i st).
    destruct (IH st1 (table_put p (adv_report e)) (acc ++ [adv_report e]))
      as (p' & st' & R & I & F & En & Ho & Hh & Hk).
    { by apply inv_alter_report. }
    { done. }
    { set_solver. }
    { apply filled_put; [done|lia]. }
    { rewrite length_app. cbn. lia. }
    assert (E1 : entries (arr st1) l = entries (arr st) l) by by apply entries_alter_out.
    exists p', st'. split_and!; [|done| | | |done|].
    + cbn [read_statistics_loop]. run_step. rewrite (filled_room _ _ Hp) by lia. rewrite H0.
      run_step. exact R.
    + rewrite <- app_assoc, E1 in F. exact F.
    + rewrite entries_cons, En, E1. unfold entry_of. rewrite (Ho i Hni). unfold st1.
      rewrite arr_alter_elem, list_lookup_alter_eq, He. done.
    + intros j Hj. rewrite Ho by set_solver. unfold st1.
      rewrite arr_alter_elem, list_lookup_alter_ne by set_solver. done.
    + intros k. rewrite Hk. unfold st1. apply rl_alter_elem.
Qed.

(** ** Clearing *)

Lemma rl_clear_loop_run k l st :
  table_inv st → rl_list k st = l →
  ∃ st', run (rl_clear_loop k l) st tt st' [] ∧ table_inv st' ∧ absr st' ≡ set_pending k [] (absr st).
Proof.
  revert st. induction l as [|i l IH]; intros st Hinv Hl.
  - exists st. split_and!; [apply run_skip|done|]. split; [done|].
    intros k'. cbn. case_decide; congruence.
  - destruct (IH (alter_elem (set_in_rl k false) i (set_rl_list k l st))) as (st' & R & I & A).
    { by apply inv_dequeue. }
    { rewrite rl_alter_elem, rl_list_set. by rewrite decide_True. }
    exists st'. split_and!; [|done|].
    + cbn [rl_clear_loop]. run_step. run_step. exact R.
    + rewrite A. pose proof (absr_dequeue k i l st) as [E F]. split; [done|].
      intros k'. cbn. case_decide; [done|]. rewrite rl_alter_elem, rl_list_set.
      by rewrite decide_False.
Qed.

Lemma rl_clear_run k st :
  table_inv st →
  ∃ st', run (rl_clear k) st tt st' [] ∧ table_inv st' ∧ absr st' ≡ set_pending k [] (absr st).
Proof.
  intros Hinv. destruct (rl_clear_loop_run k _ st Hinv eq_refl) as (st' & R & I & A).
  exists st'. split_and!; [|done..]. unfold rl_clear. run_step. exact R.
Qed.

Definition freed (l : list nat) (e : spec_entry) : spec_entry :=
  if decide (se_id e ∈ l) then SpecEntry (se_id e) (se_live e) (free_report (se_report e)) else e.

Lemma clear_reports_run l st :
  table_inv st →
  ∃ st', run (for_each l (λ i, modify (alter_elem (set_report free_report) i)) : tprog unit) st tt st' [] ∧
    table_inv st' ∧ g_adv_reports_hist_list st' = g_adv_reports_hist_list st ∧
    (∀ k, rl_list k st' = rl_list k st) ∧
    ∀ l0, entries (arr st') l0 = freed l <$> entries (arr st) l0.
Proof.
  revert st. induction l as [|i l IH]; intros st Hinv.
  - exists st. split_and!; try done. intros l0.
    rewrite (list_fmap_ext _ id); [by rewrite list_fmap_id|]. intros j e _. unfold freed.
    rewrite decide_False; [done|set_solver].
  - destruct (IH (alter_elem (set_report free_report) i st)) as (st' & R & I & Hh & Hk & He).
    { by apply inv_alter_report. }
    exists st'. split_and!; [|done|done| |].
    + cbn [for_each]. run_step. exact R.
    + intros k. rewrite Hk. apply rl_alter_elem.
    + intros l0. rewrite He, arr_alter_elem, entries_alter_report, <- list_fmap_compose.
      apply list_fmap_ext. intros j e _. unfold freed. cbn.
      destruct (decide (se_id e = i)) as [<-|Hne]; cbn.
      * rewrite (decide_True (P := se_id e ∈ se_id e :: l)) by set_solver. case_decide; done.
      * destruct (decide (se_id e ∈ l)); [rewrite decide_True by set_solver|rewrite decide_False by set_solver]; done.
Qed.

Lemma clear_run st :
  table_inv st →
  ∃ st', run adv_table_clear st tt st' [AdvMutexLock; AdvMutexUnlock] ∧ table_inv st' ∧
    absr st' ≡ snd (spec_exec OpClear (absr st)).
Proof.
  intros Hinv.
  destruct (rl_clear_run RL1 st Hinv) as (s1 & R1 & I1 & A1).
  destruct (rl_clear_run RL2 s1 I1) as (s2 & R2 & I2 & A2).
  destruct (rl_clear_run RL3 s2 I2) as (s3 & R3 & I3 & A3).
  destruct (clear_reports_run (g_adv_reports_hist_list s3) s3 I3) as (s4 & R4 & I4 & H4 & K4 & E4).
  exists s4. split_and!; [|done|].
  - apply with_mutex_run. eapply run_bind_silent; [exact R1|]. eapply run_bind_silent; [exact R2|].
    eapply run_bind_silent; [exact R3|]. run_step. exact R4.
  - destruct A1 as [P1 Q1], A2 as [P2 Q2], A3 as [P3 Q3]. cbn in P1, P2, P3, Q1, Q2, Q3.
    split; cbn.
    + rewrite E4, H4, <- P1, <- P2, <- P3. apply list_fmap_ext. intros j e Hj. unfold freed.
      rewrite decide_True; [done|]. apply list_elem_of_lookup_2, entries_in in Hj. naive_solver.
    + intros k. rewrite K4, Q3, Q2, Q1. by destruct k.
Qed.

(** ** The whole interface *)

Definition locked : list adv_table_ev := [AdvMutexLock; AdvMutexUnlock].

(** Reading a result out of a program leaves the run alone. *)
Lemma run_result {A B} (m : tprog A) (f : A → B) st a st' es :
  run m st a st' es → run (x ← m; mret (f x)) st (f a) st' es.
Proof.
  intros Hm. rewrite <- (app_nil_r es). eapply run_bind; [exact Hm|apply run_ret].
Qed.

Lemma hist_lt st i : table_inv st → i ∈ g_adv_reports_hist_list st → (i < MAX_ADVS_TABLE)%nat.
Proof. intros Hinv. by rewrite (inv_hist_in None st Hinv). Qed.

Lemma hist_length st : table_inv st → length (g_adv_reports_hist_list st) = MAX_ADVS_TABLE.
Proof. intros Hinv. rewrite (Permutation_length (inv_hist None st Hinv)). apply length_seq. Qed.

Lemma history_run p t ut f uf st :
  table_inv st → length (table p) = MAX_ADVS_TABLE →
  ∃ p', run (adv_table_history_read p t ut f uf) st p' st locked ∧
    filled p' (take_while (in_history t ut f uf) (se_report <$> s_hist (absr st))).
Proof.
  intros Hinv Hp.
  destruct (read_history_loop_run t ut f uf _ st _ [] Hinv (λ i, hist_lt st i Hinv) (filled_nil p Hp))
    as (p' & R & F).
  { cbn. by rewrite hist_length. }
  exists p'. split; [|exact F]. apply with_mutex_run. unfold adv_table_read_history_unsafe. run_step.
  exact R.
Qed.

Lemma statistics_run p st :
  table_inv st → length (table p) = MAX_ADVS_TABLE →
  ∃ p' st', run (adv_table_statistics_read p) st p' st' locked ∧ table_inv st' ∧
    filled p' (take_while (λ r, negb (timestamp r =? 0)) (se_report <$> s_hist (absr st))) ∧
    absr st' ≡ snd (spec_exec (OpStatistics p) (absr st)).
Proof.
  intros Hinv Hp.
  destruct (read_statistics_loop_run _ st _ [] Hinv (inv_hist_nodup None st Hinv)
    (λ i, hist_lt st i Hinv) (filled_nil p Hp)) as (p' & st' & R & I & F & En & Ho & Hh & Hk).
  { cbn. by rewrite hist_length. }
  exists p', st'. split_and!; [|done|exact F|].
  - apply with_mutex_run. unfold adv_table_read_statistics_unsafe. run_step. exact R.
  - split; cbn; [by rewrite Hh, En|done].
Qed.

Lemma read_rl_op_run k p st :
  table_inv st → length (table p) = MAX_ADVS_TABLE →
  ∃ p' st', run (read_rl_op k p) st p' st' locked ∧ table_inv st' ∧
    filled p' (omap (spec_lookup (absr st)) (rl_list k st)) ∧
    absr st' ≡ set_pending k [] (absr st).
Proof.
  intros Hinv Hp. destruct (read_rl_run k p st Hinv Hp) as (p' & st' & R & I & F & A).
  exists p', st'. split_and!; [|done..]. destruct k; by apply with_mutex_run.
Qed.

(** Every call of the interface, on every state that satisfies the invariant,
    terminates without fault and does what the specification says. *)
Lemma exec_op_run op st :
  table_inv st → reports_ok (absr st) → op_wf op →
  ∃ res st', run (exec_op op) st res st' locked ∧ table_inv st' ∧
    res = fst (spec_exec op (absr st)) ∧ absr st' ≡ snd (spec_exec op (absr st)).
Proof.
  intros Hinv Hok Hwf. destruct op as [r|k p| | |p t ut f uf|p|]; cbn [op_wf] in Hwf.
  - destruct (put_unsafe_run st r Hinv Hok) as (b & st' & R & I & B & A).
    exists (ResBool b), st'. cbn [spec_exec]. destruct (spec_put r (absr st)). cbn in *. subst b.
    split_and!; [|done..]. cbn [exec_op]. apply run_result with (f := ResBool). by apply with_mutex_run.
  - destruct (read_rl_op_run k p st Hinv Hwf) as (p' & st' & R & I & F & A).
    exists (reports_of p'), st'. split_and!; [by apply run_result|done| |exact A].
    rewrite (filled_reports _ _ F). done.
  - destruct (rl3_head_run st Hinv) as (o & st' & R & I & E & A).
    exists (ResReport o), st'. split_and!; [|done..]. cbn [exec_op].
    apply run_result with (f := ResReport). by apply with_mutex_run.
  - eexists (ResBool _), st. split_and!; [|done|reflexivity|done].
    cbn [exec_op]. apply run_result with (f := ResBool). by apply with_mutex_run.
  - destruct (history_run p t ut f uf st Hinv Hwf) as (p' & R & F).
    exists (reports_of p'), st. split_and!; [by apply run_result|done| |done].
    by rewrite (filled_reports _ _ F).
  - destruct (statistics_run p st Hinv Hwf) as (p' & st' & R & I & F & A).
    exists (reports_of p'), st'. split_and!; [by apply run_result|done| |done].
    by rewrite (filled_reports _ _ F).
  - destruct (clear_run st Hinv) as (st' & R & I & A).
    exists ResUnit, st'. split_and!; [|done|done|done].
    cbn [exec_op]. by apply (run_result _ (λ _, ResUnit) _ tt).
Qed.

(** ** Sequences of calls *)

Fixpoint exec_ops (ops : list table_op) : tprog (list op_result) :=
  match ops with
  | [] => mret []
  | op :: ops' => r ← exec_op op; rs ← exec_ops ops'; mret (r :: rs)
  end.

Fixpoint spec_exec_ops (ops : list table_op) (s : spec_state) : list op_result * spec_state :=
  match ops with
  | [] => ([], s)
  | op :: ops' =>
      let '(r, s1) := spec_exec op s in
      let '(rs, s2) := spec_exec_ops ops' s1 in (r :: rs, s2)
  end.

Lemma spec_exec_ops_proper ops s1 s2 :
  s1 ≡ s2 → fst (spec_exec_ops ops s1) = fst (spec_exec_ops ops s2) ∧
            snd (spec_exec_ops ops s1) ≡ snd (spec_exec_ops ops s2).
Proof.
  revert s1 s2. induction ops as [|op ops IH]; intros s1 s2 Hs; [done|]. cbn.
  destruct (spec_exec_proper op s1 s2 Hs) as [E1 E2].
  destruct (spec_exec op s1) as [r1 t1], (spec_exec op s2) as [r2 t2]. cbn in *. subst r2.
  destruct (IH t1 t2 E2) as [F1 F2].
  destruct (spec_exec_ops ops t1), (spec_exec_ops ops t2). cbn in *. by subst.
Qed.

Lemma exec_ops_run ops st :
  table_inv st → reports_ok (absr st) → Forall op_wf ops →
  ∃ rs st', run (exec_ops ops) st rs st' (concat (replicate (length ops) locked)) ∧ table_inv st' ∧
    rs = fst (spec_exec_ops ops (absr st)) ∧ absr st' ≡ snd (spec_exec_ops ops (absr st)).
Proof.
  intros Hinv Hok Hwf. revert st Hinv Hok. induction Hwf as [|op ops Hop Hwf IH]; intros st Hinv Hok.
  - exists [], st. by split_and!.
  - destruct (exec_op_run op st Hinv Hok Hop) as (r & s1 & R1 & I1 & E1 & A1).
    assert (Hok1 : reports_ok (absr s1)) by (rewrite A1; by apply reports_ok_exec).
    destruct (IH s1 I1 Hok1) as (rs & st' & R2 & I2 & E2 & A2).
    exists (r :: rs), st'. split_and!; [|done| |].
    + cbn [exec_ops length replicate concat]. eapply run_bind; [exact R1|]. by apply run_result.
    + cbn. destruct (spec_exec op (absr st)) as [r0 t0]. cbn in *. subst r0.
      destruct (spec_exec_ops_proper ops _ _ A1) as [P _].
      destruct (spec_exec_ops ops t0). cbn in *. congruence.
    + cbn. destruct (spec_exec op (absr st)) as [r0 t0]. cbn in *.
      destruct (spec_exec_ops_proper ops _ _ A1) as [_ P].
      destruct (spec_exec_ops ops t0). cbn in *. by rewrite A2.
Qed.

Lemma init_no_elem i e : arr init_state !! i = Some e → e = zero_elem.
Proof. intros He. by apply (lookup_replicate MAX_ADVS_TABLE zero_elem e i) in He as [-> _]. Qed.

Lemma init_not_flagged k i : ¬ flag_at (arr init_state) k i.
Proof. intros (e & He & Hf). apply init_no_elem in He as ->. by destruct k. Qed.

Lemma init_not_live i m : ¬ live_at (arr init_state) i m.
Proof. intros (e & He & Hl & _). by apply init_no_elem in He as ->. Qed.

Lemma init_inv : table_inv init_state.
Proof.
  split.
  - apply length_replicate.
  - apply length_replicate.
  - done.
  - intros k. destruct k; apply NoDup_nil_2.
  - intros k i. split; [destruct k; cbn; set_solver|]. by intros []%init_not_flagged.
  - intros b l Hb.
    apply (lookup_replicate (Z.to_nat ADV_TABLE_HASH_SIZE) [] l b) in Hb as [-> _]. split; [apply NoDup_nil_2|].
    intros i. split; [set_solver|]. by intros (m & []%init_not_live & _).
  - by intros i j m []%init_not_live.
  - by intros k i []%init_not_flagged.
Qed.

Lemma init_reports_ok : reports_ok (absr init_state).
Proof. vm_compute. repeat constructor; discriminate. Qed.

(** What every operation keeps: consistent links, and reports within their buffers. *)
Record table_ok (st : adv_table_t) : Prop := TableOk {
  ok_inv : table_inv st;
  ok_reports : reports_ok (absr st);
}.

Lemma init_ok : table_ok init_state.
Proof. split; [apply init_inv|apply init_reports_ok]. Qed.

Lemma table_ok_exec op st st' :
  table_ok st → op_wf op → table_inv st' → absr st' ≡ snd (spec_exec op (absr st)) → table_ok st'.
Proof. intros [_ Hok] Hwf Hi HA. split; [done|]. rewrite HA. by apply reports_ok_exec. Qed.
