(* ===== verification/AdvTableMap.v ===== *)
(** * The advertisement table as a bounded map from addresses to reports

    Reachable states of the table, the map view [report_of], and the lemmas that
    relate it to the abstract state used by the refinement. *)

From S2P Require Import Prelude AdvTable AdvTableInv AdvTableSpec AdvTableRefine.
Open Scope Z_scope.

(** States the firmware can be in after [adv_table_init] and any calls. *)
Inductive table_reachable : adv_table_t → Prop :=
| reach_init st0 es : (∃ s, run adv_table_init s tt st0 es) → table_reachable st0
| reach_op st op res st' es :
    table_reachable st → op_wf op → run (exec_op op) st res st' es → table_reachable st'.

(** The links of a reachable table are consistent, and its reports fit their buffers. *)
Lemma table_reachable_ok st : table_reachable st → table_ok st.
Proof.
  induction 1 as [st0 es (s & R)|st op res st' es _ [IH Hok] Hwf R].
  - unfold run in R. cbn in R. injection R as <- <-. apply init_ok.
  - destruct (exec_op_run op st IH Hok Hwf) as (r & s & R' & I & _ & A).
    destruct (run_det _ _ _ _ _ _ _ _ R R') as (_ & -> & _). split; [done|].
    rewrite A. by apply reports_ok_exec.
Qed.

Lemma table_reachable_inv st : table_reachable st → table_inv st.
Proof. by intros [? _]%table_reachable_ok. Qed.

Lemma table_reachable_init : table_reachable init_state.
Proof. eapply reach_init. exists init_state. reflexivity. Qed.

(** The lookup the hash table stands for: a scan of the whole array. *)
Definition is_tag (m : mac_address_bin_t) (e : adv_reports_list_elem_t) : Prop :=
  is_in_hash_table e = true ∧ tag_mac (adv_report e) = m.
#[export] Instance is_tag_dec m e : Decision (is_tag m e).
Proof. unfold is_tag. apply _. Defined.

Definition linear_search (m : mac_address_bin_t) (a : list adv_reports_list_elem_t) : option nat :=
  fst <$> list_find (is_tag m) a.

(** The report the table holds for an address. *)
Definition report_of (m : mac_address_bin_t) (st : adv_table_t) : option adv_report_t :=
  i ← linear_search m (arr st); adv_report <$> arr st !! i.

Lemma linear_search_live st i m :
  table_inv st → live_at (arr st) i m → linear_search m (arr st) = Some i.
Proof.
  intros Hinv Hlive. pose proof Hlive as (e & He & Ht).
  destruct (list_find_elem_of (is_tag m) _ _ (list_elem_of_lookup_2 _ _ _ He) Ht) as [[j e'] Hf].
  unfold linear_search. rewrite Hf. cbn. f_equal. apply list_find_Some in Hf as (Hj & Ht' & _).
  apply (inv_mac None st Hinv j i m); [by exists e'|done].
Qed.

Lemma linear_search_none a m : (∀ i, ¬ live_at a i m) → linear_search m a = None.
Proof.
  intros Hn. unfold linear_search. destruct (list_find (is_tag m) a) as [[j e]|] eqn:Hf; [|done].
  apply list_find_Some in Hf as (Hj & Ht & _). destruct (Hn j). by exists e.
Qed.

Lemma linear_search_some a i m : linear_search m a = Some i → live_at a i m.
Proof.
  unfold linear_search. destruct (list_find (is_tag m) a) as [[j e]|] eqn:Hf; [|done]. cbn.
  intros [= ->]. apply list_find_Some in Hf as (Hj & Ht & _). by exists e.
Qed.

Lemma linear_search_dec st m :
  (∃ i, live_at (arr st) i m) ∨ (∀ i, ¬ live_at (arr st) i m).
Proof.
  destruct (list_find (is_tag m) (arr st)) as [[i e]|] eqn:Hf.
  - left. apply list_find_Some in Hf as (Hj & Ht & _). exists i, e. done.
  - right. intros i (e & He & Ht). apply list_find_None in Hf.
    rewrite Forall_lookup in Hf. by apply (Hf i e).
Qed.

(** The map view is the lookup of the specification. *)
Lemma report_of_absr st m :
  table_inv st → report_of m st = se_report <$> spec_find m (s_hist (absr st)).
Proof.
  intros Hinv. unfold report_of. destruct (linear_search_dec st m) as [[i Hl]|Hn].
  - rewrite (linear_search_live st i m Hinv Hl).
    destruct (spec_find_live st Hinv i m Hl) as (e & He & ->). cbn. by rewrite He.
  - by rewrite (spec_find_none st m Hn), (linear_search_none _ _ Hn).
Qed.

(** ** Lookup after an update of the history *)

Lemma list_find_filter {A} (P Q : A → Prop) `{∀ x, Decision (P x), ∀ x, Decision (Q x)} l :
  (∀ x, x ∈ l → P x → Q x) → snd <$> list_find P (filter Q l) = snd <$> list_find P l.
Proof.
  induction l as [|x l IH]; intros Hl; [done|]. rewrite filter_cons. cbn.
  destruct (decide (P x)) as [Hp|Hp].
  - rewrite decide_True by (apply Hl; set_solver). cbn. by rewrite decide_True.
  - assert (He : ∀ o : option (nat * A), snd <$> (prod_map S id <$> o) = snd <$> o) by by intros [[]|].
    rewrite He, <- IH by set_solver. case_decide; [|done]. cbn. rewrite decide_False by done.
    apply He.
Qed.

Definition tagged (m : mac_address_bin_t) (e : spec_entry) : Prop :=
  se_live e = true ∧ tag_mac (se_report e) = m.

Lemma spec_find_cons m e l :
  spec_find m (e :: l) = if decide (tagged m e) then Some e else spec_find m l.
Proof.
  unfold spec_find, tagged. cbn. case_decide; [done|]. by destruct (list_find _ l) as [[]|].
Qed.

Lemma spec_find_filter m i l :
  (∀ e, e ∈ l → tagged m e → se_id e ≠ i) →
  spec_find m (filter (λ e, se_id e ≠ i) l) = spec_find m l.
Proof. intros Hl. by apply list_find_filter. Qed.

Lemma spec_find_gone m i l :
  (∀ e, e ∈ l → tagged m e → se_id e = i) → spec_find m (filter (λ e, se_id e ≠ i) l) = None.
Proof.
  intros Hl. unfold spec_find. rewrite (proj2 (list_find_None _ _)); [done|]. apply Forall_forall.
  intros e [Hne He]%list_elem_of_filter Ht. apply Hne. by apply Hl.
Qed.

Lemma spec_find_alter m i f l :
  (∀ r, tag_mac (f r) = tag_mac r) →
  spec_find m ((λ e, if decide (se_id e = i) then SpecEntry i (se_live e) (f (se_report e)) else e) <$> l)
  = (λ e, if decide (se_id e = i) then SpecEntry i (se_live e) (f (se_report e)) else e) <$> spec_find m l.
Proof.
  intros Hf. induction l as [|e l IH]; [done|]. rewrite fmap_cons, !spec_find_cons, IH.
  unfold tagged. destruct (decide (se_id e = i)) as [He|He]; cbn; [rewrite Hf|];
    case_decide; cbn; try (by rewrite ?decide_True by done); by rewrite ?decide_False by done.
Qed.

Lemma spec_find_in m l e : spec_find m l = Some e → e ∈ l ∧ tagged m e.
Proof.
  unfold spec_find. destruct (list_find _ l) as [[j e']|] eqn:Hf; [|done]. cbn. intros [= ->].
  apply list_find_Some in Hf as (Hj & Ht & _). split; [|done]. by eapply list_elem_of_lookup_2.
Qed.

(** In the history of a reachable table a tag has one entry and a slot has one entry. *)
Section absr.
Context (st : adv_table_t) (Hinv : table_inv st).

Lemma tagged_live m e : e ∈ s_hist (absr st) → tagged m e → live_at (arr st) (se_id e) m.
Proof.
  intros [_ He]%entries_in [Hl Hm]. unfold entry_of in He.
  destruct (arr st !! se_id e) as [x|] eqn:Hx; [|done]. cbn in He.
  exists x. split; [done|]. destruct e; cbn in *. by injection He as -> ->.
Qed.

Lemma tagged_unique m e e' :
  e ∈ s_hist (absr st) → tagged m e → e' ∈ s_hist (absr st) → tagged m e' → e = e'.
Proof.
  intros H1 T1 H2 T2. pose proof (inv_mac _ _ Hinv _ _ m (tagged_live m e H1 T1) (tagged_live m e' H2 T2)) as E.
  apply entries_in in H1 as [_ E1]. apply entries_in in H2 as [_ E2]. congruence.
Qed.

Lemma same_slot e e' : e ∈ s_hist (absr st) → e' ∈ s_hist (absr st) → se_id e = se_id e' → e = e'.
Proof. intros [_ E1]%entries_in [_ E2]%entries_in E. congruence. Qed.
End absr.

(** ** [adv_table_put] on the map *)

(** The tag whose report is overwritten by a report of a tag the table does not
    know: the one at the end of the history. *)
Definition evicted (r : adv_report_t) (st : adv_table_t) (m : mac_address_bin_t) : Prop :=
  report_of (tag_mac r) st = None ∧
  ∃ i, last (g_adv_reports_hist_list st) = Some i ∧ live_at (arr st) i m.

(** What the table holds for the tag of [r] after [adv_table_put r]. *)
Definition merge_report (old : option adv_report_t) (r : adv_report_t) : adv_report_t :=
  match old with
  | None => r
  | Some o =>
      if adds_nothing r o
      then o <| samples_counter := u32 (samples_counter o + 1) |>
      else r <| samples_counter := u32 (samples_counter o + 1) |>
  end.

Definition put_accepted (old : option adv_report_t) (r : adv_report_t) : bool :=
  match old with
  | None => true
  | Some o => negb (adds_nothing r o)
  end.

Lemma touch_find e s m :
  se_live e = true →
  spec_find m (s_hist (spec_touch e s)) =
    if decide (tag_mac (se_report e) = m) then Some e
    else spec_find m (filter (λ e', se_id e' ≠ se_id e) (s_hist s)).
Proof.
  intros Hl. unfold spec_touch. cbn [s_hist]. rewrite spec_find_cons. unfold tagged. rewrite Hl.
  destruct (decide (tag_mac (se_report e) = m)); [by rewrite decide_True|].
  rewrite decide_False; naive_solver.
Qed.

Lemma hist_last_some st :
  table_inv st → ∃ i e, last (g_adv_reports_hist_list st) = Some i ∧ arr st !! i = Some e ∧
    last (s_hist (absr st)) = Some (SpecEntry i (is_in_hash_table e) (adv_report e)).
Proof.
  intros Hinv. destruct (last (g_adv_reports_hist_list st)) as [i|] eqn:Hl; cycle 1.
  { apply last_None in Hl. pose proof (hist_length st Hinv) as H. by rewrite Hl in H. }
  assert (Hi : ∀ j, j ∈ g_adv_reports_hist_list st → is_Some (arr st !! j)).
  { intros j. rewrite (inv_hist_in None st Hinv). apply (inv_elem None st Hinv). }
  destruct (entries_last _ _ _ Hi Hl) as (e & He & Hel). by exists i, e.
Qed.

Lemma spec_put_map st r m :
  table_inv st →
  let s' := snd (spec_put r (absr st)) in
  (tag_mac r = m → se_report <$> spec_find m (s_hist s') = Some (merge_report (report_of m st) r)) ∧
  (tag_mac r ≠ m → evicted r st m → spec_find m (s_hist s') = None) ∧
  (tag_mac r ≠ m → ¬ evicted r st m → se_report <$> spec_find m (s_hist s') = report_of m st) ∧
  fst (spec_put r (absr st)) = put_accepted (report_of (tag_mac r) st) r.
Proof.
  intros Hinv s'. unfold s', spec_put, evicted. rewrite !(report_of_absr st _ Hinv).
  destruct (spec_find (tag_mac r) (s_hist (absr st))) as [e|] eqn:Hf; cbn [fmap option_fmap option_map].
  - apply spec_find_in in Hf as Hin. destruct Hin as [He [Hl Hm]].
    cbn [put_accepted].
    destruct (adds_nothing r (se_report e)) eqn:Hd; cbn [fst snd].
    + unfold spec_alter. cbn [s_hist]. rewrite !spec_find_alter by done. split_and!; [| |  |done].
      * intros <-. rewrite Hf. cbn. rewrite decide_True by done. cbn. by rewrite Hd.
      * by intros _ [[=] _].
      * intros Hne _. destruct (spec_find m _) as [e'|] eqn:Hf'; [|done]. cbn.
        apply spec_find_in in Hf' as [He' [_ Hm']].
        rewrite decide_False; [done|]. intros Hid. apply (same_slot st) in Hid; [congruence|done..].
    + rewrite touch_find by done. cbn [se_report se_id]. split_and!; [| | |done].
      * intros <-. rewrite decide_True by done. rewrite Hf. cbn. by rewrite Hd.
      * by intros _ [[=] _].
      * intros Hne _. rewrite decide_False by done. rewrite spec_find_filter; [done|].
        intros e' He' [_ Hm'] Hid. apply (same_slot st) in Hid; [congruence|done..].
  - destruct (hist_last_some st Hinv) as (i & e & Hlast & He & ->). cbn [fst snd se_id].
    rewrite touch_find by done. cbn [se_report se_id]. split_and!; [| | |done].
    + intros <-. rewrite decide_True by done. by rewrite Hf.
    + intros Hne (_ & i' & Hi' & Hl'). simplify_eq. rewrite decide_False by done.
      apply spec_find_gone. intros e' He' Ht'.
      apply (inv_mac _ _ Hinv _ _ m); [by apply tagged_live|done].
    + intros Hne Hnev. rewrite decide_False by done. rewrite spec_find_filter; [done|].
      intros e' He' Ht' Hid. destruct Hnev. split; [done|]. exists i. split; [done|].
      rewrite <- Hid. by apply tagged_live.
Qed.

Lemma report_of_tag st m r : report_of m st = Some r → tag_mac r = m.
Proof.
  unfold report_of. destruct (linear_search m (arr st)) as [i|] eqn:Hs; [|done]. cbn.
  apply linear_search_some in Hs as (e & -> & _ & Hm). cbn. by intros [= <-].
Qed.

Lemma merge_report_tag st r : tag_mac (merge_report (report_of (tag_mac r) st) r) = tag_mac r.
Proof.
  destruct (report_of (tag_mac r) st) as [o|] eqn:Ho; [|done]. cbn. case_match; [|done].
  cbn. by apply report_of_tag in Ho.
Qed.
