(* ===== verification/AdvTableHist.v ===== *)
(** * Order of the history and contents of the queues of the advertisement table *)

From S2P Require Import Prelude AdvTable AdvTableInv AdvTableSpec AdvTableRefine AdvTableMap.
Open Scope Z_scope.

(** ** Time-ordered use of the table *)

(** The calls [ops] put valid non-empty reports with non-decreasing timestamps, the
    first not before [t] and the last at [t']. *)
Inductive timed_ops : Z → list table_op → Z → Prop :=
| timed_nil t : timed_ops t [] t
| timed_put t r ops t' :
    data_len r ≠ 0 → op_wf (OpPut r) → t ≤ timestamp r → timed_ops (timestamp r) ops t' →
    timed_ops t (OpPut r :: ops) t'
| timed_other t op ops t' :
    op_wf op → (∀ r, op ≠ OpPut r) → timed_ops t ops t' → timed_ops t (op :: ops) t'.

Lemma timed_ops_wf t ops t' : timed_ops t ops t' → Forall op_wf ops.
Proof. induction 1; constructor; done. Qed.

(** A history in order at time [t]: reports with non-increasing timestamps, the
    latest at [t] at most, followed by the empty slots. *)
Fixpoint hist_ordered (t : Z) (l : list adv_report_t) : Prop :=
  match l with
  | [] => True
  | r :: l' =>
      if data_len r =? 0 then Forall (λ r, data_len r = 0) l'
      else 0 ≤ timestamp r ≤ t ∧ hist_ordered (timestamp r) l'
  end.

Lemma hist_ordered_le t t' l : t ≤ t' → hist_ordered t l → hist_ordered t' l.
Proof. destruct l; cbn; [done|]. case_match; [done|]. intros ? [? ?]. split; [lia|done]. Qed.

Lemma hist_ordered_empty t l : Forall (λ r, data_len r = 0) l → hist_ordered t l.
Proof. destruct 1 as [|r l Hr Hl]; cbn; [done|]. by rewrite Hr. Qed.

Lemma hist_ordered_filter (P : spec_entry → Prop) `{∀ x, Decision (P x)} t l :
  hist_ordered t (se_report <$> l) → hist_ordered t (se_report <$> filter P l).
Proof.
  revert t. induction l as [|e l IH]; intros t Hl; [done|]. rewrite filter_cons.
  cbn in Hl. destruct (data_len (se_report e) =? 0) eqn:He.
  - apply hist_ordered_empty. apply Forall_fmap. apply Z.eqb_eq in He.
    assert (Forall (λ e, data_len (se_report e) = 0) (filter P l)).
    { rewrite Forall_fmap in Hl. apply Forall_forall. intros x [_ Hx]%list_elem_of_filter.
      rewrite Forall_forall in Hl. by apply Hl. }
    case_decide; [by constructor|done].
  - destruct Hl as [Ht Hl]. case_decide; cbn; [rewrite He; eauto|].
    eapply hist_ordered_le; [|by apply IH]. lia.
Qed.

(** Changing neither timestamps nor lengths keeps the order. *)
Lemma hist_ordered_ext t l l' :
  Forall2 (λ r r', timestamp r = timestamp r' ∧ data_len r = data_len r') l l' →
  hist_ordered t l → hist_ordered t l'.
Proof.
  intros Hl. revert t. induction Hl as [|r r' l l' [Ht Hd] Hl IH]; intros t; [done|]. cbn.
  rewrite Hd, Ht. case_match; [|naive_solver]. intros HF.
  clear IH. induction Hl as [|x x' l l' [_ Hx] Hl IH]; [done|].
  inversion_clear HF. constructor; [congruence|eauto].
Qed.

Lemma hist_ordered_alter t i f l :
  (∀ r, timestamp (f r) = timestamp r ∧ data_len (f r) = data_len r) →
  hist_ordered t (se_report <$> l) →
  hist_ordered t (se_report <$>
    ((λ e, if decide (se_id e = i) then SpecEntry i (se_live e) (f (se_report e)) else e) <$> l)).
Proof.
  intros Hf. apply hist_ordered_ext. induction l as [|e l IH]; constructor; [|done].
  case_decide; cbn; [|done]. by destruct (Hf (se_report e)) as [-> ->].
Qed.

Lemma hist_ordered_reset t l :
  hist_ordered t (se_report <$> l) → hist_ordered t (se_report <$> reset_counters l).
Proof.
  apply hist_ordered_ext.
  assert (∀ x : list adv_report_t, Forall2 (λ r r', timestamp r = timestamp r' ∧ data_len r = data_len r') x x)
    as Hr by by induction x; constructor.
  induction l as [|e l IH]; [done|]. cbn. case_match; [apply Hr|]. by constructor.
Qed.

Lemma spec_put_ordered t r s :
  data_len r ≠ 0 → t ≤ timestamp r → 0 ≤ t → hist_ordered t (se_report <$> s_hist s) →
  hist_ordered (timestamp r) (se_report <$> s_hist (snd (spec_put r s))).
Proof.
  intros Hd Ht H0 Hs.
  assert (Htouch : ∀ e, timestamp (se_report e) = timestamp r → data_len (se_report e) = data_len r →
    hist_ordered (timestamp r) (se_report <$> s_hist (spec_touch e s))).
  { intros e Et Ed. cbn. rewrite Ed, Et, (proj2 (Z.eqb_neq _ _) Hd). split; [lia|].
    apply hist_ordered_filter. by eapply hist_ordered_le. }
  assert (Hle : hist_ordered (timestamp r) (se_report <$> s_hist s)) by by eapply hist_ordered_le.
  unfold spec_put. destruct (spec_find _ _) as [e|].
  - destruct (adds_nothing r (se_report e)); cbn [snd].
    + by apply hist_ordered_alter.
    + by apply Htouch.
  - destruct (last (s_hist s)); cbn [snd]; [by apply Htouch|done].
Qed.

Lemma spec_exec_ordered t op s :
  (∀ r, op ≠ OpPut r) → hist_ordered t (se_report <$> s_hist s) →
  hist_ordered t (se_report <$> s_hist (snd (spec_exec op s))).
Proof.
  intros Hop Hs. destruct op as [r|k p| | |p t0 ut f uf|p|]; cbn; try done.
  - by destruct (Hop r).
  - by destruct (s_pending s RL3).
  - by apply hist_ordered_reset.
  - apply hist_ordered_empty. rewrite !Forall_fmap. by apply Forall_true.
Qed.

Lemma spec_ops_ordered t ops t' s :
  timed_ops t ops t' → 0 ≤ t → hist_ordered t (se_report <$> s_hist s) →
  0 ≤ t' ∧ hist_ordered t' (se_report <$> s_hist (snd (spec_exec_ops ops s))).
Proof.
  intros Ht. revert s. induction Ht as [t|t r ops t' Hd _ Ht Hops IH|t op ops t' Hwf Hop Hops IH];
    intros s H0 Hs; [done| |]; cbn.
  - destruct (spec_put r s) as [b s1] eqn:Hp. destruct (IH s1) as [? IH'].
    + lia.
    + pose proof (spec_put_ordered t r s Hd Ht H0 Hs) as H. by rewrite Hp in H.
    + by destruct (spec_exec_ops ops s1).
  - destruct (spec_exec op s) as [b s1] eqn:Hp. destruct (IH s1) as [? IH'].
    + lia.
    + pose proof (spec_exec_ordered t op s Hop Hs) as H. by rewrite Hp in H.
    + by destruct (spec_exec_ops ops s1).
Qed.

(** ** The history window *)

(** The reports a history request asks for. *)
Definition wanted (cur_time : Z) (use_ts : bool) (filter : Z) (use_filter : bool) (r : adv_report_t) : bool :=
  negb (data_len r =? 0) &&
  (negb use_filter || (if use_ts then cur_time - timestamp r <=? filter else filter <? timestamp r)).

Lemma in_history_wanted cur ut f uf r :
  0 ≤ timestamp r ≤ cur → cur < 2 ^ 31 → 0 ≤ f < 2 ^ 31 →
  in_history cur ut f uf r = wanted cur ut f uf r.
Proof.
  intros Hr Hc Hf. unfold in_history, wanted, history_stop, u32, i32.
  destruct (data_len r =? 0), ut, uf; cbn [negb andb orb]; try done.
  - rewrite Z.mod_small by lia. lia.
  - destruct (decide (f ≤ timestamp r)).
    + rewrite (Z.mod_small (timestamp r - f)) by lia. rewrite Z.mod_small by lia. lia.
    + replace (timestamp r - f) with (2 ^ 32 + timestamp r - f + (-1) * 2 ^ 32) by lia.
      rewrite Z.mod_add by lia. rewrite (Z.mod_small (2 ^ 32 + timestamp r - f)) by lia.
      replace (2 ^ 32 + timestamp r - f + 2 ^ 31) with (timestamp r - f + 2 ^ 31 + 1 * 2 ^ 32) by lia.
      rewrite Z.mod_add by lia. rewrite Z.mod_small by lia. lia.
Qed.

Lemma take_while_none {A} (P : A → bool) l : Forall (λ x, P x = false) l → take_while P l = [].
Proof. destruct 1 as [|x l Hx _]; [done|]. cbn. by rewrite Hx. Qed.

Lemma filter_none_bool {A} (P : A → bool) l : Forall (λ x, P x = false) l → List.filter P l = [].
Proof. induction 1 as [|x l Hx _ IH]; [done|]. cbn. by rewrite Hx. Qed.

Lemma hist_ordered_none t cur ut f uf l :
  hist_ordered t l →
  (∀ r', 0 ≤ timestamp r' ≤ t → wanted cur ut f uf r' = false ∨ data_len r' = 0) →
  Forall (λ r, wanted cur ut f uf r = false) l.
Proof.
  revert t. induction l as [|r l IH]; intros t Hl Hw; [done|]. cbn in Hl.
  destruct (data_len r =? 0) eqn:Hd.
  - constructor; [unfold wanted; by rewrite Hd|]. eapply Forall_impl; [exact Hl|].
    intros x Hx. cbn in Hx. unfold wanted. by rewrite Hx.
  - destruct Hl as [Ht Hl]. constructor.
    + destruct (Hw r Ht) as [|E]; [done|]. lia.
    + apply (IH _ Hl). intros r' Hr'. apply Hw. lia.
Qed.

(** On an ordered history, stopping at the first unwanted report misses nothing. *)
Lemma history_window_filter t cur ut f uf l :
  hist_ordered t l → t ≤ cur → cur < 2 ^ 31 → 0 ≤ f < 2 ^ 31 →
  take_while (in_history cur ut f uf) l = List.filter (wanted cur ut f uf) l.
Proof.
  revert t. induction l as [|r l IH]; intros t Hl Ht Hc Hf; [done|]. cbn in Hl |- *.
  destruct (data_len r =? 0) eqn:Hd.
  - unfold in_history at 1, wanted at 1. rewrite Hd. cbn. symmetry. apply filter_none_bool.
    eapply Forall_impl; [exact Hl|]. intros x Hx. cbn in Hx. unfold wanted. by rewrite Hx.
  - destruct Hl as [Hr Hl]. rewrite in_history_wanted by lia.
    destruct (wanted cur ut f uf r) eqn:Hw; [by rewrite (IH (timestamp r)) by (done || lia)|].
    symmetry. apply filter_none_bool. apply (hist_ordered_none _ _ _ _ _ _ Hl).
    intros r' Hr'. unfold wanted in Hw |- *. rewrite Hd in Hw. cbn [negb andb] in Hw.
    destruct (data_len r' =? 0) eqn:Hd'; [right; lia|]. left. cbn [negb andb].
    destruct uf, ut; cbn [negb orb] in *; try done; lia.
Qed.

(** ** Contents of the queues *)

Section queues.
Context (st : adv_table_t) (Hinv : table_inv st).

(** The reports waiting in queue [k]. *)
Definition pending_reports (k : rl_id) : list adv_report_t :=
  omap (λ i, adv_report <$> arr st !! i) (rl_list k st).

Lemma pending_lookup k : omap (spec_lookup (absr st)) (rl_list k st) = pending_reports k.
Proof.
  apply list_omap_ext, Forall_Forall2_diag, Forall_forall. intros i Hi.
  apply spec_lookup_absr; [done|]. by eapply (pending_lt st Hinv).
Qed.

Lemma pending_in k r :
  r ∈ pending_reports k → ∃ i, i ∈ rl_list k st ∧ live_at (arr st) i (tag_mac r) ∧
    adv_report <$> arr st !! i = Some r.
Proof.
  intros (i & Hi & Hr)%list_elem_of_omap. exists i. split_and!; [done| |done].
  pose proof Hi as Hfl. apply (inv_rl None st Hinv) in Hfl.
  destruct (inv_rl_live None st Hinv _ _ Hfl) as [[=]|[m Hm]].
  pose proof Hm as (e & He & _ & Hmac). rewrite He in Hr. cbn in Hr. injection Hr as <-.
  by rewrite Hmac.
Qed.

Lemma pending_nodup k : NoDup (tag_mac <$> pending_reports k).
Proof.
  unfold pending_reports.
  assert (Hall : ∀ i, i ∈ rl_list k st → ∃ m, live_at (arr st) i m).
  { intros i Hi. apply (inv_rl None st Hinv) in Hi.
    by destruct (inv_rl_live None st Hinv _ _ Hi) as [[=]|]. }
  pose proof (inv_rl_nodup None st Hinv k) as Hnd.
  induction (rl_list k st) as [|i l IH]; [by apply NoDup_nil_2|].
  apply NoDup_cons in Hnd as [Hni Hnd]. cbn.
  destruct (Hall i ltac:(set_solver)) as (m & e & He & Hl & Hm). rewrite He. cbn.
  apply NoDup_cons. split; [|apply IH; [set_solver|done]].
  intros (r & Hr & (j & Hj & Hrj)%list_elem_of_omap)%list_elem_of_fmap.
  destruct (Hall j ltac:(set_solver)) as (m' & e' & He' & Hl' & Hm').
  rewrite He' in Hrj. cbn in Hrj. injection Hrj as <-.
  assert (i = j) as <-; [|done]. apply (inv_mac None st Hinv i j m).
  - by exists e.
  - exists e'. split_and!; [done..|congruence].
Qed.
End queues.

(** A list with at most one element per key has exactly one for the key of a member. *)
Lemma filter_key_unique {A B} `{EqDecision B} (f : A → B) l x :
  NoDup (f <$> l) → x ∈ l → filter (λ y, f y = f x) l = [x].
Proof.
  induction l as [|y l IH]; intros Hnd Hx; [set_solver|]. cbn in Hnd.
  apply NoDup_cons in Hnd as [Hy Hnd]. rewrite filter_cons. apply elem_of_cons in Hx as [->|Hx].
  - rewrite decide_True by done. f_equal. clear IH Hnd. induction l as [|z l IH]; [done|].
    rewrite filter_cons. cbn in Hy. rewrite decide_False by set_solver. apply IH. set_solver.
  - rewrite decide_False; [eauto|]. intros E. apply Hy. rewrite E. by apply list_elem_of_fmap_2.
Qed.

(** An accepted report is waiting in every queue. *)
Lemma put_accepted_pending st r st' :
  table_inv st → table_inv st' → absr st' ≡ snd (spec_put r (absr st)) →
  fst (spec_put r (absr st)) = true →
  ∀ k, merge_report (report_of (tag_mac r) st) r ∈ pending_reports st' k.
Proof.
  intros Hinv Hinv' A Hb k.
  assert (Hpush : ∀ i l, i ∈ pend_push i l).
  { intros i l. unfold pend_push. case_decide; [done|]. set_solver. }
  destruct (spec_put_map st r (tag_mac r) Hinv) as (Hm & _). specialize (Hm eq_refl).
  assert (Ht : ∃ e, snd (spec_put r (absr st)) = spec_touch e (absr st) ∧
    se_report <$> spec_find (tag_mac r) (s_hist (snd (spec_put r (absr st)))) = Some (se_report e)).
  { revert Hb Hm. unfold spec_put. destruct (spec_find (tag_mac r) (s_hist (absr st))) as [e|] eqn:Hf.
    - destruct (adds_nothing r (se_report e)); [done|]. cbn [fst snd].
      intros _ _. eexists. split; [reflexivity|]. rewrite touch_find by done.
      by rewrite decide_True by done.
    - destruct (last (s_hist (absr st))) as [e|]; [|done]. cbn [fst snd].
      intros _ _. eexists. split; [reflexivity|]. rewrite touch_find by done.
      by rewrite decide_True by done. }
  destruct Ht as (e & He & Hf). rewrite Hm in Hf. injection Hf as ->.
  destruct A as [Ah Ap]. rewrite He in Ah, Ap.
  assert (Hin : e ∈ s_hist (absr st')) by (rewrite Ah; cbn; set_solver).
  apply entries_in in Hin as [_ Heo]. unfold pending_reports. apply list_elem_of_omap.
  exists (se_id e). split.
  - change (rl_list k st') with (s_pending (absr st') k). rewrite Ap. apply Hpush.
  - unfold entry_of in Heo. destruct (arr st' !! se_id e); [|done]. cbn in *.
    by injection Heo as <-.
Qed.
