(* ===== verification/AdvTableProps.v ===== *)
(** * Properties of the advertisement table *)

From S2P Require Import Prelude AdvTable AdvTableInv AdvTableSpec AdvTableRefine AdvTableMap AdvTableHist.
Open Scope Z_scope.

(** A report and buffer used by the witnesses. *)
Definition sample_report (b t : Z) : adv_report_t :=
  AdvReport t 1 [b; 1; 2; 3; 4; 5] (-60) 1 0 37 false 0 3 (replicate 48 b).
Definition sample_buffer : adv_report_table_t := AdvReportTable 0 (replicate MAX_ADVS_TABLE zero_report).

(** C1. From initialisation on, any sequence of calls of the table's interface, with
    reports whose length is at most the 48 bytes of their buffer ([op_wf]), terminates without fault, takes and releases the mutex once per call, returns
    the results of the specification (a history of slots and one queue per
    consumer), and leaves the table in a state that represents the specified one. *)
Theorem adv_table_refines (ops : list table_op) :
  Forall op_wf ops →
  ∃ rs st, run (adv_table_init ;; exec_ops ops) init_state rs st
             (AdvMutexCreate :: concat (replicate (length ops) [AdvMutexLock; AdvMutexUnlock])) ∧
    rs = fst (spec_exec_ops ops (absr init_state)) ∧
    absr st ≡ snd (spec_exec_ops ops (absr init_state)).
Proof.
  intros Hwf. destruct (exec_ops_run ops init_state init_inv init_reports_ok Hwf) as (rs & st & R & _ & E & A).
  exists rs, st. split_and!; [|done..].
  change (AdvMutexCreate :: ?l) with ([AdvMutexCreate] ++ l). eapply run_bind; [|exact R].
  reflexivity.
Qed.

Lemma adv_table_refines_witness :
  ∃ rs st, run (adv_table_init ;; exec_ops [OpPut (sample_report 7 5); OpReadRl RL3 sample_buffer; OpClear])
    init_state rs st
    (AdvMutexCreate :: concat (replicate 3 [AdvMutexLock; AdvMutexUnlock])) ∧
    rs = [ResBool true; ResReports [sample_report 7 5]; ResUnit] ∧
    absr st ≡ snd (spec_exec_ops [OpPut (sample_report 7 5); OpReadRl RL3 sample_buffer; OpClear]
                     (absr init_state)).
Proof.
  apply (adv_table_refines [OpPut (sample_report 7 5); OpReadRl RL3 sample_buffer; OpClear]).
  repeat constructor; discriminate.
Defined.

(** C4. In every reachable state the table is well formed: all slots are in the
    history once, a queue holds a slot once and exactly when the slot's flag says
    so, the buckets hold exactly the linked slots under their own address, no two
    linked slots have the same address, queued slots are linked, the report of every
    slot fits its buffer; and every call on it, with a report that fits its buffer,
    completes without a failed assertion or an invalid access. *)
Theorem adv_table_safe (st : adv_table_t) (op : table_op) :
  table_reachable st → op_wf op →
  (length (arr st) = MAX_ADVS_TABLE ∧ g_adv_reports_hist_list st ≡ₚ seq 0 MAX_ADVS_TABLE ∧
   (∀ k, NoDup (rl_list k st) ∧ ∀ i, i ∈ rl_list k st ↔ flag_at (arr st) k i) ∧
   hash_ok (arr st) (g_adv_hash_table st) ∧
   (∀ i j m, live_at (arr st) i m → live_at (arr st) j m → i = j) ∧
   (∀ k i, i ∈ rl_list k st → ∃ m, live_at (arr st) i m) ∧
   (∀ i e, arr st !! i = Some e → data_len (adv_report e) ≤ ADV_DATA_MAX_LEN)) ∧
  safe (exec_op op) st.
Proof.
  intros Hr Hwf. apply table_reachable_ok in Hr as [Hinv Hok].
  destruct (exec_op_run op st Hinv Hok Hwf) as (r & st' & R & _). split; [|by exists r, st', locked].
  pose proof (λ i e, elem_fits st i e Hinv Hok) as Hfit. destruct Hinv. split_and!; try done.
  intros k i Hi. apply inv_rl in Hi. by destruct (inv_rl_live k i Hi) as [[=]|].
Qed.

Lemma adv_table_safe_witness :
  (length (arr init_state) = MAX_ADVS_TABLE ∧
   g_adv_reports_hist_list init_state ≡ₚ seq 0 MAX_ADVS_TABLE ∧
   (∀ k, NoDup (rl_list k init_state) ∧ ∀ i, i ∈ rl_list k init_state ↔ flag_at (arr init_state) k i) ∧
   hash_ok (arr init_state) (g_adv_hash_table init_state) ∧
   (∀ i j m, live_at (arr init_state) i m → live_at (arr init_state) j m → i = j) ∧
   (∀ k i, i ∈ rl_list k init_state → ∃ m, live_at (arr init_state) i m) ∧
   (∀ i e, arr init_state !! i = Some e → data_len (adv_report e) ≤ ADV_DATA_MAX_LEN)) ∧
  safe (exec_op (OpPut (sample_report 7 5))) init_state.
Proof. apply adv_table_safe; [apply table_reachable_init|split; [discriminate|reflexivity]]. Defined.

(** C17. Looking an address up through the hash table gives the slot a scan of the
    whole array would find, and changes nothing. *)
Theorem adv_hash_table_search_linear (st : adv_table_t) (mac : mac_address_bin_t) :
  table_reachable st →
  run (adv_hash_table_search mac) st (linear_search mac (arr st)) st [].
Proof.
  intros Hinv%table_reachable_inv. destruct (hash_search_run st None mac Hinv) as (o & R & Hs).
  destruct o as [i|].
  - by rewrite (linear_search_live st i mac Hinv Hs).
  - by rewrite (linear_search_none _ _ Hs).
Qed.

Lemma adv_hash_table_search_linear_witness :
  run (adv_hash_table_search [7; 1; 2; 3; 4; 5]) init_state None init_state [].
Proof. apply (adv_hash_table_search_linear init_state). apply table_reachable_init. Defined.

(** C7. [adv_table_put] updates the map from addresses to reports: the tag of the
    report gets the merged report (the new one with the old counter plus one, or
    the old one with its counter plus one when the new one [adds_nothing]);
    a new tag takes the slot at the end of the history, whose tag is forgotten;
    every other tag keeps its report.  It returns whether the report was taken.  It
    holds for any report: the reports already in the table fit their buffers, so that
    only bytes of both buffers are compared. *)
Theorem adv_table_put_map (st : adv_table_t) (r : adv_report_t) :
  table_reachable st →
  ∃ st', run (adv_table_put r) st (put_accepted (report_of (tag_mac r) st) r) st'
           [AdvMutexLock; AdvMutexUnlock] ∧
    report_of (tag_mac r) st' = Some (merge_report (report_of (tag_mac r) st) r) ∧
    (∀ m, m ≠ tag_mac r → evicted r st m → report_of m st' = None) ∧
    (∀ m, m ≠ tag_mac r → ¬ evicted r st m → report_of m st' = report_of m st).
Proof.
  intros [Hinv Hok]%table_reachable_ok.
  destruct (put_unsafe_run st r Hinv Hok) as (b & st' & R & I & Hb & [A _]). exists st'.
  pose proof (λ m, spec_put_map st r m Hinv) as Hm. split_and!.
  - destruct (Hm (tag_mac r)) as (_ & _ & _ & <-). rewrite <- Hb. by apply with_mutex_run.
  - rewrite (report_of_absr st' _ I), A. by apply Hm.
  - intros m Hne He. rewrite (report_of_absr st' _ I), A. by rewrite (proj1 (proj2 (Hm m))) by done.
  - intros m Hne He. rewrite (report_of_absr st' _ I), A. by apply Hm.
Qed.

Lemma adv_table_put_map_witness :
  ∃ st', run (adv_table_put (sample_report 7 5)) init_state true st' [AdvMutexLock; AdvMutexUnlock] ∧
    report_of [7; 1; 2; 3; 4; 5] st' = Some (sample_report 7 5) ∧
    (∀ m, m ≠ [7; 1; 2; 3; 4; 5] → evicted (sample_report 7 5) init_state m → report_of m st' = None) ∧
    (∀ m, m ≠ [7; 1; 2; 3; 4; 5] → ¬ evicted (sample_report 7 5) init_state m →
       report_of m st' = report_of m init_state).
Proof. apply (adv_table_put_map init_state (sample_report 7 5)). apply table_reachable_init. Defined.

(** C18. Reading a retransmission list returns exactly the waiting reports, in the
    order in which they started waiting and at most one per tag, empties that
    list and only that list, and keeps every report in the table. *)
Theorem adv_table_read_list (st : adv_table_t) (k : rl_id) (p : adv_report_table_t) :
  table_reachable st → length (table p) = MAX_ADVS_TABLE →
  ∃ p' st', run (read_rl_op k p) st p' st' [AdvMutexLock; AdvMutexUnlock] ∧
    num_of_advs p' = Z.of_nat (length (rl_list k st)) ∧
    take (length (rl_list k st)) (table p') = pending_reports st k ∧
    NoDup (tag_mac <$> pending_reports st k) ∧
    rl_list k st' = [] ∧ (∀ k', k' ≠ k → rl_list k' st' = rl_list k' st) ∧
    (∀ m, report_of m st' = report_of m st).
Proof.
  intros Hinv%table_reachable_inv Hp.
  destruct (read_rl_op_run k p st Hinv Hp) as (p' & st' & R & I & F & [A1 A2]).
  rewrite (pending_lookup st Hinv) in F. exists p', st'.
  assert (Hlen : length (pending_reports st k) = length (rl_list k st)).
  { unfold pending_reports. apply length_omap_some. intros i Hi. apply fmap_is_Some.
    apply (inv_elem None st Hinv). by eapply (pending_lt st Hinv). }
  destruct F as [F1 _ F3]. rewrite Hlen in F1, F3. split_and!; try done.
  - by apply pending_nodup.
  - change (rl_list k st') with (s_pending (absr st') k). rewrite A2. cbn. by rewrite decide_True.
  - intros k' Hne. change (rl_list k' st') with (s_pending (absr st') k'). rewrite A2. cbn.
    by rewrite decide_False.
  - intros m. rewrite (report_of_absr st' m I), (report_of_absr st m Hinv). by rewrite A1.
Qed.

Lemma adv_table_read_list_witness :
  ∃ p' st', run (read_rl_op RL2 sample_buffer) init_state p' st' [AdvMutexLock; AdvMutexUnlock] ∧
    num_of_advs p' = 0 ∧ take 0 (table p') = [] ∧ NoDup (tag_mac <$> pending_reports init_state RL2) ∧
    rl_list RL2 st' = [] ∧ (∀ k', k' ≠ RL2 → rl_list k' st' = rl_list k' init_state) ∧
    (∀ m, report_of m st' = report_of m init_state).
Proof.
  apply (adv_table_read_list init_state RL2 sample_buffer); [apply table_reachable_init|done].
Defined.

(** C19. After [adv_table_put] has taken a report, reading any of the lists gives
    exactly one report of its tag, the merged one; a report that was discarded
    leaves the lists as they were. *)
Theorem adv_table_put_then_read (st : adv_table_t) (k : rl_id) (r : adv_report_t)
    (p : adv_report_table_t) :
  table_reachable st → length (table p) = MAX_ADVS_TABLE →
  ∃ p' st', run (b ← adv_table_put r; p' ← read_rl_op k p; mret (b, p')) st
      (put_accepted (report_of (tag_mac r) st) r, p') st'
      [AdvMutexLock; AdvMutexUnlock; AdvMutexLock; AdvMutexUnlock] ∧
    if put_accepted (report_of (tag_mac r) st) r
    then filter (λ x, tag_mac x = tag_mac r) (take (Z.to_nat (num_of_advs p')) (table p'))
         = [merge_report (report_of (tag_mac r) st) r]
    else num_of_advs p' = Z.of_nat (length (rl_list k st)).
Proof.
  intros [Hinv Hok]%table_reachable_ok Hp.
  destruct (put_unsafe_run st r Hinv Hok) as (b & s1 & R1 & I1 & Hb & A1).
  destruct (read_rl_op_run k p s1 I1 Hp) as (p' & st' & R2 & I2 & F & A2).
  rewrite (pending_lookup s1 I1) in F.
  destruct (spec_put_map st r (tag_mac r) Hinv) as (_ & _ & _ & Hacc). rewrite <- Hacc, <- Hb.
  exists p', st'. split.
  - eapply (run_bind _ _ _ _ _ locked _ _ locked); [by apply with_mutex_run|].
    by apply (run_result _ (λ p', (b, p'))).
  - destruct F as [F1 _ F3]. destruct b.
    + rewrite F1, Nat2Z.id, F3.
      assert (Hb1 : fst (spec_put r (absr st)) = true) by done.
      pose proof (filter_key_unique tag_mac _ _ (pending_nodup s1 I1 k)
        (put_accepted_pending st r s1 Hinv I1 A1 Hb1 k)) as Hfl.
      by rewrite merge_report_tag in Hfl.
    + rewrite F1. unfold pending_reports. rewrite length_omap_some.
      * destruct A1 as [_ A1]. change (rl_list k s1) with (s_pending (absr s1) k). rewrite A1.
        symmetry in Hb. revert Hb. unfold spec_put.
        destruct (spec_find _ _) as [e|]; [|destruct (last _)]; [|done..].
        destruct (adds_nothing r (se_report e)); done.
      * intros i Hi. apply fmap_is_Some. apply (inv_elem None s1 I1). by eapply (pending_lt s1 I1).
Qed.

Lemma adv_table_put_then_read_witness :
  ∃ p' st', run (b ← adv_table_put (sample_report 7 5); p' ← read_rl_op RL1 sample_buffer; mret (b, p'))
      init_state (true, p') st' [AdvMutexLock; AdvMutexUnlock; AdvMutexLock; AdvMutexUnlock] ∧
    filter (λ x, tag_mac x = [7; 1; 2; 3; 4; 5]) (take (Z.to_nat (num_of_advs p')) (table p'))
      = [sample_report 7 5].
Proof.
  apply (adv_table_put_then_read init_state RL1 (sample_report 7 5) sample_buffer);
    [apply table_reachable_init|done].
Defined.

(** C20. When valid reports are put with non-decreasing timestamps, a history request
    returns exactly the reports it asks for (age at most the filter, or counter
    above the filter), newest first: stopping at the first report outside the
    window misses none. *)
Theorem adv_table_history_complete (ops : list table_op) (t cur_time filter : Z) (use_ts use_filter : bool)
    (p : adv_report_table_t) :
  timed_ops 0 ops t → t ≤ cur_time < 2 ^ 31 → 0 ≤ filter < 2 ^ 31 → length (table p) = MAX_ADVS_TABLE →
  ∃ rs st p', run (exec_ops ops) init_state rs st (concat (replicate (length ops) locked)) ∧
    run (adv_table_history_read p cur_time use_ts filter use_filter) st p' st locked ∧
    take (Z.to_nat (num_of_advs p')) (table p')
      = List.filter (wanted cur_time use_ts filter use_filter) (se_report <$> s_hist (absr st)) ∧
    hist_ordered t (se_report <$> s_hist (absr st)).
Proof.
  intros Ht Hc Hf Hp. pose proof (timed_ops_wf _ _ _ Ht) as Hwf.
  destruct (exec_ops_run ops init_state init_inv init_reports_ok Hwf) as (rs & st & R & I & _ & [A _]).
  destruct (history_run p cur_time use_ts filter use_filter st I Hp) as (p' & R' & [F1 _ F3]).
  destruct (spec_ops_ordered 0 ops t (absr init_state) Ht) as [H0 Ho]; [lia| |].
  { apply hist_ordered_empty. vm_compute. repeat constructor. }
  rewrite <- A in Ho. exists rs, st, p'. split_and!; [done|done| |done].
  rewrite F1, Nat2Z.id, F3. apply (history_window_filter t); (done || lia).
Qed.

Lemma adv_table_history_complete_witness :
  ∃ rs st p', run (exec_ops [OpPut (sample_report 7 5); OpPut (sample_report 8 6)]) init_state rs st
      (concat (replicate 2 locked)) ∧
    run (adv_table_history_read sample_buffer 10 true 4 true) st p' st locked ∧
    take (Z.to_nat (num_of_advs p')) (table p')
      = List.filter (wanted 10 true 4 true) (se_report <$> s_hist (absr st)) ∧
    hist_ordered 6 (se_report <$> s_hist (absr st)).
Proof.
  apply (adv_table_history_complete [OpPut (sample_report 7 5); OpPut (sample_report 8 6)] 6 10 4 true true
           sample_buffer); [|lia|lia|done].
  repeat (apply timed_put; [done|split; [discriminate|reflexivity]|cbn; lia|]). apply timed_nil.
Defined.
