(* ===== verification/EventMgr.v ===== *)
(** * The event manager (src/main/event_mgr.c)

    For every event a queue of subscribers, each a signal number of a task's
    signal object.  Subscriber records are nodes of a store: some are allocated,
    some are static memory of the subscriber. *)

From S2P Require Import Prelude.
Open Scope Z_scope.

(** ** Data *)

Inductive event_mgr_ev_e :=
| EVENT_MGR_EV_NONE
| EVENT_MGR_EV_REBOOT
| EVENT_MGR_EV_WIFI_AP_STARTED
| EVENT_MGR_EV_WIFI_AP_STOPPED
| EVENT_MGR_EV_WPS_ACTIVATED
| EVENT_MGR_EV_WPS_DEACTIVATED
| EVENT_MGR_EV_WIFI_AP_STA_CONNECTED
| EVENT_MGR_EV_WIFI_AP_STA_DISCONNECTED
| EVENT_MGR_EV_WIFI_CONNECTED
| EVENT_MGR_EV_WIFI_DISCONNECTED
| EVENT_MGR_EV_ETH_CONNECTED
| EVENT_MGR_EV_ETH_DISCONNECTED
| EVENT_MGR_EV_TIME_SYNCHRONIZED
| EVENT_MGR_EV_GW_CFG_READY
| EVENT_MGR_EV_GW_CFG_CHANGED_RUUVI
| EVENT_MGR_EV_GW_CFG_CHANGED_ETH
| EVENT_MGR_EV_GW_CFG_CHANGED_WIFI
| EVENT_MGR_EV_GW_CFG_CHANGED_RUUVI_NTP_USE
| EVENT_MGR_EV_GW_CFG_CHANGED_RUUVI_NTP_USE_DHCP
| EVENT_MGR_EV_RELAYING_MODE_CHANGED
| EVENT_MGR_EV_CFG_MODE_ACTIVATED
| EVENT_MGR_EV_CFG_MODE_DEACTIVATED
| EVENT_MGR_EV_CFG_BLE_SCAN_CHANGED
| EVENT_MGR_EV_RECV_ADV
| EVENT_MGR_EV_RECV_ADV_TIMEOUT
| EVENT_MGR_EV_GREEN_LED_STATE_CHANGED
| EVENT_MGR_EV_MQTT_CONNECTED
| EVENT_MGR_EV_NRF52_REBOOTED
| EVENT_MGR_EV_NRF52_CONFIGURED
| EVENT_MGR_EV_LAST.
#[export] Instance event_mgr_ev_eq_dec : EqDecision event_mgr_ev_e.
Proof. solve_decision. Defined.

(** The value of an enumerator; the functions take any integer. *)
Definition ev_num (ev : event_mgr_ev_e) : Z :=
  match ev with
  | EVENT_MGR_EV_NONE => 0
  | EVENT_MGR_EV_REBOOT => 1
  | EVENT_MGR_EV_WIFI_AP_STARTED => 2
  | EVENT_MGR_EV_WIFI_AP_STOPPED => 3
  | EVENT_MGR_EV_WPS_ACTIVATED => 4
  | EVENT_MGR_EV_WPS_DEACTIVATED => 5
  | EVENT_MGR_EV_WIFI_AP_STA_CONNECTED => 6
  | EVENT_MGR_EV_WIFI_AP_STA_DISCONNECTED => 7
  | EVENT_MGR_EV_WIFI_CONNECTED => 8
  | EVENT_MGR_EV_WIFI_DISCONNECTED => 9
  | EVENT_MGR_EV_ETH_CONNECTED => 10
  | EVENT_MGR_EV_ETH_DISCONNECTED => 11
  | EVENT_MGR_EV_TIME_SYNCHRONIZED => 12
  | EVENT_MGR_EV_GW_CFG_READY => 13
  | EVENT_MGR_EV_GW_CFG_CHANGED_RUUVI => 14
  | EVENT_MGR_EV_GW_CFG_CHANGED_ETH => 15
  | EVENT_MGR_EV_GW_CFG_CHANGED_WIFI => 16
  | EVENT_MGR_EV_GW_CFG_CHANGED_RUUVI_NTP_USE => 17
  | EVENT_MGR_EV_GW_CFG_CHANGED_RUUVI_NTP_USE_DHCP => 18
  | EVENT_MGR_EV_RELAYING_MODE_CHANGED => 19
  | EVENT_MGR_EV_CFG_MODE_ACTIVATED => 20
  | EVENT_MGR_EV_CFG_MODE_DEACTIVATED => 21
  | EVENT_MGR_EV_CFG_BLE_SCAN_CHANGED => 22
  | EVENT_MGR_EV_RECV_ADV => 23
  | EVENT_MGR_EV_RECV_ADV_TIMEOUT => 24
  | EVENT_MGR_EV_GREEN_LED_STATE_CHANGED => 25
  | EVENT_MGR_EV_MQTT_CONNECTED => 26
  | EVENT_MGR_EV_NRF52_REBOOTED => 27
  | EVENT_MGR_EV_NRF52_CONFIGURED => 28
  | EVENT_MGR_EV_LAST => 29
  end.

Definition EV_LAST : nat := Z.to_nat (ev_num EVENT_MGR_EV_LAST).

(** A signal object of a task (a pointer; [None] is null) and a signal number. *)
Abbreviation os_signal_t := (option nat) (only parsing).
Abbreviation os_signal_num_e := Z (only parsing).
(** The address of a subscriber record. *)
Abbreviation addr := nat (only parsing).

Record event_mgr_ev_info_t := EvInfo {
  p_signal : os_signal_t;
  sig_num : os_signal_num_e;
  is_static : bool;
}.

Record event_mgr_t := EventMgrState {
  h_mutex : bool;
  events : list (list addr);
  ev_store : gmap addr event_mgr_ev_info_t;
}.
#[export] Instance event_mgr_eta : Eta event_mgr_t := λ r,
  EventMgrState (h_mutex r) (events r) (ev_store r).

Inductive event_mgr_call :=
| EmMutexCreate
| EmMutexDelete
| EmLock
| EmUnlock
| EmFree (a : addr)
| EmSignalSend (s : os_signal_t) (n : os_signal_num_e).

Abbreviation eprog := (prog event_mgr_t event_mgr_call).

(** ** Operations *)

Section operations.
(** [OS_SIGNAL_NUM_NONE], and whether [os_mutex_delete] clears the handle it is given. *)
Context (OS_SIGNAL_NUM_NONE : os_signal_num_e) (delete_clears_handle : bool).

Definition event_mgr_init : eprog bool :=
  st ← getst;
  if h_mutex st then mret false
  else
    emit EmMutexCreate ;;
    modify (λ st, st <| h_mutex := true |>) ;;
    modify (λ st, st <| events := replicate EV_LAST [] |>) ;;
    mret true.

Definition node_at (a : addr) : eprog event_mgr_ev_info_t := λ st,
  match ev_store st !! a with
  | Some n => Done (n, st, [])
  | None => Fault NullDeref
  end.

Definition set_node (a : addr) (n : event_mgr_ev_info_t) (st : event_mgr_t) : event_mgr_t :=
  st <| ev_store := <[a := n]> (ev_store st) |>.

Definition free_node (a : addr) : eprog unit :=
  emit (EmFree a) ;; modify (λ st, st <| ev_store := delete a (ev_store st) |>).

Definition queue_of (event : Z) : eprog (list addr) := λ st,
  match events st !! Z.to_nat event with
  | Some q => Done (q, st, [])
  | None => Fault OutOfBounds
  end.

Definition set_queue (event : Z) (q : list addr) (st : event_mgr_t) : event_mgr_t :=
  st <| events := <[Z.to_nat event := q]> (events st) |>.

Definition linked (st : event_mgr_t) (a : addr) : bool := bool_decide (a ∈ concat (events st)).

(** [TAILQ_INSERT_TAIL]. *)
Definition queue_insert_tail (event : Z) (a : addr) : eprog unit :=
  l ← gets (λ st, linked st a);
  if (l : bool) then fail ListCorrupted
  else q ← queue_of event; modify (set_queue event (q ++ [a])).

(** [while (!TAILQ_EMPTY)] of one queue, then the queues one after the other. *)
Fixpoint deinit_queue (event : Z) (q : list addr) : eprog unit :=
  match q with
  | [] => skip
  | a :: q' =>
      modify (set_queue event q') ;;
      n ← node_at a;
      (if negb (is_static n) then free_node a else skip) ;;
      deinit_queue event q'
  end.

Definition event_mgr_deinit : eprog unit :=
  for_each (seq 0 EV_LAST)
    (λ i, q ← queue_of (Z.of_nat i); deinit_queue (Z.of_nat i) q) ;;
  emit EmMutexDelete ;;
  modify (λ st, if delete_clears_handle then st <| h_mutex := false |> else st).

(** [mem] is what [os_calloc] returns. *)
Definition event_mgr_create_ev_info_sig (mem : option addr) (s : os_signal_t) (n : os_signal_num_e)
    : eprog (option addr) :=
  match mem with
  | None => mret None
  | Some a => modify (set_node a (EvInfo s n false)) ;; mret (Some a)
  end.

Definition event_mgr_mutex_lock : eprog unit := emit EmLock.
Definition event_mgr_mutex_unlock : eprog unit := emit EmUnlock.

Definition event_in_range (event : Z) : bool :=
  (ev_num EVENT_MGR_EV_NONE <? event) && (event <? ev_num EVENT_MGR_EV_LAST).

Definition event_mgr_subscribe_sig (mem : option addr) (event : Z) (s : os_signal_t) (n : os_signal_num_e)
    : eprog bool :=
  assert_c (event_in_range event) ;;
  p_ev_info ← event_mgr_create_ev_info_sig mem s n;
  match p_ev_info with
  | None => mret false
  | Some a =>
      event_mgr_mutex_lock ;;
      queue_insert_tail event a ;;
      event_mgr_mutex_unlock ;;
      mret true
  end.

Definition event_mgr_subscribe_sig_static (a : addr) (event : Z) (s : os_signal_t) (n : os_signal_num_e)
    : eprog unit :=
  assert_c (event_in_range event) ;;
  modify (set_node a (EvInfo s n true)) ;;
  event_mgr_mutex_lock ;;
  queue_insert_tail event a ;;
  event_mgr_mutex_unlock.

(** [TAILQ_FOREACH] with [break] at the first node that satisfies the test;
    [None] is the null pointer the loop ends with. *)
Fixpoint find_node (test : addr → event_mgr_ev_info_t → bool) (q : list addr) : eprog (option addr) :=
  match q with
  | [] => mret None
  | a :: q' =>
      n ← node_at a;
      if test a n then mret (Some a) else find_node test q'
  end.

(** The part both unsubscriptions share: unlink the node found, then write to it
    through the pointer, found or not. *)
Definition unlink_found (event : Z) (q : list addr) (p_elem : option addr) : eprog unit :=
  match p_elem with
  | Some a => modify (set_queue event (filter (λ b, b ≠ a) q))
  | None => skip
  end ;;
  match p_elem with
  | Some a => n ← node_at a; modify (set_node a (EvInfo None OS_SIGNAL_NUM_NONE (is_static n)))
  | None => fail NullDeref
  end.

Definition event_mgr_unsubscribe_sig (event : Z) (s : os_signal_t) (n : os_signal_num_e) : eprog unit :=
  assert_c (event_in_range event) ;;
  event_mgr_mutex_lock ;;
  q ← queue_of event;
  p_elem ← find_node (λ _ x, bool_decide (p_signal x = s) && (sig_num x =? n)) q;
  unlink_found event q p_elem ;;
  match p_elem with
  | Some a => x ← node_at a; if negb (is_static x) then free_node a else skip
  | None => fail NullDeref
  end ;;
  event_mgr_mutex_unlock.

Definition event_mgr_unsubscribe_sig_static (mem : addr) (event : Z) : eprog unit :=
  assert_c (event_in_range event) ;;
  event_mgr_mutex_lock ;;
  q ← queue_of event;
  p_elem ← find_node (λ a _, bool_decide (a = mem)) q;
  unlink_found event q p_elem ;;
  event_mgr_mutex_unlock.

Definition event_mgr_notify (event : Z) : eprog unit :=
  if (event <=? ev_num EVENT_MGR_EV_NONE) || (ev_num EVENT_MGR_EV_LAST <=? event) then skip
  else
    q ← queue_of event;
    event_mgr_mutex_lock ;;
    for_each q (λ a, n ← node_at a; emit (EmSignalSend (p_signal n) (sig_num n))) ;;
    event_mgr_mutex_unlock.
End operations.
