(* ===== verification/EventMgrSpec.v ===== *)
(** * Specification of the event manager and refinement

    Abstractly the manager is, for every event, the list of its subscriptions in
    the order in which they were made. *)

From S2P Require Import Prelude EventMgr.
Open Scope Z_scope.

(** ** The specification *)

Definition subscription : Type := addr * os_signal_t * os_signal_num_e.
Definition sub_addr (x : subscription) : addr := x.1.1.
Definition sub_call (x : subscription) : event_mgr_call := EmSignalSend x.1.2 x.2.

Inductive em_op :=
| EmSubscribe (mem : option addr) (event : Z) (s : os_signal_t) (n : os_signal_num_e)
| EmSubscribeStatic (a : addr) (event : Z) (s : os_signal_t) (n : os_signal_num_e)
| EmUnsubscribe (event : Z) (s : os_signal_t) (n : os_signal_num_e)
| EmUnsubscribeStatic (a : addr) (event : Z)
| EmNotify (event : Z).

Abbreviation em_spec := (list (list subscription)).

Definition spec_queue (event : Z) (s : em_spec) : list subscription :=
  default [] (s !! Z.to_nat event).

Definition spec_linked (s : em_spec) (a : addr) : Prop := a ∈ sub_addr <$> concat s.

#[export] Instance spec_linked_dec s a : Decision (spec_linked s a).
Proof. unfold spec_linked. apply _. Defined.

Definition is_sub (s : os_signal_t) (n : os_signal_num_e) (x : subscription) : Prop := x.1.2 = s ∧ x.2 = n.
#[export] Instance is_sub_dec s n x : Decision (is_sub s n x).
Proof. unfold is_sub. apply _. Defined.

(** What a caller must respect: events in range, memory that is not linked
    already, and only existing subscriptions are cancelled. *)
Definition em_op_ok (op : em_op) (s : em_spec) : Prop :=
  match op with
  | EmSubscribe mem ev _ _ => event_in_range ev = true ∧ ∀ a, mem = Some a → ¬ spec_linked s a
  | EmSubscribeStatic a ev _ _ => event_in_range ev = true ∧ ¬ spec_linked s a
  | EmUnsubscribe ev sg n => event_in_range ev = true ∧ ∃ x, x ∈ spec_queue ev s ∧ is_sub sg n x
  | EmUnsubscribeStatic a ev => event_in_range ev = true ∧ a ∈ sub_addr <$> spec_queue ev s
  | EmNotify _ => True
  end.

Definition spec_subscribe (ev : Z) (x : subscription) (s : em_spec) : em_spec :=
  alter (λ q, q ++ [x]) (Z.to_nat ev) s.

Definition spec_remove (ev : Z) (a : addr) (s : em_spec) : em_spec :=
  alter (filter (λ x, sub_addr x ≠ a)) (Z.to_nat ev) s.

Definition em_spec_exec (op : em_op) (s : em_spec) : em_spec :=
  match op with
  | EmSubscribe None _ _ _ => s
  | EmSubscribe (Some a) ev sg n | EmSubscribeStatic a ev sg n => spec_subscribe ev (a, sg, n) s
  | EmUnsubscribe ev sg n =>
      match list_find (is_sub sg n) (spec_queue ev s) with
      | Some (_, x) => spec_remove ev (sub_addr x) s
      | None => s
      end
  | EmUnsubscribeStatic a ev => spec_remove ev a s
  | EmNotify _ => s
  end.

(** The signals an operation sends. *)
Definition em_spec_signals (op : em_op) (s : em_spec) : list event_mgr_call :=
  match op with
  | EmNotify ev => if event_in_range ev then sub_call <$> spec_queue ev s else []
  | _ => []
  end.

(** ** Abstraction *)

Definition sub_of (st : event_mgr_t) (a : addr) : option subscription :=
  (λ n, (a, p_signal n, sig_num n)) <$> ev_store st !! a.

Definition absr_queue (st : event_mgr_t) (q : list addr) : list subscription := omap (sub_of st) q.

Definition em_absr (st : event_mgr_t) : em_spec := absr_queue st <$> events st.

Record em_inv (st : event_mgr_t) : Prop := EmInv {
  em_len : length (events st) = EV_LAST;
  em_nodup : NoDup (concat (events st));
  em_alloc : ∀ a, a ∈ concat (events st) → is_Some (ev_store st !! a);
}.

Lemma elem_of_concat {A} (x : A) (l : list (list A)) : x ∈ concat l ↔ ∃ i q, l !! i = Some q ∧ x ∈ q.
Proof.
  induction l as [|q l IH]; cbn; [set_solver|]. rewrite elem_of_app, IH. split.
  - intros [?|(i & q' & ? & ?)]; [by exists 0%nat, q|by exists (S i), q'].
  - intros ([|i] & q' & ? & ?); cbn in *; [left; by simplify_eq|right; eauto].
Qed.

Lemma concat_insert {A} (l : list (list A)) i q q' :
  l !! i = Some q → concat (<[i := q']> l) ≡ₚ q' ++ concat (<[i := []]> l).
Proof.
  revert i. induction l as [|q0 l IH]; intros [|i] Hi; cbn in *; [done..|].
  rewrite (IH i Hi). by rewrite !(assoc_L (++)), (Permutation_app_comm q0 q').
Qed.

Lemma concat_split {A} (l : list (list A)) i q :
  l !! i = Some q → concat l ≡ₚ q ++ concat (<[i := []]> l).
Proof. intros Hi. rewrite <- (concat_insert l i q q Hi). by rewrite list_insert_id. Qed.

Section inv.
Context (st : event_mgr_t) (Hinv : em_inv st).

Lemma queue_exists event : event_in_range event = true → ∃ q, events st !! Z.to_nat event = Some q.
Proof.
  intros Hr. apply lookup_lt_is_Some_2. rewrite (em_len _ Hinv). unfold event_in_range in Hr.
  apply andb_true_iff in Hr as [H1%Z.ltb_lt H2%Z.ltb_lt]. unfold EV_LAST. cbn in *. lia.
Qed.

Lemma node_exists event q a :
  events st !! event = Some q → a ∈ q → ∃ n, ev_store st !! a = Some n.
Proof. intros Hq Ha. apply (em_alloc _ Hinv). apply elem_of_concat. eauto. Qed.

Lemma absr_queue_lookup event q :
  events st !! Z.to_nat event = Some q → spec_queue event (em_absr st) = absr_queue st q.
Proof. intros Hq. unfold spec_queue, em_absr. rewrite list_lookup_fmap, Hq. done. Qed.

Lemma absr_addrs q : (∀ a, a ∈ q → is_Some (ev_store st !! a)) → sub_addr <$> absr_queue st q = q.
Proof.
  unfold absr_queue. induction q as [|a q IH]; intros Hq; [done|]. cbn.
  destruct (Hq a ltac:(set_solver)) as [n Hn]. unfold sub_of at 1. rewrite Hn. cbn. f_equal.
  apply IH. set_solver.
Qed.

Lemma absr_linked a : spec_linked (em_absr st) a ↔ a ∈ concat (events st).
Proof.
  unfold spec_linked, em_absr. rewrite list_elem_of_fmap. setoid_rewrite elem_of_concat.
  setoid_rewrite list_lookup_fmap_Some. split.
  - intros (x & -> & i & q & (q0 & -> & Hi) & Hx). exists i, q0. split; [done|].
    apply list_elem_of_omap in Hx as (b & Hb & Hs). unfold sub_of in Hs.
    destruct (ev_store st !! b); [|done]. cbn in Hs. by injection Hs as <-.
  - intros (i & q & Hi & Ha). destruct (node_exists i q a Hi Ha) as [n Hn].
    exists (a, p_signal n, sig_num n). split; [done|]. exists i, (absr_queue st q). split; [eauto|].
    apply list_elem_of_omap. exists a. split; [done|]. unfold sub_of. by rewrite Hn.
Qed.

(** The loop of [TAILQ_FOREACH] finds the first subscription that matches. *)
Lemma find_node_run test (P : subscription → Prop) `{∀ x, Decision (P x)} q :
  (∀ a, a ∈ q → is_Some (ev_store st !! a)) →
  (∀ a n, test a n = bool_decide (P (a, p_signal n, sig_num n))) →
  run (find_node test q) st (sub_addr ∘ snd <$> list_find P (absr_queue st q)) st [].
Proof.
  intros Hq Ht. unfold absr_queue. induction q as [|a q IH]; [apply run_ret|].
  cbn [find_node omap list_omap]. destruct (Hq a ltac:(set_solver)) as [n Hn].
  unfold sub_of at 1. rewrite Hn. cbn [fmap option_fmap option_map list_find].
  eapply run_bind_silent; [unfold run, node_at; by rewrite Hn|]. cbv beta. rewrite Ht.
  case_bool_decide as Hp.
  - rewrite decide_True by done. apply run_ret.
  - rewrite decide_False by done. specialize (IH ltac:(set_solver)).
    destruct (list_find P (omap (sub_of st) q)) as [[]|]; exact IH.
Qed.
End inv.

(** Adding a fresh node to a queue. *)
Lemma absr_queue_fresh st a n q :
  a ∉ q → absr_queue (set_node a n st) q = absr_queue st q.
Proof.
  intros Ha. unfold absr_queue. induction q as [|b q IH]; [done|]. cbn.
  apply not_elem_of_cons in Ha as [Hab Ha].
  assert (sub_of (set_node a n st) b = sub_of st b) as ->.
  { unfold sub_of. cbn. by rewrite lookup_insert_ne. }
  by rewrite IH.
Qed.

Lemma absr_fresh st a n : a ∉ concat (events st) → em_absr (set_node a n st) = em_absr st.
Proof.
  intros Ha. unfold em_absr. cbn. apply list_fmap_ext. intros i q Hq. apply absr_queue_fresh.
  intros Hin. apply Ha, elem_of_concat. eauto.
Qed.

Lemma inv_set_node st a n : em_inv st → em_inv (set_node a n st).
Proof.
  intros Hinv. split; cbn; [apply (em_len _ Hinv)|apply (em_nodup _ Hinv)|].
  intros b Hb. destruct (decide (b = a)) as [->|]; [rewrite lookup_insert_eq; eauto|].
  rewrite lookup_insert_ne by done. by apply (em_alloc _ Hinv).
Qed.

Lemma inv_set_queue st event q q' :
  em_inv st → events st !! Z.to_nat event = Some q → NoDup q' →
  (∀ a, a ∈ q' → a ∈ q ∨ a ∉ concat (events st) ∧ is_Some (ev_store st !! a)) →
  em_inv (set_queue event q' st).
Proof.
  intros Hinv Hq Hnd Hq'. pose proof (em_nodup _ Hinv) as Hn. rewrite (concat_split _ _ _ Hq) in Hn.
  apply NoDup_app in Hn as (_ & Hdis & Hrest). split; cbn.
  - rewrite length_insert. apply (em_len _ Hinv).
  - rewrite (concat_insert _ _ _ _ Hq). apply NoDup_app. split_and!; [done| |done].
    intros a Ha. destruct (Hq' a Ha) as [Ha'|[Ha' _]]; [by apply Hdis|].
    intros Hr. apply Ha'. rewrite (concat_split _ _ _ Hq). set_solver.
  - intros a. rewrite (concat_insert _ _ _ _ Hq), elem_of_app. intros [Ha|Ha].
    + destruct (Hq' a Ha) as [Ha'|[_ ?]]; [|done]. apply (em_alloc _ Hinv), elem_of_concat. eauto.
    + apply (em_alloc _ Hinv). rewrite (concat_split _ _ _ Hq). set_solver.
Qed.

Lemma absr_set_queue st event q' :
  em_absr (set_queue event q' st) = <[Z.to_nat event := absr_queue st q']> (em_absr st).
Proof. unfold em_absr. cbn. by rewrite list_fmap_insert. Qed.

Lemma insert_tail_run st event a n :
  em_inv st → event_in_range event = true → a ∉ concat (events st) → ev_store st !! a = Some n →
  ∃ st', run (queue_insert_tail event a) st tt st' [] ∧ em_inv st' ∧
    em_absr st' = spec_subscribe event (a, p_signal n, sig_num n) (em_absr st).
Proof.
  intros Hinv Hr Ha Hn. destruct (queue_exists st Hinv event Hr) as [q Hq].
  exists (set_queue event (q ++ [a]) st). split_and!.
  - unfold queue_insert_tail. run_step. unfold linked. rewrite bool_decide_false by done.
    eapply run_bind_silent; [unfold run, queue_of; by rewrite Hq|]. apply run_modify.
  - eapply inv_set_queue; [done|done| |].
    + pose proof (em_nodup _ Hinv) as Hnd. rewrite (concat_split _ _ _ Hq) in Hnd, Ha.
      apply NoDup_app in Hnd as (Hnd & _). apply NoDup_app. split_and!; [done|set_solver|].
      apply NoDup_singleton.
    + intros b [Hb|Hb]%elem_of_app; [by left|]. right. apply list_elem_of_singleton in Hb as ->.
      split; [done|]. by eexists.
  - rewrite absr_set_queue. unfold spec_subscribe, em_absr.
    rewrite (list_alter_insert _ _ _ (absr_queue st q)) by by rewrite list_lookup_fmap, Hq.
    f_equal. unfold absr_queue. rewrite omap_app. cbn. unfold sub_of at 2. by rewrite Hn.
Qed.

(** Removing a node from its queue. *)
Lemma absr_queue_remove st q a :
  (∀ b, b ∈ q → is_Some (ev_store st !! b)) →
  absr_queue st (filter (λ b, b ≠ a) q) = filter (λ x, sub_addr x ≠ a) (absr_queue st q).
Proof.
  unfold absr_queue. induction q as [|b q IH]; intros Hq; [done|]. rewrite filter_cons.
  destruct (Hq b ltac:(set_solver)) as [n Hn]. cbn [omap list_omap].
  assert (Hs : sub_of st b = Some (b, p_signal n, sig_num n)) by (unfold sub_of; by rewrite Hn).
  rewrite Hs, filter_cons. cbn [sub_addr fst].
  rewrite <- IH by set_solver. case_decide; [|done]. cbn. by rewrite Hs.
Qed.

(** Unlinking the node a loop found and writing to it. *)
Lemma unlink_found_run none st event q a n :
  em_inv st → events st !! Z.to_nat event = Some q → a ∈ q → ev_store st !! a = Some n →
  ∃ st', run (unlink_found none event q (Some a)) st tt st' [] ∧ em_inv st' ∧
    a ∉ concat (events st') ∧ ev_store st' !! a = Some (EvInfo None none (is_static n)) ∧
    em_absr st' = spec_remove event a (em_absr st).
Proof.
  intros Hinv Hq Ha Hn. set (st1 := set_queue event (filter (λ b, b ≠ a) q) st).
  pose proof (em_nodup _ Hinv) as Hnd. rewrite (concat_split _ _ _ Hq) in Hnd.
  apply NoDup_app in Hnd as (Hndq & Hdis & _).
  assert (I1 : em_inv st1).
  { eapply inv_set_queue; [done..|by apply NoDup_filter|].
    intros b [_ Hb]%list_elem_of_filter. by left. }
  assert (Ha1 : a ∉ concat (events st1)).
  { cbn. rewrite (concat_insert _ _ _ _ Hq), elem_of_app, list_elem_of_filter.
    intros [[? _]|Hin]; [done|]. by apply (Hdis a). }
  exists (set_node a (EvInfo None none (is_static n)) st1). split_and!.
  - unfold unlink_found. run_step.
    eapply run_bind_silent; [unfold run, node_at; cbn; by rewrite Hn|]. apply run_modify.
  - by apply inv_set_node.
  - done.
  - apply lookup_insert_eq.
  - rewrite absr_fresh by done. unfold st1. rewrite absr_set_queue. unfold spec_remove, em_absr.
    rewrite (list_alter_insert _ _ _ (absr_queue st q)) by by rewrite list_lookup_fmap, Hq.
    rewrite absr_queue_remove; [done|]. intros b Hb. by eapply node_exists.
Qed.

Lemma inv_free st a : em_inv st → a ∉ concat (events st) →
  em_inv (st <| ev_store := delete a (ev_store st) |>) ∧
  em_absr (st <| ev_store := delete a (ev_store st) |>) = em_absr st.
Proof.
  intros Hinv Ha. split.
  - split; cbn; [apply (em_len _ Hinv)|apply (em_nodup _ Hinv)|].
    intros b Hb. rewrite lookup_delete_ne by congruence. by apply (em_alloc _ Hinv).
  - unfold em_absr. cbn. apply list_fmap_ext. intros i q Hq. unfold absr_queue.
    apply list_omap_ext, Forall_Forall2_diag, Forall_forall. intros b Hb. unfold sub_of. cbn.
    rewrite lookup_delete_ne; [done|]. intros ->. apply Ha, elem_of_concat. eauto.
Qed.

(** ** Refinement *)

Section refinement.
Context (none : os_signal_num_e).

Definition exec_em_op (op : em_op) : eprog unit :=
  match op with
  | EmSubscribe mem ev s n => b ← event_mgr_subscribe_sig mem ev s n; skip
  | EmSubscribeStatic a ev s n => event_mgr_subscribe_sig_static a ev s n
  | EmUnsubscribe ev s n => event_mgr_unsubscribe_sig none ev s n
  | EmUnsubscribeStatic a ev => event_mgr_unsubscribe_sig_static none a ev
  | EmNotify ev => event_mgr_notify ev
  end.

Definition is_send (c : event_mgr_call) : bool :=
  match c with EmSignalSend _ _ => true | _ => false end.

(** The signals sent among the calls. *)
Definition sends (es : list event_mgr_call) : list event_mgr_call := List.filter is_send es.

Lemma subscribe_run st a n ev :
  em_inv st → event_in_range ev = true → ¬ spec_linked (em_absr st) a →
  ∃ st', run (queue_insert_tail ev a) (set_node a n st) tt st' [] ∧ em_inv st' ∧
    em_absr st' = spec_subscribe ev (a, p_signal n, sig_num n) (em_absr st).
Proof.
  intros Hinv Hr Ha. rewrite (absr_linked st Hinv) in Ha.
  destruct (insert_tail_run (set_node a n st) ev a n) as (st' & R & I & A); [|done..| |].
  { by apply inv_set_node. }
  { apply lookup_insert_eq. }
  exists st'. split_and!; [done..|]. by rewrite A, absr_fresh.
Qed.

Lemma send_all_run st q :
  (∀ a, a ∈ q → is_Some (ev_store st !! a)) →
  run (for_each q (λ a, n ← node_at a; emit (EmSignalSend (p_signal n) (sig_num n)))) st tt st
    (sub_call <$> absr_queue st q).
Proof.
  unfold absr_queue. induction q as [|a q IH]; intros Hq; [apply run_skip|].
  destruct (Hq a ltac:(set_solver)) as [n Hn]. cbn. unfold sub_of at 1. rewrite Hn. cbn.
  change (?x :: ?l) with ([x] ++ l). eapply run_bind; [|apply IH; set_solver].
  eapply run_bind_silent; [unfold run, node_at; by rewrite Hn|]. apply run_emit.
Qed.

Lemma sends_calls l : sends (sub_call <$> l) = sub_call <$> l.
Proof. induction l as [|x l IH]; [done|]. cbn. f_equal. exact IH. Qed.

Lemma sends_app es1 es2 : sends (es1 ++ es2) = sends es1 ++ sends es2.
Proof. apply List.filter_app. Qed.

Lemma find_sub_some st ev q P `{∀ x : subscription, Decision (P x)} :
  em_inv st → events st !! Z.to_nat ev = Some q → (∃ x, x ∈ spec_queue ev (em_absr st) ∧ P x) →
  ∃ i x n, list_find P (absr_queue st q) = Some (i, x) ∧ sub_addr x ∈ q ∧
    ev_store st !! sub_addr x = Some n.
Proof.
  intros Hinv Hq (x & Hx & Hp). rewrite (absr_queue_lookup st _ _ Hq) in Hx.
  destruct (list_find_elem_of P _ _ Hx Hp) as [[i y] Hf]. exists i, y.
  apply list_find_Some in Hf as Hy. destruct Hy as (Hlk & _). apply list_elem_of_lookup_2 in Hlk.
  assert (Hin : sub_addr y ∈ q).
  { rewrite <- (absr_addrs st Hinv q); [by apply list_elem_of_fmap_2|].
    intros b Hb. by eapply node_exists. }
  destruct (node_exists st Hinv _ q _ Hq Hin) as [n Hn]. by exists n.
Qed.

(** One operation behaves as specified in state [st]. *)
Definition em_op_refines (op : em_op) (st : event_mgr_t) : Prop :=
  ∃ st' es, run (exec_em_op op) st tt st' es ∧ em_inv st' ∧
    em_absr st' = em_spec_exec op (em_absr st) ∧ sends es = em_spec_signals op (em_absr st).

Lemma subscribe_op_run a ev s n st :
  em_inv st → em_op_ok (EmSubscribe (Some a) ev s n) (em_absr st) → em_op_refines (EmSubscribe (Some a) ev s n) st.
Proof.
  intros Hinv Hok. unfold em_op_refines. cbn [em_op_ok] in Hok.
  destruct Hok as [Hr Ha]. destruct (subscribe_run st a (EvInfo s n false) ev Hinv Hr) as (st' & R & I & A).
  { by apply Ha. }
  exists st', [EmLock; EmUnlock]. split_and!; [|done..]. cbn [exec_em_op].
  change [EmLock; EmUnlock] with ([EmLock; EmUnlock] ++ []). eapply run_bind; [|apply run_skip].
  unfold event_mgr_subscribe_sig. rewrite Hr. eapply run_bind_silent; [apply run_skip|].
  eapply run_bind_silent; [run_step; apply run_ret|]. apply run_bind_emit.
  eapply run_bind_silent; [exact R|]. apply run_bind_emit. apply run_ret.
Qed.

Lemma subscribe_fail_run ev s n st :
  em_inv st → em_op_ok (EmSubscribe None ev s n) (em_absr st) → em_op_refines (EmSubscribe None ev s n) st.
Proof.
  intros Hinv Hok. unfold em_op_refines. cbn [em_op_ok] in Hok.
  destruct Hok as [Hr _]. exists st, []. split_and!; [|done..]. cbn [exec_em_op].
  unfold event_mgr_subscribe_sig. by rewrite Hr.
Qed.

Lemma subscribe_static_op_run a ev s n st :
  em_inv st → em_op_ok (EmSubscribeStatic a ev s n) (em_absr st) → em_op_refines (EmSubscribeStatic a ev s n) st.
Proof.
  intros Hinv Hok. unfold em_op_refines. cbn [em_op_ok] in Hok.
  destruct Hok as [Hr Ha]. destruct (subscribe_run st a (EvInfo s n true) ev Hinv Hr Ha) as (st' & R & I & A).
  exists st', [EmLock; EmUnlock]. split_and!; [|done..]. cbn [exec_em_op].
  unfold event_mgr_subscribe_sig_static. rewrite Hr. run_step. run_step. apply run_bind_emit.
  eapply run_bind_silent; [exact R|]. apply run_emit.
Qed.

Lemma unsubscribe_op_run ev s n st :
  em_inv st → em_op_ok (EmUnsubscribe ev s n) (em_absr st) → em_op_refines (EmUnsubscribe ev s n) st.
Proof.
  intros Hinv Hok. unfold em_op_refines. cbn [em_op_ok] in Hok.
  destruct Hok as [Hr Hx]. destruct (queue_exists st Hinv ev Hr) as [q Hq].
  destruct (find_sub_some st ev q (is_sub s n) Hinv Hq Hx) as (i & x & m & Hf & Hin & Hm).
  destruct (unlink_found_run none st ev q _ m Hinv Hq Hin Hm) as (st1 & R1 & I1 & N1 & E1 & A1).
  destruct (inv_free st1 _ I1 N1) as [I2 A2].
  pose proof (find_node_run st Hinv (λ _ x, bool_decide (p_signal x = s) && (sig_num x =? n)) (is_sub s n) q)
    as Rf. rewrite Hf in Rf.
  assert (Rfind : run (find_node (λ _ x, bool_decide (p_signal x = s) && (sig_num x =? n)) q) st
    (Some (sub_addr x)) st []).
  { apply Rf; [intros b Hb; by eapply node_exists|]. intros b y.
    apply eq_true_iff_eq. by rewrite andb_true_iff, !bool_decide_eq_true, Z.eqb_eq. }
  clear Rf. cbn [em_spec_exec]. rewrite (absr_queue_lookup st _ _ Hq), Hf. cbn [exec_em_op].
  destruct (is_static m) eqn:Hst.
  + exists st1, [EmLock; EmUnlock]. split_and!; [|done|done|done].
    unfold event_mgr_unsubscribe_sig. rewrite Hr. run_step. apply run_bind_emit.
    eapply run_bind_silent; [unfold run, queue_of; by rewrite Hq|].
    eapply run_bind_silent; [exact Rfind|]. eapply run_bind_silent; [exact R1|]. cbv beta iota.
    eapply run_bind_silent; [|apply run_emit].
    eapply run_bind_silent; [unfold run, node_at; by rewrite E1|]. apply run_skip.
  + exists (st1 <| ev_store := delete (sub_addr x) (ev_store st1) |>), [EmLock; EmFree (sub_addr x); EmUnlock].
    split_and!; [|done|by rewrite A2|done].
    unfold event_mgr_unsubscribe_sig. rewrite Hr. run_step. apply run_bind_emit.
    eapply run_bind_silent; [unfold run, queue_of; by rewrite Hq|].
    eapply run_bind_silent; [exact Rfind|]. eapply run_bind_silent; [exact R1|]. cbv beta iota.
    eapply (run_bind _ _ _ _ _ [EmFree (sub_addr x)]); [|apply run_emit].
    eapply run_bind_silent; [unfold run, node_at; by rewrite E1|]. reflexivity.
Qed.

Lemma unsubscribe_static_op_run a ev st :
  em_inv st → em_op_ok (EmUnsubscribeStatic a ev) (em_absr st) → em_op_refines (EmUnsubscribeStatic a ev) st.
Proof.
  intros Hinv Hok. unfold em_op_refines. cbn [em_op_ok] in Hok.
  destruct Hok as [Hr Hx]. destruct (queue_exists st Hinv ev Hr) as [q Hq].
  assert (Hx' : ∃ x, x ∈ spec_queue ev (em_absr st) ∧ sub_addr x = a).
  { apply list_elem_of_fmap in Hx as (x & -> & Hx). by exists x. }
  destruct (find_sub_some st ev q (λ x, sub_addr x = a) Hinv Hq Hx') as (i & x & m & Hf & Hin & Hm).
  assert (Hxa : sub_addr x = a) by by apply list_find_Some in Hf as (_ & ? & _).
  destruct (unlink_found_run none st ev q _ m Hinv Hq Hin Hm) as (st1 & R1 & I1 & N1 & E1 & A1).
  exists st1, [EmLock; EmUnlock]. split_and!; [|done| |done].
  + cbn [exec_em_op]. unfold event_mgr_unsubscribe_sig_static. rewrite Hr. run_step.
    apply run_bind_emit. eapply run_bind_silent; [unfold run, queue_of; by rewrite Hq|].
    eapply run_bind_silent.
    { apply (find_node_run st Hinv _ (λ x, sub_addr x = a) q); [|done].
      intros b Hb. by eapply node_exists. }
    rewrite Hf. cbn [fmap option_fmap option_map compose snd].
    eapply run_bind_silent; [exact R1|]. apply run_emit.
  + cbn. by rewrite A1, Hxa.
Qed.

Lemma notify_op_run ev st :
  em_inv st → em_op_ok (EmNotify ev) (em_absr st) → em_op_refines (EmNotify ev) st.
Proof.
  intros Hinv Hok. unfold em_op_refines. cbn [em_op_ok] in Hok.
  cbn [exec_em_op em_spec_exec em_spec_signals]. unfold event_mgr_notify, event_in_range.
  destruct ((ev <=? ev_num EVENT_MGR_EV_NONE) || (ev_num EVENT_MGR_EV_LAST <=? ev)) eqn:Hr.
  + exists st, []. split_and!; [apply run_skip|done|done|].
    apply orb_true_iff in Hr as [Hr%Z.leb_le|Hr%Z.leb_le]; rewrite (proj2 (Z.ltb_ge _ _) Hr);
      by rewrite ?andb_false_r.
  + apply orb_false_iff in Hr as [H1%Z.leb_gt H2%Z.leb_gt].
    assert (Hr : event_in_range ev = true).
    { unfold event_in_range. apply andb_true_iff. by rewrite !Z.ltb_lt. }
    destruct (queue_exists st Hinv ev Hr) as [q Hq].
    exists st, (EmLock :: (sub_call <$> absr_queue st q) ++ [EmUnlock]). split_and!; [|done|done|].
    * eapply run_bind_silent; [unfold run, queue_of; by rewrite Hq|]. apply run_bind_emit.
      eapply run_bind; [|apply run_emit]. apply send_all_run. intros b Hb. by eapply node_exists.
    * fold (event_in_range ev). rewrite Hr, (absr_queue_lookup st _ _ Hq).
      change (EmLock :: ?l) with ([EmLock] ++ l). rewrite !sends_app, sends_calls. cbn.
      by rewrite app_nil_r.
Qed.

Lemma exec_em_op_run op st : em_inv st → em_op_ok op (em_absr st) → em_op_refines op st.
Proof.
  destruct op as [[a|] ev s n|a ev s n|ev s n|a ev|ev]; intros Hinv Hok.
  - by apply subscribe_op_run.
  - by apply subscribe_fail_run.
  - by apply subscribe_static_op_run.
  - by apply unsubscribe_op_run.
  - by apply unsubscribe_static_op_run.
  - by apply notify_op_run.
Qed.
End refinement.
