(* ===== verification/EventMgrProps.v ===== *)
(** * Properties of the event manager *)

From S2P Require Import Prelude EventMgr EventMgrSpec.
Open Scope Z_scope.

Fixpoint exec_em_ops (none : os_signal_num_e) (ops : list em_op) : eprog unit :=
  match ops with
  | [] => skip
  | op :: ops' => exec_em_op none op ;; exec_em_ops none ops'
  end.

Fixpoint em_spec_ops (ops : list em_op) (s : em_spec) : em_spec :=
  match ops with
  | [] => s
  | op :: ops' => em_spec_ops ops' (em_spec_exec op s)
  end.

Fixpoint em_spec_sent (ops : list em_op) (s : em_spec) : list event_mgr_call :=
  match ops with
  | [] => []
  | op :: ops' => em_spec_signals op s ++ em_spec_sent ops' (em_spec_exec op s)
  end.

Fixpoint em_ops_ok (ops : list em_op) (s : em_spec) : Prop :=
  match ops with
  | [] => True
  | op :: ops' => em_op_ok op s ∧ em_ops_ok ops' (em_spec_exec op s)
  end.

Lemma exec_em_ops_run none ops st :
  em_inv st → em_ops_ok ops (em_absr st) →
  ∃ st' es, run (exec_em_ops none ops) st tt st' es ∧ em_inv st' ∧
    em_absr st' = em_spec_ops ops (em_absr st) ∧ sends es = em_spec_sent ops (em_absr st).
Proof.
  revert st. induction ops as [|op ops IH]; intros st Hinv Hok.
  - exists st, []. by split_and!.
  - destruct Hok as [Hop Hok].
    destruct (exec_em_op_run none op st Hinv Hop) as (s1 & e1 & R1 & I1 & A1 & S1).
    rewrite <- A1 in Hok. destruct (IH s1 I1 Hok) as (s2 & e2 & R2 & I2 & A2 & S2).
    exists s2, (e1 ++ e2). split_and!; [|done| |].
    + by eapply run_bind.
    + rewrite A2, A1. done.
    + cbn. by rewrite sends_app, S1, S2, A1.
Qed.

(** The state of the static variable before [event_mgr_init]. *)
Definition em_boot : event_mgr_t := EventMgrState false [] ∅.
Definition em_started : event_mgr_t := EventMgrState true (replicate EV_LAST []) ∅.

Lemma concat_replicate_nil {A} n : concat (replicate n ([] : list A)) = [].
Proof. by induction n. Qed.

Lemma started_inv : em_inv em_started.
Proof.
  split; cbn; [apply length_replicate|apply NoDup_nil_2|set_solver].
Qed.

(** C5. From [event_mgr_init] on, any sequence of subscriptions, cancellations of
    existing subscriptions and notifications runs without fault; every notified
    event sends, in the order of subscription, exactly one signal per current
    subscription of that event, and nothing else is sent. *)
Theorem event_mgr_refines (none : os_signal_num_e) (ops : list em_op) :
  em_ops_ok ops (replicate EV_LAST []) →
  ∃ st es, run (event_mgr_init ≫= λ ok, exec_em_ops none ops) em_boot tt st (EmMutexCreate :: es) ∧
    em_absr st = em_spec_ops ops (replicate EV_LAST []) ∧
    sends es = em_spec_sent ops (replicate EV_LAST []).
Proof.
  intros Hok. destruct (exec_em_ops_run none ops em_started started_inv Hok) as (st & es & R & _ & A & S).
  exists st, es. split_and!; [|done|done].
  change (EmMutexCreate :: es) with ([EmMutexCreate] ++ es). eapply run_bind; [|exact R]. reflexivity.
Qed.

Lemma event_mgr_refines_witness :
  ∃ st es,
    run (event_mgr_init ≫= λ ok, exec_em_ops 0
           [EmSubscribe (Some 10%nat) 23 (Some 1%nat) 5; EmSubscribeStatic 11 23 (Some 2%nat) 6;
            EmUnsubscribe 23 (Some 1%nat) 5; EmNotify 23]) em_boot tt st (EmMutexCreate :: es) ∧
    em_absr st = em_spec_ops
           [EmSubscribe (Some 10%nat) 23 (Some 1%nat) 5; EmSubscribeStatic 11 23 (Some 2%nat) 6;
            EmUnsubscribe 23 (Some 1%nat) 5; EmNotify 23] (replicate EV_LAST []) ∧
    sends es = [EmSignalSend (Some 2%nat) 6].
Proof.
  apply (event_mgr_refines 0
           [EmSubscribe (Some 10%nat) 23 (Some 1%nat) 5; EmSubscribeStatic 11 23 (Some 2%nat) 6;
            EmUnsubscribe 23 (Some 1%nat) 5; EmNotify 23]).
  cbn [em_ops_ok em_op_ok]. split_and!; try done.
  - intros a [= <-]. apply (bool_decide_unpack _). vm_compute. exact I.
  - apply (bool_decide_unpack _). vm_compute. exact I.
  - exists (10%nat, Some 1%nat, 5). split; [|done]. apply (bool_decide_unpack _). vm_compute. exact I.
Defined.

(** C28. Cancelling a subscription that does not exist writes through a null
    pointer. *)
Theorem event_mgr_unsubscribe_missing (none : os_signal_num_e) (st : event_mgr_t) (event : Z)
    (s : os_signal_t) (n : os_signal_num_e) :
  em_inv st → event_in_range event = true →
  (∀ x, x ∈ spec_queue event (em_absr st) → ¬ is_sub s n x) →
  event_mgr_unsubscribe_sig none event s n st = Fault NullDeref.
Proof.
  intros Hinv Hr Hx. destruct (queue_exists st Hinv event Hr) as [q Hq].
  rewrite (absr_queue_lookup st _ _ Hq) in Hx.
  pose proof (find_node_run st Hinv (λ _ x, bool_decide (p_signal x = s) && (sig_num x =? n)) (is_sub s n) q)
    as Rf.
  rewrite (proj2 (list_find_None _ _)) in Rf by by apply Forall_forall.
  unfold event_mgr_unsubscribe_sig, mbind, prog_bind. rewrite Hr. cbn.
  unfold queue_of. rewrite Hq. cbn. unfold run in Rf. rewrite Rf; [done| |].
  - intros b Hb. by eapply node_exists.
  - intros b y. apply eq_true_iff_eq. by rewrite andb_true_iff, !bool_decide_eq_true, Z.eqb_eq.
Qed.

Lemma event_mgr_unsubscribe_missing_witness :
  event_mgr_unsubscribe_sig 0 (ev_num EVENT_MGR_EV_RECV_ADV) (Some 1%nat) 5 em_started = Fault NullDeref.
Proof.
  apply event_mgr_unsubscribe_missing; [apply started_inv|done|].
  intros x Hx. exfalso. revert Hx. apply not_elem_of_nil.
Defined.
