(* ===== verification/LedsBlinking.v ===== *)
(** * Playing a blinking sequence (src/main/leds_blinking.c)

    A sequence is a C string of 'R', 'G' and '-'; one character is shown per
    update.  The component keeps the current sequence, the index of the next
    character and the task that owns it. *)

From S2P Require Import Prelude.
Open Scope Z_scope.

(** ** Data (src/main/leds_ctrl_defs.h) *)

Inductive leds_color_e := LEDS_COLOR_OFF | LEDS_COLOR_RED | LEDS_COLOR_GREEN.
#[export] Instance leds_color_eq_dec : EqDecision leds_color_e.
Proof. solve_decision. Defined.

(** [leds_blinking_mode_t]: the field [p_sequence]; [None] is a null pointer. *)
Record leds_blinking_mode_t := BlinkingMode { p_sequence : option string }.
#[export] Instance leds_blinking_mode_eta : Eta leds_blinking_mode_t := λ r, BlinkingMode (p_sequence r).

(** A task handle; [None] is a null handle. *)
Abbreviation os_task_handle_t := (option nat).

Record leds_blinking_t := LedsBlinkingState {
  g_leds_blinking_mode : leds_blinking_mode_t;
  g_leds_blinking_sequence_idx : Z;
  g_leds_blinking_task_handle : os_task_handle_t;
}.
#[export] Instance leds_blinking_eta : Eta leds_blinking_t := λ r,
  LedsBlinkingState (g_leds_blinking_mode r) (g_leds_blinking_sequence_idx r)
    (g_leds_blinking_task_handle r).

(** ** Operations *)

Section operations.
Context {E : Type}.
(** The running task, [os_task_get_cur_task_handle()]. *)
Context (cur_task : os_task_handle_t).
Abbreviation bprog := (prog leds_blinking_t E).

Definition leds_blinking_init (blinking_mode : leds_blinking_mode_t) : bprog unit :=
  h ← gets g_leds_blinking_task_handle;
  assert_c (bool_decide (h = None)) ;;
  modify (λ st, st <| g_leds_blinking_task_handle := cur_task |>) ;;
  modify (λ st, st <| g_leds_blinking_mode := blinking_mode |>) ;;
  modify (λ st, st <| g_leds_blinking_sequence_idx := 0 |>).

Definition leds_blinking_check_task : bprog unit :=
  h ← gets g_leds_blinking_task_handle;
  assert_c (bool_decide (h = cur_task)).

Definition leds_blinking_deinit : bprog unit :=
  leds_blinking_check_task ;;
  modify (λ st, st <| g_leds_blinking_task_handle := None |>) ;;
  modify (λ st, st <| g_leds_blinking_mode := BlinkingMode None |>) ;;
  modify (λ st, st <| g_leds_blinking_sequence_idx := 0 |>).

Definition leds_blinking_set_new_sequence (blinking_mode : leds_blinking_mode_t) : bprog unit :=
  leds_blinking_check_task ;;
  assert_c (bool_decide (p_sequence blinking_mode ≠ None)) ;;
  idx ← gets g_leds_blinking_sequence_idx;
  assert_c (0 =? idx) ;;
  modify (λ st, st <| g_leds_blinking_mode := blinking_mode |>).

(** Reading [p_sequence[idx]]. *)
Definition seq_char (p : option string) (idx : Z) : bprog ascii :=
  match p with
  | None => fail NullDeref
  | Some s => match c_char_at s idx with Some c => mret c | None => fail OutOfBounds end
  end.

Definition color_of_cmd (cmd : ascii) : option leds_color_e :=
  if bool_decide (cmd = "R"%char) then Some LEDS_COLOR_RED
  else if bool_decide (cmd = "G"%char) then Some LEDS_COLOR_GREEN
  else if bool_decide (cmd = "-"%char) then Some LEDS_COLOR_OFF
  else None.

Definition leds_blinking_get_next_internal : bprog leds_color_e :=
  idx ← gets g_leds_blinking_sequence_idx;
  mode ← gets g_leds_blinking_mode;
  assert_c (bool_decide (p_sequence mode ≠ None)) ;;
  cmd ← seq_char (p_sequence mode) idx;
  next ← seq_char (p_sequence mode) (idx + 1);
  let idx' := if bool_decide (next = NUL) then 0 else idx + 1 in
  modify (λ st, st <| g_leds_blinking_sequence_idx := idx' |>) ;;
  match color_of_cmd cmd with
  | Some c => mret c
  | None => fail AssertFailed
  end.

Definition leds_blinking_get_next : bprog leds_color_e :=
  leds_blinking_check_task ;;
  leds_blinking_get_next_internal.

Definition leds_blinking_is_sequence_finished : bprog bool :=
  leds_blinking_check_task ;;
  idx ← gets g_leds_blinking_sequence_idx;
  mret (0 =? idx).
End operations.

(** ** Well-formed sequences *)

(** The colours a sequence stands for; [None] when a character is not a command. *)
Fixpoint colors_of (s : string) : option (list leds_color_e) :=
  match s with
  | EmptyString => Some []
  | String c s' => col ← color_of_cmd c; cols ← colors_of s'; mret (col :: cols)
  end.

Definition wf_sequence (s : string) : Prop := s ≠ EmptyString ∧ is_Some (colors_of s).
#[export] Instance wf_sequence_dec s : Decision (wf_sequence s).
Proof. unfold wf_sequence. apply _. Defined.

Definition wf_mode (m : leds_blinking_mode_t) : Prop :=
  ∃ s, p_sequence m = Some s ∧ wf_sequence s.

(** What the player needs from whoever chooses the sequences: in the states
    [ok] the choice succeeds, changes nothing and is a well-formed sequence. *)
Class SequenceSource {S E} (get_new : prog S E leds_blinking_mode_t) (ok : S → Prop) : Prop :=
  sequence_source : ∀ s, ok s → ∃ m, run get_new s m s [] ∧ wf_mode m.

(** ** Playing *)

Lemma colors_of_length s cols : colors_of s = Some cols → length cols = String.length s.
Proof.
  revert cols. induction s as [|c s IH]; intros cols; cbn; [by intros [= <-]|].
  destruct (color_of_cmd c); [|done]. cbn. destruct (colors_of s) as [cs|]; [|done]. cbn.
  intros [= <-]. cbn. by rewrite (IH cs).
Qed.

Lemma colors_of_get s cols i c :
  colors_of s = Some cols → String.get i s = Some c →
  ∃ col, color_of_cmd c = Some col ∧ cols !! i = Some col.
Proof.
  revert cols i. induction s as [|c' s IH]; intros cols i; cbn; [done|].
  destruct (color_of_cmd c') as [col'|] eqn:Hc; [|done]. cbn.
  destruct (colors_of s) as [cs|]; [|done]. cbn. intros [= <-].
  destruct i as [|i]; cbn; [intros [= <-]; eauto|]. by apply IH.
Qed.

Lemma string_get_lt i s : (i < String.length s)%nat → is_Some (String.get i s).
Proof.
  revert i. induction s as [|c s IH]; intros i; cbn; [lia|]. destruct i; [done|]. intros ?. apply IH. lia.
Qed.

Lemma color_of_nul : color_of_cmd NUL = None.
Proof. done. Qed.

Lemma c_char_at_in s cols i :
  colors_of s = Some cols → (i < String.length s)%nat →
  ∃ c col, c_char_at s (Z.of_nat i) = Some c ∧ color_of_cmd c = Some col ∧ cols !! i = Some col.
Proof.
  intros Hs Hi. destruct (string_get_lt i s Hi) as [c Hc].
  destruct (colors_of_get s cols i c Hs Hc) as (col & Hcol & Hi'). exists c, col. split_and!; try done.
  unfold c_char_at. rewrite (proj2 (Z.ltb_ge _ _)) by lia. rewrite (proj2 (Z.eqb_neq _ _)) by lia.
  by rewrite Nat2Z.id.
Qed.

Lemma c_char_at_end s : c_char_at s (Z.of_nat (String.length s)) = Some NUL.
Proof.
  unfold c_char_at. rewrite (proj2 (Z.ltb_ge _ _)) by lia. by rewrite Z.eqb_refl.
Qed.

(** The index after showing character [i] of [n]. *)
Definition next_idx (i n : nat) : Z := if decide (S i = n) then 0 else Z.of_nat (S i).

(** The state of a player between two updates. *)
Definition playing (cur : os_task_handle_t) (st : leds_blinking_t) (s : string) (i : nat) : Prop :=
  g_leds_blinking_task_handle st = cur ∧
  p_sequence (g_leds_blinking_mode st) = Some s ∧
  wf_sequence s ∧ g_leds_blinking_sequence_idx st = Z.of_nat i ∧ (i < String.length s)%nat.

Lemma check_task_run {E} cur st :
  g_leds_blinking_task_handle st = cur → run (E:=E) (leds_blinking_check_task cur) st tt st [].
Proof. intros <-. unfold leds_blinking_check_task. run_step. by rewrite bool_decide_true. Qed.

Lemma get_next_run {E} cur st s i cols :
  playing cur st s i → colors_of s = Some cols →
  ∃ col, cols !! i = Some col ∧
    run (E:=E) (leds_blinking_get_next cur) st col
      (st <| g_leds_blinking_sequence_idx := next_idx i (String.length s) |>) [].
Proof.
  intros (Ht & Hp & _ & Hidx & Hi) Hs.
  destruct (c_char_at_in s cols i Hs Hi) as (c & col & Hc & Hcol & Hlk). exists col. split; [done|].
  unfold leds_blinking_get_next. eapply run_bind_silent; [by apply check_task_run|].
  unfold leds_blinking_get_next_internal. run_step. run_step. rewrite Hidx, Hp.
  eapply run_bind_silent; [reflexivity|]. cbn [seq_char]. rewrite Hc.
  eapply run_bind_silent; [apply run_ret|]. cbv beta.
  unfold next_idx. destruct (decide (S i = String.length s)) as [He|He].
  - replace (Z.of_nat i + 1) with (Z.of_nat (String.length s)) by lia. rewrite c_char_at_end.
    eapply run_bind_silent; [apply run_ret|]. cbv beta. rewrite bool_decide_true by done.
    run_step. rewrite Hcol. apply run_ret.
  - destruct (c_char_at_in s cols (S i) Hs) as (c2 & col2 & Hc2 & Hcol2 & _); [lia|].
    replace (Z.of_nat i + 1) with (Z.of_nat (S i)) by lia. rewrite Hc2.
    eapply run_bind_silent; [apply run_ret|]. cbv beta.
    rewrite bool_decide_false by (intros ->; by rewrite color_of_nul in Hcol2).
    run_step. rewrite Hcol. apply run_ret.
Qed.

Lemma is_finished_run {E} cur st i n :
  g_leds_blinking_task_handle st = cur → (i < n)%nat → g_leds_blinking_sequence_idx st = next_idx i n →
  run (E:=E) (leds_blinking_is_sequence_finished cur) st (bool_decide (S i = n)) st [].
Proof.
  intros Ht Hi Hidx. unfold leds_blinking_is_sequence_finished.
  eapply run_bind_silent; [by apply check_task_run|]. run_step. rewrite Hidx. unfold next_idx.
  case_decide; by rewrite ?bool_decide_true, ?bool_decide_false by done.
Qed.

Lemma set_new_sequence_run {E} cur st m :
  g_leds_blinking_task_handle st = cur → g_leds_blinking_sequence_idx st = 0 → wf_mode m →
  run (E:=E) (leds_blinking_set_new_sequence cur m) st tt (st <| g_leds_blinking_mode := m |>) [].
Proof.
  intros Ht Hidx (s & Hs & _). unfold leds_blinking_set_new_sequence.
  eapply run_bind_silent; [by apply check_task_run|].
  rewrite bool_decide_true by (rewrite Hs; done). eapply run_bind_silent; [apply run_skip|].
  run_step. rewrite Hidx. eapply run_bind_silent; [reflexivity|]. apply run_modify.
Qed.

Lemma playing_start cur st m s :
  g_leds_blinking_task_handle st = cur → p_sequence m = Some s → wf_sequence s →
  g_leds_blinking_sequence_idx st = 0 → g_leds_blinking_mode st = m → playing cur st s 0.
Proof.
  intros Ht Hs Hwf Hi Hm. unfold playing. rewrite Hm. split_and!; try done.
  destruct Hwf as [Hne _]. destruct s; [done|]. cbn. lia.
Qed.

(** Decide a closed instance of [wf_sequence] by evaluation. *)
Ltac solve_wf_sequence := apply (bool_decide_unpack _); vm_compute; exact I.
