(* ===== verification/LedsCtrl2.v ===== *)
(** * The connection sub-machine of the LEDs (src/main/leds_ctrl2.c)

    Flags that record the state of the network and of the data targets, and the
    choice of the blinking sequence that shows them. *)

From S2P Require Import Prelude LedsBlinking.
Open Scope string_scope.
Open Scope Z_scope.

(** ** Sequences (src/main/leds_ctrl_defs.h) *)

Definition LEDS_BLINKING_MODE_WIFI_HOTSPOT_ACTIVE : string := "RRRRRRRRRRGGGGGGGGGG".
Definition LEDS_BLINKING_MODE_WIFI_HOTSPOT_ACTIVE_AND_WPS : string := "RRRRRRRRGRGGGGGGGGGG".
Definition LEDS_BLINKING_MODE_NETWORK_PROBLEM : string := "R-R-R-R-R-".
Definition LEDS_BLINKING_MODE_NOT_CONNECTED_TO_ANY_TARGET : string := "RRRRR-----".
Definition LEDS_BLINKING_MODE_NO_ADVS : string := "G-G-G-G-G-".
Definition LEDS_BLINKING_MODE_CONNECTED_TO_ALL_TARGETS : string := "GGGGGGGGGG".
Definition LEDS_BLINKING_MODE_CONNECTED_TO_SOME_TARGETS : string := "GGGGGGGGG-".

Definition LEDS_CTRL_MAX_NUM_HTTP_CONN : nat := 2.
Definition LEDS_CTRL_MAX_NUM_MQTT_CONN : nat := 1.

(** ** State *)

Record leds_ctrl_params_t := LedsCtrlParams {
  flag_use_mqtt : bool;
  http_targets_bitmask : Z;
}.

Record leds_ctrl2_state_t := LedsCtrl2State {
  params : leds_ctrl_params_t;
  flag_wifi_ap_active : bool;
  flag_wps_active : bool;
  flag_network_connected : bool;
  flag_http_conn_status : list bool;
  flag_mqtt_conn_status : list bool;
  flag_http_poll_status : bool;
  flag_recv_adv_status : bool;
}.
#[export] Instance leds_ctrl2_eta : Eta leds_ctrl2_state_t := λ r,
  LedsCtrl2State (params r) (flag_wifi_ap_active r) (flag_wps_active r) (flag_network_connected r)
    (flag_http_conn_status r) (flag_mqtt_conn_status r) (flag_http_poll_status r)
    (flag_recv_adv_status r).

Inductive leds_ctrl2_event_e :=
| LEDS_CTRL2_EVENT_WIFI_AP_STARTED
| LEDS_CTRL2_EVENT_WIFI_AP_STOPPED
| LEDS_CTRL2_EVENT_WPS_ACTIVATED
| LEDS_CTRL2_EVENT_WPS_DEACTIVATED
| LEDS_CTRL2_EVENT_NETWORK_CONNECTED
| LEDS_CTRL2_EVENT_NETWORK_DISCONNECTED
| LEDS_CTRL2_EVENT_MQTT1_CONNECTED
| LEDS_CTRL2_EVENT_MQTT1_DISCONNECTED
| LEDS_CTRL2_EVENT_HTTP1_DATA_SENT_SUCCESSFULLY
| LEDS_CTRL2_EVENT_HTTP1_DATA_SENT_FAIL
| LEDS_CTRL2_EVENT_HTTP2_DATA_SENT_SUCCESSFULLY
| LEDS_CTRL2_EVENT_HTTP2_DATA_SENT_FAIL
| LEDS_CTRL2_EVENT_HTTP_POLL_OK
| LEDS_CTRL2_EVENT_HTTP_POLL_TIMEOUT
| LEDS_CTRL2_EVENT_RECV_ADV
| LEDS_CTRL2_EVENT_RECV_ADV_TIMEOUT.

(** ** Operations *)

Definition set_array (a : list bool) (i : nat) (b : bool) : list bool := <[i := b]> a.

Definition leds_ctrl2_init (p_state : leds_ctrl2_state_t) : leds_ctrl2_state_t :=
  p_state <| params := LedsCtrlParams false 0 |>
          <| flag_wifi_ap_active := false |>
          <| flag_wps_active := false |>
          <| flag_network_connected := true |>
          <| flag_recv_adv_status := true |>
          <| flag_http_conn_status := replicate LEDS_CTRL_MAX_NUM_HTTP_CONN true |>
          <| flag_mqtt_conn_status := replicate LEDS_CTRL_MAX_NUM_MQTT_CONN true |>
          <| flag_http_poll_status := true |>.

(** [flag_wps_active] is not reset. *)
Definition leds_ctrl2_deinit (p_state : leds_ctrl2_state_t) : leds_ctrl2_state_t :=
  p_state <| params := LedsCtrlParams false 0 |>
          <| flag_wifi_ap_active := false |>
          <| flag_network_connected := false |>
          <| flag_recv_adv_status := false |>
          <| flag_http_conn_status := replicate LEDS_CTRL_MAX_NUM_HTTP_CONN false |>
          <| flag_mqtt_conn_status := replicate LEDS_CTRL_MAX_NUM_MQTT_CONN false |>
          <| flag_http_poll_status := false |>.

Definition leds_ctrl2_configure (p : leds_ctrl_params_t) (p_state : leds_ctrl2_state_t)
    : leds_ctrl2_state_t :=
  p_state <| params := p |>.

Definition leds_ctrl2_on_event (event : leds_ctrl2_event_e) (p_state : leds_ctrl2_state_t)
    : leds_ctrl2_state_t :=
  match event with
  | LEDS_CTRL2_EVENT_WIFI_AP_STARTED => p_state <| flag_wifi_ap_active := true |>
  | LEDS_CTRL2_EVENT_WIFI_AP_STOPPED => p_state <| flag_wifi_ap_active := false |>
  | LEDS_CTRL2_EVENT_WPS_ACTIVATED => p_state <| flag_wps_active := true |>
  | LEDS_CTRL2_EVENT_WPS_DEACTIVATED => p_state <| flag_wps_active := false |>
  | LEDS_CTRL2_EVENT_NETWORK_CONNECTED =>
      let p_state := p_state <| flag_network_connected := true |> in
      let p_state := p_state <| flag_http_conn_status := set_array (flag_http_conn_status p_state) 0 true |> in
      p_state <| flag_http_conn_status := set_array (flag_http_conn_status p_state) 1 true |>
  | LEDS_CTRL2_EVENT_NETWORK_DISCONNECTED => p_state <| flag_network_connected := false |>
  | LEDS_CTRL2_EVENT_MQTT1_CONNECTED =>
      p_state <| flag_mqtt_conn_status := set_array (flag_mqtt_conn_status p_state) 0 true |>
  | LEDS_CTRL2_EVENT_MQTT1_DISCONNECTED =>
      p_state <| flag_mqtt_conn_status := set_array (flag_mqtt_conn_status p_state) 0 false |>
  | LEDS_CTRL2_EVENT_HTTP1_DATA_SENT_SUCCESSFULLY =>
      p_state <| flag_http_conn_status := set_array (flag_http_conn_status p_state) 0 true |>
  | LEDS_CTRL2_EVENT_HTTP1_DATA_SENT_FAIL =>
      p_state <| flag_http_conn_status := set_array (flag_http_conn_status p_state) 0 false |>
  | LEDS_CTRL2_EVENT_HTTP2_DATA_SENT_SUCCESSFULLY =>
      p_state <| flag_http_conn_status := set_array (flag_http_conn_status p_state) 1 true |>
  | LEDS_CTRL2_EVENT_HTTP2_DATA_SENT_FAIL =>
      p_state <| flag_http_conn_status := set_array (flag_http_conn_status p_state) 1 false |>
  | LEDS_CTRL2_EVENT_HTTP_POLL_OK => p_state <| flag_http_poll_status := true |>
  | LEDS_CTRL2_EVENT_HTTP_POLL_TIMEOUT => p_state <| flag_http_poll_status := false |>
  | LEDS_CTRL2_EVENT_RECV_ADV => p_state <| flag_recv_adv_status := true |>
  | LEDS_CTRL2_EVENT_RECV_ADV_TIMEOUT => p_state <| flag_recv_adv_status := false |>
  end.

Definition leds_ctrl2_handle_event (event : leds_ctrl2_event_e) (g_leds_ctrl2 : leds_ctrl2_state_t)
    : leds_ctrl2_state_t :=
  leds_ctrl2_on_event event g_leds_ctrl2.

Definition is_target (p : leds_ctrl_params_t) (i : nat) : bool :=
  negb (0 =? Z.land (http_targets_bitmask p) (u32 (Z.shiftl 1 (Z.of_nat i)))).

Definition array_get (a : list bool) (i : nat) : bool := nth i a false.

Definition leds_ctrl2_get_num_configured_targets (p_state : leds_ctrl2_state_t) : Z :=
  let cnt := fold_left (λ cnt i, if is_target (params p_state) i then u32 (cnt + 1) else cnt)
               (seq 0 LEDS_CTRL_MAX_NUM_HTTP_CONN) 0 in
  if flag_use_mqtt (params p_state) then u32 (cnt + 1) else cnt.

(** The second half of [leds_ctrl2_get_new_blinking_sequence] counts the targets
    that are connected. *)
Definition num_active_targets (p_state : leds_ctrl2_state_t) : Z :=
  let cnt := fold_left
               (λ cnt i, if is_target (params p_state) i
                         then if array_get (flag_http_conn_status p_state) i then u32 (cnt + 1) else cnt
                         else cnt)
               (seq 0 LEDS_CTRL_MAX_NUM_HTTP_CONN) 0 in
  if flag_use_mqtt (params p_state) && array_get (flag_mqtt_conn_status p_state) 0
  then u32 (cnt + 1) else cnt.

Definition mode_of (s : string) : leds_blinking_mode_t := BlinkingMode (Some s).

Definition leds_ctrl2_get_new_blinking_sequence (p_state : leds_ctrl2_state_t) : leds_blinking_mode_t :=
  if flag_wifi_ap_active p_state then
    if flag_wps_active p_state
    then mode_of LEDS_BLINKING_MODE_WIFI_HOTSPOT_ACTIVE_AND_WPS
    else mode_of LEDS_BLINKING_MODE_WIFI_HOTSPOT_ACTIVE
  else if negb (flag_network_connected p_state) then mode_of LEDS_BLINKING_MODE_NETWORK_PROBLEM
  else if negb (flag_recv_adv_status p_state) then mode_of LEDS_BLINKING_MODE_NO_ADVS
  else
    let num_configured_targets := leds_ctrl2_get_num_configured_targets p_state in
    if 0 =? num_configured_targets then
      if negb (flag_http_poll_status p_state)
      then mode_of LEDS_BLINKING_MODE_NOT_CONNECTED_TO_ANY_TARGET
      else mode_of LEDS_BLINKING_MODE_CONNECTED_TO_ALL_TARGETS
    else
      let num_active_targets := num_active_targets p_state in
      if 0 =? num_active_targets then mode_of LEDS_BLINKING_MODE_NOT_CONNECTED_TO_ANY_TARGET
      else if negb (num_configured_targets =? num_active_targets)
      then mode_of LEDS_BLINKING_MODE_CONNECTED_TO_SOME_TARGETS
      else mode_of LEDS_BLINKING_MODE_CONNECTED_TO_ALL_TARGETS.

(** ** What the sequence shows *)

(** The configured targets, and whether each is connected. *)
Inductive target := TargetHttp (i : nat) | TargetMqtt.

Definition configured (st : leds_ctrl2_state_t) (t : target) : bool :=
  match t with
  | TargetHttp i => is_target (params st) i
  | TargetMqtt => flag_use_mqtt (params st)
  end.

Definition connected (st : leds_ctrl2_state_t) (t : target) : bool :=
  match t with
  | TargetHttp i => array_get (flag_http_conn_status st) i
  | TargetMqtt => array_get (flag_mqtt_conn_status st) 0
  end.

Definition all_targets : list target := [TargetHttp 0; TargetHttp 1; TargetMqtt].

Definition configured_targets (st : leds_ctrl2_state_t) : list target :=
  List.filter (configured st) all_targets.

(** The state a user should see, by priority. *)
Inductive link_status :=
| Hotspot (wps : bool)
| NoNetwork
| NoAdvs
| NoTarget
| SomeTargets
| AllTargets.

Definition link_status_of (st : leds_ctrl2_state_t) : link_status :=
  if flag_wifi_ap_active st then Hotspot (flag_wps_active st)
  else if negb (flag_network_connected st) then NoNetwork
  else if negb (flag_recv_adv_status st) then NoAdvs
  else match configured_targets st with
       | [] => if flag_http_poll_status st then AllTargets else NoTarget
       | ts => if forallb (connected st) ts then AllTargets
               else if existsb (connected st) ts then SomeTargets else NoTarget
       end.

Definition sequence_of_status (s : link_status) : string :=
  match s with
  | Hotspot true => LEDS_BLINKING_MODE_WIFI_HOTSPOT_ACTIVE_AND_WPS
  | Hotspot false => LEDS_BLINKING_MODE_WIFI_HOTSPOT_ACTIVE
  | NoNetwork => LEDS_BLINKING_MODE_NETWORK_PROBLEM
  | NoAdvs => LEDS_BLINKING_MODE_NO_ADVS
  | NoTarget => LEDS_BLINKING_MODE_NOT_CONNECTED_TO_ANY_TARGET
  | SomeTargets => LEDS_BLINKING_MODE_CONNECTED_TO_SOME_TARGETS
  | AllTargets => LEDS_BLINKING_MODE_CONNECTED_TO_ALL_TARGETS
  end.

Lemma ctrl2_sequence_status st :
  leds_ctrl2_get_new_blinking_sequence st = mode_of (sequence_of_status (link_status_of st)).
Proof.
  unfold leds_ctrl2_get_new_blinking_sequence, link_status_of, configured_targets,
    leds_ctrl2_get_num_configured_targets, num_active_targets.
  cbn [all_targets List.filter configured seq fold_left LEDS_CTRL_MAX_NUM_HTTP_CONN].
  destruct (flag_wifi_ap_active st), (flag_wps_active st), (flag_network_connected st),
    (flag_recv_adv_status st), (flag_http_poll_status st); try done;
  destruct (is_target (params st) 0), (is_target (params st) 1), (flag_use_mqtt (params st));
  cbn [connected forallb existsb andb orb];
  destruct (array_get (flag_http_conn_status st) 0), (array_get (flag_http_conn_status st) 1),
    (array_get (flag_mqtt_conn_status st) 0); done.
Qed.

Lemma status_wf s : wf_sequence (sequence_of_status s).
Proof. destruct s as [[]| | | | |]; solve_wf_sequence. Qed.

Lemma ctrl2_sequence_wf st : wf_mode (leds_ctrl2_get_new_blinking_sequence st).
Proof. rewrite ctrl2_sequence_status. eexists. split; [done|apply status_wf]. Qed.
