(* ===== verification/LedsCtrl.v ===== *)
(** * The state machine of the LEDs (src/main/leds_ctrl.c)

    The boot phases of the gateway as seen by the LEDs; the phase [SUBSTATE]
    delegates to the connection sub-machine of [LedsCtrl2]. *)

From S2P Require Import Prelude LedsBlinking LedsCtrl2.
Open Scope string_scope.
Open Scope Z_scope.

(** ** Data *)

Definition LEDS_BLINKING_AFTER_REBOOT : string := "R-R-R-R-".
Definition LEDS_BLINKING_WHILE_CHECKING_NRF52_FW : string := "-".
Definition LEDS_BLINKING_CONTROLLED_BY_NRF52 : string := "-".
Definition LEDS_BLINKING_WHILE_FLASHING_NRF52_FW : string := "R---------".
Definition LEDS_BLINKING_NRF52_FAILURE : string := "R".
Definition LEDS_BLINKING_NRF52_REBOOTED : string := "-------R-R".
Definition LEDS_BLINKING_ON_CFG_ERASING : string := "-".
Definition LEDS_BLINKING_ON_CFG_ERASED : string := "RR--RR--".
Definition LEDS_BLINKING_MODE_BEFORE_REBOOT : string := "-".

Inductive leds_ctrl_event_e :=
| LEDS_CTRL_EVENT_REBOOT
| LEDS_CTRL_EVENT_CFG_ERASED
| LEDS_CTRL_EVENT_NRF52_FW_CHECK
| LEDS_CTRL_EVENT_NRF52_FW_UPDATING
| LEDS_CTRL_EVENT_NRF52_READY
| LEDS_CTRL_EVENT_NRF52_FAILURE
| LEDS_CTRL_EVENT_NRF52_REBOOTED
| LEDS_CTRL_EVENT_NRF52_CONFIGURED
| LEDS_CTRL_EVENT_CFG_READY.
#[export] Instance leds_ctrl_event_eq_dec : EqDecision leds_ctrl_event_e.
Proof. solve_decision. Defined.

Inductive leds_ctrl_state_e :=
| LEDS_CTRL_STATE_INITIAL
| LEDS_CTRL_STATE_AFTER_REBOOT
| LEDS_CTRL_STATE_CHECKING_NRF52_FW
| LEDS_CTRL_STATE_FLASHING_NRF52_FW
| LEDS_CTRL_STATE_NRF52_FAILURE
| LEDS_CTRL_STATE_NRF52_REBOOTED
| LEDS_CTRL_STATE_CFG_ERASING
| LEDS_CTRL_STATE_CFG_ERASED
| LEDS_CTRL_STATE_WAITING_CFG_READY
| LEDS_CTRL_STATE_SUBSTATE
| LEDS_CTRL_STATE_BEFORE_REBOOT.
#[export] Instance leds_ctrl_state_eq_dec : EqDecision leds_ctrl_state_e.
Proof. solve_decision. Defined.

(** The functions a callback pointer can hold; [None] is a null pointer. *)
Inductive leds_ctrl_cb :=
| cb_enter_after_reboot
| cb_exit_after_reboot
| cb_enter_before_reboot.

Record leds_ctrl_callbacks_t := LedsCtrlCallbacks {
  cb_on_enter_state_after_reboot : option leds_ctrl_cb;
  cb_on_exit_state_after_reboot : option leds_ctrl_cb;
  cb_on_enter_state_before_reboot : option leds_ctrl_cb;
}.

(** The static state of leds_ctrl.c and, below it, of leds_ctrl2.c. *)
Record leds_ctrl_state_t := LedsCtrlState {
  task_handle : os_task_handle_t;
  leds_sm_state : leds_ctrl_state_e;
  flag_configure_button_pressed : bool;
  flag_submachine_configured : bool;
  callbacks : leds_ctrl_callbacks_t;
  g_leds_ctrl2 : leds_ctrl2_state_t;
}.
#[export] Instance leds_ctrl_eta : Eta leds_ctrl_state_t := λ r,
  LedsCtrlState (task_handle r) (leds_sm_state r) (flag_configure_button_pressed r)
    (flag_submachine_configured r) (callbacks r) (g_leds_ctrl2 r).

(** The calls of the component: through its callback pointers. *)
Inductive leds_ctrl_ev := CallCb (cb : leds_ctrl_cb).

Abbreviation cprog := (prog leds_ctrl_state_t leds_ctrl_ev).

(** ** Transitions *)

Definition call_cb (cb : option leds_ctrl_cb) : cprog unit :=
  match cb with
  | Some f => emit (CallCb f)
  | None => skip
  end.

Definition leds_ctrl_do_actions_step (p_leds_ctrl_state : leds_ctrl_state_t) : leds_ctrl_state_e :=
  match leds_sm_state p_leds_ctrl_state with
  | LEDS_CTRL_STATE_INITIAL =>
      if flag_configure_button_pressed p_leds_ctrl_state then LEDS_CTRL_STATE_CFG_ERASING
      else LEDS_CTRL_STATE_AFTER_REBOOT
  | LEDS_CTRL_STATE_AFTER_REBOOT
  | LEDS_CTRL_STATE_CHECKING_NRF52_FW
  | LEDS_CTRL_STATE_FLASHING_NRF52_FW
  | LEDS_CTRL_STATE_NRF52_FAILURE
  | LEDS_CTRL_STATE_NRF52_REBOOTED
  | LEDS_CTRL_STATE_CFG_ERASING
  | LEDS_CTRL_STATE_CFG_ERASED
  | LEDS_CTRL_STATE_WAITING_CFG_READY
  | LEDS_CTRL_STATE_SUBSTATE
  | LEDS_CTRL_STATE_BEFORE_REBOOT => leds_sm_state p_leds_ctrl_state
  end.

Definition leds_ctrl_transition (new_led_ctrl_sm_state : leds_ctrl_state_e) : cprog unit :=
  st ← getst;
  (if bool_decide (LEDS_CTRL_STATE_AFTER_REBOOT = new_led_ctrl_sm_state)
   then call_cb (cb_on_enter_state_after_reboot (callbacks st))
   else if bool_decide (LEDS_CTRL_STATE_BEFORE_REBOOT = new_led_ctrl_sm_state)
   then call_cb (cb_on_enter_state_before_reboot (callbacks st))
   else skip) ;;
  (if bool_decide (LEDS_CTRL_STATE_AFTER_REBOOT = leds_sm_state st)
   then call_cb (cb_on_exit_state_after_reboot (callbacks st))
   else skip) ;;
  modify (λ st, st <| leds_sm_state := new_led_ctrl_sm_state |>).

(** [while (1)]; [leds_ctrl_do_actions] gives the loop one iteration per state of
    the machine. *)
Fixpoint do_actions_loop (fuel : nat) : cprog unit :=
  match fuel with
  | O => fail OutOfFuel
  | S fuel' =>
      st ← getst;
      let new_leds_ctrl_state := leds_ctrl_do_actions_step st in
      if bool_decide (new_leds_ctrl_state = leds_sm_state st) then skip
      else leds_ctrl_transition new_leds_ctrl_state ;; do_actions_loop fuel'
  end.

Definition leds_ctrl_do_actions : cprog unit := do_actions_loop 11.

(** ** Initialisation and configuration *)

Definition leds_ctrl_init (cur_task : os_task_handle_t) (button_pressed : bool)
    (cbs : leds_ctrl_callbacks_t) : cprog unit :=
  modify (λ st, st <| leds_sm_state := LEDS_CTRL_STATE_INITIAL |>
                   <| task_handle := cur_task |>
                   <| flag_configure_button_pressed := button_pressed |>
                   <| flag_submachine_configured := false |>
                   <| callbacks := cbs |>) ;;
  modify (λ st, st <| g_leds_ctrl2 := leds_ctrl2_init (g_leds_ctrl2 st) |>) ;;
  leds_ctrl_do_actions.

Definition leds_ctrl_deinit : cprog unit :=
  modify (λ st, st <| leds_sm_state := LEDS_CTRL_STATE_INITIAL |>
                   <| task_handle := None |>
                   <| flag_submachine_configured := false |>
                   <| callbacks := LedsCtrlCallbacks None None None |>) ;;
  modify (λ st, st <| g_leds_ctrl2 := leds_ctrl2_deinit (g_leds_ctrl2 st) |>).

Definition leds_ctrl_configure_sub_machine (p : leds_ctrl_params_t) : cprog unit :=
  modify (λ st, st <| g_leds_ctrl2 := leds_ctrl2_configure p (g_leds_ctrl2 st) |>) ;;
  modify (λ st, st <| flag_submachine_configured := true |>).

Definition leds_ctrl_check_cur_thread (cur_task : os_task_handle_t) (st : leds_ctrl_state_t) : bool :=
  bool_decide (cur_task = task_handle st).

(** ** Events

    A handler gives the next state; [None] is [assert(0)]. *)

Definition leds_ctrl_handle_event_in_state_after_reboot (st : leds_ctrl_state_t)
    (ev : leds_ctrl_event_e) : option leds_ctrl_state_e :=
  match ev with
  | LEDS_CTRL_EVENT_REBOOT => Some LEDS_CTRL_STATE_BEFORE_REBOOT
  | LEDS_CTRL_EVENT_CFG_ERASED => None
  | LEDS_CTRL_EVENT_NRF52_FW_CHECK => Some LEDS_CTRL_STATE_CHECKING_NRF52_FW
  | LEDS_CTRL_EVENT_NRF52_FW_UPDATING => None
  | LEDS_CTRL_EVENT_NRF52_READY => None
  | LEDS_CTRL_EVENT_NRF52_FAILURE => None
  | LEDS_CTRL_EVENT_NRF52_REBOOTED => None
  | LEDS_CTRL_EVENT_NRF52_CONFIGURED => None
  | LEDS_CTRL_EVENT_CFG_READY => None
  end.

Definition leds_ctrl_handle_event_in_state_cfg_erasing (st : leds_ctrl_state_t)
    (ev : leds_ctrl_event_e) : option leds_ctrl_state_e :=
  match ev with
  | LEDS_CTRL_EVENT_REBOOT => Some LEDS_CTRL_STATE_BEFORE_REBOOT
  | LEDS_CTRL_EVENT_CFG_ERASED => Some LEDS_CTRL_STATE_CFG_ERASED
  | LEDS_CTRL_EVENT_NRF52_FW_CHECK => None
  | LEDS_CTRL_EVENT_NRF52_FW_UPDATING => None
  | LEDS_CTRL_EVENT_NRF52_READY => None
  | LEDS_CTRL_EVENT_NRF52_FAILURE => None
  | LEDS_CTRL_EVENT_NRF52_REBOOTED => None
  | LEDS_CTRL_EVENT_NRF52_CONFIGURED => None
  | LEDS_CTRL_EVENT_CFG_READY => None
  end.

Definition leds_ctrl_handle_event_in_state_checking_nrf52_fw (st : leds_ctrl_state_t)
    (ev : leds_ctrl_event_e) : option leds_ctrl_state_e :=
  match ev with
  | LEDS_CTRL_EVENT_REBOOT => Some LEDS_CTRL_STATE_BEFORE_REBOOT
  | LEDS_CTRL_EVENT_CFG_ERASED => None
  | LEDS_CTRL_EVENT_NRF52_FW_CHECK => None
  | LEDS_CTRL_EVENT_NRF52_FW_UPDATING => Some LEDS_CTRL_STATE_FLASHING_NRF52_FW
  | LEDS_CTRL_EVENT_NRF52_READY => Some LEDS_CTRL_STATE_WAITING_CFG_READY
  | LEDS_CTRL_EVENT_NRF52_FAILURE => Some LEDS_CTRL_STATE_NRF52_FAILURE
  | LEDS_CTRL_EVENT_NRF52_REBOOTED => None
  | LEDS_CTRL_EVENT_NRF52_CONFIGURED => None
  | LEDS_CTRL_EVENT_CFG_READY => None
  end.

Definition leds_ctrl_handle_event_in_state_flashing_nrf52_fw (st : leds_ctrl_state_t)
    (ev : leds_ctrl_event_e) : option leds_ctrl_state_e :=
  match ev with
  | LEDS_CTRL_EVENT_REBOOT => Some LEDS_CTRL_STATE_BEFORE_REBOOT
  | LEDS_CTRL_EVENT_CFG_ERASED => None
  | LEDS_CTRL_EVENT_NRF52_FW_CHECK => None
  | LEDS_CTRL_EVENT_NRF52_FW_UPDATING => None
  | LEDS_CTRL_EVENT_NRF52_READY => Some LEDS_CTRL_STATE_WAITING_CFG_READY
  | LEDS_CTRL_EVENT_NRF52_FAILURE => Some LEDS_CTRL_STATE_NRF52_FAILURE
  | LEDS_CTRL_EVENT_NRF52_REBOOTED => None
  | LEDS_CTRL_EVENT_NRF52_CONFIGURED => None
  | LEDS_CTRL_EVENT_CFG_READY => Some (leds_sm_state st)
  end.

Definition leds_ctrl_handle_event_in_state_nrf52_rebooted (st : leds_ctrl_state_t)
    (ev : leds_ctrl_event_e) : option leds_ctrl_state_e :=
  match ev with
  | LEDS_CTRL_EVENT_REBOOT => None
  | LEDS_CTRL_EVENT_CFG_ERASED => None
  | LEDS_CTRL_EVENT_NRF52_FW_CHECK => None
  | LEDS_CTRL_EVENT_NRF52_FW_UPDATING => None
  | LEDS_CTRL_EVENT_NRF52_READY => None
  | LEDS_CTRL_EVENT_NRF52_FAILURE => None
  | LEDS_CTRL_EVENT_NRF52_REBOOTED => None
  | LEDS_CTRL_EVENT_NRF52_CONFIGURED => Some LEDS_CTRL_STATE_SUBSTATE
  | LEDS_CTRL_EVENT_CFG_READY => Some (leds_sm_state st)
  end.

Definition leds_ctrl_handle_event_in_state_waiting_cfg_ready (st : leds_ctrl_state_t)
    (ev : leds_ctrl_event_e) : option leds_ctrl_state_e :=
  match ev with
  | LEDS_CTRL_EVENT_REBOOT => Some LEDS_CTRL_STATE_BEFORE_REBOOT
  | LEDS_CTRL_EVENT_CFG_ERASED => None
  | LEDS_CTRL_EVENT_NRF52_FW_CHECK => None
  | LEDS_CTRL_EVENT_NRF52_FW_UPDATING => None
  | LEDS_CTRL_EVENT_NRF52_READY => None
  | LEDS_CTRL_EVENT_NRF52_FAILURE => None
  | LEDS_CTRL_EVENT_NRF52_REBOOTED => None
  | LEDS_CTRL_EVENT_NRF52_CONFIGURED => None
  | LEDS_CTRL_EVENT_CFG_READY => Some LEDS_CTRL_STATE_SUBSTATE
  end.

Definition leds_ctrl_handle_event_in_state_substate (st : leds_ctrl_state_t)
    (ev : leds_ctrl_event_e) : option leds_ctrl_state_e :=
  match ev with
  | LEDS_CTRL_EVENT_REBOOT => None
  | LEDS_CTRL_EVENT_CFG_ERASED => None
  | LEDS_CTRL_EVENT_NRF52_FW_CHECK => None
  | LEDS_CTRL_EVENT_NRF52_FW_UPDATING => Some LEDS_CTRL_STATE_FLASHING_NRF52_FW
  | LEDS_CTRL_EVENT_NRF52_READY => Some (leds_sm_state st)
  | LEDS_CTRL_EVENT_NRF52_FAILURE => Some (leds_sm_state st)
  | LEDS_CTRL_EVENT_NRF52_REBOOTED => None
  | LEDS_CTRL_EVENT_NRF52_CONFIGURED => Some (leds_sm_state st)
  | LEDS_CTRL_EVENT_CFG_READY => None
  end.

Definition leds_ctrl_new_state (st : leds_ctrl_state_t) (ev : leds_ctrl_event_e)
    : option leds_ctrl_state_e :=
  if bool_decide (LEDS_CTRL_EVENT_REBOOT = ev) then Some LEDS_CTRL_STATE_BEFORE_REBOOT
  else if bool_decide (LEDS_CTRL_EVENT_NRF52_REBOOTED = ev) then Some LEDS_CTRL_STATE_NRF52_REBOOTED
  else
    match leds_sm_state st with
    | LEDS_CTRL_STATE_INITIAL => Some (leds_sm_state st)
    | LEDS_CTRL_STATE_AFTER_REBOOT => leds_ctrl_handle_event_in_state_after_reboot st ev
    | LEDS_CTRL_STATE_CHECKING_NRF52_FW => leds_ctrl_handle_event_in_state_checking_nrf52_fw st ev
    | LEDS_CTRL_STATE_FLASHING_NRF52_FW => leds_ctrl_handle_event_in_state_flashing_nrf52_fw st ev
    | LEDS_CTRL_STATE_NRF52_FAILURE => Some (leds_sm_state st)
    | LEDS_CTRL_STATE_NRF52_REBOOTED => leds_ctrl_handle_event_in_state_nrf52_rebooted st ev
    | LEDS_CTRL_STATE_CFG_ERASING => leds_ctrl_handle_event_in_state_cfg_erasing st ev
    | LEDS_CTRL_STATE_CFG_ERASED => Some (leds_sm_state st)
    | LEDS_CTRL_STATE_WAITING_CFG_READY => leds_ctrl_handle_event_in_state_waiting_cfg_ready st ev
    | LEDS_CTRL_STATE_SUBSTATE =>
        if flag_submachine_configured st then leds_ctrl_handle_event_in_state_substate st ev
        else None
    | LEDS_CTRL_STATE_BEFORE_REBOOT => Some (leds_sm_state st)
    end.

Definition assert_some {A} (o : option A) : cprog A :=
  match o with Some a => mret a | None => fail AssertFailed end.

Definition leds_ctrl_handle_event (cur_task : os_task_handle_t) (ev : leds_ctrl_event_e) : cprog unit :=
  st ← getst;
  assert_c (leds_ctrl_check_cur_thread cur_task st) ;;
  new_sm_state ← assert_some (leds_ctrl_new_state st ev);
  if negb (bool_decide (new_sm_state = leds_sm_state st))
  then leds_ctrl_transition new_sm_state ;; leds_ctrl_do_actions
  else skip.

Definition leds_ctrl_get_new_blinking_sequence (cur_task : os_task_handle_t)
    : cprog leds_blinking_mode_t :=
  st ← getst;
  assert_c (leds_ctrl_check_cur_thread cur_task st) ;;
  match leds_sm_state st with
  | LEDS_CTRL_STATE_INITIAL => fail AssertFailed
  | LEDS_CTRL_STATE_AFTER_REBOOT => mret (mode_of LEDS_BLINKING_AFTER_REBOOT)
  | LEDS_CTRL_STATE_CHECKING_NRF52_FW => mret (mode_of LEDS_BLINKING_WHILE_CHECKING_NRF52_FW)
  | LEDS_CTRL_STATE_FLASHING_NRF52_FW => mret (mode_of LEDS_BLINKING_WHILE_FLASHING_NRF52_FW)
  | LEDS_CTRL_STATE_NRF52_FAILURE => mret (mode_of LEDS_BLINKING_NRF52_FAILURE)
  | LEDS_CTRL_STATE_NRF52_REBOOTED => mret (mode_of LEDS_BLINKING_NRF52_REBOOTED)
  | LEDS_CTRL_STATE_CFG_ERASING => mret (mode_of LEDS_BLINKING_ON_CFG_ERASING)
  | LEDS_CTRL_STATE_CFG_ERASED => mret (mode_of LEDS_BLINKING_ON_CFG_ERASED)
  | LEDS_CTRL_STATE_WAITING_CFG_READY => mret (mode_of LEDS_BLINKING_CONTROLLED_BY_NRF52)
  | LEDS_CTRL_STATE_SUBSTATE => mret (leds_ctrl2_get_new_blinking_sequence (g_leds_ctrl2 st))
  | LEDS_CTRL_STATE_BEFORE_REBOOT => mret (mode_of LEDS_BLINKING_MODE_BEFORE_REBOOT)
  end.

Definition leds_ctrl_is_in_substate (cur_task : os_task_handle_t) : cprog bool :=
  st ← getst;
  assert_c (leds_ctrl_check_cur_thread cur_task st) ;;
  mret (bool_decide (LEDS_CTRL_STATE_SUBSTATE = leds_sm_state st)).

(** ** Facts *)

(** Between handlers the machine belongs to its task and has left [INITIAL]. *)
Definition ctrl_ok (cur_task : os_task_handle_t) (st : leds_ctrl_state_t) : Prop :=
  task_handle st = cur_task ∧ leds_sm_state st ≠ LEDS_CTRL_STATE_INITIAL.

Lemma check_cur_thread_run cur st {A} (k : unit → cprog A) a st' es :
  task_handle st = cur → run (k tt) st a st' es →
  run (assert_c (leds_ctrl_check_cur_thread cur st) ≫= k) st a st' es.
Proof.
  intros <- Hk. unfold leds_ctrl_check_cur_thread. rewrite bool_decide_true by done.
  eapply run_bind_silent; [apply run_skip|done].
Qed.

Lemma do_actions_done st fuel :
  leds_sm_state st ≠ LEDS_CTRL_STATE_INITIAL → run (do_actions_loop (S fuel)) st tt st [].
Proof.
  intros Hne. cbn [do_actions_loop]. eapply run_bind_silent; [reflexivity|].
  rewrite bool_decide_true; [apply run_skip|].
  unfold leds_ctrl_do_actions_step. by destruct (leds_sm_state st).
Qed.

(** The state and calls of a transition. *)
Definition cb_list (cb : option leds_ctrl_cb) : list leds_ctrl_ev :=
  match cb with Some f => [CallCb f] | None => [] end.

Definition transition_calls (st : leds_ctrl_state_t) (new : leds_ctrl_state_e) : list leds_ctrl_ev :=
  (if bool_decide (LEDS_CTRL_STATE_AFTER_REBOOT = new)
   then cb_list (cb_on_enter_state_after_reboot (callbacks st))
   else if bool_decide (LEDS_CTRL_STATE_BEFORE_REBOOT = new)
   then cb_list (cb_on_enter_state_before_reboot (callbacks st)) else []) ++
  (if bool_decide (LEDS_CTRL_STATE_AFTER_REBOOT = leds_sm_state st)
   then cb_list (cb_on_exit_state_after_reboot (callbacks st)) else []).

Lemma call_cb_run cb st : run (call_cb cb) st tt st (cb_list cb).
Proof. by destruct cb. Qed.

Lemma transition_run st new :
  run (leds_ctrl_transition new) st tt (st <| leds_sm_state := new |>) (transition_calls st new).
Proof.
  unfold leds_ctrl_transition, transition_calls. eapply run_bind_silent; [reflexivity|].
  eapply run_bind.
  { repeat case_match; first [apply call_cb_run|apply run_skip]. }
  rewrite <- (app_nil_r (if bool_decide (LEDS_CTRL_STATE_AFTER_REBOOT = leds_sm_state st) then _ else _)).
  eapply run_bind; [|apply run_modify]. repeat case_match; first [apply call_cb_run|apply run_skip].
Qed.

Lemma handle_event_run cur st ev new :
  task_handle st = cur → leds_ctrl_new_state st ev = Some new →
  (new = leds_sm_state st ∨ new ≠ LEDS_CTRL_STATE_INITIAL) →
  run (leds_ctrl_handle_event cur ev) st tt (st <| leds_sm_state := new |>)
    (if bool_decide (new = leds_sm_state st) then [] else transition_calls st new).
Proof.
  intros Ht Hn Hi. unfold leds_ctrl_handle_event. eapply run_bind_silent; [reflexivity|].
  apply check_cur_thread_run; [done|]. rewrite Hn. eapply run_bind_silent; [apply run_ret|]. cbv beta.
  case_bool_decide as Hd; cbn [negb].
  - subst new. destruct st. apply run_skip.
  - rewrite <- (app_nil_r (transition_calls st new)). eapply run_bind; [apply transition_run|].
    apply do_actions_done. destruct Hi; done.
Qed.

(** No event leads back to [INITIAL]. *)
Lemma new_state_not_initial st ev new :
  leds_sm_state st ≠ LEDS_CTRL_STATE_INITIAL → leds_ctrl_new_state st ev = Some new →
  new ≠ LEDS_CTRL_STATE_INITIAL.
Proof.
  intros Hne. unfold leds_ctrl_new_state.
  destruct (leds_sm_state st) eqn:Hs, ev; cbn; rewrite ?Hs; try done;
    try destruct (flag_submachine_configured st); cbn; rewrite ?Hs; intros [= <-]; done.
Qed.

Lemma handle_event_none cur st ev :
  leds_ctrl_new_state st ev = None → leds_ctrl_handle_event cur ev st = Fault AssertFailed.
Proof.
  intros Hn. unfold leds_ctrl_handle_event, mbind, prog_bind. cbn.
  destruct (leds_ctrl_check_cur_thread cur st); cbn; [|done]. by rewrite Hn.
Qed.

(** A handled event keeps the machine in order. *)
Lemma handle_event_ok cur st ev st' es :
  ctrl_ok cur st → run (leds_ctrl_handle_event cur ev) st tt st' es →
  ctrl_ok cur st' ∧ callbacks st' = callbacks st ∧ leds_ctrl_new_state st ev = Some (leds_sm_state st').
Proof.
  intros [Ht Hne] R. destruct (leds_ctrl_new_state st ev) as [new|] eqn:Hn.
  - pose proof (new_state_not_initial st ev new Hne Hn) as Hni.
    pose proof (handle_event_run cur st ev new Ht Hn (or_intror Hni)) as R'.
    destruct (run_det _ _ _ _ _ _ _ _ R R') as (_ & -> & _). done.
  - unfold run in R. by rewrite handle_event_none in R.
Qed.

Lemma init_run cur st button cbs :
  ∃ es, run (leds_ctrl_init cur button cbs) st tt
    (LedsCtrlState cur (if button then LEDS_CTRL_STATE_CFG_ERASING else LEDS_CTRL_STATE_AFTER_REBOOT)
       button false cbs (leds_ctrl2_init (g_leds_ctrl2 st))) es ∧
    es = if button then [] else cb_list (cb_on_enter_state_after_reboot cbs).
Proof.
  destruct cbs as [[] [] []], button; eexists; split; reflexivity.
Qed.

(** The machine offers well-formed sequences whenever it is in order. *)
#[export] Instance ctrl_sequence_source cur :
  SequenceSource (leds_ctrl_get_new_blinking_sequence cur) (ctrl_ok cur).
Proof.
  intros st [Ht Hne]. unfold leds_ctrl_get_new_blinking_sequence.
  destruct (leds_sm_state st) eqn:Hs; [done|..]; eexists;
    (split; [eapply run_bind_silent; [reflexivity|]; apply check_cur_thread_run; [done|];
             rewrite Hs; apply run_ret|]).
  all: first [apply ctrl2_sequence_wf|eexists; split; [reflexivity|solve_wf_sequence]].
Qed.
