(* ===== verification/Leds.v ===== *)
(** * The LED task (src/main/leds.c)

    The task receives signals: a periodic update, which plays the current
    blinking sequence on the red LED (a PWM channel) and the green LED (driven by
    the nRF52 on request), and the events of the other components. *)

From S2P Require Import Prelude EventMgr LedsBlinking LedsCtrl2 LedsCtrl.
Open Scope string_scope.
Open Scope Z_scope.

(** ** Data *)

Inductive leds_task_sig_e :=
| LEDS_TASK_SIG_UPDATE
| LEDS_TASK_SIG_ON_EV_REBOOT
| LEDS_TASK_SIG_ON_EV_NRF52_FW_CHECK
| LEDS_TASK_SIG_ON_EV_NRF52_FW_UPDATING
| LEDS_TASK_SIG_ON_EV_NRF52_READY
| LEDS_TASK_SIG_ON_EV_NRF52_FAILURE
| LEDS_TASK_SIG_ON_EV_NRF52_REBOOTED
| LEDS_TASK_SIG_ON_EV_NRF52_CONFIGURED
| LEDS_TASK_SIG_ON_EV_CFG_READY
| LEDS_TASK_SIG_ON_EV_CFG_CHANGED_RUUVI
| LEDS_TASK_SIG_ON_EV_CFG_ERASED
| LEDS_TASK_SIG_ON_EV_WIFI_AP_STARTED
| LEDS_TASK_SIG_ON_EV_WIFI_AP_STOPPED
| LEDS_TASK_SIG_ON_EV_WPS_ACTIVATED
| LEDS_TASK_SIG_ON_EV_WPS_DEACTIVATED
| LEDS_TASK_SIG_ON_EV_NETWORK_CONNECTED
| LEDS_TASK_SIG_ON_EV_NETWORK_DISCONNECTED
| LEDS_TASK_SIG_ON_EV_MQTT1_CONNECTED
| LEDS_TASK_SIG_ON_EV_MQTT1_DISCONNECTED
| LEDS_TASK_SIG_ON_EV_HTTP1_DATA_SENT_SUCCESSFULLY
| LEDS_TASK_SIG_ON_EV_HTTP1_DATA_SENT_FAIL
| LEDS_TASK_SIG_ON_EV_HTTP2_DATA_SENT_SUCCESSFULLY
| LEDS_TASK_SIG_ON_EV_HTTP2_DATA_SENT_FAIL
| LEDS_TASK_SIG_ON_EV_HTTP_POLL_OK
| LEDS_TASK_SIG_ON_EV_HTTP_POLL_TIMEOUT
| LEDS_TASK_SIG_ON_EV_RECV_ADV
| LEDS_TASK_SIG_ON_EV_RECV_ADV_TIMEOUT
| LEDS_TASK_SIG_TASK_WATCHDOG_FEED.
#[export] Instance leds_task_sig_eq_dec : EqDecision leds_task_sig_e.
Proof. solve_decision. Defined.

Definition LEDS_TASK_UPDATE_PERIOD_JUST_AFTER_REBOOT_MS : Z := 25.
Definition LEDS_TASK_UPDATE_PERIOD_MS : Z := 100.
Definition LEDC_TEST_DUTY_OFF : Z := 1024.
Definition LEDC_TEST_DUTY_ON : Z := 1023 - 256.
Definition LEDC_TEST_FADE_TIME : Z := 25.

(** The calls of the task to the drivers, the OS and the other components; the
    store to the green LED state is one of them.  That state is what the task
    requests: the advertisement task reads it and sends it to the nRF52, which
    drives the LED. *)
Inductive leds_ev :=
| GpioSwitchCtrlActivate
| GpioSwitchCtrlDeactivate
| LedcSetFadeWithTime (duty time : Z)
| LedcFadeStart
| GreenMutexLock
| GreenMutexUnlock
| GreenLedStore (is_green_led_on : bool)
| EventMgrNotify (ev : event_mgr_ev_e)
| TimerUpdateRestart (period_ms : Z)
| TimerUpdateStart
| TimerUpdateStop
| TimerWatchdogStart
| Nrf52fwHwReset (reset : bool)
| TaskWdtReset
| TaskWdtAdd
| SignalRegisterCurThread
| SignalAdd (sig : leds_task_sig_e)
| SignalSend (sig : leds_task_sig_e)
| EventMgrSubscribe (ev : event_mgr_ev_e) (sig : leds_task_sig_e)
| GreenMutexCreate
| SignalCreate
| TimersCreate
| LedcConfigure (duty : Z)
| LedsTaskCreate.

(** What the task reads from the configuration (gw_cfg.c) while it handles a signal. *)
Record leds_env := LedsEnv {
  gw_cfg_get_http_use_http_ruuvi : bool;
  gw_cfg_get_http_use_http : bool;
  gw_cfg_get_mqtt_use_mqtt : bool;
  gw_cfg_is_initialized : bool;
}.

Record leds_t := LedsState {
  leds_ctrl : leds_ctrl_state_t;
  leds_blinking : leds_blinking_t;
  g_leds_state : leds_color_e;
  g_green_led_state : bool;
}.
#[export] Instance leds_eta : Eta leds_t := λ r,
  LedsState (leds_ctrl r) (leds_blinking r) (g_leds_state r) (g_green_led_state r).

Abbreviation lprog := (prog leds_t leds_ev).

(** ** The two LEDs *)

Fixpoint emit_all (es : list leds_ev) : lprog unit :=
  match es with
  | [] => skip
  | e :: es' => emit e ;; emit_all es'
  end.

Definition leds_set_green_led_state (is_green_led_on : bool) : lprog unit :=
  emit GreenMutexLock ;;
  emit (GreenLedStore is_green_led_on) ;;
  modify (λ st, st <| g_green_led_state := is_green_led_on |>) ;;
  emit GreenMutexUnlock ;;
  emit (EventMgrNotify EVENT_MGR_EV_GREEN_LED_STATE_CHANGED).

Definition leds_get_green_led_state : lprog bool :=
  emit GreenMutexLock ;;
  is_green_led_on ← gets g_green_led_state;
  emit GreenMutexUnlock ;;
  mret is_green_led_on.

Definition leds_turn_on_red : list leds_ev :=
  [GpioSwitchCtrlActivate; LedcSetFadeWithTime LEDC_TEST_DUTY_ON LEDC_TEST_FADE_TIME; LedcFadeStart].

Definition leds_turn_off_red : list leds_ev :=
  [LedcSetFadeWithTime LEDC_TEST_DUTY_OFF LEDC_TEST_FADE_TIME; LedcFadeStart; GpioSwitchCtrlDeactivate].

Definition leds_turn_on_green : lprog unit := leds_set_green_led_state true.
Definition leds_turn_off_green : lprog unit := leds_set_green_led_state false.

Definition leds_transition_from_off (color : leds_color_e) : lprog unit :=
  match color with
  | LEDS_COLOR_OFF => fail AssertFailed
  | LEDS_COLOR_RED => emit_all leds_turn_on_red
  | LEDS_COLOR_GREEN => leds_turn_on_green
  end.

Definition leds_transition_from_red (color : leds_color_e) : lprog unit :=
  match color with
  | LEDS_COLOR_OFF => emit_all leds_turn_off_red
  | LEDS_COLOR_RED => fail AssertFailed
  | LEDS_COLOR_GREEN => emit_all leds_turn_off_red ;; leds_turn_on_green
  end.

Definition leds_transition_from_green (color : leds_color_e) : lprog unit :=
  match color with
  | LEDS_COLOR_OFF => leds_turn_off_green
  | LEDS_COLOR_RED => leds_turn_off_green ;; emit_all leds_turn_on_red
  | LEDS_COLOR_GREEN => fail AssertFailed
  end.

(** ** The callbacks the task gives to the state machine *)

Definition leds_cb_on_enter_state_after_reboot : list leds_ev :=
  [TimerUpdateRestart LEDS_TASK_UPDATE_PERIOD_JUST_AFTER_REBOOT_MS].

Definition leds_cb_on_exit_state_after_reboot : list leds_ev :=
  [TimerUpdateRestart LEDS_TASK_UPDATE_PERIOD_MS].

Definition leds_cb_on_enter_state_before_reboot : list leds_ev :=
  TimerUpdateStop :: leds_turn_off_red ++ [Nrf52fwHwReset true].

Definition run_callback (e : leds_ctrl_ev) : list leds_ev :=
  match e with
  | CallCb cb_enter_after_reboot => leds_cb_on_enter_state_after_reboot
  | CallCb cb_exit_after_reboot => leds_cb_on_exit_state_after_reboot
  | CallCb cb_enter_before_reboot => leds_cb_on_enter_state_before_reboot
  end.

Definition task_callbacks : leds_ctrl_callbacks_t :=
  LedsCtrlCallbacks (Some cb_enter_after_reboot) (Some cb_exit_after_reboot)
    (Some cb_enter_before_reboot).

(** ** Calls into the other components of the LEDs *)

Definition in_ctrl {A} (m : prog leds_ctrl_state_t leds_ctrl_ev A) : lprog A :=
  map_events run_callback (zoom leds_ctrl (λ c st, st <| leds_ctrl := c |>) m).

Definition in_blinking {A} (m : prog leds_blinking_t leds_ev A) : lprog A :=
  zoom leds_blinking (λ b st, st <| leds_blinking := b |>) m.

(** ** Signal handlers *)

Section handlers.
(** The handle of the LED task. *)
Context (task : os_task_handle_t).

Definition leds_task_watchdog_feed : lprog unit := emit TaskWdtReset.

Definition leds_color_transition (prev_color new_color : leds_color_e) : lprog unit :=
  match prev_color with
  | LEDS_COLOR_OFF => leds_transition_from_off new_color
  | LEDS_COLOR_RED => leds_transition_from_red new_color
  | LEDS_COLOR_GREEN => leds_transition_from_green new_color
  end.

Definition leds_task_handle_sig_update : lprog unit :=
  prev_color ← gets g_leds_state;
  new_color ← in_blinking (leds_blinking_get_next task);
  (if negb (bool_decide (prev_color = new_color))
   then modify (λ st, st <| g_leds_state := new_color |>) ;;
        leds_color_transition prev_color new_color
   else skip) ;;
  finished ← in_blinking (leds_blinking_is_sequence_finished task);
  if (finished : bool)
  then
    mode ← in_ctrl (leds_ctrl_get_new_blinking_sequence task);
    in_blinking (leds_blinking_set_new_sequence task mode)
  else skip.

Definition cfg_params (env : leds_env) : leds_ctrl_params_t :=
  let flag_use_http_0 := if gw_cfg_get_http_use_http_ruuvi env then 1 else 0 in
  let flag_use_http_1 := if gw_cfg_get_http_use_http env then 1 else 0 in
  LedsCtrlParams (gw_cfg_get_mqtt_use_mqtt env)
    (Z.lor (u32 (Z.shiftl flag_use_http_0 0)) (u32 (Z.shiftl flag_use_http_1 1))).

Definition leds_task_handle_sig_on_ev_cfg_ready (env : leds_env) : lprog unit :=
  in_ctrl (leds_ctrl_configure_sub_machine (cfg_params env)) ;;
  in_ctrl (leds_ctrl_handle_event task LEDS_CTRL_EVENT_CFG_READY).

Definition leds_task_handle_sig_on_ev_cfg_changed_ruuvi (env : leds_env) : lprog unit :=
  in_ctrl (leds_ctrl_configure_sub_machine (cfg_params env)).

(** The handlers of the connection events all have this form. *)
Definition in_substate_handle (ev : leds_ctrl2_event_e) : lprog unit :=
  flag_is_in_substate ← in_ctrl (leds_ctrl_is_in_substate task);
  if (flag_is_in_substate : bool)
  then modify (λ st, st <| leds_ctrl :=
                 (leds_ctrl st) <| g_leds_ctrl2 := leds_ctrl2_handle_event ev (g_leds_ctrl2 (leds_ctrl st)) |> |>)
  else skip.

Definition leds_task_handle_sig_on_ev_wifi_ap_started := in_substate_handle LEDS_CTRL2_EVENT_WIFI_AP_STARTED.
Definition leds_task_handle_sig_on_ev_wifi_ap_stopped := in_substate_handle LEDS_CTRL2_EVENT_WIFI_AP_STOPPED.
Definition leds_task_handle_sig_on_ev_wps_activated := in_substate_handle LEDS_CTRL2_EVENT_WPS_ACTIVATED.
Definition leds_task_handle_sig_on_ev_wps_deactivated := in_substate_handle LEDS_CTRL2_EVENT_WPS_DEACTIVATED.
Definition leds_task_handle_sig_on_ev_network_connected :=
  in_substate_handle LEDS_CTRL2_EVENT_NETWORK_CONNECTED.
Definition leds_task_handle_sig_on_ev_network_disconnected :=
  in_substate_handle LEDS_CTRL2_EVENT_NETWORK_DISCONNECTED.
Definition leds_task_handle_sig_on_ev_mqtt1_connected := in_substate_handle LEDS_CTRL2_EVENT_MQTT1_CONNECTED.
Definition leds_task_handle_sig_on_ev_mqtt1_disconnected :=
  in_substate_handle LEDS_CTRL2_EVENT_MQTT1_DISCONNECTED.
Definition leds_task_handle_sig_on_ev_http1_data_sent_successfully :=
  in_substate_handle LEDS_CTRL2_EVENT_HTTP1_DATA_SENT_SUCCESSFULLY.
Definition leds_task_handle_sig_on_ev_http1_data_sent_fail :=
  in_substate_handle LEDS_CTRL2_EVENT_HTTP1_DATA_SENT_FAIL.
Definition leds_task_handle_sig_on_ev_http2_data_sent_successfully :=
  in_substate_handle LEDS_CTRL2_EVENT_HTTP2_DATA_SENT_SUCCESSFULLY.
Definition leds_task_handle_sig_on_ev_http2_data_sent_fail :=
  in_substate_handle LEDS_CTRL2_EVENT_HTTP2_DATA_SENT_FAIL.
Definition leds_task_handle_sig_on_ev_http_poll_ok := in_substate_handle LEDS_CTRL2_EVENT_HTTP_POLL_OK.
Definition leds_task_handle_sig_on_ev_http_poll_timeout :=
  in_substate_handle LEDS_CTRL2_EVENT_HTTP_POLL_TIMEOUT.
Definition leds_task_handle_sig_on_ev_recv_adv := in_substate_handle LEDS_CTRL2_EVENT_RECV_ADV.
Definition leds_task_handle_sig_on_ev_recv_adv_timeout :=
  in_substate_handle LEDS_CTRL2_EVENT_RECV_ADV_TIMEOUT.

Definition leds_task_handle_sig_on_ev_reboot : lprog unit :=
  in_ctrl (leds_ctrl_handle_event task LEDS_CTRL_EVENT_REBOOT).
Definition leds_task_handle_sig_on_ev_nrf52_fw_check : lprog unit :=
  in_ctrl (leds_ctrl_handle_event task LEDS_CTRL_EVENT_NRF52_FW_CHECK).
Definition leds_task_handle_sig_on_ev_nrf52_fw_updating : lprog unit :=
  in_ctrl (leds_ctrl_handle_event task LEDS_CTRL_EVENT_NRF52_FW_UPDATING).
Definition leds_task_handle_sig_on_ev_nrf52_ready : lprog unit :=
  in_ctrl (leds_ctrl_handle_event task LEDS_CTRL_EVENT_NRF52_READY).
Definition leds_task_handle_sig_on_ev_nrf52_failure : lprog unit :=
  in_ctrl (leds_ctrl_handle_event task LEDS_CTRL_EVENT_NRF52_FAILURE).
Definition leds_task_handle_sig_on_ev_nrf52_rebooted (env : leds_env) : lprog unit :=
  if gw_cfg_is_initialized env
  then in_ctrl (leds_ctrl_handle_event task LEDS_CTRL_EVENT_NRF52_REBOOTED)
  else skip.
Definition leds_task_handle_sig_on_ev_nrf52_configured : lprog unit :=
  in_ctrl (leds_ctrl_handle_event task LEDS_CTRL_EVENT_NRF52_CONFIGURED).
Definition leds_task_handle_sig_on_ev_cfg_erased : lprog unit :=
  in_ctrl (leds_ctrl_handle_event task LEDS_CTRL_EVENT_CFG_ERASED).

(** The table of handlers. *)
Definition leds_task_handle_sig (env : leds_env) (leds_task_sig : leds_task_sig_e) : lprog unit :=
  match leds_task_sig with
  | LEDS_TASK_SIG_UPDATE => leds_task_handle_sig_update
  | LEDS_TASK_SIG_ON_EV_REBOOT => leds_task_handle_sig_on_ev_reboot
  | LEDS_TASK_SIG_ON_EV_NRF52_FW_CHECK => leds_task_handle_sig_on_ev_nrf52_fw_check
  | LEDS_TASK_SIG_ON_EV_NRF52_FW_UPDATING => leds_task_handle_sig_on_ev_nrf52_fw_updating
  | LEDS_TASK_SIG_ON_EV_NRF52_READY => leds_task_handle_sig_on_ev_nrf52_ready
  | LEDS_TASK_SIG_ON_EV_NRF52_FAILURE => leds_task_handle_sig_on_ev_nrf52_failure
  | LEDS_TASK_SIG_ON_EV_NRF52_REBOOTED => leds_task_handle_sig_on_ev_nrf52_rebooted env
  | LEDS_TASK_SIG_ON_EV_NRF52_CONFIGURED => leds_task_handle_sig_on_ev_nrf52_configured
  | LEDS_TASK_SIG_ON_EV_CFG_READY => leds_task_handle_sig_on_ev_cfg_ready env
  | LEDS_TASK_SIG_ON_EV_CFG_CHANGED_RUUVI => leds_task_handle_sig_on_ev_cfg_changed_ruuvi env
  | LEDS_TASK_SIG_ON_EV_CFG_ERASED => leds_task_handle_sig_on_ev_cfg_erased
  | LEDS_TASK_SIG_ON_EV_WIFI_AP_STARTED => leds_task_handle_sig_on_ev_wifi_ap_started
  | LEDS_TASK_SIG_ON_EV_WIFI_AP_STOPPED => leds_task_handle_sig_on_ev_wifi_ap_stopped
  | LEDS_TASK_SIG_ON_EV_WPS_ACTIVATED => leds_task_handle_sig_on_ev_wps_activated
  | LEDS_TASK_SIG_ON_EV_WPS_DEACTIVATED => leds_task_handle_sig_on_ev_wps_deactivated
  | LEDS_TASK_SIG_ON_EV_NETWORK_CONNECTED => leds_task_handle_sig_on_ev_network_connected
  | LEDS_TASK_SIG_ON_EV_NETWORK_DISCONNECTED => leds_task_handle_sig_on_ev_network_disconnected
  | LEDS_TASK_SIG_ON_EV_MQTT1_CONNECTED => leds_task_handle_sig_on_ev_mqtt1_connected
  | LEDS_TASK_SIG_ON_EV_MQTT1_DISCONNECTED => leds_task_handle_sig_on_ev_mqtt1_disconnected
  | LEDS_TASK_SIG_ON_EV_HTTP1_DATA_SENT_SUCCESSFULLY =>
      leds_task_handle_sig_on_ev_http1_data_sent_successfully
  | LEDS_TASK_SIG_ON_EV_HTTP1_DATA_SENT_FAIL => leds_task_handle_sig_on_ev_http1_data_sent_fail
  | LEDS_TASK_SIG_ON_EV_HTTP2_DATA_SENT_SUCCESSFULLY =>
      leds_task_handle_sig_on_ev_http2_data_sent_successfully
  | LEDS_TASK_SIG_ON_EV_HTTP2_DATA_SENT_FAIL => leds_task_handle_sig_on_ev_http2_data_sent_fail
  | LEDS_TASK_SIG_ON_EV_HTTP_POLL_OK => leds_task_handle_sig_on_ev_http_poll_ok
  | LEDS_TASK_SIG_ON_EV_HTTP_POLL_TIMEOUT => leds_task_handle_sig_on_ev_http_poll_timeout
  | LEDS_TASK_SIG_ON_EV_RECV_ADV => leds_task_handle_sig_on_ev_recv_adv
  | LEDS_TASK_SIG_ON_EV_RECV_ADV_TIMEOUT => leds_task_handle_sig_on_ev_recv_adv_timeout
  | LEDS_TASK_SIG_TASK_WATCHDOG_FEED => leds_task_watchdog_feed
  end.

(** ** The task *)

Definition leds_wdt_add_and_start : lprog unit := emit TaskWdtAdd ;; emit TimerWatchdogStart.

(** The task up to its loop. *)
Definition leds_task_start (button_pressed : bool) : lprog unit :=
  in_ctrl (leds_ctrl_init task button_pressed task_callbacks) ;;
  mode ← in_ctrl (leds_ctrl_get_new_blinking_sequence task);
  in_blinking (leds_blinking_init task mode) ;;
  emit SignalRegisterCurThread ;;
  emit TimerUpdateStart ;;
  leds_wdt_add_and_start.

(** The loop handles the signals in the order in which the OS delivers them. *)
Definition leds_task (button_pressed : bool) (sigs : list (leds_env * leds_task_sig_e)) : lprog unit :=
  leds_task_start button_pressed ;;
  for_each sigs (λ x, leds_task_handle_sig x.1 x.2).
End handlers.

(** ** Initialisation and notifications *)

Definition all_sigs : list leds_task_sig_e :=
  [LEDS_TASK_SIG_UPDATE; LEDS_TASK_SIG_ON_EV_REBOOT; LEDS_TASK_SIG_ON_EV_NRF52_FW_CHECK;
   LEDS_TASK_SIG_ON_EV_NRF52_FW_UPDATING; LEDS_TASK_SIG_ON_EV_NRF52_READY;
   LEDS_TASK_SIG_ON_EV_NRF52_FAILURE; LEDS_TASK_SIG_ON_EV_NRF52_REBOOTED;
   LEDS_TASK_SIG_ON_EV_NRF52_CONFIGURED; LEDS_TASK_SIG_ON_EV_CFG_READY;
   LEDS_TASK_SIG_ON_EV_CFG_CHANGED_RUUVI; LEDS_TASK_SIG_ON_EV_CFG_ERASED;
   LEDS_TASK_SIG_ON_EV_WIFI_AP_STARTED; LEDS_TASK_SIG_ON_EV_WIFI_AP_STOPPED;
   LEDS_TASK_SIG_ON_EV_WPS_ACTIVATED; LEDS_TASK_SIG_ON_EV_WPS_DEACTIVATED;
   LEDS_TASK_SIG_ON_EV_NETWORK_CONNECTED; LEDS_TASK_SIG_ON_EV_NETWORK_DISCONNECTED;
   LEDS_TASK_SIG_ON_EV_MQTT1_CONNECTED; LEDS_TASK_SIG_ON_EV_MQTT1_DISCONNECTED;
   LEDS_TASK_SIG_ON_EV_HTTP1_DATA_SENT_SUCCESSFULLY; LEDS_TASK_SIG_ON_EV_HTTP1_DATA_SENT_FAIL;
   LEDS_TASK_SIG_ON_EV_HTTP2_DATA_SENT_SUCCESSFULLY; LEDS_TASK_SIG_ON_EV_HTTP2_DATA_SENT_FAIL;
   LEDS_TASK_SIG_ON_EV_HTTP_POLL_OK; LEDS_TASK_SIG_ON_EV_HTTP_POLL_TIMEOUT;
   LEDS_TASK_SIG_ON_EV_RECV_ADV; LEDS_TASK_SIG_ON_EV_RECV_ADV_TIMEOUT;
   LEDS_TASK_SIG_TASK_WATCHDOG_FEED].

Definition leds_register_signals : lprog unit := emit_all (SignalAdd <$> all_sigs).

Definition leds_subscribe_events : lprog unit :=
  emit_all [
    EventMgrSubscribe EVENT_MGR_EV_GW_CFG_READY LEDS_TASK_SIG_ON_EV_CFG_READY;
    EventMgrSubscribe EVENT_MGR_EV_GW_CFG_CHANGED_RUUVI LEDS_TASK_SIG_ON_EV_CFG_CHANGED_RUUVI;
    EventMgrSubscribe EVENT_MGR_EV_WIFI_AP_STARTED LEDS_TASK_SIG_ON_EV_WIFI_AP_STARTED;
    EventMgrSubscribe EVENT_MGR_EV_WIFI_AP_STOPPED LEDS_TASK_SIG_ON_EV_WIFI_AP_STOPPED;
    EventMgrSubscribe EVENT_MGR_EV_WPS_ACTIVATED LEDS_TASK_SIG_ON_EV_WPS_ACTIVATED;
    EventMgrSubscribe EVENT_MGR_EV_WPS_DEACTIVATED LEDS_TASK_SIG_ON_EV_WPS_DEACTIVATED;
    EventMgrSubscribe EVENT_MGR_EV_REBOOT LEDS_TASK_SIG_ON_EV_REBOOT;
    EventMgrSubscribe EVENT_MGR_EV_WIFI_CONNECTED LEDS_TASK_SIG_ON_EV_NETWORK_CONNECTED;
    EventMgrSubscribe EVENT_MGR_EV_WIFI_DISCONNECTED LEDS_TASK_SIG_ON_EV_NETWORK_DISCONNECTED;
    EventMgrSubscribe EVENT_MGR_EV_ETH_CONNECTED LEDS_TASK_SIG_ON_EV_NETWORK_CONNECTED;
    EventMgrSubscribe EVENT_MGR_EV_ETH_DISCONNECTED LEDS_TASK_SIG_ON_EV_NETWORK_DISCONNECTED;
    EventMgrSubscribe EVENT_MGR_EV_RECV_ADV LEDS_TASK_SIG_ON_EV_RECV_ADV;
    EventMgrSubscribe EVENT_MGR_EV_RECV_ADV_TIMEOUT LEDS_TASK_SIG_ON_EV_RECV_ADV_TIMEOUT;
    EventMgrSubscribe EVENT_MGR_EV_NRF52_REBOOTED LEDS_TASK_SIG_ON_EV_NRF52_REBOOTED;
    EventMgrSubscribe EVENT_MGR_EV_NRF52_CONFIGURED LEDS_TASK_SIG_ON_EV_NRF52_CONFIGURED].

(** [leds_init]; [created] is the result of the creation of the task. *)
Definition leds_init (created : bool) : lprog bool :=
  modify (λ st, st <| g_leds_state := LEDS_COLOR_OFF |>) ;;
  modify (λ st, st <| g_green_led_state := false |>) ;;
  emit GreenMutexCreate ;;
  emit SignalCreate ;;
  leds_register_signals ;;
  leds_subscribe_events ;;
  emit TimersCreate ;;
  emit (LedcConfigure LEDC_TEST_DUTY_OFF) ;;
  emit LedsTaskCreate ;;
  mret created.

(** A notification sends its signal; a failure to send is only logged. *)
Definition leds_notify_nrf52_ready : lprog unit := emit (SignalSend LEDS_TASK_SIG_ON_EV_NRF52_READY).
Definition leds_notify_nrf52_failure : lprog unit := emit (SignalSend LEDS_TASK_SIG_ON_EV_NRF52_FAILURE).
Definition leds_notify_nrf52_fw_check : lprog unit := emit (SignalSend LEDS_TASK_SIG_ON_EV_NRF52_FW_CHECK).
Definition leds_notify_nrf52_fw_updating : lprog unit :=
  emit (SignalSend LEDS_TASK_SIG_ON_EV_NRF52_FW_UPDATING).
Definition leds_notify_cfg_erased : lprog unit := emit (SignalSend LEDS_TASK_SIG_ON_EV_CFG_ERASED).
Definition leds_notify_mqtt1_connected : lprog unit := emit (SignalSend LEDS_TASK_SIG_ON_EV_MQTT1_CONNECTED).
Definition leds_notify_mqtt1_disconnected : lprog unit :=
  emit (SignalSend LEDS_TASK_SIG_ON_EV_MQTT1_DISCONNECTED).
Definition leds_notify_http1_data_sent_successfully : lprog unit :=
  emit (SignalSend LEDS_TASK_SIG_ON_EV_HTTP1_DATA_SENT_SUCCESSFULLY).
Definition leds_notify_http1_data_sent_fail : lprog unit :=
  emit (SignalSend LEDS_TASK_SIG_ON_EV_HTTP1_DATA_SENT_FAIL).
Definition leds_notify_http2_data_sent_successfully : lprog unit :=
  emit (SignalSend LEDS_TASK_SIG_ON_EV_HTTP2_DATA_SENT_SUCCESSFULLY).
Definition leds_notify_http2_data_sent_fail : lprog unit :=
  emit (SignalSend LEDS_TASK_SIG_ON_EV_HTTP2_DATA_SENT_FAIL).
Definition leds_notify_http_poll_ok : lprog unit := emit (SignalSend LEDS_TASK_SIG_ON_EV_HTTP_POLL_OK).
Definition leds_notify_http_poll_timeout : lprog unit :=
  emit (SignalSend LEDS_TASK_SIG_ON_EV_HTTP_POLL_TIMEOUT).
Definition leds_simulate_ev_network_disconnected : lprog unit :=
  emit (SignalSend LEDS_TASK_SIG_ON_EV_NETWORK_DISCONNECTED).
