(* ===== verification/LedsFacts.v ===== *)
(** * Behaviour of the LED task: runs of the signal handlers *)

From S2P Require Import Prelude EventMgr LedsBlinking LedsCtrl2 LedsCtrl Leds.
Open Scope Z_scope.

(** ** Calls into the components *)

Lemma in_ctrl_run {A} (m : prog leds_ctrl_state_t leds_ctrl_ev A) st a c es :
  run m (leds_ctrl st) a c es →
  run (in_ctrl m) st a (st <| leds_ctrl := c |>) (es ≫= run_callback).
Proof.
  intros Hm. unfold in_ctrl. apply run_map_events.
  by apply (run_zoom leds_ctrl (λ c st, st <| leds_ctrl := c |>)).
Qed.

Lemma in_ctrl_inv {A} (m : prog leds_ctrl_state_t leds_ctrl_ev A) st a st' es :
  run (in_ctrl m) st a st' es →
  ∃ c es0, run m (leds_ctrl st) a c es0 ∧ st' = st <| leds_ctrl := c |> ∧ es = es0 ≫= run_callback.
Proof.
  unfold run, in_ctrl, map_events, zoom. destruct (m (leds_ctrl st)) as [[[a0 c] es0]|]; [|done].
  intros [= <- <- <-]. by exists c, es0.
Qed.

Lemma in_blinking_run {A} (m : prog leds_blinking_t leds_ev A) st a b es :
  run m (leds_blinking st) a b es → run (in_blinking m) st a (st <| leds_blinking := b |>) es.
Proof. apply (run_zoom leds_blinking (λ b st, st <| leds_blinking := b |>)). Qed.

Lemma emit_all_run es st : run (emit_all es) st tt st es.
Proof. induction es as [|e es IH]; [apply run_skip|]. cbn [emit_all]. by apply run_bind_emit. Qed.

(** ** One update *)

(** The task is between two signals, about to show character [i] of [s]. *)
Definition leds_playing (task : os_task_handle_t) (st : leds_t) (s : string) (i : nat) : Prop :=
  ctrl_ok task (leds_ctrl st) ∧ playing task (leds_blinking st) s i.

Definition green_calls (b : bool) : list leds_ev :=
  [GreenMutexLock; GreenLedStore b; GreenMutexUnlock; EventMgrNotify EVENT_MGR_EV_GREEN_LED_STATE_CHANGED].

(** The calls that change the lit LED: off first, then on. *)
Definition leave_calls (c : leds_color_e) : list leds_ev :=
  match c with
  | LEDS_COLOR_OFF => []
  | LEDS_COLOR_RED => leds_turn_off_red
  | LEDS_COLOR_GREEN => green_calls false
  end.

Definition enter_calls (c : leds_color_e) : list leds_ev :=
  match c with
  | LEDS_COLOR_OFF => []
  | LEDS_COLOR_RED => leds_turn_on_red
  | LEDS_COLOR_GREEN => green_calls true
  end.

Definition color_calls (prev new : leds_color_e) : list leds_ev :=
  if bool_decide (prev = new) then [] else leave_calls prev ++ enter_calls new.

Lemma set_green_run b st :
  run (leds_set_green_led_state b) st tt (st <| g_green_led_state := b |>) (green_calls b).
Proof. reflexivity. Qed.

Lemma color_transition_run prev new st :
  prev ≠ new → ∃ g, run (leds_color_transition prev new) st tt (st <| g_green_led_state := g |>)
                      (leave_calls prev ++ enter_calls new).
Proof.
  intros Hne. destruct st as [c b l g], prev, new; try done; cbn [leds_color_transition leds_transition_from_off
    leds_transition_from_red leds_transition_from_green leave_calls enter_calls];
    eexists; first [apply set_green_run | reflexivity].
Qed.

(** The update shows the character and, after the last one, asks for the next sequence. *)
Definition next_playing (task : os_task_handle_t) (st' : leds_t) (s : string) (i : nat) : Prop :=
  if decide (S i = String.length s)
  then ∃ s', run (leds_ctrl_get_new_blinking_sequence task) (leds_ctrl st') (mode_of s') (leds_ctrl st') [] ∧
             leds_playing task st' s' 0
  else leds_playing task st' s (S i).

(** Showing a colour, before looking at the end of the sequence. *)
Lemma show_color_run st col :
  ∃ g, run (if negb (bool_decide (g_leds_state st = col))
            then modify (λ st, st <| g_leds_state := col |>) ;; leds_color_transition (g_leds_state st) col
            else skip) st tt (st <| g_leds_state := col |> <| g_green_led_state := g |>)
           (color_calls (g_leds_state st) col).
Proof.
  unfold color_calls. case_bool_decide as Hc; cbn [negb].
  - exists (g_green_led_state st). subst col. by destruct st.
  - destruct (color_transition_run (g_leds_state st) col (st <| g_leds_state := col |>) Hc) as [g Hg].
    exists g. run_step. exact Hg.
Qed.

Lemma update_run task st s i cols :
  leds_playing task st s i → colors_of s = Some cols →
  ∃ col st', cols !! i = Some col ∧
    run (leds_task_handle_sig_update task) st tt st' (color_calls (g_leds_state st) col) ∧
    g_leds_state st' = col ∧ leds_ctrl st' = leds_ctrl st ∧ next_playing task st' s i.
Proof.
  intros [Hok Hp] Hs. destruct (get_next_run (E:=leds_ev) task _ s i cols Hp Hs) as (col & Hcol & Rg).
  pose proof Hp as (Ht & Hseq & Hwf & Hidx & Hi).
  set (b1 := (leds_blinking st) <| g_leds_blinking_sequence_idx := next_idx i (String.length s) |>) in *.
  pose proof (is_finished_run (E:=leds_ev) task b1 i (String.length s) Ht Hi eq_refl) as Rf.
  set (st1 := st <| leds_blinking := b1 |>).
  destruct (show_color_run st1 col) as [g Rs].
  set (st2 := st1 <| g_leds_state := col |> <| g_green_led_state := g |>) in *.
  assert (Rfin : run (in_blinking (leds_blinking_is_sequence_finished task)) st2
                   (bool_decide (S i = String.length s)) st2 []).
  { apply (in_blinking_run _ st2 _ b1 []) in Rf. exact Rf. }
  exists col. unfold next_playing. destruct (decide (S i = String.length s)) as [He|He].
  - destruct (ctrl_sequence_source task _ Hok) as (m & Rm & Hm). pose proof Hm as (s' & Hs' & Hwf').
    assert (Hb1 : g_leds_blinking_sequence_idx b1 = 0).
    { unfold b1, next_idx. cbn. by rewrite decide_True. }
    pose proof (set_new_sequence_run (E:=leds_ev) task b1 m Ht Hb1 Hm) as Rn.
    exists (st2 <| leds_blinking := b1 <| g_leds_blinking_mode := m |> |>). split_and!; [done| |done|done|].
    + unfold leds_task_handle_sig_update. run_step.
      eapply run_bind_silent; [apply (in_blinking_run _ st _ b1 [] Rg)|].
      rewrite <- (app_nil_r (color_calls _ _)). eapply run_bind; [exact Rs|].
      eapply run_bind_silent; [exact Rfin|]. rewrite bool_decide_true by done.
      eapply run_bind_silent; [apply (in_ctrl_run _ st2 _ _ [] Rm)|].
      exact (in_blinking_run _ st2 _ _ [] Rn).
    + exists s'. destruct m as [p]. cbn in Hs'. subst p. split; [done|]. split; [done|].
      by apply (playing_start task _ (BlinkingMode (Some s')) s').
  - exists st2. split_and!; [done| |done|done|].
    + unfold leds_task_handle_sig_update. run_step.
      eapply run_bind_silent; [apply (in_blinking_run _ st _ b1 [] Rg)|].
      rewrite <- (app_nil_r (color_calls _ _)). eapply run_bind; [exact Rs|].
      eapply run_bind_silent; [exact Rfin|]. rewrite bool_decide_false by done. apply run_skip.
    + split; [done|]. unfold playing. cbn. split_and!; [done..| |lia].
      unfold next_idx. by rewrite decide_False.
Qed.

(** ** The other signals *)

(** The event of the state machine a signal is turned into. *)
Definition ctrl_event (env : leds_env) (sig : leds_task_sig_e) : option leds_ctrl_event_e :=
  match sig with
  | LEDS_TASK_SIG_ON_EV_REBOOT => Some LEDS_CTRL_EVENT_REBOOT
  | LEDS_TASK_SIG_ON_EV_NRF52_FW_CHECK => Some LEDS_CTRL_EVENT_NRF52_FW_CHECK
  | LEDS_TASK_SIG_ON_EV_NRF52_FW_UPDATING => Some LEDS_CTRL_EVENT_NRF52_FW_UPDATING
  | LEDS_TASK_SIG_ON_EV_NRF52_READY => Some LEDS_CTRL_EVENT_NRF52_READY
  | LEDS_TASK_SIG_ON_EV_NRF52_FAILURE => Some LEDS_CTRL_EVENT_NRF52_FAILURE
  | LEDS_TASK_SIG_ON_EV_NRF52_REBOOTED =>
      if gw_cfg_is_initialized env then Some LEDS_CTRL_EVENT_NRF52_REBOOTED else None
  | LEDS_TASK_SIG_ON_EV_NRF52_CONFIGURED => Some LEDS_CTRL_EVENT_NRF52_CONFIGURED
  | LEDS_TASK_SIG_ON_EV_CFG_READY => Some LEDS_CTRL_EVENT_CFG_READY
  | LEDS_TASK_SIG_ON_EV_CFG_ERASED => Some LEDS_CTRL_EVENT_CFG_ERASED
  | _ => None
  end.

(** The state in which the event is handled: the configuration is read first. *)
Definition ctrl_before (env : leds_env) (sig : leds_task_sig_e) (c : leds_ctrl_state_t) : leds_ctrl_state_t :=
  match sig with
  | LEDS_TASK_SIG_ON_EV_CFG_READY | LEDS_TASK_SIG_ON_EV_CFG_CHANGED_RUUVI =>
      c <| g_leds_ctrl2 := leds_ctrl2_configure (cfg_params env) (g_leds_ctrl2 c) |>
        <| flag_submachine_configured := true |>
  | _ => c
  end.

(** The phase of the state machine after a signal; [None] when it asserts. *)
Definition next_phase (env : leds_env) (sig : leds_task_sig_e) (c : leds_ctrl_state_t)
    : option leds_ctrl_state_e :=
  match ctrl_event env sig with
  | Some ev => leds_ctrl_new_state (ctrl_before env sig c) ev
  | None => Some (leds_sm_state c)
  end.

(** A call that lights no LED and does not touch the green one. *)
Definition quiet (e : leds_ev) : Prop :=
  match e with
  | LedcSetFadeWithTime duty _ => duty = LEDC_TEST_DUTY_OFF
  | GreenLedStore _ => False
  | _ => True
  end.

Lemma callbacks_quiet es : Forall quiet (es ≫= run_callback).
Proof.
  induction es as [|[[]] es IH]; cbn; [constructor|..]; repeat (constructor; [done|]); exact IH.
Qed.

(** What every signal other than the update does. *)
Definition quiet_step (task : os_task_handle_t) (env : leds_env) (sig : leds_task_sig_e) (st : leds_t) : Prop :=
  match next_phase env sig (leds_ctrl st) with
  | Some new =>
      ∃ st' es, run (leds_task_handle_sig task env sig) st tt st' es ∧
        leds_blinking st' = leds_blinking st ∧ g_leds_state st' = g_leds_state st ∧
        ctrl_ok task (leds_ctrl st') ∧ leds_sm_state (leds_ctrl st') = new ∧
        (flag_submachine_configured (leds_ctrl st') =
           flag_submachine_configured (ctrl_before env sig (leds_ctrl st))) ∧
        Forall quiet es
  | None => leds_task_handle_sig task env sig st = Fault AssertFailed
  end.

Lemma handle_event_step task st ev :
  ctrl_ok task (leds_ctrl st) →
  match leds_ctrl_new_state (leds_ctrl st) ev with
  | Some new =>
      ∃ st' es, run (in_ctrl (leds_ctrl_handle_event task ev)) st tt st' es ∧
        leds_blinking st' = leds_blinking st ∧ g_leds_state st' = g_leds_state st ∧
        ctrl_ok task (leds_ctrl st') ∧ leds_sm_state (leds_ctrl st') = new ∧
        flag_submachine_configured (leds_ctrl st') = flag_submachine_configured (leds_ctrl st) ∧
        Forall quiet es
  | None => in_ctrl (leds_ctrl_handle_event task ev) st = Fault AssertFailed
  end.
Proof.
  intros [Ht Hne]. destruct (leds_ctrl_new_state (leds_ctrl st) ev) as [new|] eqn:Hn.
  - pose proof (new_state_not_initial _ _ _ Hne Hn) as Hni.
    pose proof (handle_event_run task _ ev new Ht Hn (or_intror Hni)) as R.
    eexists _, _. split_and!; [exact (in_ctrl_run _ st _ _ _ R)|done|done|done|done|done|].
    apply callbacks_quiet.
  - unfold in_ctrl, map_events, zoom. by rewrite handle_event_none.
Qed.

Lemma in_substate_step task st ev :
  ctrl_ok task (leds_ctrl st) →
  ∃ st', run (in_substate_handle task ev) st tt st' [] ∧ leds_blinking st' = leds_blinking st ∧
    g_leds_state st' = g_leds_state st ∧ ctrl_ok task (leds_ctrl st') ∧
    leds_sm_state (leds_ctrl st') = leds_sm_state (leds_ctrl st) ∧
    flag_submachine_configured (leds_ctrl st') = flag_submachine_configured (leds_ctrl st).
Proof.
  intros [Ht Hne].
  assert (R : run (leds_ctrl_is_in_substate task) (leds_ctrl st)
    (bool_decide (LEDS_CTRL_STATE_SUBSTATE = leds_sm_state (leds_ctrl st))) (leds_ctrl st) []).
  { unfold leds_ctrl_is_in_substate. eapply run_bind_silent; [reflexivity|].
    apply check_cur_thread_run; [done|]. apply run_ret. }
  apply (in_ctrl_run _ st) in R.
  replace (st <| leds_ctrl := leds_ctrl st |>) with st in R by by destruct st.
  unfold in_substate_handle. case_bool_decide as Hs.
  - eexists. split_and!; [eapply run_bind_silent; [exact R|]; apply run_modify|done..].
  - exists st. split_and!; [eapply run_bind_silent; [exact R|]; apply run_skip|done..].
Qed.

Lemma configure_run p st :
  run (in_ctrl (leds_ctrl_configure_sub_machine p)) st tt
    (st <| leds_ctrl := (leds_ctrl st) <| g_leds_ctrl2 := leds_ctrl2_configure p (g_leds_ctrl2 (leds_ctrl st)) |>
                                       <| flag_submachine_configured := true |> |>) [].
Proof. reflexivity. Qed.

Lemma signal_step task env sig st :
  sig ≠ LEDS_TASK_SIG_UPDATE → ctrl_ok task (leds_ctrl st) → quiet_step task env sig st.
Proof.
  intros Hsig Hok. unfold quiet_step, next_phase.
  destruct sig; try done; cbn [ctrl_event ctrl_before leds_task_handle_sig];
    try (apply handle_event_step; done).
  all: try (match goal with |- context [in_ctrl] => fail 1 | |- _ => idtac end;
    edestruct (in_substate_step task st) as (st' & R & H1 & H2 & H3 & H4 & H5);
         [exact Hok|exists st', []; split_and!; [exact R|done..]]).
  - unfold leds_task_handle_sig_on_ev_nrf52_rebooted. destruct (gw_cfg_is_initialized env).
    + by apply handle_event_step.
    + exists st, []. by split_and!.
  - unfold leds_task_handle_sig_on_ev_cfg_ready.
    pose proof (configure_run (cfg_params env) st) as Rc.
    set (st1 := st <| leds_ctrl := _ |>) in Rc.
    pose proof (handle_event_step task st1 LEDS_CTRL_EVENT_CFG_READY Hok) as Hh.
    match goal with |- match ?o with _ => _ end =>
      change o with (leds_ctrl_new_state (leds_ctrl st1) LEDS_CTRL_EVENT_CFG_READY) end.
    destruct (leds_ctrl_new_state (leds_ctrl st1) LEDS_CTRL_EVENT_CFG_READY) as [new|].
    + destruct Hh as (st' & es & R & H1 & H2 & H3 & H4 & H5 & H6). exists st', es.
      split_and!; [by eapply run_bind_silent|done..].
    + unfold mbind, prog_bind. unfold run in Rc. by rewrite Rc, Hh.
  - eexists _, []. split_and!; [apply configure_run|done..].
  - exists st, [TaskWdtReset]. split_and!; [done..|]. by repeat constructor.
Qed.
