(* ===== verification/LedsProps.v ===== *)
(** * Properties of the LEDs *)

From S2P Require Import Prelude EventMgr LedsBlinking LedsCtrl2 LedsCtrl Leds LedsFacts.
Open Scope string_scope.
Open Scope list_scope.
Open Scope Z_scope.

(** ** Reachable states *)

(** The static state at the start of the LED task, after [leds_init]. *)
Definition leds_at_start (st : leds_t) : Prop :=
  g_leds_blinking_task_handle (leds_blinking st) = None ∧ g_leds_state st = LEDS_COLOR_OFF ∧
  g_green_led_state st = false.

Definition leds_reachable (task : os_task_handle_t) (st : leds_t) : Prop :=
  ∃ st0 button sigs es, leds_at_start st0 ∧ run (leds_task task button sigs) st0 tt st es.

Definition leds_ok (task : os_task_handle_t) (st : leds_t) : Prop := ∃ s i, leds_playing task st s i.

Lemma leds_task_start_run task button st :
  leds_at_start st →
  ∃ st' es, run (leds_task_start task button) st tt st' es ∧ leds_ok task st' ∧
    g_leds_state st' = LEDS_COLOR_OFF ∧ flag_submachine_configured (leds_ctrl st') = false ∧
    leds_sm_state (leds_ctrl st') =
      (if button then LEDS_CTRL_STATE_CFG_ERASING else LEDS_CTRL_STATE_AFTER_REBOOT) ∧
    Forall quiet es.
Proof.
  intros (Hb & Hc & Hg). destruct (init_run task (leds_ctrl st) button task_callbacks) as (es0 & Ri & Hes).
  set (c1 := LedsCtrlState _ _ _ _ _ _) in Ri.
  assert (Hok : ctrl_ok task c1) by by destruct button.
  destruct (ctrl_sequence_source task c1 Hok) as (m & Rm & s & Hs & Hwf).
  set (st1 := st <| leds_ctrl := c1 |>).
  set (b1 := LedsBlinkingState m 0 task).
  exists (st1 <| leds_blinking := b1 |>),
    ((es0 ≫= run_callback) ++ [SignalRegisterCurThread; TimerUpdateStart; TaskWdtAdd; TimerWatchdogStart]).
  split_and!; [|exists s, 0%nat; split; [done|by apply (playing_start task _ m s)]|done|done|by destruct button|].
  - assert (Rb : run (leds_blinking_init task m) (leds_blinking st1) tt b1 ([] : list leds_ev)).
    { unfold leds_blinking_init. run_step. cbn. rewrite Hb. reflexivity. }
    unfold leds_task_start. eapply run_bind; [exact (in_ctrl_run _ st _ _ _ Ri)|].
    eapply run_bind_silent; [exact (in_ctrl_run _ st1 _ _ [] Rm)|].
    eapply run_bind_silent; [exact (in_blinking_run _ st1 _ _ [] Rb)|reflexivity].
  - apply Forall_app. split; [apply callbacks_quiet|]. by repeat constructor.
Qed.

(** One signal: it either asserts because the machine does not accept the event,
    or leaves the task in order. *)
Lemma handle_sig_cases task env sig st :
  leds_ok task st →
  (∃ st' es, run (leds_task_handle_sig task env sig) st tt st' es ∧ leds_ok task st' ∧
     next_phase env sig (leds_ctrl st) = Some (leds_sm_state (leds_ctrl st')) ∧
     flag_submachine_configured (leds_ctrl st') =
       flag_submachine_configured (ctrl_before env sig (leds_ctrl st)) ∧
     ((∃ col, g_leds_state st' = col ∧ es = color_calls (g_leds_state st) col) ∨
      (g_leds_state st' = g_leds_state st ∧ Forall quiet es))) ∨
  (next_phase env sig (leds_ctrl st) = None ∧ leds_task_handle_sig task env sig st = Fault AssertFailed).
Proof.
  intros (s & i & Hp). destruct (decide (sig = LEDS_TASK_SIG_UPDATE)) as [->|Hne].
  - pose proof Hp as (_ & _ & _ & (_ & [cols Hs]) & _). left.
    destruct (update_run task st s i cols Hp Hs) as (col & st' & _ & R & Hcol & Hc & Hn).
    exists st', (color_calls (g_leds_state st) col). split_and!; [done| |by rewrite Hc..|by left; exists col].
    unfold next_playing in Hn. case_decide; [destruct Hn as (s' & _ & ?); by exists s', 0%nat|by exists s, (S i)].
  - destruct Hp as [Hok Hp]. pose proof (signal_step task env sig st Hne Hok) as Hstep.
    unfold quiet_step in Hstep. destruct (next_phase env sig (leds_ctrl st)) as [new|]; [left|by right].
    destruct Hstep as (st' & es & R & Hb & Hl & Hok' & Hnew & Hf & Hq). exists st', es.
    split_and!; [done| |congruence|done|by right].
    exists s, i. split; [done|]. by rewrite Hb.
Qed.

Lemma handle_sigs_ok task sigs st st' es :
  leds_ok task st → run (for_each sigs (λ x, leds_task_handle_sig task x.1 x.2)) st tt st' es → leds_ok task st'.
Proof.
  revert st es. induction sigs as [|[env sig] sigs IH]; intros st es Hok R.
  - unfold run in R. cbn in R. by injection R as <- _.
  - cbn [for_each] in R. apply run_bind_inv in R as ([] & s1 & e1 & e2 & R1 & R2 & _).
    destruct (handle_sig_cases task env sig st Hok) as [(s2 & e & R & Hok2 & _)|[_ Hf]].
    + destruct (run_det _ _ _ _ _ _ _ _ R1 R) as (_ & -> & _). by eapply IH.
    + unfold run in R1. cbn [fst snd] in R1. by rewrite Hf in R1.
Qed.

Lemma leds_reachable_ok task st : leds_reachable task st → leds_ok task st.
Proof.
  intros (st0 & button & sigs & es & H0 & R). unfold leds_task in R.
  apply run_bind_inv in R as ([] & s1 & e1 & e2 & R1 & R2 & _).
  destruct (leds_task_start_run task button st0 H0) as (s2 & e & R & Hok & _).
  destruct (run_det _ _ _ _ _ _ _ _ R1 R) as (_ & -> & _). by eapply handle_sigs_ok.
Qed.

(** ** Safety of the task *)

(** C6. In every state the LED task can reach, handling a signal completes unless
    the signal is an event that the current phase of the state machine does not
    accept; the periodic update and all connection signals always complete, and
    no signal reads outside a sequence or through a null pointer. *)
Theorem leds_only_rejected_events_assert (task : os_task_handle_t) (st : leds_t) (env : leds_env)
    (sig : leds_task_sig_e) :
  leds_reachable task st →
  if bool_decide (next_phase env sig (leds_ctrl st) = None)
  then leds_task_handle_sig task env sig st = Fault AssertFailed ∧
       ∃ ev, ctrl_event env sig = Some ev ∧ leds_ctrl_new_state (ctrl_before env sig (leds_ctrl st)) ev = None
  else ∃ st' es, run (leds_task_handle_sig task env sig) st tt st' es ∧
       leds_sm_state (leds_ctrl st') ≠ LEDS_CTRL_STATE_INITIAL.
Proof.
  intros Hok%leds_reachable_ok.
  destruct (handle_sig_cases task env sig st Hok) as [(st' & es & R & Hok' & Hn & _)|[Hn Hf]].
  - rewrite bool_decide_false by (rewrite Hn; done). exists st', es. split; [done|].
    by destruct Hok' as (s & i & [_ ?] & _).
  - rewrite bool_decide_true by done. split; [done|].
    unfold next_phase in Hn. destruct (ctrl_event env sig) as [ev|]; [by exists ev|done].
Qed.

Definition no_env : leds_env := LedsEnv true false true true.
Definition leds_boot_state : leds_t :=
  LedsState
    (LedsCtrlState None LEDS_CTRL_STATE_INITIAL false false (LedsCtrlCallbacks None None None)
       (LedsCtrl2State (LedsCtrlParams false 0) false false false [false; false] [false] false false))
    (LedsBlinkingState (BlinkingMode None) 0 None) LEDS_COLOR_OFF false.

(** The signals of a boot without a firmware update. *)
Definition boot_sigs : list (leds_env * leds_task_sig_e) :=
  [(no_env, LEDS_TASK_SIG_ON_EV_NRF52_FW_CHECK); (no_env, LEDS_TASK_SIG_ON_EV_NRF52_READY);
   (no_env, LEDS_TASK_SIG_ON_EV_CFG_READY)].

Definition after_boot : leds_t :=
  match leds_task (Some 1%nat) false boot_sigs leds_boot_state with
  | Done (_, st, _) => st
  | Fault _ => leds_boot_state
  end.

Lemma after_boot_reachable : leds_reachable (Some 1%nat) after_boot.
Proof. exists leds_boot_state, false, boot_sigs. eexists. split; [done|]. vm_compute. reflexivity. Qed.

Lemma leds_only_rejected_events_assert_witness :
  ∃ st' es, run (leds_task_handle_sig (Some 1%nat) no_env LEDS_TASK_SIG_UPDATE) after_boot tt st' es ∧
    leds_sm_state (leds_ctrl st') ≠ LEDS_CTRL_STATE_INITIAL.
Proof.
  exact (leds_only_rejected_events_assert (Some 1%nat) after_boot no_env LEDS_TASK_SIG_UPDATE
           after_boot_reachable).
Defined.

(** ** Playing *)

(** [n] updates in a row, with the colours they show. *)
Fixpoint play (task : os_task_handle_t) (n : nat) : lprog (list leds_color_e) :=
  match n with
  | O => mret []
  | S n' =>
      leds_task_handle_sig_update task ;;
      c ← gets g_leds_state;
      cs ← play task n';
      mret (c :: cs)
  end.

Lemma play_rest task s cols i n st :
  leds_playing task st s i → colors_of s = Some cols → (i + n = String.length s)%nat → (0 < n)%nat →
  ∃ st' es s', run (play task n) st (drop i cols) st' es ∧ leds_ctrl st' = leds_ctrl st ∧
    run (leds_ctrl_get_new_blinking_sequence task) (leds_ctrl st) (mode_of s') (leds_ctrl st) [] ∧
    leds_playing task st' s' 0.
Proof.
  revert i st. induction n as [|n IH]; intros i st Hp Hs Hn Hpos; [lia|].
  destruct (update_run task st s i cols Hp Hs) as (col & st1 & Hcol & R & Hst & Hc & Hnext).
  rewrite (drop_S _ _ _ Hcol). unfold next_playing in Hnext.
  destruct (decide (S i = String.length s)) as [He|He].
  - destruct Hnext as (s' & Rs & Hp'). assert (n = 0%nat) as -> by lia.
    rewrite (drop_ge cols (S i)) by (rewrite (colors_of_length s cols Hs); lia).
    rewrite Hc in Rs. eexists st1, _, s'. split_and!; [|done..]. cbn [play].
    eapply run_bind; [exact R|]. run_step. rewrite Hst. eapply run_bind_silent; apply run_ret.
  - destruct (IH (S i) st1 Hnext Hs) as (st' & es & s' & R' & Hc' & Rs & Hp'); [lia|lia|].
    rewrite Hc in Rs. eexists st', _, s'. split_and!; [|congruence|done|done]. cbn [play].
    eapply run_bind; [exact R|]. run_step. rewrite Hst.
    eapply (run_bind _ _ _ _ _ es _ _ []); [exact R'|apply run_ret].
Qed.

(** C15. When the task is at the start of a sequence, as many updates as the
    sequence has characters show exactly its colours in order, and then the task
    is at the start of the sequence the state machine asks for. *)
Theorem leds_sequence_played (task : os_task_handle_t) (st : leds_t) (s : string) (cols : list leds_color_e) :
  leds_reachable task st → g_leds_blinking_sequence_idx (leds_blinking st) = 0 →
  p_sequence (g_leds_blinking_mode (leds_blinking st)) = Some s → colors_of s = Some cols →
  ∃ st' es s', run (play task (String.length s)) st cols st' es ∧
    run (leds_ctrl_get_new_blinking_sequence task) (leds_ctrl st) (mode_of s') (leds_ctrl st) [] ∧
    p_sequence (g_leds_blinking_mode (leds_blinking st')) = Some s' ∧
    g_leds_blinking_sequence_idx (leds_blinking st') = 0.
Proof.
  intros (s0 & i & Hp)%leds_reachable_ok Hidx Hseq Hs.
  pose proof Hp as (_ & _ & Hs0 & _ & Hi & Hlt). assert (s0 = s) as -> by congruence.
  assert (i = 0%nat) as -> by lia.
  destruct (play_rest task s cols 0 (String.length s) st Hp Hs eq_refl Hlt)
    as (st' & es & s' & R & _ & Rs & _ & _ & Hq & _ & Hz & _).
  by exists st', es, s'.
Qed.

Lemma leds_sequence_played_witness :
  ∃ st' es s', run (play (Some 1%nat) 8) after_boot
      [LEDS_COLOR_RED; LEDS_COLOR_OFF; LEDS_COLOR_RED; LEDS_COLOR_OFF;
       LEDS_COLOR_RED; LEDS_COLOR_OFF; LEDS_COLOR_RED; LEDS_COLOR_OFF] st' es ∧
    run (leds_ctrl_get_new_blinking_sequence (Some 1%nat)) (leds_ctrl after_boot) (mode_of s')
      (leds_ctrl after_boot) [] ∧
    p_sequence (g_leds_blinking_mode (leds_blinking st')) = Some s' ∧
    g_leds_blinking_sequence_idx (leds_blinking st') = 0.
Proof.
  apply (leds_sequence_played (Some 1%nat) after_boot "R-R-R-R-");
    [apply after_boot_reachable|reflexivity|reflexivity|reflexivity].
Defined.

(** ** Red and green are never asked for together *)

(** What the task last asked for: the duty it set for the red LED, which it drives
    itself, and the state it stored for the green LED, which the advertisement task
    passes to the nRF52.  Whether the nRF52 lights the green LED is not part of it. *)
Record led_cmds := LedCmds { red_commanded : bool; green_requested : bool }.

Definition cmds_step (h : led_cmds) (e : leds_ev) : led_cmds :=
  match e with
  | LedcSetFadeWithTime duty _ => LedCmds (duty =? LEDC_TEST_DUTY_ON) (green_requested h)
  | GreenLedStore b => LedCmds (red_commanded h) b
  | _ => h
  end.

(** At no point of the calls [es] are both asked for. *)
Fixpoint cmds_exclusive (h : led_cmds) (es : list leds_ev) : Prop :=
  ¬ (red_commanded h = true ∧ green_requested h = true) ∧
  match es with [] => True | e :: es' => cmds_exclusive (cmds_step h e) es' end.

Definition cmds_after (h : led_cmds) (es : list leds_ev) : led_cmds := fold_left cmds_step es h.

Lemma cmds_exclusive_app h es1 es2 :
  cmds_exclusive h es1 → cmds_exclusive (cmds_after h es1) es2 → cmds_exclusive h (es1 ++ es2).
Proof.
  revert h. induction es1 as [|e es1 IH]; intros h; cbn; [naive_solver|]. intros [? ?] ?.
  split; [done|]. by apply IH.
Qed.

(** The colour of the task bounds what it asks for. *)
Definition cmds_ok (h : led_cmds) (c : leds_color_e) : Prop :=
  (red_commanded h = true → c = LEDS_COLOR_RED) ∧ green_requested h = bool_decide (c = LEDS_COLOR_GREEN).

Lemma cmds_ok_exclusive h c : cmds_ok h c → ¬ (red_commanded h = true ∧ green_requested h = true).
Proof. intros [Hr Hg] [H1 H2]. rewrite (Hr H1), bool_decide_false in Hg; congruence. Qed.

Lemma cmds_color_calls h prev new :
  cmds_ok h prev → cmds_exclusive h (color_calls prev new) ∧ cmds_ok (cmds_after h (color_calls prev new)) new.
Proof.
  intros Hok. pose proof (cmds_ok_exclusive _ _ Hok) as Hx. unfold color_calls. case_bool_decide as Hd.
  - subst. by split.
  - destruct h as [r g], Hok as [Hr Hg]. cbn in Hr, Hg, Hx. subst g.
    destruct prev, new; try done; cbn; unfold cmds_ok; cbn; destruct r; naive_solver.
Qed.

Lemma cmds_quiet h c es :
  cmds_ok h c → Forall quiet es → cmds_exclusive h es ∧ cmds_ok (cmds_after h es) c.
Proof.
  intros Hok Hq. revert h Hok. induction Hq as [|e es He Hq IH]; intros h Hok.
  - split; [split; [by eapply cmds_ok_exclusive|done]|done].
  - assert (Hok' : cmds_ok (cmds_step h e) c).
    { destruct e; cbn in He |- *; try done. subst. destruct Hok. by split. }
    destruct (IH _ Hok') as [Hx Ho]. split; [|done]. split; [by eapply cmds_ok_exclusive|done].
Qed.

Lemma handle_sigs_exclusive task sigs st st' es h :
  leds_ok task st → cmds_ok h (g_leds_state st) →
  run (for_each sigs (λ x, leds_task_handle_sig task x.1 x.2)) st tt st' es → cmds_exclusive h es.
Proof.
  revert st es h. induction sigs as [|[env sig] sigs IH]; intros st es h Hok Hh R.
  - unfold run in R. cbn in R. injection R as _ <-. split; [by eapply cmds_ok_exclusive|done].
  - cbn [for_each] in R. apply run_bind_inv in R as ([] & s1 & e1 & e2 & R1 & R2 & ->).
    destruct (handle_sig_cases task env sig st Hok) as [(s2 & e & R & Hok2 & _ & _ & Hcalls)|[_ Hf]].
    + destruct (run_det _ _ _ _ _ _ _ _ R1 R) as (_ & -> & ->).
      assert (cmds_exclusive h e ∧ cmds_ok (cmds_after h e) (g_leds_state s2)) as [Hx Ho].
      { destruct Hcalls as [(col & -> & ->)|[-> Hq]]; [by apply cmds_color_calls|by apply cmds_quiet]. }
      apply cmds_exclusive_app; [done|]. by eapply IH.
    + unfold run in R1. cbn [fst snd] in R1. by rewrite Hf in R1.
Qed.

(** C16. Along every run of the LED task, with any signals in any order, there is no
    point at which the task has both commanded the red LED on (the last duty it set)
    and requested the green LED on (the last state it stored for the nRF52): before
    it asks for one it takes back the other.  This is about what the task asks for;
    the nRF52 also lights the green LED on its own while it is not configured. *)
Theorem leds_red_green_not_asked_together (task : os_task_handle_t) (button : bool)
    (sigs : list (leds_env * leds_task_sig_e)) (st st' : leds_t) (es : list leds_ev) :
  leds_at_start st → run (leds_task task button sigs) st tt st' es → cmds_exclusive (LedCmds false false) es.
Proof.
  intros H0 R. unfold leds_task in R. apply run_bind_inv in R as ([] & s1 & e1 & e2 & R1 & R2 & ->).
  destruct (leds_task_start_run task button st H0) as (s2 & e & R & Hok & Hcol & _ & _ & Hq).
  destruct (run_det _ _ _ _ _ _ _ _ R1 R) as (_ & -> & ->).
  destruct (cmds_quiet (LedCmds false false) LEDS_COLOR_OFF e) as [Hx Ho]; [done|done|].
  apply cmds_exclusive_app; [done|]. rewrite <- Hcol in Ho. by eapply handle_sigs_exclusive.
Qed.

Lemma leds_red_green_not_asked_together_witness :
  match leds_task (Some 1%nat) false (boot_sigs ++ replicate 12 (no_env, LEDS_TASK_SIG_UPDATE)) leds_boot_state with
  | Done (_, _, es) => cmds_exclusive (LedCmds false false) es
  | Fault _ => False
  end.
Proof.
  destruct (leds_task (Some 1%nat) false (boot_sigs ++ replicate 12 (no_env, LEDS_TASK_SIG_UPDATE)) leds_boot_state)
    as [[[[] st'] es]|f] eqn:R.
  - exact (leds_red_green_not_asked_together (Some 1%nat) false _ leds_boot_state st' es
             (conj eq_refl (conj eq_refl eq_refl)) R).
  - vm_compute in R. discriminate R.
Defined.

(** ** What solid green means *)

Lemma status_all s :
  mode_of (sequence_of_status s) = mode_of LEDS_BLINKING_MODE_CONNECTED_TO_ALL_TARGETS ↔ s = AllTargets.
Proof. split; [|by intros ->]. intros [= H]. by destruct s as [[]| | | | |]. Qed.

Lemma all_connected st ts : forallb (connected st) ts = true ↔ (∀ t, t ∈ ts → connected st t = true).
Proof. rewrite forallb_forall. by setoid_rewrite list_elem_of_In. Qed.

(** C22. The connection sub-machine asks for solid green exactly when the access
    point is off, the network is up, advertisements are received, and every
    configured target is connected (or, with no target configured, the gateway is
    being polled over HTTP). *)
Theorem leds_solid_green_iff (st : leds_ctrl2_state_t) :
  leds_ctrl2_get_new_blinking_sequence st = mode_of LEDS_BLINKING_MODE_CONNECTED_TO_ALL_TARGETS ↔
  flag_wifi_ap_active st = false ∧ flag_network_connected st = true ∧ flag_recv_adv_status st = true ∧
  (∀ t, t ∈ configured_targets st → connected st t = true) ∧
  (configured_targets st = [] → flag_http_poll_status st = true).
Proof.
  rewrite ctrl2_sequence_status, status_all. unfold link_status_of.
  destruct (flag_wifi_ap_active st); [naive_solver|].
  destruct (flag_network_connected st); cbn [negb]; [|naive_solver].
  destruct (flag_recv_adv_status st); cbn [negb]; [|naive_solver].
  destruct (configured_targets st) as [|t ts].
  { destruct (flag_http_poll_status st); (split; [try done; intros _; split_and!; set_solver|]).
    - done.
    - intros (_ & _ & _ & _ & H). by specialize (H eq_refl). }
  rewrite <- all_connected. destruct (forallb (connected st) (t :: ts)).
  - naive_solver.
  - destruct (existsb (connected st) (t :: ts)); naive_solver.
Qed.

(** ** The order of the boot phases *)

(** The milestones a phase implies, oldest first. *)
Definition milestones (s : leds_ctrl_state_e) : list leds_task_sig_e :=
  match s with
  | LEDS_CTRL_STATE_CHECKING_NRF52_FW | LEDS_CTRL_STATE_FLASHING_NRF52_FW =>
      [LEDS_TASK_SIG_ON_EV_NRF52_FW_CHECK]
  | LEDS_CTRL_STATE_WAITING_CFG_READY =>
      [LEDS_TASK_SIG_ON_EV_NRF52_FW_CHECK; LEDS_TASK_SIG_ON_EV_NRF52_READY]
  | LEDS_CTRL_STATE_SUBSTATE =>
      [LEDS_TASK_SIG_ON_EV_NRF52_FW_CHECK; LEDS_TASK_SIG_ON_EV_NRF52_READY; LEDS_TASK_SIG_ON_EV_CFG_READY]
  | _ => []
  end.

(** What holds of the phase when the signals [past] have been handled. *)
Definition boot_order (past : list leds_task_sig_e) (c : leds_ctrl_state_t) : Prop :=
  milestones (leds_sm_state c) `sublist_of` past ∧ leds_sm_state c ≠ LEDS_CTRL_STATE_NRF52_REBOOTED ∧
  (leds_sm_state c = LEDS_CTRL_STATE_SUBSTATE → flag_submachine_configured c = true).

Lemma boot_order_step env sig past c new c' :
  sig ≠ LEDS_TASK_SIG_ON_EV_NRF52_REBOOTED → leds_sm_state c ≠ LEDS_CTRL_STATE_INITIAL →
  boot_order past c → next_phase env sig c = Some new →
  leds_sm_state c' = new → flag_submachine_configured c' = flag_submachine_configured (ctrl_before env sig c) →
  boot_order (past ++ [sig]) c'.
Proof.
  intros Hsig Hni (Hm & Hr & Hf) Hn <- Hf'.
  assert (Hext : ∀ l, l `sublist_of` past → l `sublist_of` past ++ [sig]) by (intros l ?; by apply sublist_inserts_r).
  assert (Hsnoc : ∀ l, l `sublist_of` past → l ++ [sig] `sublist_of` past ++ [sig]) by (intros l ?; by apply sublist_app).
  unfold boot_order. rewrite Hf'. clear Hf'.
  unfold next_phase, leds_ctrl_new_state in Hn.
  destruct sig; try done; cbn in Hn |- *; destruct (leds_sm_state c) eqn:Hs; cbn in Hn, Hm, Hf |- *;
    rewrite ?Hs in Hn; try discriminate Hn; try done;
    try (destruct (flag_submachine_configured c) eqn:Hc; cbn in Hn; try discriminate Hn);
    injection Hn as Hn; rewrite <- Hn; cbn; split_and!; try done; eauto;
    try (by apply (Hsnoc _ Hm)); try apply sublist_nil_l.
  etransitivity; [|apply Hext; exact Hm]. apply sublist_skip, sublist_nil_l.
Qed.

Lemma handle_sigs_order task sigs past st st' es :
  leds_ok task st → boot_order past (leds_ctrl st) →
  LEDS_TASK_SIG_ON_EV_NRF52_REBOOTED ∉ sigs.*2 →
  run (for_each sigs (λ x, leds_task_handle_sig task x.1 x.2)) st tt st' es →
  boot_order (past ++ sigs.*2) (leds_ctrl st').
Proof.
  revert past st es. induction sigs as [|[env sig] sigs IH]; intros past st es Hok Ho Hni R.
  - unfold run in R. cbn in R. injection R as <- _. cbn. by rewrite app_nil_r.
  - cbn [for_each] in R. apply run_bind_inv in R as ([] & s1 & e1 & e2 & R1 & R2 & _).
    cbn in Hni. apply not_elem_of_cons in Hni as [Hne Hni].
    destruct (handle_sig_cases task env sig st Hok) as [(s2 & e & R & Hok2 & Hn & Hf & _)|[_ Hf]].
    + destruct (run_det _ _ _ _ _ _ _ _ R1 R) as (_ & -> & _).
      replace (past ++ ((env, sig) :: sigs).*2) with ((past ++ [sig]) ++ sigs.*2)
        by (by rewrite <- (assoc_L (++))).
      apply (IH _ s2 e2 Hok2); [|done|done].
      destruct Hok as (s & i & [_ Hi] & _). by eapply boot_order_step.
    + unfold run in R1. cbn [fst snd] in R1. by rewrite Hf in R1.
Qed.

(** C21. Unless the nRF52 rebooted, the LEDs show the state of the connections
    only after the firmware check, the nRF52 becoming ready and the configuration
    becoming ready have been signalled in this order, and then the sub-machine
    has its configuration. *)
Theorem leds_connection_phase_order (task : os_task_handle_t) (button : bool)
    (sigs : list (leds_env * leds_task_sig_e)) (st st' : leds_t) (es : list leds_ev) :
  leds_at_start st → run (leds_task task button sigs) st tt st' es →
  LEDS_TASK_SIG_ON_EV_NRF52_REBOOTED ∉ sigs.*2 →
  leds_sm_state (leds_ctrl st') = LEDS_CTRL_STATE_SUBSTATE →
  [LEDS_TASK_SIG_ON_EV_NRF52_FW_CHECK; LEDS_TASK_SIG_ON_EV_NRF52_READY; LEDS_TASK_SIG_ON_EV_CFG_READY]
    `sublist_of` sigs.*2 ∧
  flag_submachine_configured (leds_ctrl st') = true.
Proof.
  intros H0 R Hni Hs. unfold leds_task in R. apply run_bind_inv in R as ([] & s1 & e1 & e2 & R1 & R2 & ->).
  destruct (leds_task_start_run task button st H0) as (s2 & e & R & Hok & _ & _ & Hst & _).
  destruct (run_det _ _ _ _ _ _ _ _ R1 R) as (_ & -> & ->).
  destruct (handle_sigs_order task sigs [] s2 st' e2 Hok) as (Hm & _ & Hf); [|done|done|].
  - unfold boot_order. rewrite Hst. by destruct button.
  - rewrite Hs in Hm. split; [exact Hm|by apply Hf].
Qed.

Lemma leds_connection_phase_order_witness :
  [LEDS_TASK_SIG_ON_EV_NRF52_FW_CHECK; LEDS_TASK_SIG_ON_EV_NRF52_READY; LEDS_TASK_SIG_ON_EV_CFG_READY]
    `sublist_of` boot_sigs.*2 ∧ flag_submachine_configured (leds_ctrl after_boot) = true.
Proof.
  destruct (leds_task (Some 1%nat) false boot_sigs leds_boot_state) as [[[[] st'] es]|f] eqn:R.
  - assert (E : after_boot = st') by (unfold after_boot; by rewrite R).
    rewrite E.
    refine (leds_connection_phase_order (Some 1%nat) false _ leds_boot_state st' es
             (conj eq_refl (conj eq_refl eq_refl)) R _ _).
    + apply (bool_decide_unpack _). vm_compute. exact I.
    + rewrite <- E. vm_compute. reflexivity.
  - vm_compute in R. discriminate R.
Defined.

(** C23. Once the reboot has been signalled, every further signal is handled
    without fault and the machine stays in its last phase, unless the nRF52
    reports a reboot. *)
Theorem leds_reboot_final (task : os_task_handle_t) (st : leds_t) (env : leds_env)
    (sigs : list (leds_env * leds_task_sig_e)) :
  leds_reachable task st → LEDS_TASK_SIG_ON_EV_NRF52_REBOOTED ∉ sigs.*2 →
  ∃ st' es,
    run (for_each ((env, LEDS_TASK_SIG_ON_EV_REBOOT) :: sigs) (λ x, leds_task_handle_sig task x.1 x.2))
      st tt st' es ∧
    leds_sm_state (leds_ctrl st') = LEDS_CTRL_STATE_BEFORE_REBOOT.
Proof.
  intros Hok%leds_reachable_ok Hni.
  destruct (handle_sig_cases task env LEDS_TASK_SIG_ON_EV_REBOOT st Hok)
    as [(s1 & e1 & R1 & Hok1 & Hn & _)|[[=] _]].
  cbn in Hn. injection Hn as Hs1. symmetry in Hs1. clear Hok.
  enough (∃ st' es, run (for_each sigs (λ x, leds_task_handle_sig task x.1 x.2)) s1 tt st' es ∧
    leds_sm_state (leds_ctrl st') = LEDS_CTRL_STATE_BEFORE_REBOOT) as (st' & es & R & Hs).
  { exists st', (e1 ++ es). split; [|done]. cbn [for_each]. by eapply run_bind. }
  clear R1. revert s1 Hs1 Hok1. induction sigs as [|[e sig] sigs IH]; intros s1 Hs1 Hok1.
  - exists s1, []. by split.
  - cbn in Hni. apply not_elem_of_cons in Hni as [Hne Hni].
    assert (Hph : next_phase e sig (leds_ctrl s1) = Some LEDS_CTRL_STATE_BEFORE_REBOOT).
    { unfold next_phase, leds_ctrl_new_state. destruct sig; cbn; rewrite ?Hs1; done. }
    destruct (handle_sig_cases task e sig s1 Hok1) as [(s2 & e2 & R2 & Hok2 & Hn & _)|[Hn _]]; [|congruence].
    rewrite Hph in Hn. injection Hn as Hs2.
    destruct (IH Hni s2 (eq_sym Hs2) Hok2) as (st' & es & R & Hs).
    exists st', (e2 ++ es). split; [|done]. cbn [for_each]. by eapply run_bind.
Qed.

Lemma leds_reboot_final_witness :
  ∃ st' es,
    run (for_each [(no_env, LEDS_TASK_SIG_ON_EV_REBOOT); (no_env, LEDS_TASK_SIG_ON_EV_NRF52_FW_CHECK)]
           (λ x, leds_task_handle_sig (Some 1%nat) x.1 x.2)) after_boot tt st' es ∧
    leds_sm_state (leds_ctrl st') = LEDS_CTRL_STATE_BEFORE_REBOOT.
Proof.
  apply (leds_reboot_final (Some 1%nat) after_boot no_env [(no_env, LEDS_TASK_SIG_ON_EV_NRF52_FW_CHECK)]).
  - apply after_boot_reachable.
  - apply (bool_decide_unpack _). vm_compute. exact I.
Defined.
