(* ===== verification/GwCfg.v ===== *)
(** * Gateway configuration data (src/main/gw_cfg.h)

    The parts of the configuration that other components keep copies of. *)

From S2P Require Import Prelude.
Open Scope Z_scope.

Record ruuvi_gw_cfg_filter_t := RuuviGwCfgFilter {
  company_id : Z;
  company_use_filtering : bool;
}.
#[export] Instance ruuvi_gw_cfg_filter_eq_dec : EqDecision ruuvi_gw_cfg_filter_t.
Proof. solve_decision. Defined.

Record ruuvi_gw_cfg_scan_t := RuuviGwCfgScan {
  scan_coded_phy : bool;
  scan_1mbit_phy : bool;
  scan_2mbit_phy : bool;
  scan_channel_37 : bool;
  scan_channel_38 : bool;
  scan_channel_39 : bool;
  scan_default : bool;
}.
#[export] Instance ruuvi_gw_cfg_scan_eq_dec : EqDecision ruuvi_gw_cfg_scan_t.
Proof. solve_decision. Defined.
