(* ===== verification/AdvPostSig.v ===== *)
(** * Signals of the advertisement task (src/main/adv_post_signals.h)

    In a file of their own since every component of the task sends them. *)

From S2P Require Import Prelude.

Inductive adv_post_sig_e :=
| ADV_POST_SIG_STOP | ADV_POST_SIG_NETWORK_DISCONNECTED | ADV_POST_SIG_NETWORK_CONNECTED
| ADV_POST_SIG_TIME_SYNCHRONIZED | ADV_POST_SIG_RETRANSMIT | ADV_POST_SIG_RETRANSMIT2
| ADV_POST_SIG_RETRANSMIT_MQTT | ADV_POST_SIG_SEND_STATISTICS | ADV_POST_SIG_DO_ASYNC_COMM
| ADV_POST_SIG_RELAYING_MODE_CHANGED | ADV_POST_SIG_NETWORK_WATCHDOG | ADV_POST_SIG_TASK_WATCHDOG_FEED
| ADV_POST_SIG_GW_CFG_READY | ADV_POST_SIG_GW_CFG_CHANGED_RUUVI | ADV_POST_SIG_BLE_SCAN_CHANGED
| ADV_POST_SIG_CFG_MODE_ACTIVATED | ADV_POST_SIG_CFG_MODE_DEACTIVATED | ADV_POST_SIG_NRF52_REBOOTED
| ADV_POST_SIG_NRF52_CONFIGURED | ADV_POST_SIG_NRF52_ACK_LED_CTRL | ADV_POST_SIG_NRF52_ACK_CFG
| ADV_POST_SIG_NRF52_ACK_TIMEOUT | ADV_POST_SIG_NRF52_CFG_UPDATE | ADV_POST_SIG_NRF52_HW_RESET_OFF
| ADV_POST_SIG_NRF52_CFG_REQ_TIMEOUT | ADV_POST_SIG_GREEN_LED_STATE_CHANGED
| ADV_POST_SIG_GREEN_LED_UPDATE | ADV_POST_SIG_RECV_ADV_TIMEOUT.
#[export] Instance adv_post_sig_eq_dec : EqDecision adv_post_sig_e.
Proof. solve_decision. Defined.
