(* ===== verification/AdvPostNrf52.v ===== *)
(** * Commands to the nRF52 co-processor (src/main/adv_post_nrf52.c)

    The ESP32 sends the nRF52 its configuration and the state of the green LED
    over a UART, one command at a time: the next one waits for the acknowledgement
    of the previous one or for its timeout, and too many timeouts in a row reset
    the nRF52. *)

From S2P Require Import Prelude EventMgr LedsBlinking GwCfg AdvPostSig.
Open Scope Z_scope.

(** ** Data *)

Definition ADV_POST_NRF52_NO_ACK_MAX_CNT : Z := 10.
Definition ADV_POST_LED_CTRL_TIME_INTERVAL_INVALID : Z := 65535.
Definition ADV_DATA_MAX_LEN : Z := 48.

(** The constants of the UART protocol (ruuvi_endpoint_ca_uart.h). *)
Class CaUart := {
  RE_CA_UART_LED_CTRL : Z;
  RE_CA_UART_SET_ALL : Z;
  RE_CA_BOOL_ENABLE : Z;
  RE_CA_BOOL_DISABLE : Z;
}.

(** [g_adv_post_nrf52_cfg] and the other static variables. *)
Record adv_post_nrf52_t := AdvPostNrf52State {
  cfg_scan : ruuvi_gw_cfg_scan_t;
  cfg_filter : ruuvi_gw_cfg_filter_t;
  cfg_mutex : bool;
  flag_cfg_ready : bool;
  flag_nrf52_configured : bool;
  flag_nrf52_in_hw_reset_state : bool;
  g_adv_post_nrf52_task_handle : os_task_handle_t;
  g_adv_post_nrf52_last_cmd : Z;
  g_adv_post_nrf52_is_waiting_ack : bool;
  g_adv_post_nrf52_flag_cfg_required : bool;
  g_adv_post_nrf52_ack_timeout_cnt : Z;
  g_adv_post_nrf52_led_ctrl_time_interval_ms : Z;
}.
#[export] Instance adv_post_nrf52_eta : Eta adv_post_nrf52_t := λ r,
  AdvPostNrf52State (cfg_scan r) (cfg_filter r) (cfg_mutex r) (flag_cfg_ready r)
    (flag_nrf52_configured r) (flag_nrf52_in_hw_reset_state r) (g_adv_post_nrf52_task_handle r)
    (g_adv_post_nrf52_last_cmd r) (g_adv_post_nrf52_is_waiting_ack r)
    (g_adv_post_nrf52_flag_cfg_required r) (g_adv_post_nrf52_ack_timeout_cnt r)
    (g_adv_post_nrf52_led_ctrl_time_interval_ms r).

Inductive nrf52_ev :=
| NrfMutexCreate
| NrfMutexLock
| NrfMutexUnlock
| NrfTimersCreate
| AckTimerRelaunch
| AckTimerStop
| ResetTimerStart
| CfgReqTimerStart
| CfgReqTimerStop
| NrfHwReset (on : bool)
| ApiSendLedCtrl (time_interval_ms : Z)
| ApiSendAll (cmd company_id use_filter coded phy2 phy1 ch37 ch38 ch39 max_len : Z)
| NrfSendSig (sig : adv_post_sig_e)
| NrfEventNotify (ev : event_mgr_ev_e)
| AdvTableClear
| MetricsNrfSelfRebootInc
| MetricsNrfExtHwResetInc
| MetricsNrfLostAckInc.

Abbreviation nprog := (prog adv_post_nrf52_t nrf52_ev).

(** What a handler reads from other components. *)
Record nrf52_env := Nrf52Env {
  cur_task : os_task_handle_t;
  nrf52fw_manual_reset_mode : bool;
  cfg_req_timer_is_active : bool;
}.

Section operations.
Context `{CaUart}.

Definition with_cfg_mutex {A} (m : nprog A) : nprog A :=
  emit NrfMutexLock ;; a ← m; emit NrfMutexUnlock ;; mret a.

Definition assert_mutex : nprog unit := m ← gets cfg_mutex; assert_c m.

Definition assert_task (env : nrf52_env) : nprog unit :=
  h ← gets g_adv_post_nrf52_task_handle; assert_c (bool_decide (h = cur_task env)).

(** ** Access to the cached configuration *)

Definition adv_post_nrf52_is_in_hw_reset_state : nprog bool :=
  with_cfg_mutex (gets flag_nrf52_in_hw_reset_state).

Definition adv_post_nrf52_cfg_update_cached (scan : ruuvi_gw_cfg_scan_t) (filter : ruuvi_gw_cfg_filter_t)
    : nprog unit :=
  assert_mutex ;;
  with_cfg_mutex (modify (λ st,
    st <| cfg_scan := scan |> <| cfg_filter := filter |> <| flag_nrf52_configured := false |>
       <| flag_nrf52_in_hw_reset_state := false |> <| flag_cfg_ready := true |>)).

Definition adv_post_nrf52_cfg_is_ready : nprog bool :=
  assert_mutex ;; with_cfg_mutex (gets flag_cfg_ready).

Definition adv_post_nrf52_cfg_get_cached : nprog (ruuvi_gw_cfg_scan_t * ruuvi_gw_cfg_filter_t) :=
  assert_mutex ;; with_cfg_mutex (gets (λ st, (cfg_scan st, cfg_filter st))).

Definition adv_post_nrf52_cfg_set_configured : nprog unit :=
  assert_mutex ;; with_cfg_mutex (modify (λ st, st <| flag_nrf52_configured := true |>)).

Definition adv_post_nrf52_cfg_set_unconfigured : nprog unit :=
  assert_mutex ;; with_cfg_mutex (modify (λ st, st <| flag_nrf52_configured := false |>)).

Definition adv_post_nrf52_is_configured : nprog bool :=
  with_cfg_mutex (gets flag_nrf52_configured).

(** ** Commands; a failure of the UART driver is only logged *)

Definition adv_post_nrf52_set_waiting_ack (cmd : Z) : nprog unit :=
  emit AckTimerRelaunch ;;
  modify (λ st, st <| g_adv_post_nrf52_last_cmd := cmd |>) ;;
  modify (λ st, st <| g_adv_post_nrf52_is_waiting_ack := true |>).

Definition adv_post_nrf52_send_cmd_led_ctrl_internal : nprog unit :=
  st ← getst;
  assert_c (negb (g_adv_post_nrf52_is_waiting_ack st)) ;;
  assert_c (negb (ADV_POST_LED_CTRL_TIME_INTERVAL_INVALID =? g_adv_post_nrf52_led_ctrl_time_interval_ms st)) ;;
  let time_interval_ms := g_adv_post_nrf52_led_ctrl_time_interval_ms st in
  adv_post_nrf52_set_waiting_ack RE_CA_UART_LED_CTRL ;;
  emit (ApiSendLedCtrl time_interval_ms).

Definition conv_bool_to_u8 (x : bool) : Z := if x then u8 RE_CA_BOOL_ENABLE else u8 RE_CA_BOOL_DISABLE.

(** [api_send_all] with the cached configuration. *)
Definition send_all_call (scan : ruuvi_gw_cfg_scan_t) (filter : ruuvi_gw_cfg_filter_t) : nrf52_ev :=
  ApiSendAll RE_CA_UART_SET_ALL (company_id filter) (conv_bool_to_u8 (company_use_filtering filter))
    (conv_bool_to_u8 (scan_coded_phy scan)) (conv_bool_to_u8 (scan_2mbit_phy scan))
    (conv_bool_to_u8 (scan_1mbit_phy scan)) (conv_bool_to_u8 (scan_channel_37 scan))
    (conv_bool_to_u8 (scan_channel_38 scan)) (conv_bool_to_u8 (scan_channel_39 scan)) ADV_DATA_MAX_LEN.

Definition adv_post_nrf52_send_cmd_cfg_internal (env : nrf52_env) : nprog unit :=
  st ← getst;
  assert_c (negb (g_adv_post_nrf52_is_waiting_ack st)) ;;
  assert_c (negb (flag_nrf52_configured st)) ;;
  assert_c (g_adv_post_nrf52_flag_cfg_required st) ;;
  if nrf52fw_manual_reset_mode env then skip
  else
    '(scan, filter) ← adv_post_nrf52_cfg_get_cached;
    adv_post_nrf52_set_waiting_ack RE_CA_UART_SET_ALL ;;
    emit (send_all_call scan filter).

Definition adv_post_nrf52_reset : nprog unit :=
  emit (NrfHwReset true) ;;
  with_cfg_mutex (modify (λ st,
    st <| flag_nrf52_in_hw_reset_state := true |>
       <| g_adv_post_nrf52_led_ctrl_time_interval_ms := ADV_POST_LED_CTRL_TIME_INTERVAL_INVALID |>
       <| g_adv_post_nrf52_flag_cfg_required := false |>
       <| g_adv_post_nrf52_is_waiting_ack := false |>)) ;;
  emit ResetTimerStart.

(** [scan] and [filter] are those of the gateway configuration. *)
Definition adv_post_nrf52_init (env : nrf52_env) (scan : ruuvi_gw_cfg_scan_t)
    (filter : ruuvi_gw_cfg_filter_t) : nprog unit :=
  h ← gets g_adv_post_nrf52_task_handle;
  assert_c (bool_decide (h = None)) ;;
  modify (λ st, st <| g_adv_post_nrf52_task_handle := cur_task env |>) ;;
  emit NrfMutexCreate ;;
  modify (λ st, st <| cfg_mutex := true |> <| flag_nrf52_configured := false |>
                   <| cfg_scan := scan |> <| cfg_filter := filter |>
                   <| flag_cfg_ready := false |> <| flag_nrf52_in_hw_reset_state := false |>
                   <| g_adv_post_nrf52_last_cmd := 0 |> <| g_adv_post_nrf52_is_waiting_ack := false |>
                   <| g_adv_post_nrf52_flag_cfg_required := false |>
                   <| g_adv_post_nrf52_ack_timeout_cnt := 0 |>
                   <| g_adv_post_nrf52_led_ctrl_time_interval_ms := ADV_POST_LED_CTRL_TIME_INTERVAL_INVALID |>) ;;
  emit NrfTimersCreate ;;
  adv_post_nrf52_reset.

Definition adv_post_nrf52_cfg_update (scan : ruuvi_gw_cfg_scan_t) (filter : ruuvi_gw_cfg_filter_t)
    : nprog unit :=
  assert_mutex ;;
  adv_post_nrf52_cfg_update_cached scan filter ;;
  emit AdvTableClear ;;
  emit (NrfSendSig ADV_POST_SIG_NRF52_CFG_UPDATE).

Definition adv_post_nrf52_send_led_ctrl (env : nrf52_env) (time_interval_ms : Z) : nprog unit :=
  assert_task env ;;
  modify (λ st, st <| g_adv_post_nrf52_led_ctrl_time_interval_ms := time_interval_ms |>) ;;
  waiting ← gets g_adv_post_nrf52_is_waiting_ack;
  if negb waiting then adv_post_nrf52_send_cmd_led_ctrl_internal else skip.

(** ** Signals *)

Definition adv_post_nrf52_on_sig_nrf52_rebooted (env : nrf52_env) : nprog unit :=
  modify (λ st, st <| g_adv_post_nrf52_led_ctrl_time_interval_ms := ADV_POST_LED_CTRL_TIME_INTERVAL_INVALID |>) ;;
  modify (λ st, st <| g_adv_post_nrf52_flag_cfg_required := false |>) ;;
  modify (λ st, st <| g_adv_post_nrf52_is_waiting_ack := false |>) ;;
  (if nrf52fw_manual_reset_mode env then skip
   else
     ready ← adv_post_nrf52_cfg_is_ready;
     if (ready : bool)
     then
       (if negb (cfg_req_timer_is_active env) then emit MetricsNrfSelfRebootInc else skip) ;;
       emit (NrfSendSig ADV_POST_SIG_NRF52_CFG_UPDATE)
     else skip) ;;
  emit CfgReqTimerStop.

Definition adv_post_nrf52_on_sig_nrf52_configured : nprog unit := skip.

Definition adv_post_nrf52_on_sig_nrf52_cfg_update (env : nrf52_env) : nprog unit :=
  assert_task env ;;
  adv_post_nrf52_cfg_set_unconfigured ;;
  modify (λ st, st <| g_adv_post_nrf52_flag_cfg_required := true |>) ;;
  waiting ← gets g_adv_post_nrf52_is_waiting_ack;
  if negb waiting then adv_post_nrf52_send_cmd_cfg_internal env else skip.

Definition adv_post_nrf52_on_sig_nrf52_hw_reset_off (env : nrf52_env) : nprog unit :=
  assert_task env ;;
  emit (NrfHwReset false) ;;
  with_cfg_mutex (modify (λ st, st <| flag_nrf52_in_hw_reset_state := false |>)) ;;
  emit CfgReqTimerStart.

Definition adv_post_nrf52_on_sig_nrf52_cfg_req_timeout (env : nrf52_env) : nprog unit :=
  assert_task env ;;
  emit MetricsNrfExtHwResetInc ;;
  adv_post_nrf52_reset.

Definition adv_post_nrf52_on_async_ack_led_ctrl (ack_state : Z) : nprog unit :=
  if 0 =? ack_state then emit (NrfSendSig ADV_POST_SIG_NRF52_ACK_LED_CTRL) else skip.

Definition adv_post_nrf52_on_async_ack_set_all (ack_state : Z) : nprog unit :=
  if 0 =? ack_state then emit (NrfSendSig ADV_POST_SIG_NRF52_ACK_CFG) else skip.

(** Called from the task that receives from the UART. *)
Definition adv_post_nrf52_on_async_ack (cmd ack_state : Z) : nprog unit :=
  last_cmd ← gets g_adv_post_nrf52_last_cmd;
  modify (λ st, st <| g_adv_post_nrf52_last_cmd := 0 |>) ;;
  if negb (last_cmd =? cmd) then skip
  else if cmd =? RE_CA_UART_LED_CTRL then adv_post_nrf52_on_async_ack_led_ctrl ack_state
  else if cmd =? RE_CA_UART_SET_ALL then adv_post_nrf52_on_async_ack_set_all ack_state
  else skip.

Definition adv_post_nrf52_on_sync_ack_led_ctrl (env : nrf52_env) : nprog unit :=
  modify (λ st, st <| g_adv_post_nrf52_led_ctrl_time_interval_ms := ADV_POST_LED_CTRL_TIME_INTERVAL_INVALID |>) ;;
  modify (λ st, st <| g_adv_post_nrf52_ack_timeout_cnt := 0 |>) ;;
  emit AckTimerStop ;;
  modify (λ st, st <| g_adv_post_nrf52_is_waiting_ack := false |>) ;;
  required ← gets g_adv_post_nrf52_flag_cfg_required;
  if (required : bool) then adv_post_nrf52_send_cmd_cfg_internal env else skip.

Definition led_interval_valid (st : adv_post_nrf52_t) : bool :=
  negb (ADV_POST_LED_CTRL_TIME_INTERVAL_INVALID =? g_adv_post_nrf52_led_ctrl_time_interval_ms st).

Definition adv_post_nrf52_on_sync_ack_cfg : nprog unit :=
  modify (λ st, st <| g_adv_post_nrf52_ack_timeout_cnt := 0 |>) ;;
  emit AckTimerStop ;;
  modify (λ st, st <| g_adv_post_nrf52_is_waiting_ack := false |>) ;;
  modify (λ st, st <| g_adv_post_nrf52_flag_cfg_required := false |>) ;;
  adv_post_nrf52_cfg_set_configured ;;
  emit AdvTableClear ;;
  emit (NrfEventNotify EVENT_MGR_EV_NRF52_CONFIGURED) ;;
  valid ← gets led_interval_valid;
  if (valid : bool) then adv_post_nrf52_send_cmd_led_ctrl_internal else skip.

Definition adv_post_nrf52_on_sync_ack_timeout (env : nrf52_env) : nprog unit :=
  modify (λ st, st <| g_adv_post_nrf52_is_waiting_ack := false |>) ;;
  emit MetricsNrfLostAckInc ;;
  modify (λ st, st <| g_adv_post_nrf52_ack_timeout_cnt := u16 (g_adv_post_nrf52_ack_timeout_cnt st + 1) |>) ;;
  st ← getst;
  if ADV_POST_NRF52_NO_ACK_MAX_CNT <=? g_adv_post_nrf52_ack_timeout_cnt st then
    modify (λ st, st <| g_adv_post_nrf52_ack_timeout_cnt := 0 |>) ;;
    emit MetricsNrfExtHwResetInc ;;
    adv_post_nrf52_reset
  else if g_adv_post_nrf52_flag_cfg_required st then adv_post_nrf52_send_cmd_cfg_internal env
  else if led_interval_valid st then adv_post_nrf52_send_cmd_led_ctrl_internal
  else skip.

(** ** Operations as data *)

Inductive nrf52_op :=
| NrfLedCtrl (time_interval_ms : Z)
| NrfSigRebooted
| NrfSigConfigured
| NrfSigCfgUpdate
| NrfSigHwResetOff
| NrfSigCfgReqTimeout
| NrfAsyncAck (cmd ack_state : Z)
| NrfSyncAckLedCtrl
| NrfSyncAckCfg
| NrfSyncAckTimeout
| NrfCfgUpdate (scan : ruuvi_gw_cfg_scan_t) (filter : ruuvi_gw_cfg_filter_t).

Definition exec_nrf52_op (env : nrf52_env) (op : nrf52_op) : nprog unit :=
  match op with
  | NrfLedCtrl t => adv_post_nrf52_send_led_ctrl env t
  | NrfSigRebooted => adv_post_nrf52_on_sig_nrf52_rebooted env
  | NrfSigConfigured => adv_post_nrf52_on_sig_nrf52_configured
  | NrfSigCfgUpdate => adv_post_nrf52_on_sig_nrf52_cfg_update env
  | NrfSigHwResetOff => adv_post_nrf52_on_sig_nrf52_hw_reset_off env
  | NrfSigCfgReqTimeout => adv_post_nrf52_on_sig_nrf52_cfg_req_timeout env
  | NrfAsyncAck cmd s => adv_post_nrf52_on_async_ack cmd s
  | NrfSyncAckLedCtrl => adv_post_nrf52_on_sync_ack_led_ctrl env
  | NrfSyncAckCfg => adv_post_nrf52_on_sync_ack_cfg
  | NrfSyncAckTimeout => adv_post_nrf52_on_sync_ack_timeout env
  | NrfCfgUpdate scan filter => adv_post_nrf52_cfg_update scan filter
  end.
End operations.
