(* ===== verification/AdvPostNrf52Inv.v ===== *)
(** * Invariant of the commands to the nRF52, and what each operation does *)

From S2P Require Import Prelude EventMgr LedsBlinking GwCfg AdvPostSig AdvPostNrf52.
Open Scope Z_scope.

Section nrf52.
Context `{CaUart}.

(** ** The invariant *)

Record nrf52_inv (task : os_task_handle_t) (st : adv_post_nrf52_t) : Prop := Nrf52Inv {
  nrf52_mutex : cfg_mutex st = true;
  nrf52_task : g_adv_post_nrf52_task_handle st = task;
  nrf52_required : g_adv_post_nrf52_flag_cfg_required st = true → flag_nrf52_configured st = false;
  nrf52_cnt : 0 ≤ g_adv_post_nrf52_ack_timeout_cnt st < ADV_POST_NRF52_NO_ACK_MAX_CNT;
}.

(** The caller runs in the task of the component and asks for a valid interval. *)
Definition nrf52_op_ok (task : os_task_handle_t) (env : nrf52_env) (op : nrf52_op) : Prop :=
  cur_task env = task ∧
  match op with NrfLedCtrl t => t ≠ ADV_POST_LED_CTRL_TIME_INTERVAL_INVALID | _ => True end.

(** The commands among the calls. *)
Definition is_command (e : nrf52_ev) : bool :=
  match e with ApiSendLedCtrl _ | ApiSendAll _ _ _ _ _ _ _ _ _ _ => true | _ => false end.
Definition commands (es : list nrf52_ev) : list nrf52_ev := List.filter is_command es.

Definition command_id (e : nrf52_ev) : Z :=
  match e with ApiSendLedCtrl _ => RE_CA_UART_LED_CTRL | _ => RE_CA_UART_SET_ALL end.

(** The operations that end the wait for an acknowledgement. *)
Definition ends_wait (op : nrf52_op) : bool :=
  match op with
  | NrfSigRebooted | NrfSigCfgReqTimeout | NrfSyncAckLedCtrl | NrfSyncAckCfg | NrfSyncAckTimeout => true
  | _ => false
  end.

(** The starts and stops of the acknowledgement timer among the calls. *)
Definition is_timer_call (e : nrf52_ev) : bool :=
  match e with AckTimerRelaunch | AckTimerStop => true | _ => false end.
Definition timer_calls (es : list nrf52_ev) : list nrf52_ev := List.filter is_timer_call es.

(** The operations that keep a requested configuration pending. *)
Definition keeps_request (op : nrf52_op) : bool :=
  match op with
  | NrfSigRebooted | NrfSigCfgReqTimeout | NrfSyncAckCfg | NrfCfgUpdate _ _ => false
  | _ => true
  end.

(** The timeouts since the last acknowledgement or reset. *)
Definition next_timeouts (op : nrf52_op) (n : Z) : Z :=
  match op with
  | NrfSyncAckLedCtrl | NrfSyncAckCfg => 0
  | NrfSyncAckTimeout => if n =? ADV_POST_NRF52_NO_ACK_MAX_CNT - 1 then 0 else n + 1
  | _ => n
  end.

(** Resets of the nRF52, and the operations that make them. *)
Definition is_reset_call (e : nrf52_ev) : bool := match e with NrfHwReset on => on | _ => false end.
Definition resets (es : list nrf52_ev) : bool := existsb is_reset_call es.
Definition op_resets (op : nrf52_op) (timeouts : Z) : bool :=
  match op with
  | NrfSigCfgReqTimeout => true
  | NrfSyncAckTimeout => timeouts =? ADV_POST_NRF52_NO_ACK_MAX_CNT - 1
  | _ => false
  end.

(** What holds after every operation. *)
Record nrf52_post (task : os_task_handle_t) (env : nrf52_env) (op : nrf52_op) (st st' : adv_post_nrf52_t)
    (es : list nrf52_ev) : Prop := Nrf52Post {
  post_inv : nrf52_inv task st';
  post_commands : commands es = [] ∨
    ∃ c, commands es = [c] ∧ g_adv_post_nrf52_is_waiting_ack st' = true ∧
         g_adv_post_nrf52_last_cmd st' = command_id c;
  post_waiting : g_adv_post_nrf52_is_waiting_ack st = true → ends_wait op = false →
    commands es = [] ∧ g_adv_post_nrf52_is_waiting_ack st' = true;
  post_timer : g_adv_post_nrf52_is_waiting_ack st' = true →
    (g_adv_post_nrf52_is_waiting_ack st = true ∧ ends_wait op = false ∧ timer_calls es = []) ∨
    last (timer_calls es) = Some AckTimerRelaunch;
  post_timeouts : g_adv_post_nrf52_ack_timeout_cnt st' = next_timeouts op (g_adv_post_nrf52_ack_timeout_cnt st);
  post_reset : resets es = op_resets op (g_adv_post_nrf52_ack_timeout_cnt st);
  post_request : keeps_request op = true → resets es = false →
    g_adv_post_nrf52_flag_cfg_required st = true →
    g_adv_post_nrf52_flag_cfg_required st' = true ∧ cfg_scan st' = cfg_scan st ∧ cfg_filter st' = cfg_filter st ∧
    (ends_wait op = true → nrf52fw_manual_reset_mode env = false →
     commands es = [send_all_call (cfg_scan st) (cfg_filter st)]);
  post_new_request : match op with
    | NrfCfgUpdate scan filter => cfg_scan st' = scan ∧ cfg_filter st' = filter
    | NrfSigCfgUpdate => g_adv_post_nrf52_flag_cfg_required st' = true ∧
        cfg_scan st' = cfg_scan st ∧ cfg_filter st' = cfg_filter st
    | _ => True
    end;
}.

(** ** Runs of the building blocks *)

Lemma with_cfg_mutex_run {A} (m : nprog A) st a st' :
  run m st a st' [] → run (with_cfg_mutex m) st a st' [NrfMutexLock; NrfMutexUnlock].
Proof.
  intros Hm. unfold with_cfg_mutex. apply run_bind_emit. eapply run_bind_silent; [exact Hm|].
  apply run_bind_emit. apply run_ret.
Qed.

Lemma assert_mutex_run {A} (k : unit → nprog A) st a st' es :
  cfg_mutex st = true → run (k tt) st a st' es → run (assert_mutex ≫= k) st a st' es.
Proof. intros Hm Hk. eapply run_bind_silent; [|exact Hk]. unfold assert_mutex. run_step. by rewrite Hm. Qed.

Lemma assert_task_run {A} env (k : unit → nprog A) st a st' es :
  g_adv_post_nrf52_task_handle st = cur_task env → run (k tt) st a st' es →
  run (assert_task env ≫= k) st a st' es.
Proof.
  intros Ht Hk. eapply run_bind_silent; [|exact Hk]. unfold assert_task. run_step.
  by rewrite bool_decide_true.
Qed.

Lemma set_waiting_run cmd st :
  run (adv_post_nrf52_set_waiting_ack cmd) st tt
    (st <| g_adv_post_nrf52_last_cmd := cmd |> <| g_adv_post_nrf52_is_waiting_ack := true |>) [AckTimerRelaunch].
Proof. reflexivity. Qed.

Lemma send_led_run st :
  g_adv_post_nrf52_is_waiting_ack st = false → led_interval_valid st = true →
  run adv_post_nrf52_send_cmd_led_ctrl_internal st tt
    (st <| g_adv_post_nrf52_last_cmd := RE_CA_UART_LED_CTRL |> <| g_adv_post_nrf52_is_waiting_ack := true |>)
    [AckTimerRelaunch; ApiSendLedCtrl (g_adv_post_nrf52_led_ctrl_time_interval_ms st)].
Proof.
  intros Hw Hl. unfold adv_post_nrf52_send_cmd_led_ctrl_internal. run_step.
  rewrite Hw. eapply run_bind_silent; [apply run_skip|]. unfold led_interval_valid in Hl. rewrite Hl.
  eapply run_bind_silent; [apply run_skip|]. cbv beta.
  change [AckTimerRelaunch; ?e] with ([AckTimerRelaunch] ++ [e]).
  eapply run_bind; [apply set_waiting_run|apply run_emit].
Qed.

(** What sending the configuration does; nothing in the manual reset mode. *)
Definition send_cfg_state (env : nrf52_env) (st : adv_post_nrf52_t) : adv_post_nrf52_t :=
  if nrf52fw_manual_reset_mode env then st
  else st <| g_adv_post_nrf52_last_cmd := RE_CA_UART_SET_ALL |> <| g_adv_post_nrf52_is_waiting_ack := true |>.

Definition send_cfg_calls (env : nrf52_env) (st : adv_post_nrf52_t) : list nrf52_ev :=
  if nrf52fw_manual_reset_mode env then []
  else [NrfMutexLock; NrfMutexUnlock; AckTimerRelaunch; send_all_call (cfg_scan st) (cfg_filter st)].

Lemma send_cfg_run env st :
  cfg_mutex st = true → g_adv_post_nrf52_is_waiting_ack st = false → flag_nrf52_configured st = false →
  g_adv_post_nrf52_flag_cfg_required st = true →
  run (adv_post_nrf52_send_cmd_cfg_internal env) st tt (send_cfg_state env st) (send_cfg_calls env st).
Proof.
  intros Hm Hw Hc Hr. unfold adv_post_nrf52_send_cmd_cfg_internal, send_cfg_state, send_cfg_calls.
  run_step. rewrite Hw, Hc, Hr.
  do 3 (eapply run_bind_silent; [apply run_skip|]; cbv beta).
  destruct (nrf52fw_manual_reset_mode env); [apply run_skip|].
  change (NrfMutexLock :: NrfMutexUnlock :: ?l) with ([NrfMutexLock; NrfMutexUnlock] ++ l).
  eapply run_bind; [apply assert_mutex_run; [done|apply with_cfg_mutex_run, run_gets]|].
  cbv beta iota. change (AckTimerRelaunch :: ?l) with ([AckTimerRelaunch] ++ l).
  eapply run_bind; [apply set_waiting_run|apply run_emit].
Qed.

Definition reset_state (st : adv_post_nrf52_t) : adv_post_nrf52_t :=
  st <| flag_nrf52_in_hw_reset_state := true |>
     <| g_adv_post_nrf52_led_ctrl_time_interval_ms := ADV_POST_LED_CTRL_TIME_INTERVAL_INVALID |>
     <| g_adv_post_nrf52_flag_cfg_required := false |>
     <| g_adv_post_nrf52_is_waiting_ack := false |>.

Lemma reset_run st :
  run adv_post_nrf52_reset st tt (reset_state st)
    [NrfHwReset true; NrfMutexLock; NrfMutexUnlock; ResetTimerStart].
Proof. reflexivity. Qed.

(** ** Every operation keeps the invariant *)

Definition nrf52_keeps (task : os_task_handle_t) (env : nrf52_env) (op : nrf52_op) (st : adv_post_nrf52_t) : Prop :=
  ∃ st' es, run (exec_nrf52_op env op) st tt st' es ∧ nrf52_post task env op st st' es.

Ltac post_inv_tac := split; cbn; try done; try congruence; unfold ADV_POST_NRF52_NO_ACK_MAX_CNT in *; try lia.

Ltac nrf_solve :=
  first [done | congruence | lia | by left | by left; split_and! | by right | by right; left
        | right; eexists; split_and!; done
        | split_and!; intros; first [done | congruence]].

(** For a concrete list of calls, once the tests on the state are decided. *)
Ltac nrf_post :=
  repeat match goal with x := _ : adv_post_nrf52_t |- _ => subst x | x := _ : list nrf52_ev |- _ => subst x end;
  unfold send_cfg_state, send_cfg_calls in *;
  repeat match goal with |- context [if nrf52fw_manual_reset_mode ?env then _ else _] =>
    destruct (nrf52fw_manual_reset_mode env) eqn:? end;
  split; cbn [next_timeouts op_resets];
  try match goal with Hx : (_ =? _) = _ |- _ => rewrite ?Hx end;
  try (cbn; intros; try (match goal with Hx : _ = true |- _ => cbn in Hx end); nrf_solve);
  try solve [post_inv_tac; auto].

Lemma led_interval_valid_set st t :
  t ≠ ADV_POST_LED_CTRL_TIME_INTERVAL_INVALID →
  led_interval_valid (st <| g_adv_post_nrf52_led_ctrl_time_interval_ms := t |>) = true.
Proof. intros Ht. apply negb_true_iff, Z.eqb_neq. exact (not_eq_sym Ht). Qed.

Section step.
Context (task : os_task_handle_t) (env : nrf52_env) (st : adv_post_nrf52_t).
Context (Hinv : nrf52_inv task st) (He : cur_task env = task).

Lemma nrf52_task_ok : g_adv_post_nrf52_task_handle st = cur_task env.
Proof. rewrite He. apply (nrf52_task _ _ Hinv). Qed.

Lemma led_ctrl_step t : t ≠ ADV_POST_LED_CTRL_TIME_INTERVAL_INVALID → nrf52_keeps task env (NrfLedCtrl t) st.
Proof.
  intros Ht. pose proof Hinv as [Hm Hh Hr Hc].
  set (st1 := st <| g_adv_post_nrf52_led_ctrl_time_interval_ms := t |>).
  assert (I1 : nrf52_inv task st1) by by split.
  unfold nrf52_keeps. cbn [exec_nrf52_op]. unfold adv_post_nrf52_send_led_ctrl.
  destruct (g_adv_post_nrf52_is_waiting_ack st) eqn:Hw.
  - exists st1, []. split; [|nrf_post]. apply assert_task_run; [apply nrf52_task_ok|].
    run_step. run_step. fold st1.
    same_field g_adv_post_nrf52_is_waiting_ack st1 st. by rewrite Hw.
  - eexists _, _. split.
    + apply assert_task_run; [apply nrf52_task_ok|]. run_step. run_step. fold st1.
      same_field g_adv_post_nrf52_is_waiting_ack st1 st. rewrite Hw.
      apply send_led_run; [done|]. by apply led_interval_valid_set.
    + nrf_post.
Qed.

Lemma rebooted_step : nrf52_keeps task env NrfSigRebooted st.
Proof.
  pose proof Hinv as [Hm Hh Hr Hc].
  set (st1 := st <| g_adv_post_nrf52_led_ctrl_time_interval_ms := ADV_POST_LED_CTRL_TIME_INTERVAL_INVALID |>
                 <| g_adv_post_nrf52_flag_cfg_required := false |> <| g_adv_post_nrf52_is_waiting_ack := false |>).
  assert (I1 : nrf52_inv task st1) by post_inv_tac.
  unfold nrf52_keeps. cbn [exec_nrf52_op]. unfold adv_post_nrf52_on_sig_nrf52_rebooted.
  destruct (nrf52fw_manual_reset_mode env); [|destruct (flag_cfg_ready st) eqn:Hf].
  - exists st1, [CfgReqTimerStop]. split; [|nrf_post]. run_step. run_step. run_step.
    eapply run_bind_silent; [apply run_skip|]. apply run_emit.
  - exists st1, ([NrfMutexLock; NrfMutexUnlock] ++ (if cfg_req_timer_is_active env then [] else [MetricsNrfSelfRebootInc])
      ++ [NrfSendSig ADV_POST_SIG_NRF52_CFG_UPDATE] ++ [CfgReqTimerStop]). split.
    + run_step. run_step. run_step. fold st1. rewrite !(assoc_L (++)). eapply run_bind; [|apply run_emit].
      rewrite <- !(assoc_L (++)). eapply run_bind.
      { apply assert_mutex_run; [done|]. apply with_cfg_mutex_run, run_gets. }
      cbn. rewrite Hf. eapply run_bind; [|apply run_emit].
      destruct (cfg_req_timer_is_active env); reflexivity.
    + destruct (cfg_req_timer_is_active env); nrf_post.
  - exists st1, ([NrfMutexLock; NrfMutexUnlock] ++ [CfgReqTimerStop]). split; [|nrf_post].
    run_step. run_step. run_step. fold st1. eapply run_bind; [|apply run_emit].
    change [NrfMutexLock; NrfMutexUnlock] with ([NrfMutexLock; NrfMutexUnlock] ++ []). eapply run_bind.
    { apply assert_mutex_run; [done|]. apply with_cfg_mutex_run, run_gets. }
    cbn. rewrite Hf. apply run_skip.
Qed.

Lemma cfg_update_step : nrf52_keeps task env NrfSigCfgUpdate st.
Proof.
  pose proof Hinv as [Hm Hh Hr Hc].
  set (st1 := st <| flag_nrf52_configured := false |> <| g_adv_post_nrf52_flag_cfg_required := true |>).
  assert (I1 : nrf52_inv task st1) by post_inv_tac.
  unfold nrf52_keeps. cbn [exec_nrf52_op]. unfold adv_post_nrf52_on_sig_nrf52_cfg_update.
  assert (Ru : run adv_post_nrf52_cfg_set_unconfigured st tt (st <| flag_nrf52_configured := false |>)
    [NrfMutexLock; NrfMutexUnlock]).
  { apply assert_mutex_run; [done|]. apply with_cfg_mutex_run, run_modify. }
  destruct (g_adv_post_nrf52_is_waiting_ack st) eqn:Hw.
  - exists st1, ([NrfMutexLock; NrfMutexUnlock] ++ []). split; [|nrf_post].
    apply assert_task_run; [apply nrf52_task_ok|]. eapply run_bind; [exact Ru|]. run_step. run_step.
    fold st1. same_field g_adv_post_nrf52_is_waiting_ack st1 st. by rewrite Hw.
  - eexists _, ([NrfMutexLock; NrfMutexUnlock] ++ _). split.
    + apply assert_task_run; [apply nrf52_task_ok|]. eapply run_bind; [exact Ru|]. run_step. run_step.
      fold st1. same_field g_adv_post_nrf52_is_waiting_ack st1 st. rewrite Hw. by apply send_cfg_run.
    + nrf_post.
Qed.

Lemma hw_reset_off_step : nrf52_keeps task env NrfSigHwResetOff st.
Proof.
  pose proof Hinv as [Hm Hh Hr Hc].
  eexists (st <| flag_nrf52_in_hw_reset_state := false |>), _. split.
  - apply assert_task_run; [apply nrf52_task_ok|]. apply run_bind_emit.
    eapply run_bind; [apply with_cfg_mutex_run, run_modify|apply run_emit].
  - nrf_post.
Qed.

Lemma cfg_req_timeout_step : nrf52_keeps task env NrfSigCfgReqTimeout st.
Proof.
  pose proof Hinv as [Hm Hh Hr Hc].
  eexists (reset_state st), _. split.
  - apply assert_task_run; [apply nrf52_task_ok|]. apply run_bind_emit. apply reset_run.
  - nrf_post.
Qed.

Lemma async_ack_step cmd s : nrf52_keeps task env (NrfAsyncAck cmd s) st.
Proof.
  pose proof Hinv as [Hm Hh Hr Hc]. set (st1 := st <| g_adv_post_nrf52_last_cmd := 0 |>).
  assert (Hgo : ∀ m, (run m st1 tt st1 [] ∨ ∃ sig, run m st1 tt st1 [NrfSendSig sig]) →
    ∃ es, run m st1 tt st1 es ∧ (es = [] ∨ ∃ sig, es = [NrfSendSig sig])).
  { intros m [R|[sig R]]; eauto 6. }
  destruct (Hgo (if negb (g_adv_post_nrf52_last_cmd st =? cmd) then skip
    else if cmd =? RE_CA_UART_LED_CTRL then adv_post_nrf52_on_async_ack_led_ctrl s
    else if cmd =? RE_CA_UART_SET_ALL then adv_post_nrf52_on_async_ack_set_all s else skip)) as (es & R & Hes).
  { unfold adv_post_nrf52_on_async_ack_led_ctrl, adv_post_nrf52_on_async_ack_set_all.
    repeat case_match; first [by left|right; eexists; apply run_emit]. }
  exists st1, es. split; [|by destruct Hes as [->|[sig ->]]; nrf_post].
  cbn [exec_nrf52_op]. unfold adv_post_nrf52_on_async_ack. run_step. run_step. exact R.
Qed.

Lemma sync_ack_led_step : nrf52_keeps task env NrfSyncAckLedCtrl st.
Proof.
  pose proof Hinv as [Hm Hh Hr Hc].
  set (st1 := st <| g_adv_post_nrf52_led_ctrl_time_interval_ms := ADV_POST_LED_CTRL_TIME_INTERVAL_INVALID |>
                 <| g_adv_post_nrf52_ack_timeout_cnt := 0 |> <| g_adv_post_nrf52_is_waiting_ack := false |>).
  assert (I1 : nrf52_inv task st1) by post_inv_tac.
  unfold nrf52_keeps. cbn [exec_nrf52_op]. unfold adv_post_nrf52_on_sync_ack_led_ctrl.
  destruct (g_adv_post_nrf52_flag_cfg_required st) eqn:Hq.
  - eexists _, ([AckTimerStop] ++ _). split.
    + run_step. run_step. apply run_bind_emit. run_step. run_step. fold st1.
      same_field g_adv_post_nrf52_flag_cfg_required st1 st. rewrite Hq.
      apply send_cfg_run; [done|done|by apply Hr|done].
    + nrf_post.
  - exists st1, [AckTimerStop]. split; [|nrf_post].
    run_step. run_step. apply run_bind_emit. run_step. run_step. fold st1.
    same_field g_adv_post_nrf52_flag_cfg_required st1 st. by rewrite Hq.
Qed.

Lemma sync_ack_cfg_step : nrf52_keeps task env NrfSyncAckCfg st.
Proof.
  pose proof Hinv as [Hm Hh Hr Hc].
  set (st1 := st <| g_adv_post_nrf52_ack_timeout_cnt := 0 |> <| g_adv_post_nrf52_is_waiting_ack := false |>
                 <| g_adv_post_nrf52_flag_cfg_required := false |> <| flag_nrf52_configured := true |>).
  assert (I1 : nrf52_inv task st1) by post_inv_tac.
  set (pre := [AckTimerStop; NrfMutexLock; NrfMutexUnlock; AdvTableClear; NrfEventNotify EVENT_MGR_EV_NRF52_CONFIGURED]).
  assert (Hpre : ∀ st' es,
    run (if led_interval_valid st then adv_post_nrf52_send_cmd_led_ctrl_internal else skip) st1 tt st' es →
    run adv_post_nrf52_on_sync_ack_cfg st tt st' (pre ++ es)).
  { intros st' es Hk. unfold adv_post_nrf52_on_sync_ack_cfg. run_step. apply run_bind_emit.
    run_step. run_step. unfold pre. cbn [app].
    change (NrfMutexLock :: NrfMutexUnlock :: ?l) with ([NrfMutexLock; NrfMutexUnlock] ++ l).
    eapply run_bind; [apply assert_mutex_run; [done|apply with_cfg_mutex_run, run_modify]|].
    apply run_bind_emit. apply run_bind_emit. run_step. exact Hk. }
  unfold nrf52_keeps. cbn [exec_nrf52_op]. destruct (led_interval_valid st) eqn:Hl.
  - eexists _, (pre ++ _). split.
    + apply Hpre. by apply send_led_run.
    + nrf_post.
  - exists st1, (pre ++ []). split; [|nrf_post].
    apply Hpre. apply run_skip.
Qed.

(** What the timeout of an acknowledgement does, by the number of timeouts so far. *)
Definition timeout_state : adv_post_nrf52_t :=
  st <| g_adv_post_nrf52_is_waiting_ack := false |>
     <| g_adv_post_nrf52_ack_timeout_cnt := g_adv_post_nrf52_ack_timeout_cnt st + 1 |>.

Definition timeout_retry_state : adv_post_nrf52_t :=
  if g_adv_post_nrf52_flag_cfg_required st then send_cfg_state env timeout_state
  else if led_interval_valid st
  then timeout_state <| g_adv_post_nrf52_last_cmd := RE_CA_UART_LED_CTRL |> <| g_adv_post_nrf52_is_waiting_ack := true |>
  else timeout_state.

Definition timeout_retry_calls : list nrf52_ev :=
  if g_adv_post_nrf52_flag_cfg_required st then send_cfg_calls env st
  else if led_interval_valid st
  then [AckTimerRelaunch; ApiSendLedCtrl (g_adv_post_nrf52_led_ctrl_time_interval_ms st)]
  else [].

Lemma sync_ack_timeout_run :
  run (adv_post_nrf52_on_sync_ack_timeout env) st tt
    (if g_adv_post_nrf52_ack_timeout_cnt st =? ADV_POST_NRF52_NO_ACK_MAX_CNT - 1
     then reset_state (timeout_state <| g_adv_post_nrf52_ack_timeout_cnt := 0 |>) else timeout_retry_state)
    (MetricsNrfLostAckInc ::
     if g_adv_post_nrf52_ack_timeout_cnt st =? ADV_POST_NRF52_NO_ACK_MAX_CNT - 1
     then [MetricsNrfExtHwResetInc; NrfHwReset true; NrfMutexLock; NrfMutexUnlock; ResetTimerStart]
     else timeout_retry_calls).
Proof.
  pose proof Hinv as [Hm Hh Hr Hc].
  assert (Hu : u16 (g_adv_post_nrf52_ack_timeout_cnt st + 1) = g_adv_post_nrf52_ack_timeout_cnt st + 1).
  { unfold u16, ADV_POST_NRF52_NO_ACK_MAX_CNT in *. apply Z.mod_small. lia. }
  set (sw := st <| g_adv_post_nrf52_is_waiting_ack := false |>).
  assert (Hs : sw <| g_adv_post_nrf52_ack_timeout_cnt := u16 (g_adv_post_nrf52_ack_timeout_cnt sw + 1) |> = timeout_state).
  { change (g_adv_post_nrf52_ack_timeout_cnt sw) with (g_adv_post_nrf52_ack_timeout_cnt st). by rewrite Hu. }
  unfold adv_post_nrf52_on_sync_ack_timeout. run_step. apply run_bind_emit. run_step. fold sw. rewrite Hs.
  run_step. change (g_adv_post_nrf52_ack_timeout_cnt timeout_state) with (g_adv_post_nrf52_ack_timeout_cnt st + 1).
  change (g_adv_post_nrf52_flag_cfg_required timeout_state) with (g_adv_post_nrf52_flag_cfg_required st).
  change (led_interval_valid timeout_state) with (led_interval_valid st).
  destruct (g_adv_post_nrf52_ack_timeout_cnt st =? ADV_POST_NRF52_NO_ACK_MAX_CNT - 1) eqn:Hn.
  - rewrite (proj2 (Z.leb_le _ _)) by lia. run_step. apply run_bind_emit. apply reset_run.
  - rewrite (proj2 (Z.leb_gt _ _)) by lia. unfold timeout_retry_state, timeout_retry_calls.
    destruct (g_adv_post_nrf52_flag_cfg_required st) eqn:Hq.
    + change (send_cfg_calls env st) with (send_cfg_calls env timeout_state).
      apply send_cfg_run; [done|done|by apply Hr|done].
    + change (g_adv_post_nrf52_led_ctrl_time_interval_ms st)
        with (g_adv_post_nrf52_led_ctrl_time_interval_ms timeout_state).
      destruct (led_interval_valid st) eqn:Hl; [by apply send_led_run|apply run_skip].
Qed.

Lemma sync_ack_timeout_step : nrf52_keeps task env NrfSyncAckTimeout st.
Proof.
  pose proof Hinv as [Hm Hh Hr Hc]. eexists _, _. split; [apply sync_ack_timeout_run|].
  destruct (g_adv_post_nrf52_ack_timeout_cnt st =? ADV_POST_NRF52_NO_ACK_MAX_CNT - 1) eqn:Hn.
  - nrf_post.
  - assert (I1 : nrf52_inv task timeout_state) by post_inv_tac.
    unfold timeout_retry_state, timeout_retry_calls.
    destruct (g_adv_post_nrf52_flag_cfg_required st) eqn:Hq.
    + nrf_post.
    + destruct (led_interval_valid st).
      * nrf_post.
      * nrf_post.
Qed.

Lemma cfg_update_api_step sc fi : nrf52_keeps task env (NrfCfgUpdate sc fi) st.
Proof.
  pose proof Hinv as [Hm Hh Hr Hc]. eexists _, _. split.
  - cbn [exec_nrf52_op]. unfold adv_post_nrf52_cfg_update. apply assert_mutex_run; [done|].
    eapply run_bind; [apply assert_mutex_run; [done|apply with_cfg_mutex_run, run_modify]|].
    apply run_bind_emit. apply run_emit.
  - nrf_post.
Qed.
End step.

Lemma nrf52_step task env op st :
  nrf52_inv task st → nrf52_op_ok task env op → nrf52_keeps task env op st.
Proof.
  intros Hinv [He Ho]. destruct op; cbn in Ho.
  - by apply led_ctrl_step.
  - by apply rebooted_step.
  - exists st, []. split; [done|nrf_post].
  - by apply cfg_update_step.
  - by apply hw_reset_off_step.
  - by apply cfg_req_timeout_step.
  - by apply async_ack_step.
  - by apply sync_ack_led_step.
  - by apply sync_ack_cfg_step.
  - by apply sync_ack_timeout_step.
  - by apply cfg_update_api_step.
Qed.
Definition nrf52_init_calls : list nrf52_ev :=
  [NrfMutexCreate; NrfTimersCreate; NrfHwReset true; NrfMutexLock; NrfMutexUnlock; ResetTimerStart].

Lemma nrf52_init_run env scan filter st :
  g_adv_post_nrf52_task_handle st = None →
  ∃ st', run (adv_post_nrf52_init env scan filter) st tt st' nrf52_init_calls ∧ nrf52_inv (cur_task env) st' ∧
    g_adv_post_nrf52_is_waiting_ack st' = false ∧ g_adv_post_nrf52_ack_timeout_cnt st' = 0 ∧
    led_interval_valid st' = false.
Proof.
  intros Hh. eexists. split.
  - unfold adv_post_nrf52_init. run_step. eapply run_bind_silent; [rewrite bool_decide_true by done; apply run_skip|].
    run_step. apply run_bind_emit. run_step. apply run_bind_emit. apply reset_run.
  - split; [by split|done].
Qed.
End nrf52.
