(* ===== verification/AdvPostTimers.v ===== *)
(** * Timers of the advertisement task (src/main/adv_post_timers.c)

    The task has seven periodic and two one-shot timers, each of which sends a
    fixed signal to it.  The timers themselves belong to the operating system
    layer: calls to them are events, and whether a timer runs and with which
    period is read from the environment.  The default intervals of the two HTTP
    retransmissions are the state. *)

From S2P Require Import Prelude AdvPostSig.
Open Scope Z_scope.

(** ** Data *)

Definition TIME_UNITS_MS_PER_SECOND : Z := 1000.
Definition ADV_POST_DEFAULT_INTERVAL_SECONDS : Z := 10.
Definition ADV_POST_STATISTICS_INTERVAL_SECONDS : Z := 60 * 60.
Definition ADV_POST_DO_ASYNC_COMM_INTERVAL_MS : Z := 50.
Definition RUUVI_NETWORK_WATCHDOG_PERIOD_SECONDS : Z := 1.
Definition ADV_POST_DELAY_BEFORE_RETRYING_POST_AFTER_ERROR_MS : Z := 67 * 1000.
Definition ADV_POST_INITIAL_DELAY_IN_SENDING_STATISTICS_SECONDS : Z := 30.

(** The tick rate of FreeRTOS. *)
Class FreeRtos := { pdMS_TO_TICKS : Z → Z }.

Inductive adv_post_timer_sig_periodic_e :=
| ADV_POST_PERIODIC_TIMER_SIG_RETRANSMIT
| ADV_POST_PERIODIC_TIMER_SIG_RETRANSMIT2
| ADV_POST_PERIODIC_TIMER_SIG_SEND_STATISTICS
| ADV_POST_PERIODIC_TIMER_SIG_MQTT
| ADV_POST_PERIODIC_TIMER_SIG_NETWORK_WATCHDOG
| ADV_POST_PERIODIC_TIMER_SIG_WATCHDOG_FEED
| ADV_POST_PERIODIC_TIMER_SIG_GREEN_LED_UPDATE.
#[export] Instance adv_post_timer_sig_periodic_eq_dec : EqDecision adv_post_timer_sig_periodic_e.
Proof. solve_decision. Defined.

Inductive adv_post_timer_sig_one_shot_e :=
| ADV_POST_ONE_SHOT_TIMER_SIG_DO_ASYNC_COMM
| ADV_POST_ONE_SHOT_TIMER_SIG_RECV_ADV_TIMEOUT.
#[export] Instance adv_post_timer_sig_one_shot_eq_dec : EqDecision adv_post_timer_sig_one_shot_e.
Proof. solve_decision. Defined.

Record adv_post_timer_t := AdvPostTimer { num : Z; default_interval_ms : Z }.
#[export] Instance adv_post_timer_eta : Eta adv_post_timer_t := λ r, AdvPostTimer (num r) (default_interval_ms r).

(** [g_adv_post_timers]: the entries 0 and 1. *)
Record adv_post_timers_t := AdvPostTimers {
  g_adv_post_timers_0 : adv_post_timer_t;
  g_adv_post_timers_1 : adv_post_timer_t;
}.
#[export] Instance adv_post_timers_eta : Eta adv_post_timers_t := λ r,
  AdvPostTimers (g_adv_post_timers_0 r) (g_adv_post_timers_1 r).

Definition g_adv_post_timers_init : adv_post_timers_t :=
  AdvPostTimers (AdvPostTimer 1 (ADV_POST_DEFAULT_INTERVAL_SECONDS * TIME_UNITS_MS_PER_SECOND))
                (AdvPostTimer 2 (ADV_POST_DEFAULT_INTERVAL_SECONDS * TIME_UNITS_MS_PER_SECOND)).

Inductive timer_ev :=
| PeriodicCreate (t : adv_post_timer_sig_periodic_e) (sig : adv_post_sig_e) (period_ticks : Z)
| PeriodicStart (t : adv_post_timer_sig_periodic_e)
| PeriodicStop (t : adv_post_timer_sig_periodic_e)
| PeriodicDelete (t : adv_post_timer_sig_periodic_e)
| PeriodicRelaunch (t : adv_post_timer_sig_periodic_e) (flag_restart_from_current_moment : bool)
| PeriodicRestartWithPeriod (t : adv_post_timer_sig_periodic_e) (delay_ticks : Z) (flag : bool)
| PeriodicSetPeriod (t : adv_post_timer_sig_periodic_e) (period_ticks : Z)
| PeriodicSetTimestamp (t : adv_post_timer_sig_periodic_e) (timestamp : Z)
| OneShotCreate (t : adv_post_timer_sig_one_shot_e) (sig : adv_post_sig_e) (period_ticks : Z)
| OneShotStart (t : adv_post_timer_sig_one_shot_e)
| OneShotStop (t : adv_post_timer_sig_one_shot_e)
| OneShotDelete (t : adv_post_timer_sig_one_shot_e)
| OneShotRelaunch (t : adv_post_timer_sig_one_shot_e) (flag_restart_from_current_moment : bool)
| NetworkTimeoutUpdateTimestamp.

(** What the operating system reports about the timers. *)
Record timer_env := TimerEnv {
  periodic_is_active : adv_post_timer_sig_periodic_e → bool;
  periodic_get_period : adv_post_timer_sig_periodic_e → Z;
  xTaskGetTickCount : Z;
}.

Abbreviation tmprog := (prog adv_post_timers_t timer_ev).

Section operations.
Context `{FreeRtos}.

(** ** Creation *)

(** [g_adv_post_periodic_timer_sig] in the order of the indexes. *)
Definition g_adv_post_periodic_timer_sig : list (adv_post_timer_sig_periodic_e * (adv_post_sig_e * Z)) :=
  [(ADV_POST_PERIODIC_TIMER_SIG_RETRANSMIT,
     (ADV_POST_SIG_RETRANSMIT, pdMS_TO_TICKS (ADV_POST_DEFAULT_INTERVAL_SECONDS * TIME_UNITS_MS_PER_SECOND)));
   (ADV_POST_PERIODIC_TIMER_SIG_RETRANSMIT2,
     (ADV_POST_SIG_RETRANSMIT2, pdMS_TO_TICKS (ADV_POST_DEFAULT_INTERVAL_SECONDS * TIME_UNITS_MS_PER_SECOND)));
   (ADV_POST_PERIODIC_TIMER_SIG_SEND_STATISTICS,
     (ADV_POST_SIG_SEND_STATISTICS,
      u32 (pdMS_TO_TICKS ADV_POST_STATISTICS_INTERVAL_SECONDS * TIME_UNITS_MS_PER_SECOND)));
   (ADV_POST_PERIODIC_TIMER_SIG_MQTT, (ADV_POST_SIG_RETRANSMIT_MQTT, 0));
   (ADV_POST_PERIODIC_TIMER_SIG_NETWORK_WATCHDOG,
     (ADV_POST_SIG_NETWORK_WATCHDOG,
      pdMS_TO_TICKS (RUUVI_NETWORK_WATCHDOG_PERIOD_SECONDS * TIME_UNITS_MS_PER_SECOND)));
   (ADV_POST_PERIODIC_TIMER_SIG_WATCHDOG_FEED, (ADV_POST_SIG_TASK_WATCHDOG_FEED, pdMS_TO_TICKS 1000));
   (ADV_POST_PERIODIC_TIMER_SIG_GREEN_LED_UPDATE, (ADV_POST_SIG_GREEN_LED_UPDATE, pdMS_TO_TICKS 1000))].

Definition g_adv_post_one_shot_timer_sig : list (adv_post_timer_sig_one_shot_e * (adv_post_sig_e * Z)) :=
  [(ADV_POST_ONE_SHOT_TIMER_SIG_DO_ASYNC_COMM,
     (ADV_POST_SIG_DO_ASYNC_COMM, pdMS_TO_TICKS ADV_POST_DO_ASYNC_COMM_INTERVAL_MS));
   (ADV_POST_ONE_SHOT_TIMER_SIG_RECV_ADV_TIMEOUT,
     (ADV_POST_SIG_RECV_ADV_TIMEOUT, pdMS_TO_TICKS (50 * 1000)))].

Definition adv_post_create_timers : tmprog unit :=
  for_each g_adv_post_periodic_timer_sig (λ '(t, (sig, p)), emit (PeriodicCreate t sig p)) ;;
  for_each g_adv_post_one_shot_timer_sig (λ '(t, (sig, p)), emit (OneShotCreate t sig p)).

Definition adv_post_delete_timers : tmprog unit :=
  for_each g_adv_post_periodic_timer_sig (λ '(t, _), emit (PeriodicStop t) ;; emit (PeriodicDelete t)) ;;
  for_each g_adv_post_one_shot_timer_sig (λ '(t, _), emit (OneShotStop t) ;; emit (OneShotDelete t)).

(** ** Starting and stopping *)

Definition adv_post_timers_relaunch_timer_sig_retransmit_to_http_ruuvi : tmprog unit :=
  emit (PeriodicRelaunch ADV_POST_PERIODIC_TIMER_SIG_RETRANSMIT false).
Definition adv_post_timers_relaunch_timer_sig_retransmit_to_http_custom : tmprog unit :=
  emit (PeriodicRelaunch ADV_POST_PERIODIC_TIMER_SIG_RETRANSMIT2 false).
Definition adv1_post_timer_stop : tmprog unit := emit (PeriodicStop ADV_POST_PERIODIC_TIMER_SIG_RETRANSMIT).
Definition adv2_post_timer_stop : tmprog unit := emit (PeriodicStop ADV_POST_PERIODIC_TIMER_SIG_RETRANSMIT2).
Definition adv_post_timers_restart_timer_sig_mqtt (delay_ticks : Z) : tmprog unit :=
  emit (PeriodicRestartWithPeriod ADV_POST_PERIODIC_TIMER_SIG_MQTT delay_ticks false).
Definition adv_post_timers_stop_timer_sig_mqtt : tmprog unit :=
  emit (PeriodicStop ADV_POST_PERIODIC_TIMER_SIG_MQTT).
Definition adv_post_timers_stop_timer_sig_send_statistics : tmprog unit :=
  emit (PeriodicStop ADV_POST_PERIODIC_TIMER_SIG_SEND_STATISTICS).
Definition adv_post_timers_relaunch_timer_sig_send_statistics (flag_restart_from_current_moment : bool)
    : tmprog unit :=
  emit (PeriodicRelaunch ADV_POST_PERIODIC_TIMER_SIG_SEND_STATISTICS flag_restart_from_current_moment).

Definition adv_post_timers_postpone_sending_statistics (env : timer_env) : tmprog unit :=
  emit (PeriodicSetTimestamp ADV_POST_PERIODIC_TIMER_SIG_SEND_STATISTICS
    (u32 (xTaskGetTickCount env - pdMS_TO_TICKS
      ((ADV_POST_STATISTICS_INTERVAL_SECONDS - ADV_POST_INITIAL_DELAY_IN_SENDING_STATISTICS_SECONDS)
       * TIME_UNITS_MS_PER_SECOND)))).

Definition adv_post_timers_start_timer_sig_do_async_comm : tmprog unit :=
  emit (OneShotStart ADV_POST_ONE_SHOT_TIMER_SIG_DO_ASYNC_COMM).
Definition adv_post_timers_stop_timer_sig_do_async_comm : tmprog unit :=
  emit (OneShotStop ADV_POST_ONE_SHOT_TIMER_SIG_DO_ASYNC_COMM).
Definition adv_post_timers_start_timer_sig_watchdog_feed : tmprog unit :=
  emit (PeriodicStart ADV_POST_PERIODIC_TIMER_SIG_WATCHDOG_FEED).
Definition adv_post_timers_start_timer_sig_network_watchdog : tmprog unit :=
  emit NetworkTimeoutUpdateTimestamp ;;
  emit (PeriodicStart ADV_POST_PERIODIC_TIMER_SIG_NETWORK_WATCHDOG).
Definition adv_post_timers_stop_timer_sig_network_watchdog : tmprog unit :=
  emit (PeriodicStop ADV_POST_PERIODIC_TIMER_SIG_NETWORK_WATCHDOG).
Definition adv_post_timers_start_timer_sig_recv_adv_timeout : tmprog unit :=
  emit (OneShotStart ADV_POST_ONE_SHOT_TIMER_SIG_RECV_ADV_TIMEOUT).
Definition adv_post_timers_relaunch_timer_sig_recv_adv_timeout : tmprog unit :=
  emit (OneShotRelaunch ADV_POST_ONE_SHOT_TIMER_SIG_RECV_ADV_TIMEOUT true).

(** ** Periods of the HTTP retransmissions *)

Definition adv_post_timer_restart_from_current_moment (t : adv_post_timer_sig_periodic_e) (period_ms : Z)
    : tmprog unit :=
  emit (PeriodicSetPeriod t (pdMS_TO_TICKS period_ms)) ;;
  emit (PeriodicRelaunch t true).

Definition adv_post_timer_relaunch_if_period_changed (env : timer_env) (t : adv_post_timer_sig_periodic_e)
    (period_ms : Z) : tmprog unit :=
  let period_ticks := pdMS_TO_TICKS period_ms in
  if negb (periodic_is_active env t) || negb (periodic_get_period env t =? period_ticks)
  then emit (PeriodicSetPeriod t period_ticks) ;; emit (PeriodicRelaunch t false)
  else skip.

Definition adv1_post_timer_restart_from_current_moment : tmprog unit :=
  t ← gets g_adv_post_timers_0;
  adv_post_timer_restart_from_current_moment ADV_POST_PERIODIC_TIMER_SIG_RETRANSMIT (default_interval_ms t).
Definition adv1_post_timer_relaunch_with_default_period (env : timer_env) : tmprog unit :=
  t ← gets g_adv_post_timers_0;
  adv_post_timer_relaunch_if_period_changed env ADV_POST_PERIODIC_TIMER_SIG_RETRANSMIT (default_interval_ms t).
Definition adv1_post_timer_relaunch_with_increased_period (env : timer_env) : tmprog unit :=
  adv_post_timer_relaunch_if_period_changed env ADV_POST_PERIODIC_TIMER_SIG_RETRANSMIT
    ADV_POST_DELAY_BEFORE_RETRYING_POST_AFTER_ERROR_MS.

Definition adv2_post_timer_restart_from_current_moment : tmprog unit :=
  t ← gets g_adv_post_timers_1;
  adv_post_timer_restart_from_current_moment ADV_POST_PERIODIC_TIMER_SIG_RETRANSMIT2 (default_interval_ms t).
Definition adv2_post_timer_relaunch_with_default_period (env : timer_env) : tmprog unit :=
  t ← gets g_adv_post_timers_1;
  adv_post_timer_relaunch_if_period_changed env ADV_POST_PERIODIC_TIMER_SIG_RETRANSMIT2 (default_interval_ms t).
Definition adv2_post_timer_relaunch_with_increased_period (env : timer_env) : tmprog unit :=
  adv_post_timer_relaunch_if_period_changed env ADV_POST_PERIODIC_TIMER_SIG_RETRANSMIT2
    ADV_POST_DELAY_BEFORE_RETRYING_POST_AFTER_ERROR_MS.

Definition adv2_post_timer_set_default_period (period_ms : Z) : tmprog unit :=
  modify (λ st, st <| g_adv_post_timers_1 := (g_adv_post_timers_1 st) <| default_interval_ms := period_ms |> |>).

Definition adv_post_timer_set_default_period_by_server_resp (t : adv_post_timer_t) (period_ms : Z)
    : adv_post_timer_t :=
  if negb (period_ms =? default_interval_ms t) then t <| default_interval_ms := period_ms |> else t.

Definition adv1_post_timer_set_default_period_by_server_resp (period_ms : Z) : tmprog unit :=
  modify (λ st, st <| g_adv_post_timers_0 :=
    adv_post_timer_set_default_period_by_server_resp (g_adv_post_timers_0 st) period_ms |>).
Definition adv2_post_timer_set_default_period_by_server_resp (period_ms : Z) : tmprog unit :=
  modify (λ st, st <| g_adv_post_timers_1 :=
    adv_post_timer_set_default_period_by_server_resp (g_adv_post_timers_1 st) period_ms |>).
End operations.
