(* ===== verification/AdvPostAsync.v ===== *)
(** * Sending reports (src/main/adv_post_async_comm.c, adv_post_statistics.c)

    The advertisement task sends the collected reports to up to four targets,
    one transfer at a time: HTTP to Ruuvi, HTTP to a custom server, HTTP
    statistics, and MQTT report by report.  The state holds the flags of the
    task, the transfer in progress and the components the transfers use: the
    advertisement table and the default periods of the timers. *)

From S2P Require Import Prelude AdvTable AdvPostSig AdvPostTimers.
Open Scope Z_scope.

(** ** Data *)

Inductive adv_post_action_e :=
| ADV_POST_ACTION_NONE
| ADV_POST_ACTION_POST_ADVS_TO_RUUVI
| ADV_POST_ACTION_POST_ADVS_TO_CUSTOM
| ADV_POST_ACTION_POST_STATS
| ADV_POST_ACTION_POST_ADVS_TO_MQTT.
#[export] Instance adv_post_action_eq_dec : EqDecision adv_post_action_e.
Proof. solve_decision. Defined.

Record adv_post_state_t := AdvPostState {
  flag_primary_time_sync_is_done : bool;
  flag_network_connected : bool;
  flag_async_comm_in_progress : bool;
  flag_need_to_send_advs1 : bool;
  flag_need_to_send_advs2 : bool;
  flag_need_to_send_statistics : bool;
  flag_need_to_send_mqtt_periodic : bool;
  flag_relaying_enabled : bool;
  flag_use_timestamps : bool;
  flag_stop : bool;
}.
#[export] Instance adv_post_state_eta : Eta adv_post_state_t := λ r,
  AdvPostState (flag_primary_time_sync_is_done r) (flag_network_connected r) (flag_async_comm_in_progress r)
    (flag_need_to_send_advs1 r) (flag_need_to_send_advs2 r) (flag_need_to_send_statistics r)
    (flag_need_to_send_mqtt_periodic r) (flag_relaying_enabled r) (flag_use_timestamps r) (flag_stop r).

Record async_t := AsyncState {
  ap : adv_post_state_t;
  g_adv_post_nonce : Z;
  g_adv_post_action : adv_post_action_e;
  g_p_adv_post_reports_mqtt : option adv_report_table_t;
  g_adv_post_reports_mqtt_idx : Z;
  g_adv_post_reports_mqtt_timestamp : Z;
  g_adv_post_stat_nonce : Z;
  async_table : adv_table_t;
  async_timers : adv_post_timers_t;
}.
#[export] Instance async_eta : Eta async_t := λ r,
  AsyncState (ap r) (g_adv_post_nonce r) (g_adv_post_action r) (g_p_adv_post_reports_mqtt r)
    (g_adv_post_reports_mqtt_idx r) (g_adv_post_reports_mqtt_timestamp r) (g_adv_post_stat_nonce r)
    (async_table r) (async_timers r).

(** The information that goes with the statistics (http_json.h). *)
Record http_json_statistics_info_t := StatisticsInfo {
  stat_nrf52_mac_addr : string;
  stat_esp_fw : string;
  stat_nrf_fw : string;
  stat_uptime : Z;
  stat_nonce : Z;
  stat_nrf_status : bool;
  stat_is_connected_to_wifi : bool;
  stat_network_disconnect_cnt : Z;
  stat_wifi_mic_failure_cnt : Z;
  stat_nrf_self_reboot_cnt : Z;
  stat_nrf_ext_hw_reset_cnt : Z;
  stat_nrf_lost_ack_cnt : Z;
  stat_total_free_bytes_internal : Z;
  stat_total_free_bytes_default : Z;
  stat_largest_free_block_internal : Z;
  stat_largest_free_block_default : Z;
  stat_reset_reason : string;
  stat_reset_cnt : Z;
  stat_p_reset_info : string;
}.
#[export] Instance statistics_info_eta : Eta http_json_statistics_info_t := λ r,
  StatisticsInfo (stat_nrf52_mac_addr r) (stat_esp_fw r) (stat_nrf_fw r) (stat_uptime r) (stat_nonce r)
    (stat_nrf_status r) (stat_is_connected_to_wifi r) (stat_network_disconnect_cnt r) (stat_wifi_mic_failure_cnt r)
    (stat_nrf_self_reboot_cnt r) (stat_nrf_ext_hw_reset_cnt r) (stat_nrf_lost_ack_cnt r)
    (stat_total_free_bytes_internal r) (stat_total_free_bytes_default r) (stat_largest_free_block_internal r)
    (stat_largest_free_block_default r) (stat_reset_reason r) (stat_reset_cnt r) (stat_p_reset_info r).

Inductive async_ev :=
| AsyncTable (e : adv_table_ev)
| AsyncTimer (e : timer_ev)
| ReportsAlloc
| ReportsFree
| GatewayRestartLowMemory
| HttpServerMutexTryLock (locked : bool)
| HttpServerMutexUnlock
| HttpPostAdvs (reports : adv_report_table_t) (nonce : Z) (flag_use_timestamps flag_post_to_ruuvi : bool)
| HttpPostStat (p_stat_info : http_json_statistics_info_t) (reports : adv_report_table_t)
| HttpAsyncPoll
| MqttPublishAdv (report : adv_report_t) (flag_use_timestamps : bool) (timestamp : Z)
| LedsNotifyHttp1Fail
| LedsNotifyHttp2Fail
| MainTaskRestartServices
| AsyncSendSig (sig : adv_post_sig_e)
| HmacSetKey (target : adv_post_action_e) (key : string).

Abbreviation aprog := (prog async_t async_ev).

(** The answers of the other components; every function below asks each of them
    at most once. *)
Record async_env := AsyncEnv {
  time_is_synchronized : bool;
  http_server_mutex_free : bool;
  alloc_ok : bool;
  http_cfg_copy_ok : bool;
  http_post_advs_ok : bool;
  http_stat_use_http_stat : bool;
  http_stat_cfg_copy_ok : bool;
  stat_alloc : option adv_report_table_t;
  reset_info : option string;
  stat_info_alloc_ok : bool;
  stat_sources : http_json_statistics_info_t;
  http_post_stat_ok : bool;
  mqtt_use_mqtt : bool;
  mqtt_is_connected : bool;
  mqtt_publish_ok : bool;
  ntp_use : bool;
  time_now : Z;
  http_async_poll_done : bool;
  hmac_set_key_ok : bool;
}.

Definition set_ap (f : adv_post_state_t → adv_post_state_t) : aprog unit :=
  modify (λ st, st <| ap := f (ap st) |>).

Definition in_table {A} (m : tprog A) : aprog A :=
  zoom async_table (λ t st, st <| async_table := t |>) (map_events (λ e, [AsyncTable e]) m).

Definition in_timers {A} (m : tmprog A) : aprog A :=
  zoom async_timers (λ t st, st <| async_timers := t |>) (map_events (λ e, [AsyncTimer e]) m).

(** A buffer from [os_calloc]. *)
Definition zero_reports : adv_report_table_t := AdvReportTable 0 (replicate MAX_ADVS_TABLE zero_report).

(** ** Initialisation *)

(** [random] is the result of [esp_random]. *)
Definition adv_post_async_comm_init (random : Z) : aprog unit :=
  modify (λ st, st <| g_adv_post_nonce := random |> <| g_adv_post_action := ADV_POST_ACTION_NONE |>
    <| g_p_adv_post_reports_mqtt := None |> <| g_adv_post_reports_mqtt_idx := 0 |>
    <| g_adv_post_reports_mqtt_timestamp := 0 |>).

Definition adv_post_statistics_init (random : Z) : aprog unit :=
  modify (λ st, st <| g_adv_post_stat_nonce := random |>).

(** ** Starting a transfer of the collected reports *)

Definition adv_post_retransmit_advs (env : async_env) (p_reports : adv_report_table_t)
    (flag_use_timestamps flag_post_to_ruuvi : bool) : aprog bool :=
  if negb (http_cfg_copy_ok env) then mret false
  else
    nonce ← gets g_adv_post_nonce;
    emit (HttpPostAdvs p_reports nonce flag_use_timestamps flag_post_to_ruuvi) ;;
    mret (http_post_advs_ok env).

Definition adv_post_do_retransmission (env : async_env) (flag_use_timestamps : bool)
    (adv_post_action : adv_post_action_e) : aprog bool :=
  if negb (alloc_ok env) then emit GatewayRestartLowMemory ;; mret false
  else
    emit ReportsAlloc ;;
    match adv_post_action with
    | ADV_POST_ACTION_NONE => fail AssertFailed
    | ADV_POST_ACTION_POST_ADVS_TO_RUUVI =>
        buf ← in_table (adv_table_read_retransmission_list1_and_clear zero_reports);
        res ← adv_post_retransmit_advs env buf flag_use_timestamps true;
        emit ReportsFree ;;
        mret res
    | ADV_POST_ACTION_POST_ADVS_TO_CUSTOM =>
        buf ← in_table (adv_table_read_retransmission_list2_and_clear zero_reports);
        res ← adv_post_retransmit_advs env buf flag_use_timestamps false;
        emit ReportsFree ;;
        mret res
    | ADV_POST_ACTION_POST_STATS => fail AssertFailed
    | ADV_POST_ACTION_POST_ADVS_TO_MQTT =>
        buf ← in_table (adv_table_read_retransmission_list3_and_clear zero_reports);
        modify (λ st, st <| g_p_adv_post_reports_mqtt := Some buf |>) ;;
        modify (λ st, st <| g_adv_post_reports_mqtt_idx := 0 |>) ;;
        modify (λ st, st <| g_adv_post_reports_mqtt_timestamp := if ntp_use env then time_now env else 0 |>) ;;
        mret true
    end.

(** The guards the three HTTP transfers share: a network, a time if timestamps
    are used, and no request being served. *)
Definition http_transfer_allowed (env : async_env) : aprog bool :=
  st ← gets ap;
  if negb (flag_network_connected st) then mret false
  else if flag_use_timestamps st && negb (time_is_synchronized env) then mret false
  else emit (HttpServerMutexTryLock (http_server_mutex_free env)) ;; mret (http_server_mutex_free env).

Definition adv_post_do_async_comm_send_advs1 (env : async_env) : aprog unit :=
  allowed ← http_transfer_allowed env;
  if negb allowed then skip
  else
    modify (λ st, st <| g_adv_post_action := ADV_POST_ACTION_POST_ADVS_TO_RUUVI |>) ;;
    ts ← gets (λ st, flag_use_timestamps (ap st));
    res ← adv_post_do_retransmission env ts ADV_POST_ACTION_POST_ADVS_TO_RUUVI;
    if negb res then
      modify (λ st, st <| g_adv_post_action := ADV_POST_ACTION_NONE |>) ;;
      emit LedsNotifyHttp1Fail ;;
      set_ap (λ s, s <| flag_need_to_send_advs1 := false |>) ;;
      emit HttpServerMutexUnlock
    else
      modify (λ st, st <| g_adv_post_nonce := u32 (g_adv_post_nonce st + 1) |>) ;;
      set_ap (λ s, s <| flag_async_comm_in_progress := true |>) ;;
      set_ap (λ s, s <| flag_need_to_send_advs1 := false |>).

Definition adv_post_do_async_comm_send_advs2 (env : async_env) : aprog unit :=
  allowed ← http_transfer_allowed env;
  if negb allowed then skip
  else
    modify (λ st, st <| g_adv_post_action := ADV_POST_ACTION_POST_ADVS_TO_CUSTOM |>) ;;
    ts ← gets (λ st, flag_use_timestamps (ap st));
    res ← adv_post_do_retransmission env ts ADV_POST_ACTION_POST_ADVS_TO_CUSTOM;
    if negb res then
      modify (λ st, st <| g_adv_post_action := ADV_POST_ACTION_NONE |>) ;;
      emit LedsNotifyHttp2Fail ;;
      set_ap (λ s, s <| flag_need_to_send_advs2 := false |>) ;;
      emit HttpServerMutexUnlock
    else
      modify (λ st, st <| g_adv_post_nonce := u32 (g_adv_post_nonce st + 1) |>) ;;
      set_ap (λ s, s <| flag_async_comm_in_progress := true |>) ;;
      set_ap (λ s, s <| flag_need_to_send_advs2 := false |>).

(** ** Statistics (adv_post_statistics.c) *)

Definition HTTP_JSON_STATISTICS_RESET_REASON_MAX_LEN : nat := 24.

(** [stat_sources] is what the configuration, the metrics and the status of the
    gateway report; [p_reset_info] is [None] for a null pointer. *)
Definition adv_post_statistics_info_generate (env : async_env) (p_reset_info : option string)
    : aprog (option http_json_statistics_info_t) :=
  if negb (stat_info_alloc_ok env) then mret None
  else
    nonce ← gets g_adv_post_stat_nonce;
    let p_stat_info := (stat_sources env)
      <| stat_nonce := nonce |>
      <| stat_reset_reason :=
           String.substring 0 (HTTP_JSON_STATISTICS_RESET_REASON_MAX_LEN - 1) (stat_reset_reason (stat_sources env)) |>
      <| stat_p_reset_info := default EmptyString p_reset_info |> in
    modify (λ st, st <| g_adv_post_stat_nonce := u32 (g_adv_post_stat_nonce st + 1) |>) ;;
    mret (Some p_stat_info).

(** [stat_alloc] is the buffer from [os_malloc], with the contents it has. *)
Definition adv_post_stat (env : async_env) : aprog bool :=
  match stat_alloc env with
  | None => mret false
  | Some p_reports =>
      emit ReportsAlloc ;;
      buf ← in_table (adv_table_statistics_read p_reports);
      match reset_info env with
      | None => emit ReportsFree ;; mret false
      | Some p_reset_info =>
          stat_info ← adv_post_statistics_info_generate env (Some p_reset_info);
          match stat_info with
          | None => emit ReportsFree ;; mret false
          | Some p_stat_info =>
              emit (HttpPostStat p_stat_info buf) ;;
              emit ReportsFree ;;
              mret (http_post_stat_ok env)
          end
      end
  end.

Definition adv_post_statistics_do_send (env : async_env) : aprog bool :=
  if negb (http_stat_cfg_copy_ok env) then mret false else adv_post_stat env.

Definition adv_post_do_async_comm_send_statistics (env : async_env) : aprog unit :=
  if negb (http_stat_use_http_stat env) then set_ap (λ s, s <| flag_need_to_send_statistics := false |>)
  else
    allowed ← http_transfer_allowed env;
    if negb allowed then skip
    else
      modify (λ st, st <| g_adv_post_action := ADV_POST_ACTION_POST_STATS |>) ;;
      res ← adv_post_statistics_do_send env;
      if negb res then
        modify (λ st, st <| g_adv_post_action := ADV_POST_ACTION_NONE |>) ;;
        set_ap (λ s, s <| flag_need_to_send_statistics := false |>) ;;
        emit HttpServerMutexUnlock
      else
        set_ap (λ s, s <| flag_need_to_send_statistics := false |>) ;;
        set_ap (λ s, s <| flag_async_comm_in_progress := true |>).

(** ** MQTT *)

Definition adv_post_do_async_comm_start_sending_periodic_mqtt (env : async_env) : aprog unit :=
  st ← gets ap;
  if negb (mqtt_use_mqtt env) then set_ap (λ s, s <| flag_need_to_send_mqtt_periodic := false |>)
  else if negb (flag_network_connected st) then set_ap (λ s, s <| flag_need_to_send_mqtt_periodic := false |>)
  else if negb (mqtt_is_connected env) then set_ap (λ s, s <| flag_need_to_send_mqtt_periodic := false |>)
  else if flag_use_timestamps st && negb (time_is_synchronized env) then skip
  else
    modify (λ st, st <| g_adv_post_action := ADV_POST_ACTION_POST_ADVS_TO_MQTT |>) ;;
    res ← adv_post_do_retransmission env (flag_use_timestamps st) ADV_POST_ACTION_POST_ADVS_TO_MQTT;
    if negb res then
      modify (λ st, st <| g_adv_post_action := ADV_POST_ACTION_NONE |>) ;;
      set_ap (λ s, s <| flag_need_to_send_mqtt_periodic := false |>) ;;
      emit MainTaskRestartServices
    else
      set_ap (λ s, s <| flag_need_to_send_mqtt_periodic := false |>) ;;
      set_ap (λ s, s <| flag_async_comm_in_progress := true |>) ;;
      emit (AsyncSendSig ADV_POST_SIG_DO_ASYNC_COMM).

(** Frees the reports being published. *)
Definition mqtt_reports_free : aprog unit :=
  emit ReportsFree ;;
  modify (λ st, st <| g_p_adv_post_reports_mqtt := None |>) ;;
  modify (λ st, st <| g_adv_post_reports_mqtt_idx := 0 |>).

(** [true] when the transfer is over. *)
Definition adv_post_do_async_comm_in_progress_mqtt (env : async_env) : aprog bool :=
  st ← getst;
  match g_p_adv_post_reports_mqtt st with
  | None => fail AssertFailed
  | Some reports =>
      match table reports !! Z.to_nat (g_adv_post_reports_mqtt_idx st) with
      | None => fail OutOfBounds
      | Some p_adv_report =>
          emit (MqttPublishAdv p_adv_report (ntp_use env) (g_adv_post_reports_mqtt_timestamp st)) ;;
          if negb (mqtt_publish_ok env) then mqtt_reports_free ;; mret true
          else
            modify (λ st, st <| g_adv_post_reports_mqtt_idx := u32 (g_adv_post_reports_mqtt_idx st + 1) |>) ;;
            idx ← gets g_adv_post_reports_mqtt_idx;
            if num_of_advs reports <=? idx then mqtt_reports_free ;; mret true
            else mret false
      end
  end.

(** ** One step of the communication *)

(** What the end of an HTTP transfer resets. *)
Definition http_transfer_done : aprog unit :=
  action ← gets g_adv_post_action;
  match action with
  | ADV_POST_ACTION_POST_ADVS_TO_RUUVI =>
      set_ap (λ s, s <| flag_need_to_send_advs1 := false |>) ;;
      modify (λ st, st <| g_adv_post_action := ADV_POST_ACTION_NONE |>)
  | ADV_POST_ACTION_POST_ADVS_TO_CUSTOM =>
      set_ap (λ s, s <| flag_need_to_send_advs2 := false |>) ;;
      modify (λ st, st <| g_adv_post_action := ADV_POST_ACTION_NONE |>)
  | ADV_POST_ACTION_POST_STATS =>
      set_ap (λ s, s <| flag_need_to_send_statistics := false |>) ;;
      modify (λ st, st <| g_adv_post_action := ADV_POST_ACTION_NONE |>)
  | _ => skip
  end.

Definition adv_post_do_async_comm_in_progress (env : async_env) : aprog bool :=
  action ← gets g_adv_post_action;
  if negb (bool_decide (action = ADV_POST_ACTION_POST_ADVS_TO_MQTT)) then
    emit HttpAsyncPoll ;;
    if negb (http_async_poll_done env) then
      in_timers adv_post_timers_start_timer_sig_do_async_comm ;; mret false
    else
      http_transfer_done ;;
      emit HttpServerMutexUnlock ;;
      mret true
  else
    finished ← adv_post_do_async_comm_in_progress_mqtt env;
    if negb finished then in_timers adv_post_timers_start_timer_sig_do_async_comm ;; mret false
    else mret true.

(** The next transfer, by priority. *)
Definition adv_post_do_async_comm_start (env : async_env) : aprog unit :=
  st ← gets ap;
  if negb (flag_relaying_enabled st) then skip
  else if flag_need_to_send_advs1 st then
    adv_post_do_async_comm_send_advs1 env ;; in_timers adv_post_timers_start_timer_sig_do_async_comm
  else if flag_need_to_send_advs2 st then
    adv_post_do_async_comm_send_advs2 env ;; in_timers adv_post_timers_start_timer_sig_do_async_comm
  else if flag_need_to_send_statistics st then
    adv_post_do_async_comm_send_statistics env ;; in_timers adv_post_timers_start_timer_sig_do_async_comm
  else if flag_need_to_send_mqtt_periodic st then
    adv_post_do_async_comm_start_sending_periodic_mqtt env ;; in_timers adv_post_timers_start_timer_sig_do_async_comm
  else skip.

Definition adv_post_do_async_comm (env : async_env) : aprog unit :=
  in_progress ← gets (λ st, flag_async_comm_in_progress (ap st));
  if (in_progress : bool) then
    finished ← adv_post_do_async_comm_in_progress env;
    if negb finished then skip
    else
      set_ap (λ s, s <| flag_async_comm_in_progress := false |>) ;;
      adv_post_do_async_comm_start env
  else adv_post_do_async_comm_start env.

(** ** Replies of the servers *)

Definition adv_post_set_default_period (period_ms : Z) : aprog unit :=
  action ← gets g_adv_post_action;
  match action with
  | ADV_POST_ACTION_POST_ADVS_TO_RUUVI => in_timers (adv1_post_timer_set_default_period_by_server_resp period_ms)
  | ADV_POST_ACTION_POST_ADVS_TO_CUSTOM => in_timers (adv2_post_timer_set_default_period_by_server_resp period_ms)
  | _ => skip
  end.

Definition adv_post_set_hmac_sha256_key (env : async_env) (p_key_str : string) : aprog bool :=
  action ← gets g_adv_post_action;
  match action with
  | ADV_POST_ACTION_NONE | ADV_POST_ACTION_POST_ADVS_TO_MQTT => mret false
  | _ => emit (HmacSetKey action p_key_str) ;; mret (hmac_set_key_ok env)
  end.

Definition adv_post_set_adv_post_http_action (flag_post_to_ruuvi : bool) : aprog unit :=
  modify (λ st, st <| g_adv_post_action :=
    if flag_post_to_ruuvi then ADV_POST_ACTION_POST_ADVS_TO_RUUVI else ADV_POST_ACTION_POST_ADVS_TO_CUSTOM |>).

Definition adv_post_get_adv_post_action : aprog adv_post_action_e := gets g_adv_post_action.
