(* ===== verification/NetworkTimeout.v ===== *)
(** * Network watchdog (src/main/network_timeout.c)

    The time of the last sign of a network, in ticks, and the check that it is not
    too long ago. *)

From S2P Require Import Prelude AdvPostTimers.
Open Scope Z_scope.

Definition RUUVI_NETWORK_WATCHDOG_TIMEOUT_SECONDS : Z := 60 * 60.

Record network_timeout_t := NetworkTimeoutState {
  g_network_timeout_last_successful_timestamp : Z;
  g_p_network_timeout_mutex : bool;
}.
#[export] Instance network_timeout_eta : Eta network_timeout_t := λ r,
  NetworkTimeoutState (g_network_timeout_last_successful_timestamp r) (g_p_network_timeout_mutex r).

Inductive network_timeout_ev := NtMutexCreate | NtMutexLock | NtMutexUnlock.

Abbreviation ntprog := (prog network_timeout_t network_timeout_ev).

Definition network_timeout_lock : ntprog unit :=
  created ← gets g_p_network_timeout_mutex;
  (if negb created then emit NtMutexCreate ;; modify (λ st, st <| g_p_network_timeout_mutex := true |>) else skip) ;;
  emit NtMutexLock.

Definition network_timeout_unlock : ntprog unit := emit NtMutexUnlock.

(** [ticks] is the current [TickType_t], a 32-bit unsigned integer. *)
Definition network_timeout_update_timestamp (ticks : Z) : ntprog unit :=
  network_timeout_lock ;;
  modify (λ st, st <| g_network_timeout_last_successful_timestamp := ticks |>) ;;
  network_timeout_unlock.

Definition network_timeout_check `{FreeRtos} (ticks : Z) : ntprog bool :=
  let timeout_ticks := u32 (pdMS_TO_TICKS RUUVI_NETWORK_WATCHDOG_TIMEOUT_SECONDS * 1000) in
  network_timeout_lock ;;
  ts ← gets g_network_timeout_last_successful_timestamp;
  let delta_ticks := u32 (ticks - ts) in
  network_timeout_unlock ;;
  mret (timeout_ticks <? delta_ticks).
