(* ===== verification/AdvPostCfgCache.v ===== *)
(** * Configuration cache of the receiver (src/main/adv_post_cfg_cache.c)

    The cache holds what the receiver needs of the configuration: whether NTP is
    used and the filter of MAC addresses.  A mutex protects it. *)

From S2P Require Import Prelude AdvTable.
Open Scope Z_scope.

(** [p_arr_of_scan_filter_mac] is the allocated array, [None] for a null pointer. *)
Record adv_post_cfg_cache_t := AdvPostCfgCache {
  flag_use_ntp : bool;
  scan_filter_allow_listed : bool;
  scan_filter_length : Z;
  p_arr_of_scan_filter_mac : option (list mac_address_bin_t);
  g_p_adv_post_cfg_cache_access_mutex : bool;
}.
#[export] Instance adv_post_cfg_cache_eta : Eta adv_post_cfg_cache_t := λ r,
  AdvPostCfgCache (flag_use_ntp r) (scan_filter_allow_listed r) (scan_filter_length r)
    (p_arr_of_scan_filter_mac r) (g_p_adv_post_cfg_cache_access_mutex r).

Inductive cfg_cache_ev :=
| CcMutexCreate
| CcMutexDelete
| CcMutexLock
| CcMutexTryLock (locked : bool)
| CcMutexUnlock
| CcAlloc
| CcFree.

Abbreviation ccprog := (prog adv_post_cfg_cache_t cfg_cache_ev).

Definition adv_post_cfg_cache_init : ccprog unit :=
  created ← gets g_p_adv_post_cfg_cache_access_mutex;
  if negb created
  then emit CcMutexCreate ;; modify (λ st, st <| g_p_adv_post_cfg_cache_access_mutex := true |>)
  else skip.

Definition adv_post_cfg_cache_deinit : ccprog unit :=
  created ← gets g_p_adv_post_cfg_cache_access_mutex;
  if (created : bool)
  then emit CcMutexDelete ;; modify (λ st, st <| g_p_adv_post_cfg_cache_access_mutex := false |>)
  else skip.

(** [free]: nobody else holds the mutex. *)
Definition adv_post_cfg_cache_mutex_try_lock (free : bool) : ccprog bool :=
  created ← gets g_p_adv_post_cfg_cache_access_mutex;
  (if negb created then adv_post_cfg_cache_init else skip) ;;
  emit (CcMutexTryLock free) ;;
  mret free.

Definition adv_post_cfg_cache_mutex_lock : ccprog unit :=
  created ← gets g_p_adv_post_cfg_cache_access_mutex;
  (if negb created then adv_post_cfg_cache_init else skip) ;;
  emit CcMutexLock.

Definition adv_post_cfg_cache_mutex_unlock : ccprog unit := emit CcMutexUnlock.

(** ** The filter of MAC addresses (adv_post_signals.c) *)

Record ruuvi_gw_cfg_scan_filter_t := RuuviGwCfgScanFilter {
  cfg_scan_filter_allow_listed : bool;
  cfg_scan_filter_length : Z;
  cfg_scan_filter_list : list mac_address_bin_t;
}.

Definition zero_mac : mac_address_bin_t := replicate 6 0.

(** [for (i = 0; i < length; ++i) arr[i] = list[i]]. *)
Fixpoint copy_macs (n : nat) (src dst : list mac_address_bin_t) : option (list mac_address_bin_t) :=
  match n with
  | O => Some dst
  | S n' =>
      match src, dst with
      | m :: src', _ :: dst' => option_map (cons m) (copy_macs n' src' dst')
      | _, _ => None
      end
  end.

Definition adv_post_on_gw_cfg_change_handle_scan_filter (alloc_ok : bool)
    (p_scan_filter : ruuvi_gw_cfg_scan_filter_t) : ccprog bool :=
  modify (λ st, st <| scan_filter_allow_listed := cfg_scan_filter_allow_listed p_scan_filter |>) ;;
  let len := cfg_scan_filter_length p_scan_filter in
  ok ← (if 0 =? len then mret true
        else if negb alloc_ok then
          modify (λ st, st <| p_arr_of_scan_filter_mac := None |>) ;;
          modify (λ st, st <| scan_filter_length := 0 |>) ;;
          mret false
        else
          emit CcAlloc ;;
          modify (λ st, st <| p_arr_of_scan_filter_mac := Some (replicate (Z.to_nat len) zero_mac) |>) ;;
          mret true);
  if negb ok then mret false
  else
    arr ← gets p_arr_of_scan_filter_mac;
    match arr with
    | Some a =>
        match copy_macs (Z.to_nat len) (cfg_scan_filter_list p_scan_filter) a with
        | None => fail OutOfBounds
        | Some a' =>
            modify (λ st, st <| p_arr_of_scan_filter_mac := Some a' |>) ;;
            modify (λ st, st <| scan_filter_length := len |>) ;;
            mret true
        end
    | None => modify (λ st, st <| scan_filter_length := 0 |>) ;; mret true
    end.

(** Frees the array, as the handlers do before they rebuild it. *)
Definition cfg_cache_drop_filter : ccprog unit :=
  arr ← gets p_arr_of_scan_filter_mac;
  match arr with
  | Some _ =>
      modify (λ st, st <| scan_filter_length := 0 |>) ;;
      emit CcFree ;;
      modify (λ st, st <| p_arr_of_scan_filter_mac := None |>)
  | None => skip
  end.
