(* ===== verification/AdvPostGreenLed.v ===== *)
(** * The green LED, which the nRF52 drives (src/main/adv_post_green_led.c)

    The nRF52 switches the LED off by itself after the interval it is given, so an
    LED that stays on is sent again periodically. *)

From S2P Require Import Prelude EventMgr LedsBlinking GwCfg AdvPostSig AdvPostNrf52 AdvPostTimers.
Open Scope Z_scope.

Definition ADV_POST_GREEN_LED_ON_INTERVAL_MS : Z := 1500.

Inductive adv_post_green_led_cmd_e :=
| ADV_POST_GREEN_LED_CMD_UPDATE
| ADV_POST_GREEN_LED_CMD_OFF
| ADV_POST_GREEN_LED_CMD_ON.
#[export] Instance adv_post_green_led_cmd_eq_dec : EqDecision adv_post_green_led_cmd_e.
Proof. solve_decision. Defined.

(** The static variables, and the state of the nRF52 component that is told the
    interval. *)
Record green_led_t := GreenLedState {
  g_adv_post_green_led_state : bool;
  g_adv_post_task_handle : os_task_handle_t;
  g_adv_post_green_led_disabled : bool;
  g_adv_post_green_led_disabled_mutex : bool;
  green_led_nrf52 : adv_post_nrf52_t;
}.
#[export] Instance green_led_eta : Eta green_led_t := λ r,
  GreenLedState (g_adv_post_green_led_state r) (g_adv_post_task_handle r) (g_adv_post_green_led_disabled r)
    (g_adv_post_green_led_disabled_mutex r) (green_led_nrf52 r).

Inductive green_led_ev :=
| GlMutexCreate
| GlMutexLock
| GlMutexUnlock
| GlTimer (e : timer_ev)
| GlNrf52 (e : nrf52_ev).

Abbreviation glprog := (prog green_led_t green_led_ev).

Abbreviation GL_TIMER := ADV_POST_PERIODIC_TIMER_SIG_GREEN_LED_UPDATE.

Definition in_gl_nrf52 {A} (m : nprog A) : glprog A :=
  zoom green_led_nrf52 (λ t st, st <| green_led_nrf52 := t |>) (map_events (λ e, [GlNrf52 e]) m).

Definition adv_post_green_led_init (env : nrf52_env) : glprog unit :=
  emit GlMutexCreate ;;
  modify (λ st, st <| g_adv_post_green_led_disabled_mutex := true |>
                   <| g_adv_post_task_handle := cur_task env |>
                   <| g_adv_post_green_led_state := false |>
                   <| g_adv_post_green_led_disabled := false |>).

(** Called from any task, also before the initialisation. *)
Definition adv_post_green_led_async_disable : glprog unit :=
  created ← gets g_adv_post_green_led_disabled_mutex;
  if negb created then modify (λ st, st <| g_adv_post_green_led_disabled := true |>)
  else
    emit GlMutexLock ;;
    modify (λ st, st <| g_adv_post_green_led_disabled := true |>) ;;
    emit GlMutexUnlock.

Definition adv_post_green_led_enable (env : nrf52_env) (tenv : timer_env) : glprog unit :=
  st ← getst;
  assert_c (g_adv_post_green_led_disabled_mutex st) ;;
  assert_c (bool_decide (g_adv_post_task_handle st = cur_task env)) ;;
  emit GlMutexLock ;;
  modify (λ st, st <| g_adv_post_green_led_disabled := false |>) ;;
  emit GlMutexUnlock ;;
  if negb (periodic_is_active tenv GL_TIMER) then emit (GlTimer (PeriodicStart GL_TIMER)) else skip.

Definition adv_post_green_led_is_disabled : glprog bool :=
  emit GlMutexLock ;;
  disabled ← gets g_adv_post_green_led_disabled;
  emit GlMutexUnlock ;;
  mret disabled.

Definition adv_post_on_green_led_update `{CaUart} (env : nrf52_env) (tenv : timer_env)
    (cmd : adv_post_green_led_cmd_e) : glprog unit :=
  st ← getst;
  assert_c (bool_decide (g_adv_post_task_handle st = cur_task env)) ;;
  match cmd with
  | ADV_POST_GREEN_LED_CMD_UPDATE => skip
  | ADV_POST_GREEN_LED_CMD_OFF => modify (λ st, st <| g_adv_post_green_led_state := false |>)
  | ADV_POST_GREEN_LED_CMD_ON => modify (λ st, st <| g_adv_post_green_led_state := true |>)
  end ;;
  disabled ← adv_post_green_led_is_disabled;
  if (disabled : bool) then
    if periodic_is_active tenv GL_TIMER then emit (GlTimer (PeriodicStop GL_TIMER)) else skip
  else
    (if negb (periodic_is_active tenv GL_TIMER) then emit (GlTimer (PeriodicStart GL_TIMER))
     else if negb (bool_decide (cmd = ADV_POST_GREEN_LED_CMD_UPDATE))
     then emit (GlTimer (PeriodicRelaunch GL_TIMER true)) else skip) ;;
    on ← gets g_adv_post_green_led_state;
    in_gl_nrf52 (adv_post_nrf52_send_led_ctrl env (if on : bool then ADV_POST_GREEN_LED_ON_INTERVAL_MS else 0)).
