(* ===== verification/AdvPostState.v ===== *)
(** * State of the advertisement task and of the receiver

    The receiver of adv_post.c runs in the task of the UART, the handlers of
    adv_post_signals.c in the advertisement task; they share the components put
    together here. *)

From S2P Require Import Prelude AdvTable EventMgr LedsBlinking GwCfg AdvPostSig AdvPostNrf52 AdvPostTimers.
From S2P Require Import AdvPostAsync NetworkTimeout AdvPostCfgCache AdvPostGreenLed.
Open Scope Z_scope.

Record adv_post_all_t := AdvPostAll {
  all_async : async_t;
  all_green_led : green_led_t;
  all_cfg_cache : adv_post_cfg_cache_t;
  all_network : network_timeout_t;
  g_adv_post_advs_cnt : Z;
}.
#[export] Instance adv_post_all_eta : Eta adv_post_all_t := λ r,
  AdvPostAll (all_async r) (all_green_led r) (all_cfg_cache r) (all_network r) (g_adv_post_advs_cnt r).

Inductive all_ev :=
| AllAsync (e : async_ev)
| AllGreenLed (e : green_led_ev)
| AllCfgCache (e : cfg_cache_ev)
| AllNetwork (e : network_timeout_ev)
| AllEventNotify (ev : event_mgr_ev_e)
| AllMetricsReceivedInc (phy : Z)
| AllDeviceIdSet (id mac : list Z)
| AllGatewayRestart
| AllHttpAbort
| AllClearRelayingCmd
| AllHttpServerMutexUse (on : bool)
| AllTaskWdtReset
| AllTaskWdtAdd
| AllTaskWdtDelete
| AllTerminalOpen
| AllApiProcess
| AllTaskCreate
| AllSignalsInit
| AllSignalsRegister
| AllSignalsDeinit
| AllSubscribe (ev : event_mgr_ev_e) (sig : adv_post_sig_e)
| AllUnsubscribe (ev : event_mgr_ev_e).

Abbreviation allprog := (prog adv_post_all_t all_ev).

Definition in_async {A} (m : aprog A) : allprog A :=
  zoom all_async (λ t st, st <| all_async := t |>) (map_events (λ e, [AllAsync e]) m).
(** The call of the nRF52 component that concerns the table is carried out; the
    others leave these components. *)
Definition on_green_led_ev (e : green_led_ev) : allprog unit :=
  match e with
  | GlNrf52 AdvTableClear => in_async (in_table adv_table_clear)
  | _ => emit (AllGreenLed e)
  end.
Definition in_green_led {A} (m : glprog A) : allprog A :=
  interp all_green_led (λ t st, st <| all_green_led := t |>) on_green_led_ev m.
Definition in_nrf52 {A} (m : nprog A) : allprog A := in_green_led (in_gl_nrf52 m).
Definition in_cfg_cache {A} (m : ccprog A) : allprog A :=
  zoom all_cfg_cache (λ t st, st <| all_cfg_cache := t |>) (map_events (λ e, [AllCfgCache e]) m).
Definition in_network {A} (m : ntprog A) : allprog A :=
  zoom all_network (λ t st, st <| all_network := t |>) (map_events (λ e, [AllNetwork e]) m).

(** The flags of the task and the state of the nRF52 component. *)
Definition all_flags (st : adv_post_all_t) : adv_post_state_t := ap (all_async st).
Definition all_nrf52 (st : adv_post_all_t) : adv_post_nrf52_t := green_led_nrf52 (all_green_led st).
