(* ===== verification/AdvRecv.v ===== *)
(** * Receiving from the nRF52 (src/main/adv_post.c)

    The callbacks of the UART driver: received advertisements are filtered and put
    into the table, acknowledgements, the identity of the nRF52 and its request for
    the configuration are passed on.  A buffer is the list of its bytes and a
    pointer into it an offset; reading past its end is a fault. *)

From S2P Require Import Prelude AdvTable EventMgr LedsBlinking GwCfg AdvPostSig AdvPostNrf52 AdvPostTimers.
From S2P Require Import AdvPostAsync NetworkTimeout AdvPostCfgCache AdvPostGreenLed AdvPostState.
Open Scope Z_scope.

(** ** The UART protocol *)

(** Constants of ruuvi_endpoint_ca_uart.h and the constructor of a MAC address. *)
Class CaUartReports := {
  RE_CA_UART_ADV_RPRT : Z;
  RE_CA_UART_ADV_RPRT2 : Z;
  mac_address_bin_init : list Z → mac_address_bin_t;
}.

Record re_ca_uart_ble_adv_t := CaUartBleAdv {
  uart_mac : list Z;
  uart_adv : list Z;
  uart_adv_len : Z;
  uart_rssi_db : Z;
  uart_primary_phy : Z;
  uart_secondary_phy : Z;
  uart_ch_index : Z;
  uart_is_coded_phy : bool;
  uart_tx_power : Z;
}.

(** The parts of [re_ca_uart_payload_t] the callbacks read. *)
Record re_ca_uart_payload_t := CaUartPayload {
  uart_cmd : Z;
  uart_params_adv : re_ca_uart_ble_adv_t;
}.

(** ** Numbers to bytes *)

(** [p_array[i] = b]. *)
Definition array_set (i b : Z) (p_array : list Z) : outcome (list Z) :=
  if (0 <=? i) && (i <? Z.of_nat (length p_array)) then Done (<[Z.to_nat i := b]> p_array) else Fault OutOfBounds.

(** A shift of an [uint64_t] by 64 bits or more is undefined. *)
Fixpoint u64_to_array_loop (u64 offset : Z) (cnt : nat) (p_array : list Z) : outcome (list Z) :=
  match cnt with
  | O => Done p_array
  | S cnt' =>
      if 64 <=? 8 * Z.of_nat cnt' then Fault UndefinedShift
      else match array_set (offset - Z.of_nat cnt') (Z.land (Z.shiftr u64 (8 * Z.of_nat cnt')) 255) p_array with
      | Done p_array' => u64_to_array_loop u64 offset cnt' p_array'
      | Fault f => Fault f
      end
  end.

(** [num_bytes] is an [uint8_t]; so is [offset], which is 255 for no bytes. *)
Definition u64_to_array (u64 : Z) (p_array : list Z) (num_bytes : Z) : outcome (list Z) :=
  u64_to_array_loop u64 (u8 (num_bytes - 1)) (Z.to_nat num_bytes) p_array.

(** ** Parsing a report *)

(** [None] where the function returns [false]. *)
Definition parse_adv_report_from_uart `{CaUartReports} (p_msg : option re_ca_uart_payload_t) (timestamp : Z)
    (p_adv : adv_report_t) : outcome (option adv_report_t) :=
  match p_msg with
  | None => Done None
  | Some msg =>
      if negb (RE_CA_UART_ADV_RPRT =? uart_cmd msg) && negb (RE_CA_UART_ADV_RPRT2 =? uart_cmd msg) then Done None
      else
        let p_report := uart_params_adv msg in
        if Z.of_nat (length (data_buf p_adv)) <? uart_adv_len p_report then Done None
        else if 0 =? uart_adv_len p_report then Done None
        else if Z.of_nat (length (uart_adv p_report)) <? uart_adv_len p_report then Fault OutOfBounds
        else
          let n := Z.to_nat (uart_adv_len p_report) in
          Done (Some (AdvReport timestamp 0 (mac_address_bin_init (uart_mac p_report)) (uart_rssi_db p_report)
            (uart_primary_phy p_report) (uart_secondary_phy p_report) (uart_ch_index p_report)
            (uart_is_coded_phy p_report) (uart_tx_power p_report) (uart_adv_len p_report)
            (take n (uart_adv p_report) ++ drop n (data_buf p_adv))))
  end.

(** ** The filter of MAC addresses *)

(** [arr[i]] for an array that may be a null pointer. *)
Definition mac_at (arr : option (list mac_address_bin_t)) (i : nat) : outcome mac_address_bin_t :=
  match arr with
  | None => Fault NullDeref
  | Some a => match a !! i with Some m => Done m | None => Fault OutOfBounds end
  end.

(** Whether one of the [n] addresses from index [i] is [p_mac_addr]. *)
Fixpoint mac_in_filter (arr : option (list mac_address_bin_t)) (p_mac_addr : mac_address_bin_t) (i n : nat)
    : outcome bool :=
  match n with
  | O => Done false
  | S n' =>
      match mac_at arr i with
      | Fault f => Fault f
      | Done m => if bool_decide (p_mac_addr = m) then Done true else mac_in_filter arr p_mac_addr (S i) n'
      end
  end.

Definition adv_post_check_if_mac_filtered_out (p_cfg_cache : adv_post_cfg_cache_t) (p_mac_addr : mac_address_bin_t)
    : outcome bool :=
  if 0 =? scan_filter_length p_cfg_cache then Done false
  else
    match mac_in_filter (p_arr_of_scan_filter_mac p_cfg_cache) p_mac_addr 0
            (Z.to_nat (scan_filter_length p_cfg_cache)) with
    | Fault f => Fault f
    | Done found => if scan_filter_allow_listed p_cfg_cache then Done (negb found) else Done found
    end.

(** ** The manufacturer of an advertisement *)

Definition BLE_MSG_CHUNK_TYPE_MANUFACTURED_SPECIFIC_DATA : Z := 255.
Definition BLE_MSG_CHUNK_DATA_OFFSET : Z := 2.
Definition BLE_MSG_CHUNK_MANUFACTURED_SPECIFIC_DATA_MIN_LEN : Z := 3.

(** [p_data[i]] for the pointer [p_data] at an offset. *)
Definition buf_at (buf : list Z) (i : Z) : outcome Z :=
  if i <? 0 then Fault OutOfBounds
  else match buf !! Z.to_nat i with Some b => Done b | None => Fault OutOfBounds end.

(** [ptrdiff_t] has 32 bits on the target, so that the comparison with the
    unsigned constant is one of unsigned numbers. *)
Definition chunk_left (data_len off : Z) : bool := BLE_MSG_CHUNK_DATA_OFFSET <=? u32 (i32 (data_len - off)).

Fixpoint get_ble_manuf_id_loop (fuel : nat) (buf : list Z) (data_len off : Z) : outcome Z :=
  match fuel with
  | O => Fault OutOfFuel
  | S fuel' =>
      if negb (chunk_left data_len off) then Done 0
      else
        match buf_at buf off, buf_at buf (off + 1) with
        | Done len, Done type =>
            if negb (type =? BLE_MSG_CHUNK_TYPE_MANUFACTURED_SPECIFIC_DATA)
            then get_ble_manuf_id_loop fuel' buf data_len (off + (len + 1))
            else if len <? BLE_MSG_CHUNK_MANUFACTURED_SPECIFIC_DATA_MIN_LEN then Done 0
            else
              match buf_at buf (off + 3), buf_at buf (off + 2) with
              | Done high, Done low => Done (Z.lor (u16 (Z.shiftl high 8)) low)
              | _, _ => Fault OutOfBounds
              end
        | _, _ => Fault OutOfBounds
        end
  end.

(** Every turn advances by a byte at least, and a turn past the end of the
    buffer is a fault. *)
Definition get_ble_manuf_id (p_adv : adv_report_t) : outcome Z :=
  if data_len p_adv <? BLE_MSG_CHUNK_DATA_OFFSET then Done 0
  else get_ble_manuf_id_loop (S (length (data_buf p_adv))) (data_buf p_adv) (data_len p_adv) 0.

(** ** The callbacks *)

(** An outcome of a pure function inside a program. *)
Definition lift {S E A} (o : outcome A) : prog S E A :=
  match o with Done a => mret a | Fault f => fail f end.

Definition ADV_POST_MAX_NUM_SCAN_FILTERS_FOR_LOGGING : Z := 3.

(** The report is logged if its tag is one of at most three allowed ones; of the
    logged values only the manufacturer is computed from the data. *)
Definition adv_post_log_adv_report (p_adv : adv_report_t) (p_cfg_cache : adv_post_cfg_cache_t) : allprog unit :=
  if scan_filter_allow_listed p_cfg_cache && (0 <? scan_filter_length p_cfg_cache) &&
     (scan_filter_length p_cfg_cache <=? ADV_POST_MAX_NUM_SCAN_FILTERS_FOR_LOGGING)
  then
    flag_log_single_allowed_mac ← lift (mac_in_filter (p_arr_of_scan_filter_mac p_cfg_cache) (tag_mac p_adv) 0
                                          (Z.to_nat (scan_filter_length p_cfg_cache)));
    if (flag_log_single_allowed_mac : bool) then lift (get_ble_manuf_id p_adv) ;; skip else skip
  else skip.

Definition adv_post_advs_cnt_inc : allprog unit :=
  modify (λ st, st <| g_adv_post_advs_cnt := u32 (g_adv_post_advs_cnt st + 1) |>).

Definition adv_post_advs_cnt_get_and_clear : allprog Z :=
  cnt ← gets g_adv_post_advs_cnt;
  modify (λ st, st <| g_adv_post_advs_cnt := 0 |>) ;;
  mret cnt.

Definition adv_put_to_table (p_adv : adv_report_t) : allprog bool :=
  emit (AllMetricsReceivedInc (secondary_phy p_adv)) ;;
  in_async (in_table (adv_table_put p_adv)).

(** What the receiver reads from other components. *)
Record recv_env := RecvEnv {
  gw_cfg_is_initialized : bool;
  cfg_cache_free : bool;
  recv_time_is_synchronized : bool;
  recv_time : Z;
  metrics_received_advs_get : Z;
}.

Definition adv_post_nrf52_cb_on_recv_adv `{CaUartReports} (env : recv_env)
    (p_arg : option re_ca_uart_payload_t) : allprog unit :=
  configured ← in_nrf52 adv_post_nrf52_is_configured;
  if negb configured then skip
  else if negb (gw_cfg_is_initialized env) then skip
  else
    adv_post_advs_cnt_inc ;;
    locked ← in_cfg_cache (adv_post_cfg_cache_mutex_try_lock (cfg_cache_free env));
    if negb locked then skip
    else
      cache ← gets all_cfg_cache;
      let timestamp_if_synchronized := if recv_time_is_synchronized env then recv_time env else 0 in
      let timestamp := if flag_use_ntp cache then timestamp_if_synchronized else metrics_received_advs_get env in
      report ← lift (parse_adv_report_from_uart p_arg timestamp zero_report);
      match report with
      | None => in_cfg_cache adv_post_cfg_cache_mutex_unlock
      | Some adv_report =>
          filtered ← lift (adv_post_check_if_mac_filtered_out cache (tag_mac adv_report));
          if (filtered : bool) then in_cfg_cache adv_post_cfg_cache_mutex_unlock
          else
            in_async (in_timers adv_post_timers_relaunch_timer_sig_recv_adv_timeout) ;;
            adv_post_log_adv_report adv_report cache ;;
            if flag_use_ntp cache && negb (recv_time_is_synchronized env)
            then in_cfg_cache adv_post_cfg_cache_mutex_unlock
            else
              put ← adv_put_to_table adv_report;
              (if negb put then skip else emit (AllEventNotify EVENT_MGR_EV_RECV_ADV)) ;;
              in_cfg_cache adv_post_cfg_cache_mutex_unlock
      end.

Definition adv_post_nrf52_cb_on_recv_ack `{CaUart} (ack_cmd ack_state : Z) : allprog unit :=
  in_nrf52 (adv_post_nrf52_on_async_ack ack_cmd ack_state).

Definition adv_post_nrf52_cb_on_recv_device_id (id addr : Z) : allprog unit :=
  nrf52_device_id ← lift (u64_to_array id (replicate 8 0) 8);
  nrf52_mac_addr ← lift (u64_to_array addr (replicate 6 0) 6);
  emit (AllDeviceIdSet nrf52_device_id nrf52_mac_addr).

Definition adv_post_nrf52_cb_on_recv_get_all : allprog unit :=
  in_green_led adv_post_green_led_async_disable ;;
  emit (AllEventNotify EVENT_MGR_EV_NRF52_REBOOTED).

(** The part of [adv_post_init] before the advertisement task is created; the rest
    waits for that task.  The arguments are results of [esp_random]. *)
Definition adv_post_init (random random_stat : Z) : allprog unit :=
  emit AllTerminalOpen ;;
  emit AllApiProcess ;;
  in_async (adv_post_async_comm_init random) ;;
  in_async (adv_post_statistics_init random_stat) ;;
  in_async (in_table adv_table_init) ;;
  emit AllTaskCreate.
