(* ===== verification/AdvPostSignals.v ===== *)
(** * Signal handlers and loop of the advertisement task
    (src/main/adv_post_signals.c, adv_post_task.c) *)

From S2P Require Import Prelude AdvTable EventMgr LedsBlinking GwCfg AdvPostSig AdvPostNrf52 AdvPostTimers.
From S2P Require Import AdvPostAsync NetworkTimeout AdvPostCfgCache AdvPostGreenLed AdvPostState AdvRecv.
Open Scope Z_scope.

(** What a handler reads from other components. *)
Record sig_env := SigEnv {
  env_nrf52 : nrf52_env;
  env_timer : timer_env;
  env_async : async_env;
  cfg_use_http_ruuvi : bool;
  cfg_use_http : bool;
  cfg_http_period : Z;
  cfg_mqtt_sending_interval : Z;
  cfg_mqtt_over_ssl_or_wss : bool;
  gw_cfg_scan : ruuvi_gw_cfg_scan_t;
  gw_cfg_filter : ruuvi_gw_cfg_filter_t;
  gw_cfg_scan_filter : ruuvi_gw_cfg_scan_filter_t;
  cache_alloc_ok : bool;
  relaying_via_http_enabled : bool;
  leds_green_led_state : bool;
}.

Section handlers.
Context `{CaUart, FreeRtos}.
Implicit Types env : sig_env.

Definition tm {A} (m : tmprog A) : allprog A := in_async (in_timers m).
Definition set_flags (f : adv_post_state_t → adv_post_state_t) : allprog unit := in_async (set_ap f).
Definition flags : allprog adv_post_state_t := gets all_flags.
Definition send_do_async_comm : allprog unit := in_async (emit (AsyncSendSig ADV_POST_SIG_DO_ASYNC_COMM)).
Definition clear_table : allprog unit := in_async (in_table adv_table_clear).

Definition ruuvi_send_nrf_settings_from_gw_cfg env : allprog unit :=
  in_nrf52 (adv_post_nrf52_cfg_update (gw_cfg_scan env) (gw_cfg_filter env)).

Definition adv_post_restart_pending_retransmissions : allprog unit :=
  s ← flags;
  (if flag_need_to_send_advs1 s then tm adv_post_timers_relaunch_timer_sig_retransmit_to_http_ruuvi else skip) ;;
  (if flag_need_to_send_advs2 s then tm adv_post_timers_relaunch_timer_sig_retransmit_to_http_custom else skip) ;;
  (if flag_need_to_send_statistics s then tm (adv_post_timers_relaunch_timer_sig_send_statistics false) else skip).

Definition adv_post_handle_sig_stop : allprog unit := set_flags (λ s, s <| flag_stop := true |>).

Definition adv_post_handle_sig_network_disconnected : allprog unit :=
  set_flags (λ s, s <| flag_network_connected := false |>).

Definition adv_post_handle_sig_network_connected : allprog unit :=
  set_flags (λ s, s <| flag_network_connected := true |>) ;;
  adv_post_restart_pending_retransmissions.

Definition adv_post_handle_sig_time_synchronized env : allprog unit :=
  s ← flags;
  (if negb (flag_primary_time_sync_is_done s) then
     set_flags (λ s, s <| flag_primary_time_sync_is_done := true |>) ;;
     clear_table ;;
     (if http_stat_use_http_stat (env_async env)
      then tm (adv_post_timers_postpone_sending_statistics (env_timer env)) else skip)
   else skip) ;;
  adv_post_restart_pending_retransmissions.

Definition adv_post_handle_sig_retransmit env : allprog unit :=
  s ← flags;
  if flag_relaying_enabled s && cfg_use_http_ruuvi env
  then set_flags (λ s, s <| flag_need_to_send_advs1 := true |>) ;; send_do_async_comm else skip.

Definition adv_post_handle_sig_retransmit2 env : allprog unit :=
  s ← flags;
  if flag_relaying_enabled s && cfg_use_http env
  then set_flags (λ s, s <| flag_need_to_send_advs2 := true |>) ;; send_do_async_comm else skip.

Definition adv_post_handle_sig_retransmit_mqtt env : allprog unit :=
  s ← flags;
  if flag_relaying_enabled s && mqtt_use_mqtt (env_async env)
  then set_flags (λ s, s <| flag_need_to_send_mqtt_periodic := true |>) ;; send_do_async_comm else skip.

Definition adv_post_handle_sig_send_statistics env : allprog unit :=
  s ← flags;
  if flag_relaying_enabled s && http_stat_use_http_stat (env_async env)
  then set_flags (λ s, s <| flag_need_to_send_statistics := true |>) ;; send_do_async_comm else skip.

Definition adv_post_handle_sig_relaying_mode_changed env : allprog unit :=
  set_flags (λ s, s <| flag_relaying_enabled := relaying_via_http_enabled env |>) ;;
  s ← flags;
  (if negb (flag_relaying_enabled s) && flag_async_comm_in_progress s then
     tm adv_post_timers_stop_timer_sig_do_async_comm ;;
     emit AllHttpAbort ;;
     set_flags (λ s, s <| flag_async_comm_in_progress := false |>) ;;
     in_async (emit HttpServerMutexUnlock)
   else skip) ;;
  emit AllClearRelayingCmd.

Definition adv_post_handle_sig_network_watchdog env : allprog unit :=
  expired ← in_network (network_timeout_check (xTaskGetTickCount (env_timer env)));
  if (expired : bool) then emit AllGatewayRestart else skip.

Definition adv_post_handle_sig_task_watchdog_feed : allprog unit :=
  adv_post_advs_cnt_get_and_clear ;;
  emit AllTaskWdtReset.

(** ** A changed configuration *)

Definition on_gw_cfg_change_http_ruuvi env : allprog unit :=
  if cfg_use_http_ruuvi env then
    tm adv1_post_timer_restart_from_current_moment ;;
    set_flags (λ s, s <| flag_need_to_send_advs1 := true |>)
  else
    tm adv1_post_timer_stop ;;
    set_flags (λ s, s <| flag_need_to_send_advs1 := false |>).

Definition on_gw_cfg_change_http env : allprog unit :=
  if cfg_use_http env then
    tm (adv2_post_timer_set_default_period (u32 (cfg_http_period env * TIME_UNITS_MS_PER_SECOND))) ;;
    tm adv2_post_timer_restart_from_current_moment ;;
    set_flags (λ s, s <| flag_need_to_send_advs2 := true |>)
  else
    tm adv2_post_timer_stop ;;
    set_flags (λ s, s <| flag_need_to_send_advs2 := false |>).

Definition on_gw_cfg_change_mqtt env : allprog unit :=
  if mqtt_use_mqtt (env_async env) && negb (0 =? cfg_mqtt_sending_interval env)
  then tm (adv_post_timers_restart_timer_sig_mqtt
             (u32 (pdMS_TO_TICKS (cfg_mqtt_sending_interval env) * TIME_UNITS_MS_PER_SECOND)))
  else tm adv_post_timers_stop_timer_sig_mqtt.

Definition on_gw_cfg_change_statistics env : allprog unit :=
  if http_stat_use_http_stat (env_async env) then
    tm (adv_post_timers_relaunch_timer_sig_send_statistics true) ;;
    set_flags (λ s, s <| flag_need_to_send_statistics := true |>)
  else
    tm adv_post_timers_stop_timer_sig_send_statistics ;;
    set_flags (λ s, s <| flag_need_to_send_statistics := false |>).

Definition adv_post_on_gw_cfg_change env : allprog unit :=
  set_flags (λ s, s <| flag_use_timestamps := ntp_use (env_async env) |>) ;;
  in_cfg_cache adv_post_cfg_cache_mutex_lock ;;
  s ← flags;
  in_cfg_cache (modify (λ c, c <| flag_use_ntp := flag_use_timestamps s |>)) ;;
  in_cfg_cache cfg_cache_drop_filter ;;
  res ← in_cfg_cache (adv_post_on_gw_cfg_change_handle_scan_filter (cache_alloc_ok env) (gw_cfg_scan_filter env));
  if negb res then emit AllGatewayRestart
  else
    on_gw_cfg_change_http_ruuvi env ;;
    on_gw_cfg_change_http env ;;
    on_gw_cfg_change_mqtt env ;;
    on_gw_cfg_change_statistics env ;;
    in_cfg_cache adv_post_cfg_cache_mutex_unlock ;;
    clear_table ;;
    tm adv_post_timers_start_timer_sig_do_async_comm.

(** The request mutex serves the HTTP server only if TLS is used twice. *)
Definition update_http_server_mutex env : allprog unit :=
  emit (AllHttpServerMutexUse (cfg_mqtt_over_ssl_or_wss env && (cfg_use_http_ruuvi env || cfg_use_http env))).

Definition adv_post_handle_sig_gw_cfg_ready env : allprog unit :=
  ruuvi_send_nrf_settings_from_gw_cfg env ;;
  (if http_stat_use_http_stat (env_async env)
   then tm (adv_post_timers_postpone_sending_statistics (env_timer env)) else skip) ;;
  adv_post_on_gw_cfg_change env ;;
  update_http_server_mutex env.

Definition adv_post_handle_sig_gw_cfg_changed_ruuvi env : allprog unit :=
  ruuvi_send_nrf_settings_from_gw_cfg env ;;
  adv_post_on_gw_cfg_change env ;;
  update_http_server_mutex env.

Definition adv_post_handle_sig_ble_scan_changed : allprog unit := clear_table.

Definition adv_post_handle_sig_cfg_mode_activated env : allprog unit :=
  in_network (network_timeout_update_timestamp (xTaskGetTickCount (env_timer env))) ;;
  in_cfg_cache adv_post_cfg_cache_mutex_lock ;;
  in_cfg_cache cfg_cache_drop_filter ;;
  in_cfg_cache adv_post_cfg_cache_mutex_unlock ;;
  clear_table.

Definition adv_post_handle_sig_cfg_mode_deactivated env : allprog unit :=
  in_network (network_timeout_update_timestamp (xTaskGetTickCount (env_timer env))) ;;
  ruuvi_send_nrf_settings_from_gw_cfg env ;;
  adv_post_on_gw_cfg_change env.

(** ** The nRF52 and the LED *)

Definition adv_post_handle_sig_nrf52_rebooted env : allprog unit :=
  in_nrf52 (adv_post_nrf52_on_sig_nrf52_rebooted (env_nrf52 env)).
Definition adv_post_handle_sig_nrf52_configured : allprog unit :=
  in_nrf52 adv_post_nrf52_on_sig_nrf52_configured.
Definition adv_post_handle_sig_nrf52_ack_led_ctrl env : allprog unit :=
  in_nrf52 (adv_post_nrf52_on_sync_ack_led_ctrl (env_nrf52 env)).
Definition adv_post_handle_sig_nrf52_ack_cfg env : allprog unit :=
  in_nrf52 adv_post_nrf52_on_sync_ack_cfg ;;
  in_green_led (adv_post_green_led_enable (env_nrf52 env) (env_timer env)).
Definition adv_post_handle_sig_nrf52_ack_timeout env : allprog unit :=
  in_nrf52 (adv_post_nrf52_on_sync_ack_timeout (env_nrf52 env)).
Definition adv_post_handle_sig_nrf52_cfg_update env : allprog unit :=
  in_nrf52 (adv_post_nrf52_on_sig_nrf52_cfg_update (env_nrf52 env)).
Definition adv_post_handle_sig_nrf52_hw_reset_off env : allprog unit :=
  in_nrf52 (adv_post_nrf52_on_sig_nrf52_hw_reset_off (env_nrf52 env)).
Definition adv_post_handle_sig_nrf52_cfg_req_timeout env : allprog unit :=
  in_nrf52 (adv_post_nrf52_on_sig_nrf52_cfg_req_timeout (env_nrf52 env)).

Definition adv_post_handle_sig_green_led_state_changed env : allprog unit :=
  in_green_led (adv_post_on_green_led_update (env_nrf52 env) (env_timer env)
    (if leds_green_led_state env then ADV_POST_GREEN_LED_CMD_ON else ADV_POST_GREEN_LED_CMD_OFF)).
Definition adv_post_handle_sig_green_led_update env : allprog unit :=
  in_green_led (adv_post_on_green_led_update (env_nrf52 env) (env_timer env) ADV_POST_GREEN_LED_CMD_UPDATE).
Definition adv_post_handle_sig_recv_adv_timeout : allprog unit :=
  emit (AllEventNotify EVENT_MGR_EV_RECV_ADV_TIMEOUT).

(** ** Dispatch: the table of handlers *)

Definition adv_post_sig_handler env (sig : adv_post_sig_e) : allprog unit :=
  match sig with
  | ADV_POST_SIG_STOP => adv_post_handle_sig_stop
  | ADV_POST_SIG_NETWORK_DISCONNECTED => adv_post_handle_sig_network_disconnected
  | ADV_POST_SIG_NETWORK_CONNECTED => adv_post_handle_sig_network_connected
  | ADV_POST_SIG_TIME_SYNCHRONIZED => adv_post_handle_sig_time_synchronized env
  | ADV_POST_SIG_RETRANSMIT => adv_post_handle_sig_retransmit env
  | ADV_POST_SIG_RETRANSMIT2 => adv_post_handle_sig_retransmit2 env
  | ADV_POST_SIG_RETRANSMIT_MQTT => adv_post_handle_sig_retransmit_mqtt env
  | ADV_POST_SIG_SEND_STATISTICS => adv_post_handle_sig_send_statistics env
  | ADV_POST_SIG_DO_ASYNC_COMM => in_async (adv_post_do_async_comm (env_async env))
  | ADV_POST_SIG_RELAYING_MODE_CHANGED => adv_post_handle_sig_relaying_mode_changed env
  | ADV_POST_SIG_NETWORK_WATCHDOG => adv_post_handle_sig_network_watchdog env
  | ADV_POST_SIG_TASK_WATCHDOG_FEED => adv_post_handle_sig_task_watchdog_feed
  | ADV_POST_SIG_GW_CFG_READY => adv_post_handle_sig_gw_cfg_ready env
  | ADV_POST_SIG_GW_CFG_CHANGED_RUUVI => adv_post_handle_sig_gw_cfg_changed_ruuvi env
  | ADV_POST_SIG_BLE_SCAN_CHANGED => adv_post_handle_sig_ble_scan_changed
  | ADV_POST_SIG_CFG_MODE_ACTIVATED => adv_post_handle_sig_cfg_mode_activated env
  | ADV_POST_SIG_CFG_MODE_DEACTIVATED => adv_post_handle_sig_cfg_mode_deactivated env
  | ADV_POST_SIG_NRF52_REBOOTED => adv_post_handle_sig_nrf52_rebooted env
  | ADV_POST_SIG_NRF52_CONFIGURED => adv_post_handle_sig_nrf52_configured
  | ADV_POST_SIG_NRF52_ACK_LED_CTRL => adv_post_handle_sig_nrf52_ack_led_ctrl env
  | ADV_POST_SIG_NRF52_ACK_CFG => adv_post_handle_sig_nrf52_ack_cfg env
  | ADV_POST_SIG_NRF52_ACK_TIMEOUT => adv_post_handle_sig_nrf52_ack_timeout env
  | ADV_POST_SIG_NRF52_CFG_UPDATE => adv_post_handle_sig_nrf52_cfg_update env
  | ADV_POST_SIG_NRF52_HW_RESET_OFF => adv_post_handle_sig_nrf52_hw_reset_off env
  | ADV_POST_SIG_NRF52_CFG_REQ_TIMEOUT => adv_post_handle_sig_nrf52_cfg_req_timeout env
  | ADV_POST_SIG_GREEN_LED_STATE_CHANGED => adv_post_handle_sig_green_led_state_changed env
  | ADV_POST_SIG_GREEN_LED_UPDATE => adv_post_handle_sig_green_led_update env
  | ADV_POST_SIG_RECV_ADV_TIMEOUT => adv_post_handle_sig_recv_adv_timeout
  end.

Definition adv_post_handle_sig env (sig : adv_post_sig_e) : allprog bool :=
  adv_post_sig_handler env sig ;;
  s ← flags;
  mret (flag_stop s).
End handlers.

(** ** The task (adv_post_task.c, adv_post_events.c)

    The signals and events it registers for are calls; the loop takes the list of
    the signals that are delivered to it. *)

(** [g_adv_post_ev_to_sig] *)
Definition g_adv_post_ev_to_sig : list (event_mgr_ev_e * adv_post_sig_e) :=
  [(EVENT_MGR_EV_WIFI_DISCONNECTED, ADV_POST_SIG_NETWORK_DISCONNECTED);
   (EVENT_MGR_EV_ETH_DISCONNECTED, ADV_POST_SIG_NETWORK_DISCONNECTED);
   (EVENT_MGR_EV_WIFI_CONNECTED, ADV_POST_SIG_NETWORK_CONNECTED);
   (EVENT_MGR_EV_ETH_CONNECTED, ADV_POST_SIG_NETWORK_CONNECTED);
   (EVENT_MGR_EV_TIME_SYNCHRONIZED, ADV_POST_SIG_TIME_SYNCHRONIZED);
   (EVENT_MGR_EV_GW_CFG_READY, ADV_POST_SIG_GW_CFG_READY);
   (EVENT_MGR_EV_GW_CFG_CHANGED_RUUVI, ADV_POST_SIG_GW_CFG_CHANGED_RUUVI);
   (EVENT_MGR_EV_RELAYING_MODE_CHANGED, ADV_POST_SIG_RELAYING_MODE_CHANGED);
   (EVENT_MGR_EV_NRF52_REBOOTED, ADV_POST_SIG_NRF52_REBOOTED);
   (EVENT_MGR_EV_NRF52_CONFIGURED, ADV_POST_SIG_NRF52_CONFIGURED);
   (EVENT_MGR_EV_GREEN_LED_STATE_CHANGED, ADV_POST_SIG_GREEN_LED_STATE_CHANGED);
   (EVENT_MGR_EV_CFG_MODE_ACTIVATED, ADV_POST_SIG_CFG_MODE_ACTIVATED);
   (EVENT_MGR_EV_CFG_MODE_DEACTIVATED, ADV_POST_SIG_CFG_MODE_DEACTIVATED);
   (EVENT_MGR_EV_CFG_BLE_SCAN_CHANGED, ADV_POST_SIG_BLE_SCAN_CHANGED)].

Definition adv_post_subscribe_events : allprog unit :=
  for_each g_adv_post_ev_to_sig (λ '(ev, sig), emit (AllSubscribe ev sig)).
Definition adv_post_unsubscribe_events : allprog unit :=
  for_each g_adv_post_ev_to_sig (λ '(ev, _), emit (AllUnsubscribe ev)).

Section task.
Context `{CaUart, FreeRtos}.

(** The local [adv_post_state] of the task. *)
Definition adv_post_state_init : adv_post_state_t :=
  AdvPostState false false false false false false false true false false.

Definition adv_post_wdt_add_and_start : allprog unit :=
  emit AllTaskWdtAdd ;;
  tm adv_post_timers_start_timer_sig_watchdog_feed.

(** The timestamp is updated in the component of the network watchdog. *)
Definition start_network_watchdog (tenv : timer_env) : allprog unit :=
  in_network (network_timeout_update_timestamp (xTaskGetTickCount tenv)) ;;
  tm (emit (PeriodicStart ADV_POST_PERIODIC_TIMER_SIG_NETWORK_WATCHDOG)).

Fixpoint adv_post_handle_sigs (sigs : list (sig_env * adv_post_sig_e)) : allprog unit :=
  match sigs with
  | [] => skip
  | (env, sig) :: sigs' =>
      stop ← adv_post_handle_sig env sig;
      if (stop : bool) then skip else adv_post_handle_sigs sigs'
  end.

Definition adv_post_task_start (env : sig_env) : allprog unit :=
  in_green_led (adv_post_green_led_init (env_nrf52 env)) ;;
  emit AllSignalsInit ;;
  adv_post_subscribe_events ;;
  tm adv_post_create_timers ;;
  in_nrf52 (adv_post_nrf52_init (env_nrf52 env) (gw_cfg_scan env) (gw_cfg_filter env)) ;;
  emit AllSignalsRegister ;;
  start_network_watchdog (env_timer env) ;;
  tm adv_post_timers_start_timer_sig_recv_adv_timeout ;;
  adv_post_wdt_add_and_start ;;
  set_flags (λ _, adv_post_state_init).

Definition adv_post_task_finish : allprog unit :=
  emit AllTaskWdtDelete ;;
  tm adv_post_delete_timers ;;
  adv_post_unsubscribe_events ;;
  emit AllHttpAbort ;;
  emit AllSignalsDeinit.

(** [registered]: the task could register for its signals. *)
Definition adv_post_task (env : sig_env) (registered : bool) (sigs : list (sig_env * adv_post_sig_e))
    : allprog unit :=
  if negb registered then
    in_green_led (adv_post_green_led_init (env_nrf52 env)) ;;
    emit AllSignalsInit ;;
    adv_post_subscribe_events ;;
    tm adv_post_create_timers ;;
    in_nrf52 (adv_post_nrf52_init (env_nrf52 env) (gw_cfg_scan env) (gw_cfg_filter env)) ;;
    tm adv_post_delete_timers ;;
    adv_post_unsubscribe_events ;;
    emit AllSignalsDeinit
  else
    adv_post_task_start env ;;
    adv_post_handle_sigs sigs ;;
    st ← flags;
    if flag_stop st then adv_post_task_finish else skip.
End task.
