(* ===== verification/AdvPostAsyncInv.v ===== *)
(** * What the asynchronous communication keeps

    The invariant of the transfer in progress, and the accounting of the two
    resources a transfer holds: the mutex of the HTTP server and the buffer of
    reports. *)

From S2P Require Import Prelude AdvTable AdvTableInv AdvTableSpec AdvTableRefine AdvPostSig AdvPostTimers AdvPostAsync.
Open Scope Z_scope.

(** ** Resources *)

(** Whether the mutex is held and how many buffers are allocated; [None] after
    locking a mutex that is held, unlocking one that is not, or freeing more
    buffers than were allocated. *)
Fixpoint resources (r : bool * nat) (es : list async_ev) : option (bool * nat) :=
  match es with
  | [] => Some r
  | HttpServerMutexTryLock true :: es' => if r.1 then None else resources (true, r.2) es'
  | HttpServerMutexUnlock :: es' => if r.1 then resources (false, r.2) es' else None
  | ReportsAlloc :: es' => resources (r.1, S r.2) es'
  | ReportsFree :: es' => match r.2 with O => None | S n => resources (r.1, n) es' end
  | _ :: es' => resources r es'
  end.

(** What the transfer in progress owns. *)
Definition owned (st : async_t) : bool * nat :=
  if flag_async_comm_in_progress (ap st)
  then if bool_decide (g_adv_post_action st = ADV_POST_ACTION_POST_ADVS_TO_MQTT) then (false, 1%nat) else (true, 0%nat)
  else (false, 0%nat).

Lemma resources_app r es1 es2 : resources r (es1 ++ es2) = resources r es1 ≫= λ r', resources r' es2.
Proof.
  revert r. induction es1 as [|e es1 IH]; intros [h n]; [done|].
  destruct e; cbn; try apply IH; repeat case_match; try apply IH; done.
Qed.

Lemma resources_table r es : resources r (AsyncTable <$> es) = Some r.
Proof. revert r. induction es as [|e es IH]; intros r; [done|apply IH]. Qed.

Lemma resources_timer r es : resources r (AsyncTimer <$> es) = Some r.
Proof. revert r. induction es as [|e es IH]; intros r; [done|apply IH]. Qed.

(** ** The invariant *)

Record async_inv (st : async_t) : Prop := AsyncInv {
  async_table_inv : table_ok (async_table st);
  async_mqtt : flag_async_comm_in_progress (ap st) = true → g_adv_post_action st = ADV_POST_ACTION_POST_ADVS_TO_MQTT →
    ∃ buf, g_p_adv_post_reports_mqtt st = Some buf ∧ length (table buf) = MAX_ADVS_TABLE ∧
      0 ≤ num_of_advs buf ≤ Z.of_nat MAX_ADVS_TABLE ∧
      0 ≤ g_adv_post_reports_mqtt_idx st < Z.max 1 (num_of_advs buf);
}.

Definition async_env_ok (env : async_env) : Prop :=
  ∀ p, stat_alloc env = Some p → length (table p) = MAX_ADVS_TABLE.

(** ** Runs of the building blocks *)

Lemma bind_singletons {A B} (f : A → B) (l : list A) : (l ≫= λ x, [f x]) = f <$> l.
Proof. induction l as [|x l IH]; [done|]. cbn. by rewrite <- IH. Qed.

Lemma in_table_run {A} (m : tprog A) st (a : A) t es :
  run m (async_table st) a t es → run (in_table m) st a (st <| async_table := t |>) (AsyncTable <$> es).
Proof.
  intros R. rewrite <- bind_singletons. apply (run_zoom async_table (λ t st, st <| async_table := t |>)).
  by apply run_map_events.
Qed.

Lemma in_timers_run {A} (m : tmprog A) st (a : A) t es :
  run m (async_timers st) a t es → run (in_timers m) st a (st <| async_timers := t |>) (AsyncTimer <$> es).
Proof.
  intros R. rewrite <- bind_singletons. apply (run_zoom async_timers (λ t st, st <| async_timers := t |>)).
  by apply run_map_events.
Qed.

Lemma set_ap_run f st : run (set_ap f) st tt (st <| ap := f (ap st) |>) [].
Proof. reflexivity. Qed.

Lemma in_table_read_run k st :
  table_ok (async_table st) →
  ∃ buf t es, run (in_table (read_rl_op k zero_reports)) st buf (st <| async_table := t |>) es ∧ table_ok t ∧
    filled buf (omap (spec_lookup (absr (async_table st))) (rl_list k (async_table st))) ∧
    (∀ r, resources r es = Some r) ∧ es = AsyncTable <$> locked ∧
    run (read_rl_op k zero_reports) (async_table st) buf t locked.
Proof.
  intros Hi. destruct (read_rl_op_run k zero_reports (async_table st) (ok_inv _ Hi)) as (buf & t & R & I & F & HA).
  { apply length_replicate. }
  apply (table_ok_exec (OpReadRl k zero_reports) _ _ Hi (length_replicate _ _)) in I; [|exact HA].
  exists buf, t, (AsyncTable <$> locked). split_and!; [by apply in_table_run|done|done| |done|done]. intros r. apply resources_table.
Qed.

Lemma filled_num_range buf l : filled buf l → 0 ≤ num_of_advs buf ≤ Z.of_nat MAX_ADVS_TABLE.
Proof.
  intros [Hn Hl Ht]. split; [lia|]. rewrite Hn, <- Ht, length_take, Hl. lia.
Qed.

Lemma http_allowed_run env st :
  ∃ b es, run (http_transfer_allowed env) st b st es ∧
    ∀ r, r.1 = false → resources r es = Some (b, r.2).
Proof.
  unfold http_transfer_allowed.
  destruct (flag_network_connected (ap st)) eqn:Hn; [destruct (flag_use_timestamps (ap st) && negb (time_is_synchronized env)) eqn:Ht|].
  - exists false, []. split; [|by intros [[] n]]. run_step. by rewrite Hn, Ht.
  - exists (http_server_mutex_free env), [HttpServerMutexTryLock (http_server_mutex_free env)]. split.
    + run_step. rewrite Hn, Ht. apply run_bind_emit, run_ret.
    + intros [[] n]; [done|]. cbn. by destruct (http_server_mutex_free env).
  - exists false, []. split; [|by intros [[] n]]. run_step. by rewrite Hn.
Qed.

(** The targets of the HTTP transfers of reports, with their lists. *)
Definition http_target (action : adv_post_action_e) (k : rl_id) : Prop :=
  (action = ADV_POST_ACTION_POST_ADVS_TO_RUUVI ∧ k = RL1) ∨ (action = ADV_POST_ACTION_POST_ADVS_TO_CUSTOM ∧ k = RL2).

Lemma retransmit_run env buf ts ruuvi st :
  ∃ b es, run (adv_post_retransmit_advs env buf ts ruuvi) st b st es ∧ ∀ r, resources r es = Some r.
Proof.
  unfold adv_post_retransmit_advs. destruct (http_cfg_copy_ok env).
  - exists (http_post_advs_ok env), [HttpPostAdvs buf (g_adv_post_nonce st) ts ruuvi]. split; [|by intros []].
    run_step. apply run_bind_emit, run_ret.
  - exists false, []. split; [apply run_ret|by intros []].
Qed.

Lemma do_retransmission_http_run env ts action k st :
  http_target action k → table_ok (async_table st) →
  ∃ b t es, run (adv_post_do_retransmission env ts action) st b (st <| async_table := t |>) es ∧ table_ok t ∧
    ∀ r, resources r es = Some r.
Proof.
  intros Hk Hi. unfold adv_post_do_retransmission. destruct (alloc_ok env); cbn [negb].
  2:{ exists false, (async_table st), [GatewayRestartLowMemory]. split_and!; [by destruct st|done|by intros []]. }
  destruct (in_table_read_run k st Hi) as (buf & t & es1 & R1 & I1 & _ & Q1 & _ & _).
  assert (Hrest : ∀ ruuvi, ∃ b es,
    run (res ← adv_post_retransmit_advs env buf ts ruuvi; emit ReportsFree ;; mret res)
      (st <| async_table := t |>) b (st <| async_table := t |>) es ∧ ∀ r, resources (r.1, S r.2) es = Some r).
  { intros ruuvi. destruct (retransmit_run env buf ts ruuvi (st <| async_table := t |>)) as (b & es & R & Q).
    exists b, (es ++ [ReportsFree]). split.
    - eapply run_bind; [exact R|]. apply run_bind_emit, run_ret.
    - intros [h n]. rewrite resources_app, Q. done. }
  destruct Hk as [[-> ->]|[-> ->]];
    [destruct (Hrest true) as (b & es2 & R2 & Q2)|destruct (Hrest false) as (b & es2 & R2 & Q2)];
    exists b, t, (ReportsAlloc :: es1 ++ es2);
    (split_and!; [|done|intros [h n]; cbn; rewrite resources_app, Q1; apply (Q2 (h, n))]);
    (apply run_bind_emit; eapply run_bind; [exact R1|exact R2]).
Qed.

(** ** Starting a transfer *)

(** A step from a state in which no transfer is in progress. *)
Definition start_ok (m : aprog unit) (st : async_t) : Prop :=
  ∃ st' es, run m st tt st' es ∧ async_inv st' ∧ resources (false, 0%nat) es = Some (owned st').

(** The two HTTP transfers of reports, which differ in the target, the
    notification of a failure and the flag. *)
Definition send_advs (env : async_env) (action : adv_post_action_e) (failure : async_ev)
    (clear : adv_post_state_t → adv_post_state_t) : aprog unit :=
  allowed ← http_transfer_allowed env;
  if negb allowed then skip
  else
    modify (λ st, st <| g_adv_post_action := action |>) ;;
    ts ← gets (λ st, flag_use_timestamps (ap st));
    res ← adv_post_do_retransmission env ts action;
    if negb res then
      modify (λ st, st <| g_adv_post_action := ADV_POST_ACTION_NONE |>) ;;
      emit failure ;;
      set_ap clear ;;
      emit HttpServerMutexUnlock
    else
      modify (λ st, st <| g_adv_post_nonce := u32 (g_adv_post_nonce st + 1) |>) ;;
      set_ap (λ s, s <| flag_async_comm_in_progress := true |>) ;;
      set_ap clear.

Definition keeps_progress (f : adv_post_state_t → adv_post_state_t) : Prop :=
  ∀ s, flag_async_comm_in_progress (f s) = flag_async_comm_in_progress s.

Lemma send_advs_ok env action k failure clear st :
  http_target action k → keeps_progress clear → (∀ r, resources r [failure] = Some r) →
  async_inv st → flag_async_comm_in_progress (ap st) = false →
  start_ok (send_advs env action failure clear) st.
Proof.
  intros Hk Hc Hf [Ht Hq] Hp. unfold start_ok, send_advs.
  assert (Hm : action ≠ ADV_POST_ACTION_POST_ADVS_TO_MQTT) by (destruct Hk as [[-> _]|[-> _]]; done).
  destruct (http_allowed_run env st) as (b & es1 & R1 & Q1).
  destruct b; cbn [negb].
  2:{ exists st, (es1 ++ []). split_and!; [eapply run_bind; [exact R1|apply run_skip]|done|].
    rewrite app_nil_r, Q1 by done. unfold owned. by rewrite Hp. }
  set (st1 := st <| g_adv_post_action := action |>).
  destruct (do_retransmission_http_run env (flag_use_timestamps (ap st1)) action k st1 Hk Ht) as (res & t & es2 & R2 & I2 & Q2).
  destruct res.
  - eexists _, (es1 ++ es2 ++ []). split_and!.
    + eapply run_bind; [exact R1|]. cbn [negb]. run_step. fold st1. run_step.
      eapply run_bind; [exact R2|]. cbn [negb]. run_step. eapply run_bind_silent; [apply set_ap_run|]. apply set_ap_run.
    + split; [done|]. intros _ Ha. by destruct (Hm Ha).
    + rewrite resources_app, Q1 by done. cbn. rewrite resources_app, Q2. cbn. unfold owned. cbn. rewrite Hc. cbn.
      by rewrite bool_decide_false.
  - eexists _, (es1 ++ es2 ++ [failure] ++ [HttpServerMutexUnlock]). split_and!.
    + eapply run_bind; [exact R1|]. cbn [negb]. run_step. fold st1. run_step.
      eapply run_bind; [exact R2|]. cbn [negb]. run_step. eapply run_bind; [apply run_emit|].
      eapply run_bind_silent; [apply set_ap_run|apply run_emit].
    + split; [done|]. by intros _ [=].
    + rewrite resources_app, Q1 by done. cbn [mbind option_bind]. rewrite resources_app, Q2. cbn [mbind option_bind].
      rewrite resources_app, Hf. cbn. unfold owned. cbn. by rewrite Hc, Hp.
Qed.

Lemma send_advs1_ok env st :
  async_inv st → flag_async_comm_in_progress (ap st) = false → start_ok (adv_post_do_async_comm_send_advs1 env) st.
Proof.
  apply (send_advs_ok env ADV_POST_ACTION_POST_ADVS_TO_RUUVI RL1 LedsNotifyHttp1Fail
    (λ s, s <| flag_need_to_send_advs1 := false |>)); [by left|done|by intros []].
Qed.

Lemma send_advs2_ok env st :
  async_inv st → flag_async_comm_in_progress (ap st) = false → start_ok (adv_post_do_async_comm_send_advs2 env) st.
Proof.
  apply (send_advs_ok env ADV_POST_ACTION_POST_ADVS_TO_CUSTOM RL2 LedsNotifyHttp2Fail
    (λ s, s <| flag_need_to_send_advs2 := false |>)); [by right|done|by intros []].
Qed.

Lemma stat_info_run env p_reset_info st :
  stat_info_alloc_ok env = true →
  ∃ info, run (adv_post_statistics_info_generate env p_reset_info) st (Some info)
    (st <| g_adv_post_stat_nonce := u32 (g_adv_post_stat_nonce st + 1) |>) [].
Proof. intros Ha. unfold adv_post_statistics_info_generate. rewrite Ha. eexists. reflexivity. Qed.

Lemma stat_run env st :
  async_env_ok env → table_ok (async_table st) →
  ∃ b t n es, run (adv_post_statistics_do_send env) st b (st <| async_table := t |> <| g_adv_post_stat_nonce := n |>) es ∧
    table_ok t ∧ ∀ r, resources r es = Some r.
Proof.
  intros He Hi. unfold adv_post_statistics_do_send, adv_post_stat.
  assert (Hid : st = st <| async_table := async_table st |> <| g_adv_post_stat_nonce := g_adv_post_stat_nonce st |>)
    by by destruct st.
  destruct (http_stat_cfg_copy_ok env); cbn [negb].
  2:{ exists false, (async_table st), (g_adv_post_stat_nonce st), []. split_and!; [rewrite <- Hid; apply run_ret|done|by intros []]. }
  destruct (stat_alloc env) as [p|] eqn:Hs.
  2:{ exists false, (async_table st), (g_adv_post_stat_nonce st), []. split_and!; [rewrite <- Hid; apply run_ret|done|by intros []]. }
  destruct (statistics_run p (async_table st) (ok_inv _ Hi) (He p Hs)) as (buf & t & R & I & _ & HA).
  apply (table_ok_exec (OpStatistics p) _ _ Hi (He p Hs)) in I; [|exact HA].
  apply in_table_run in R. set (st1 := st <| async_table := t |>) in R.
  assert (Hfree : ∀ es, (∀ r, resources r es = Some r) →
    ∀ r, resources r (ReportsAlloc :: (AsyncTable <$> locked) ++ es ++ [ReportsFree]) = Some r).
  { intros es Hes [h n]. cbn [resources fst snd]. rewrite resources_app, resources_table. cbn [mbind option_bind].
    by rewrite resources_app, Hes. }
  destruct (reset_info env) as [ri|]; [destruct (stat_info_alloc_ok env) eqn:Hsi|].
  - destruct (stat_info_run env (Some ri) st1 Hsi) as [info RI].
    exists (http_post_stat_ok env), t, (u32 (g_adv_post_stat_nonce st1 + 1)),
      (ReportsAlloc :: (AsyncTable <$> locked) ++ [HttpPostStat info buf] ++ [ReportsFree]).
    split_and!; [|done|by apply Hfree; intros []].
    apply run_bind_emit. eapply run_bind; [exact R|]. eapply run_bind_silent; [exact RI|].
    apply run_bind_emit, run_bind_emit, run_ret.
  - exists false, t, (g_adv_post_stat_nonce st), (ReportsAlloc :: (AsyncTable <$> locked) ++ [] ++ [ReportsFree]).
    split_and!; [|done|by apply Hfree; intros []].
    apply run_bind_emit. eapply run_bind; [by destruct st|].
    unfold adv_post_statistics_info_generate. rewrite Hsi. cbn [negb].
    eapply run_bind_silent; [apply run_ret|]. apply run_bind_emit, run_ret.
  - exists false, t, (g_adv_post_stat_nonce st), (ReportsAlloc :: (AsyncTable <$> locked) ++ [] ++ [ReportsFree]).
    split_and!; [|done|by apply Hfree; intros []].
    apply run_bind_emit. eapply run_bind; [by destruct st|]. apply run_bind_emit, run_ret.
Qed.

Lemma send_statistics_ok env st :
  async_env_ok env → async_inv st → flag_async_comm_in_progress (ap st) = false →
  start_ok (adv_post_do_async_comm_send_statistics env) st.
Proof.
  intros He [Ht Hq] Hp. unfold start_ok, adv_post_do_async_comm_send_statistics.
  destruct (http_stat_use_http_stat env); cbn [negb].
  2:{ eexists _, []. split_and!; [apply set_ap_run| |unfold owned; cbn; by rewrite Hp].
      split; [done|]. cbn. rewrite Hp. by intros [=]. }
  destruct (http_allowed_run env st) as (b & es1 & R1 & Q1).
  destruct b; cbn [negb].
  2:{ exists st, (es1 ++ []). split_and!; [eapply run_bind; [exact R1|apply run_skip]|done|].
    rewrite app_nil_r, Q1 by done. unfold owned. by rewrite Hp. }
  set (st1 := st <| g_adv_post_action := ADV_POST_ACTION_POST_STATS |>).
  destruct (stat_run env st1 He Ht) as (res & t & n & es2 & R2 & I2 & Q2).
  destruct res.
  - eexists _, (es1 ++ es2 ++ []). split_and!.
    + eapply run_bind; [exact R1|]. cbn [negb]. run_step. fold st1.
      eapply run_bind; [exact R2|]. cbn [negb]. eapply run_bind_silent; [apply set_ap_run|]. apply set_ap_run.
    + split; [done|]. by intros _ [=].
    + rewrite resources_app, Q1 by done. cbn [mbind option_bind]. by rewrite resources_app, Q2.
  - eexists _, (es1 ++ es2 ++ [HttpServerMutexUnlock]). split_and!.
    + eapply run_bind; [exact R1|]. cbn [negb]. run_step. fold st1.
      eapply run_bind; [exact R2|]. cbn [negb]. run_step. eapply run_bind_silent; [apply set_ap_run|apply run_emit].
    + split; [done|]. by intros _ [=].
    + rewrite resources_app, Q1 by done. cbn [mbind option_bind]. rewrite resources_app, Q2. cbn.
      unfold owned. cbn. by rewrite Hp.
Qed.

(** Starting MQTT takes the pending reports of the third list. *)
Definition mqtt_started (env : async_env) (buf : adv_report_table_t) (t : adv_table_t) (st : async_t) : async_t :=
  st <| g_adv_post_action := ADV_POST_ACTION_POST_ADVS_TO_MQTT |> <| async_table := t |>
     <| g_p_adv_post_reports_mqtt := Some buf |> <| g_adv_post_reports_mqtt_idx := 0 |>
     <| g_adv_post_reports_mqtt_timestamp := if ntp_use env then time_now env else 0 |>.

Lemma do_retransmission_mqtt_run env ts st :
  table_ok (async_table st) → alloc_ok env = true →
  ∃ buf t es, run (adv_post_do_retransmission env ts ADV_POST_ACTION_POST_ADVS_TO_MQTT)
      (st <| g_adv_post_action := ADV_POST_ACTION_POST_ADVS_TO_MQTT |>) true (mqtt_started env buf t st)
      (ReportsAlloc :: es) ∧ table_ok t ∧
    filled buf (omap (spec_lookup (absr (async_table st))) (rl_list RL3 (async_table st))) ∧
    (∀ r, resources r es = Some r) ∧ es = AsyncTable <$> locked ∧
    run (read_rl_op RL3 zero_reports) (async_table st) buf t locked.
Proof.
  intros Hi Ha. set (st1 := st <| g_adv_post_action := ADV_POST_ACTION_POST_ADVS_TO_MQTT |>).
  destruct (in_table_read_run RL3 st1 Hi) as (buf & t & es & R & I & F & Q & E & R3).
  exists buf, t, es. split_and!; [|done..].
  unfold adv_post_do_retransmission. rewrite Ha. cbn [negb]. apply run_bind_emit.
  rewrite <- (app_nil_r es). eapply run_bind; [exact R|]. run_step. run_step. run_step. apply run_ret.
Qed.

Lemma start_mqtt_ok env st :
  async_inv st → flag_async_comm_in_progress (ap st) = false →
  start_ok (adv_post_do_async_comm_start_sending_periodic_mqtt env) st.
Proof.
  intros [Ht Hq] Hp. unfold start_ok, adv_post_do_async_comm_start_sending_periodic_mqtt.
  assert (Hclear : ∃ st' es, run (set_ap (λ s, s <| flag_need_to_send_mqtt_periodic := false |>)) st tt st' es ∧
    async_inv st' ∧ resources (false, 0%nat) es = Some (owned st')).
  { eexists _, []. split_and!; [apply set_ap_run| |unfold owned; cbn; by rewrite Hp].
    split; [done|]. cbn. rewrite Hp. by intros [=]. }
  destruct (mqtt_use_mqtt env) eqn:H1; [|destruct Hclear as (st' & es & R & H); exists st', es; split; [run_step; exact R|done]].
  destruct (flag_network_connected (ap st)) eqn:H2; [|destruct Hclear as (st' & es & R & H); exists st', es;
    split; [run_step; rewrite H2; exact R|done]].
  destruct (mqtt_is_connected env) eqn:H3; [|destruct Hclear as (st' & es & R & H); exists st', es;
    split; [run_step; rewrite H2; exact R|done]].
  destruct (flag_use_timestamps (ap st) && negb (time_is_synchronized env)) eqn:H4.
  { exists st, []. split_and!; [run_step; rewrite H2, H4; apply run_skip|done|unfold owned; by rewrite Hp]. }
  destruct (alloc_ok env) eqn:Ha.
  - destruct (do_retransmission_mqtt_run env (flag_use_timestamps (ap st)) st Ht Ha) as (buf & t & es & R & I & F & Q & _).
    eexists _, ((ReportsAlloc :: es) ++ [AsyncSendSig ADV_POST_SIG_DO_ASYNC_COMM]). split_and!.
    + run_step. rewrite H2, H4. cbn [negb]. run_step. eapply run_bind; [exact R|]. cbn [negb].
      eapply run_bind_silent; [apply set_ap_run|]. eapply run_bind_silent; [apply set_ap_run|apply run_emit].
    + split; [done|]. intros _ _. exists buf. split_and!; [done|apply F|apply (filled_num_range _ _ F)..|cbn; lia|cbn; lia].
    + cbn [app resources fst snd]. by rewrite resources_app, Q.
  - eexists _, [GatewayRestartLowMemory; MainTaskRestartServices]. split_and!.
    + run_step. rewrite H2, H4. cbn [negb]. run_step. unfold adv_post_do_retransmission. rewrite Ha. cbn [negb].
      change [?a; ?b] with ([a] ++ [b]). eapply run_bind; [apply run_bind_emit, run_ret|]. cbn [negb].
      run_step. eapply run_bind_silent; [apply set_ap_run|apply run_emit].
    + split; [done|]. by intros _ [=].
    + unfold owned. cbn. by rewrite Hp.
Qed.

(** ** The next transfer *)

Lemma start_timer_run st :
  run (in_timers adv_post_timers_start_timer_sig_do_async_comm) st tt st
    [AsyncTimer (OneShotStart ADV_POST_ONE_SHOT_TIMER_SIG_DO_ASYNC_COMM)].
Proof. by destruct st. Qed.

Lemma start_then_timer m st :
  start_ok m st → start_ok (m ;; in_timers adv_post_timers_start_timer_sig_do_async_comm) st.
Proof.
  intros (st' & es & R & I & Q). eexists st', (es ++ _). split_and!; [eapply run_bind; [exact R|apply start_timer_run]|done|].
  by rewrite resources_app, Q.
Qed.

Lemma comm_start_ok env st :
  async_env_ok env → async_inv st → flag_async_comm_in_progress (ap st) = false →
  start_ok (adv_post_do_async_comm_start env) st.
Proof.
  intros He Hi Hp. unfold adv_post_do_async_comm_start.
  assert (Hskip : start_ok skip st).
  { exists st, []. split_and!; [done..|]. unfold owned. by rewrite Hp. }
  assert (Hgo : ∀ k : adv_post_state_t → aprog unit, start_ok (k (ap st)) st → start_ok (gets ap ≫= k) st).
  { intros k (st' & es & R & H). exists st', es. split; [by run_step|done]. }
  apply Hgo. destruct (flag_relaying_enabled (ap st)); [cbn [negb]|done].
  repeat case_match; try done; apply start_then_timer;
    auto using send_advs1_ok, send_advs2_ok, send_statistics_ok, start_mqtt_ok.
Qed.

(** ** The transfer in progress *)

Definition report_sent (env : async_env) (st : async_t) (r : adv_report_t) : async_ev :=
  MqttPublishAdv r (ntp_use env) (g_adv_post_reports_mqtt_timestamp st).

(** The transfer ends after a failure or after the last report. *)
Definition mqtt_finished (env : async_env) (buf : adv_report_table_t) (st : async_t) : bool :=
  negb (mqtt_publish_ok env) || (num_of_advs buf <=? g_adv_post_reports_mqtt_idx st + 1).

Lemma mqtt_step_run env st buf r :
  g_p_adv_post_reports_mqtt st = Some buf → 0 ≤ g_adv_post_reports_mqtt_idx st < Z.of_nat MAX_ADVS_TABLE →
  table buf !! Z.to_nat (g_adv_post_reports_mqtt_idx st) = Some r →
  run (adv_post_do_async_comm_in_progress_mqtt env) st (mqtt_finished env buf st)
    (if mqtt_finished env buf st
     then st <| g_p_adv_post_reports_mqtt := None |> <| g_adv_post_reports_mqtt_idx := 0 |>
     else st <| g_adv_post_reports_mqtt_idx := g_adv_post_reports_mqtt_idx st + 1 |>)
    (report_sent env st r :: if mqtt_finished env buf st then [ReportsFree] else []).
Proof.
  intros Hb Hi Hr. unfold adv_post_do_async_comm_in_progress_mqtt, mqtt_finished. run_step. rewrite Hb, Hr.
  apply run_bind_emit. destruct (mqtt_publish_ok env); cbn [negb orb].
  2:{ change [ReportsFree] with ([ReportsFree] ++ []). eapply run_bind; [apply run_bind_emit; run_step; apply run_modify|apply run_ret]. }
  assert (Hu : u32 (g_adv_post_reports_mqtt_idx st + 1) = g_adv_post_reports_mqtt_idx st + 1).
  { unfold u32. apply Z.mod_small. unfold MAX_ADVS_TABLE in Hi. lia. }
  run_step. rewrite Hu. run_step.
  change (g_adv_post_reports_mqtt_idx (_ <| _ := ?v |>)) with v.
  destruct (num_of_advs buf <=? g_adv_post_reports_mqtt_idx st + 1); [|apply run_ret].
  change [ReportsFree] with ([ReportsFree] ++ []). eapply run_bind; [apply run_bind_emit; run_step; apply run_modify|apply run_ret].
Qed.

Lemma mqtt_next st :
  async_inv st → flag_async_comm_in_progress (ap st) = true → g_adv_post_action st = ADV_POST_ACTION_POST_ADVS_TO_MQTT →
  ∃ buf r, g_p_adv_post_reports_mqtt st = Some buf ∧ length (table buf) = MAX_ADVS_TABLE ∧
    0 ≤ num_of_advs buf ≤ Z.of_nat MAX_ADVS_TABLE ∧
    0 ≤ g_adv_post_reports_mqtt_idx st < Z.of_nat MAX_ADVS_TABLE ∧
    g_adv_post_reports_mqtt_idx st < Z.max 1 (num_of_advs buf) ∧
    table buf !! Z.to_nat (g_adv_post_reports_mqtt_idx st) = Some r.
Proof.
  intros [_ Hq] Hp Hm. destruct (Hq Hp Hm) as (buf & Hb & Hl & Hn & Hi).
  assert (Hlt : g_adv_post_reports_mqtt_idx st < Z.of_nat MAX_ADVS_TABLE) by (unfold MAX_ADVS_TABLE in *; lia).
  destruct (lookup_lt_is_Some_2 (table buf) (Z.to_nat (g_adv_post_reports_mqtt_idx st))) as [r Hr]; [lia|].
  exists buf, r. split_and!; try done; lia.
Qed.

(** A step of the transfer in progress either ends it, and then gives back what
    it owns, or leaves it in progress with the timer of the next step started. *)
Definition progress_ok (env : async_env) (st : async_t) : Prop :=
  ∃ b st' es, run (adv_post_do_async_comm_in_progress env) st b st' es ∧ table_ok (async_table st') ∧
    flag_async_comm_in_progress (ap st') = true ∧
    if (b : bool) then resources (owned st) es = Some (false, 0%nat)
    else async_inv st' ∧ resources (owned st) es = Some (owned st') ∧
         last es = Some (AsyncTimer (OneShotStart ADV_POST_ONE_SHOT_TIMER_SIG_DO_ASYNC_COMM)).

Lemma http_progress_ok env st :
  async_inv st → flag_async_comm_in_progress (ap st) = true → g_adv_post_action st ≠ ADV_POST_ACTION_POST_ADVS_TO_MQTT →
  progress_ok env st.
Proof.
  intros Hi Hp Hm. pose proof Hi as [Ht Hq]. unfold progress_ok, adv_post_do_async_comm_in_progress.
  assert (Ho : owned st = (true, 0%nat)) by (unfold owned; by rewrite Hp, bool_decide_false).
  destruct (http_async_poll_done env) eqn:Hd.
  - assert (∃ st', run http_transfer_done st tt st' [] ∧ table_ok (async_table st') ∧
      flag_async_comm_in_progress (ap st') = true) as (st' & R & I & P).
    { unfold http_transfer_done. destruct (g_adv_post_action st) eqn:Ha;
        eexists; (split; [run_step; rewrite Ha; first [apply run_skip|eapply run_bind_silent; [apply set_ap_run|apply run_modify]]|done]). }
    exists true, st', [HttpAsyncPoll; HttpServerMutexUnlock]. split_and!; [|done..|by rewrite Ho].
    run_step. rewrite bool_decide_false by done. cbn [negb]. apply run_bind_emit. cbv beta. cbn [negb].
    eapply run_bind_silent; [exact R|]. apply run_bind_emit, run_ret.
  - eexists false, st, (HttpAsyncPoll :: [AsyncTimer (OneShotStart _)] ++ []). split_and!; [|done..|by rewrite Ho|done].
    run_step. rewrite bool_decide_false by done. cbn [negb]. apply run_bind_emit. cbv beta. cbn [negb].
    eapply run_bind; [apply start_timer_run|apply run_ret].
Qed.

Lemma mqtt_progress_run env st buf r :
  g_adv_post_action st = ADV_POST_ACTION_POST_ADVS_TO_MQTT →
  g_p_adv_post_reports_mqtt st = Some buf → 0 ≤ g_adv_post_reports_mqtt_idx st < Z.of_nat MAX_ADVS_TABLE →
  table buf !! Z.to_nat (g_adv_post_reports_mqtt_idx st) = Some r →
  run (adv_post_do_async_comm_in_progress env) st (mqtt_finished env buf st)
    (if mqtt_finished env buf st
     then st <| g_p_adv_post_reports_mqtt := None |> <| g_adv_post_reports_mqtt_idx := 0 |>
     else st <| g_adv_post_reports_mqtt_idx := g_adv_post_reports_mqtt_idx st + 1 |>)
    (report_sent env st r ::
     if mqtt_finished env buf st then [ReportsFree]
     else [AsyncTimer (OneShotStart ADV_POST_ONE_SHOT_TIMER_SIG_DO_ASYNC_COMM)]).
Proof.
  intros Ha Hb Hi Hr. pose proof (mqtt_step_run env st buf r Hb Hi Hr) as R.
  unfold adv_post_do_async_comm_in_progress. run_step. rewrite Ha, bool_decide_true by done. cbn [negb].
  destruct (mqtt_finished env buf st); cbn [negb] in *.
  - rewrite <- (app_nil_r (_ :: _)). eapply run_bind; [exact R|apply run_ret].
  - change (?a :: [?b]) with ([a] ++ [b] ++ []). eapply run_bind; [exact R|]. cbn [negb].
    eapply run_bind; [apply start_timer_run|apply run_ret].
Qed.

Lemma progress_step env st :
  async_inv st → flag_async_comm_in_progress (ap st) = true → progress_ok env st.
Proof.
  intros Hi Hp. destruct (decide (g_adv_post_action st = ADV_POST_ACTION_POST_ADVS_TO_MQTT)) as [Hm|Hm];
    [|by apply http_progress_ok].
  destruct (mqtt_next st Hi Hp Hm) as (buf & r & Hb & Hl & Hn & Hx & Hx1 & Hr).
  pose proof (mqtt_progress_run env st buf r Hm Hb Hx Hr) as R.
  assert (Ho : owned st = (false, 1%nat)) by (unfold owned; by rewrite Hp, Hm).
  pose proof Hi as [Ht Hq]. eexists _, _, _. split; [exact R|]. rewrite Ho.
  destruct (mqtt_finished env buf st) eqn:Hf; [by split_and!|].
  split_and!; [done..| |cbn; unfold owned; cbn; by rewrite Hp, Hm|done].
  split; [done|]. intros _ _. exists buf. split_and!; [done|done|apply Hn..|cbn; lia|].
  unfold mqtt_finished in Hf. apply orb_false_iff in Hf as [_ Hf%Z.leb_gt]. cbn. lia.
Qed.

(** ** One step of the communication *)

Lemma comm_step env st :
  async_env_ok env → async_inv st →
  ∃ st' es, run (adv_post_do_async_comm env) st tt st' es ∧ async_inv st' ∧
    resources (owned st) es = Some (owned st').
Proof.
  intros He Hi. unfold adv_post_do_async_comm.
  destruct (flag_async_comm_in_progress (ap st)) eqn:Hp.
  - destruct (progress_step env st Hi Hp) as (b & st1 & es1 & R1 & I1 & P1 & H1). destruct b.
    + set (st2 := st1 <| ap := (ap st1) <| flag_async_comm_in_progress := false |> |>).
      destruct (comm_start_ok env st2 He) as (st3 & es3 & R3 & I3 & Q3); [by split|done|].
      exists st3, (es1 ++ es3). split_and!; [|done|by rewrite resources_app, H1].
      run_step. rewrite Hp. eapply run_bind; [exact R1|]. cbn [negb].
      eapply run_bind_silent; [apply set_ap_run|exact R3].
    + destruct H1 as (I1' & Q1 & _). exists st1, (es1 ++ []). split_and!; [|done|by rewrite app_nil_r].
      run_step. rewrite Hp. eapply run_bind; [exact R1|apply run_skip].
  - destruct (comm_start_ok env st He Hi Hp) as (st' & es & R & I & Q). exists st', es.
    split_and!; [run_step; by rewrite Hp|done|]. unfold owned at 1. by rewrite Hp.
Qed.
