(* ===== verification/AdvRecvFacts.v ===== *)
(** * Facts about the receiver: bytes, chunks and the filter *)

From S2P Require Import Prelude AdvTable EventMgr LedsBlinking GwCfg AdvPostSig AdvPostNrf52 AdvPostTimers.
From S2P Require Import AdvPostAsync NetworkTimeout AdvPostCfgCache AdvPostGreenLed AdvPostState AdvRecv.
Open Scope Z_scope.

(** ** Numbers to bytes *)

(** The lowest [n] bytes of a number, most significant first. *)
Fixpoint be_bytes (u : Z) (n : nat) : list Z :=
  match n with
  | O => []
  | S n' => Z.land (Z.shiftr u (8 * Z.of_nat n')) 255 :: be_bytes u n'
  end.

Definition be_decode (l : list Z) : Z := fold_left (λ a b, a * 256 + b) l 0.

Lemma be_bytes_length u n : length (be_bytes u n) = n.
Proof. induction n as [|n IH]; cbn; congruence. Qed.

Lemma be_decode_acc u n a :
  fold_left (λ a b, a * 256 + b) (be_bytes u n) a = a * 2 ^ (8 * Z.of_nat n) + u mod 2 ^ (8 * Z.of_nat n).
Proof.
  revert a. induction n as [|n IH]; intros a; [cbn; rewrite Z.mod_1_r; lia|].
  cbn [be_bytes fold_left]. rewrite IH. change 255 with (Z.ones 8). rewrite Z.land_ones by lia.
  rewrite Z.shiftr_div_pow2 by lia.
  replace (8 * Z.of_nat (S n)) with (8 * Z.of_nat n + 8) by lia. rewrite Z.pow_add_r by lia.
  set (p := 2 ^ (8 * Z.of_nat n)). assert (0 < p) by (apply Z.pow_pos_nonneg; lia).
  rewrite (Z.rem_mul_r u p (2 ^ 8)) by lia. change (2 ^ 8) with 256. lia.
Qed.

Lemma u64_loop_run u n cnt pre suf :
  length suf = cnt → (length pre + cnt)%nat = n → (n ≤ 8)%nat →
  u64_to_array_loop u (Z.of_nat n - 1) cnt (pre ++ suf) = Done (pre ++ be_bytes u cnt).
Proof.
  revert pre suf. induction cnt as [|cnt IH]; intros pre suf Hs Hn Hb.
  - apply nil_length_inv in Hs as ->. done.
  - destruct suf as [|x suf]; [done|]. cbn [u64_to_array_loop be_bytes]. unfold array_set.
    rewrite (proj2 (Z.leb_gt 64 _)) by lia.
    replace (Z.of_nat n - 1 - Z.of_nat cnt) with (Z.of_nat (length pre)) by lia.
    rewrite (proj2 (Z.leb_le _ _)), (proj2 (Z.ltb_lt _ _)) by (rewrite ?length_app; cbn; lia). cbn [andb].
    rewrite Nat2Z.id, insert_app_r_alt, Nat.sub_diag by lia. cbn [insert list_insert]. cbn in Hs.
    rewrite cons_middle, (assoc_L (++)), (IH (pre ++ [_]) suf) by (rewrite ?length_app; cbn; lia).
    by rewrite <- (assoc_L (++)).
Qed.

(** ** Chunks of an advertisement *)

(** A chunk is its type and its payload; its first byte is the length of both. *)
Definition ble_chunk : Type := Z * list Z.
Definition encode_chunk (c : ble_chunk) : list Z := (1 + Z.of_nat (length c.2)) :: c.1 :: c.2.
Definition encode_chunks (cs : list ble_chunk) : list Z := cs ≫= encode_chunk.

(** The identifier in the first manufacturer chunk; 0 if it is too short or absent. *)
Fixpoint manuf_of (cs : list ble_chunk) : Z :=
  match cs with
  | [] => 0
  | (type, payload) :: cs' =>
      if type =? BLE_MSG_CHUNK_TYPE_MANUFACTURED_SPECIFIC_DATA
      then match payload with low :: high :: _ => high * 256 + low | _ => 0 end
      else manuf_of cs'
  end.

Lemma chunk_left_pos n : 0 ≤ n < 2 ^ 31 → ∀ off, chunk_left (off + n) off = (2 <=? n).
Proof.
  intros Hn off. unfold chunk_left, BLE_MSG_CHUNK_DATA_OFFSET, u32, i32.
  replace (off + n - off) with n by lia.
  rewrite (Z.mod_small (n + 2 ^ 31)) by lia. rewrite Z.mod_small by lia. f_equal. lia.
Qed.

(** Past the end of the data the difference is negative, and the loop goes on. *)
Lemma chunk_left_past data_len off : 0 ≤ data_len < off → off < 2 ^ 31 → chunk_left data_len off = true.
Proof.
  intros Hd Ho. unfold chunk_left, BLE_MSG_CHUNK_DATA_OFFSET, u32, i32.
  rewrite (Z.mod_small (data_len - off + 2 ^ 31)) by lia.
  replace (data_len - off + 2 ^ 31 - 2 ^ 31) with (data_len - off) by lia.
  rewrite <- (Z_mod_plus_full _ 1), Z.mod_small by lia. apply Z.leb_le. lia.
Qed.

Lemma buf_at_app pre x suf i :
  i = Z.of_nat (length pre) → buf_at (pre ++ x :: suf) i = Done x.
Proof.
  intros ->. unfold buf_at. rewrite (proj2 (Z.ltb_ge _ _)) by lia. rewrite Nat2Z.id, list_lookup_middle; done.
Qed.

Definition byte (b : Z) : Prop := 0 ≤ b < 256.

Lemma id_of_bytes low high : byte low → byte high → Z.lor (u16 (Z.shiftl high 8)) low = high * 256 + low.
Proof.
  intros Hl Hh. unfold byte in *. rewrite Z.shiftl_mul_pow2 by lia. unfold u16. rewrite Z.mod_small by lia.
  change (2 ^ 8) with 256.
  assert (E : Z.land (high * 256) low = 0).
  { apply Z.bits_inj'. intros n Hn. rewrite Z.land_spec, Z.bits_0. apply andb_false_iff.
    destruct (Z.lt_ge_cases n 8).
    - left. change 256 with (2 ^ 8). apply Z.mul_pow2_bits_low. lia.
    - right. destruct (decide (low = 0)) as [->|]; [apply Z.bits_0|].
      apply Z.bits_above_log2; [lia|]. apply Z.log2_lt_pow2; [lia|].
      apply Z.lt_le_trans with (2 ^ 8); [lia|]. by apply Z.pow_le_mono_r. }
  pose proof (Z.add_lor_land (high * 256) low). lia.
Qed.

Lemma manuf_loop_run cs fuel pre suf :
  Forall (λ c, Forall byte c.2) cs → (length (encode_chunks cs) < fuel)%nat →
  Z.of_nat (length pre + length (encode_chunks cs)) < 2 ^ 31 →
  get_ble_manuf_id_loop fuel (pre ++ encode_chunks cs ++ suf)
    (Z.of_nat (length pre) + Z.of_nat (length (encode_chunks cs))) (Z.of_nat (length pre)) = Done (manuf_of cs).
Proof.
  revert fuel pre. induction cs as [|[type payload] cs IH]; intros fuel pre Hb Hf Hlen.
  - destruct fuel as [|fuel]; [cbn in Hf; lia|]. cbn [get_ble_manuf_id_loop]. by rewrite chunk_left_pos.
  - apply Forall_cons in Hb as [Hp Hb]. cbn [snd] in Hp.
    change (encode_chunks ((type, payload) :: cs)) with (encode_chunk (type, payload) ++ encode_chunks cs) in *.
    unfold encode_chunk in *. cbn [fst snd] in *. rewrite !length_app in *. cbn [length app] in *.
    destruct fuel as [|fuel]; [lia|]. cbn [get_ble_manuf_id_loop].
    rewrite chunk_left_pos by lia. rewrite (proj2 (Z.leb_le _ _)) by lia. cbn [negb].
    rewrite (buf_at_app pre _ _ _ eq_refl).
    set (len := 1 + Z.of_nat (length payload)).
    rewrite (cons_middle len), (assoc_L (++) pre), (buf_at_app (pre ++ [len])) by (rewrite length_app; cbn; lia).
    cbn [manuf_of]. destruct (type =? BLE_MSG_CHUNK_TYPE_MANUFACTURED_SPECIFIC_DATA); cbn [negb].
    + destruct payload as [|low [|high payload]]; [done|done|].
      apply Forall_cons in Hp as [Hl [Hh _]%Forall_cons].
      rewrite (proj2 (Z.ltb_ge _ _)) by (unfold len, BLE_MSG_CHUNK_MANUFACTURED_SPECIFIC_DATA_MIN_LEN; cbn [length]; lia).
      cbn [app]. rewrite (cons_middle type), (assoc_L (++)), (cons_middle low), (assoc_L (++)).
      rewrite (buf_at_app (((pre ++ [len]) ++ [type]) ++ [low])) by (rewrite !length_app; cbn; lia).
      rewrite <- (assoc_L (++)). cbn [app].
      rewrite (buf_at_app ((pre ++ [len]) ++ [type])) by (rewrite !length_app; cbn; lia).
      by rewrite id_of_bytes.
    + specialize (IH fuel (pre ++ len :: type :: payload) Hb).
      rewrite !length_app in IH. cbn [length] in IH.
      replace (Z.of_nat (length pre) + (len + 1)) with (Z.of_nat (length pre + S (S (length payload)))) by (unfold len; lia).
      rewrite <- IH by lia. f_equal; [|unfold len; lia].
      repeat (rewrite <- app_assoc; cbn [app]). done.
Qed.

(** From an offset past the end of the data, over zero bytes, the loop reaches the
    end of the buffer. *)
Lemma manuf_loop_past fuel buf data_len off :
  0 ≤ data_len < off → (∀ i b, data_len ≤ i → buf !! Z.to_nat i = Some b → b = 0) →
  Z.of_nat (length buf) < 2 ^ 31 → off < 2 ^ 31 → Z.of_nat (length buf) - off < Z.of_nat fuel →
  (0 < fuel)%nat → get_ble_manuf_id_loop fuel buf data_len off = Fault OutOfBounds.
Proof.
  revert off. induction fuel as [|fuel IH]; intros off Hd Hz Hlen Ho Hf H0; [lia|].
  cbn [get_ble_manuf_id_loop]. rewrite chunk_left_past by lia. cbn [negb].
  assert (Hb : ∀ i, off ≤ i → buf_at buf i = Fault OutOfBounds ∨ buf_at buf i = Done 0).
  { intros i Hi. unfold buf_at. rewrite (proj2 (Z.ltb_ge _ _)) by lia.
    destruct (buf !! Z.to_nat i) as [b|] eqn:Hb; [right|by left]. by rewrite (Hz i b) by (lia || done). }
  destruct (Hb off ltac:(lia)) as [->|E0]; [done|]. rewrite E0.
  destruct (Hb (off + 1) ltac:(lia)) as [-> | ->]; [done|]. cbn [negb Z.eqb].
  assert (off < Z.of_nat (length buf)).
  { unfold buf_at in E0. rewrite (proj2 (Z.ltb_ge _ _)) in E0 by lia.
    destruct (buf !! Z.to_nat off) as [b|] eqn:Hl; [|done]. apply lookup_lt_Some in Hl. lia. }
  apply IH; try lia; done.
Qed.

(** ** The filter *)

Lemma mac_in_filter_run a m i n :
  (i + n ≤ length a)%nat → mac_in_filter (Some a) m i n = Done (bool_decide (m ∈ take n (drop i a))).
Proof.
  revert i. induction n as [|n IH]; intros i Hl; [done|].
  destruct (lookup_lt_is_Some_2 a i) as [x Hx]; [lia|].
  cbn [mac_in_filter mac_at]. rewrite Hx. rewrite (drop_S a x i Hx). cbn [take].
  case_bool_decide as Hm.
  - rewrite bool_decide_true; [done|]. rewrite Hm. apply list_elem_of_here.
  - rewrite IH by lia. f_equal. apply bool_decide_ext. rewrite elem_of_cons. naive_solver.
Qed.

Lemma mac_in_filter_all a m : mac_in_filter (Some a) m 0 (length a) = Done (bool_decide (m ∈ a)).
Proof. rewrite mac_in_filter_run by lia. by rewrite drop_0, firstn_all. Qed.
