(* ===== verification/AdvPostTaskInv.v ===== *)
(** * What the signal handlers of the advertisement task keep

    A program is [good] if, from every state that satisfies the invariant of all
    the components, it ends without fault in such a state, and its calls lock and
    unlock the mutex of the HTTP server and allocate and free buffers exactly as
    the transfer in progress requires.  Goodness is closed under composition. *)

From S2P Require Import Prelude AdvTable AdvTableInv AdvTableSpec AdvTableRefine EventMgr LedsBlinking GwCfg.
From S2P Require Import AdvPostSig AdvPostNrf52 AdvPostNrf52Inv AdvPostTimers AdvPostAsync AdvPostAsyncInv.
From S2P Require Import NetworkTimeout AdvPostCfgCache AdvPostGreenLed AdvPostState AdvRecv AdvPostSignals.
Open Scope Z_scope.

(** ** The invariant *)

Record green_led_inv (task : os_task_handle_t) (g : green_led_t) : Prop := GreenLedInv {
  gl_task : g_adv_post_task_handle g = task;
  gl_mutex : g_adv_post_green_led_disabled_mutex g = true;
  gl_nrf52 : nrf52_inv task (green_led_nrf52 g);
}.

(** The length of the filter is that of the array. *)
Definition cfg_cache_inv (c : adv_post_cfg_cache_t) : Prop :=
  0 ≤ scan_filter_length c ∧
  (scan_filter_length c = 0 ∨
   ∃ a, p_arr_of_scan_filter_mac c = Some a ∧ scan_filter_length c = Z.of_nat (length a)).

Record all_inv (task : os_task_handle_t) (st : adv_post_all_t) : Prop := AllInv {
  all_async_inv : async_inv (all_async st);
  all_green_led_inv : green_led_inv task (all_green_led st);
  all_cfg_cache_inv : cfg_cache_inv (all_cfg_cache st);
}.

(** The environment of a handler: it runs in the task, and the configured filter
    is within its array. *)
Definition scan_filter_ok (f : ruuvi_gw_cfg_scan_filter_t) : Prop :=
  0 ≤ cfg_scan_filter_length f ≤ Z.of_nat (length (cfg_scan_filter_list f)).

Record sig_env_ok (task : os_task_handle_t) (env : sig_env) : Prop := SigEnvOk {
  env_task : cur_task (env_nrf52 env) = task;
  env_async_ok : async_env_ok (env_async env);
  env_scan_filter : scan_filter_ok (gw_cfg_scan_filter env);
}.

Definition async_part (e : all_ev) : option async_ev := match e with AllAsync e => Some e | _ => None end.
Definition all_resources (r : bool * nat) (es : list all_ev) : option (bool * nat) := resources r (omap async_part es).

Lemma all_resources_app r es1 es2 :
  all_resources r (es1 ++ es2) = all_resources r es1 ≫= λ r', all_resources r' es2.
Proof. unfold all_resources. by rewrite omap_app, resources_app. Qed.

(** ** Good programs *)

Section good.
Context (task : os_task_handle_t).

Definition good {A} (m : allprog A) : Prop :=
  ∀ st, all_inv task st → ∃ a st' es, run m st a st' es ∧ all_inv task st' ∧
    all_resources (owned (all_async st)) es = Some (owned (all_async st')).

Lemma good_ret {A} (a : A) : good (mret a).
Proof. intros st Hi. by exists a, st, []. Qed.

Lemma good_skip : good skip.
Proof. apply good_ret. Qed.

Lemma good_bind {A B} (m : allprog A) (k : A → allprog B) : good m → (∀ a, good (k a)) → good (m ≫= k).
Proof.
  intros Hm Hk st Hi. destruct (Hm st Hi) as (a & s1 & e1 & R1 & I1 & Q1).
  destruct (Hk a s1 I1) as (b & s2 & e2 & R2 & I2 & Q2). exists b, s2, (e1 ++ e2).
  split_and!; [by eapply run_bind|done|]. by rewrite all_resources_app, Q1.
Qed.

Lemma good_gets {A} (f : adv_post_all_t → A) : good (gets f).
Proof. intros st Hi. by exists (f st), st, []. Qed.

Lemma good_if (b : bool) {A} (m1 m2 : allprog A) : good m1 → good m2 → good (if b then m1 else m2).
Proof. by destruct b. Qed.

(** A call that is not one of the communication. *)
Lemma good_emit e : async_part e = None → good (emit e).
Proof. intros He st Hi. exists tt, st, [e]. split_and!; [done|done|]. unfold all_resources. cbn. by rewrite He. Qed.

Lemma async_events (es : list async_ev) : omap async_part ((λ e, AllAsync e) <$> es) = es.
Proof. induction es as [|e es IH]; [done|]. cbn. by rewrite IH. Qed.

(** Steps of the communication. *)
Lemma good_async {A} (m : aprog A) :
  (∀ a, async_inv a → ∃ x a' es, run m a x a' es ∧ async_inv a' ∧ resources (owned a) es = Some (owned a')) →
  good (in_async m).
Proof.
  intros Hm st [Ha Hg Hc]. destruct (Hm _ Ha) as (x & a' & es & R & I & Q).
  exists x, (st <| all_async := a' |>), ((λ e, AllAsync e) <$> es). split_and!; [|by split|].
  - rewrite <- bind_singletons. apply (run_zoom all_async (λ t st, st <| all_async := t |>)). by apply run_map_events.
  - unfold all_resources. by rewrite async_events.
Qed.

Lemma good_emit_async e : resources (false, 0%nat) [e] = Some (false, 0%nat) → (∀ r, resources r [e] = Some r) →
  good (in_async (emit e)).
Proof. intros _ He. apply good_async. intros a Ha. by exists tt, a, [e]. Qed.

Lemma good_timer {A} (m : tmprog A) : (∀ t, ∃ x t' es, run m t x t' es) → good (tm m).
Proof.
  intros Hm. apply good_async. intros a Ha. destruct (Hm (async_timers a)) as (x & t' & es & R).
  exists x, (a <| async_timers := t' |>), (AsyncTimer <$> es).
  split_and!; [by apply in_timers_run|destruct Ha; by split|by rewrite resources_timer].
Qed.

Lemma good_set_flags f : keeps_progress f → good (set_flags f).
Proof.
  intros Hf. apply good_async. intros a [Ht Hq]. exists tt, (a <| ap := f (ap a) |>), [].
  split_and!; [done| |unfold owned; cbn; by rewrite Hf]. split; [done|]. cbn. by rewrite Hf.
Qed.

Lemma good_clear_table : good clear_table.
Proof.
  apply good_async. intros a [Ht Hq]. destruct (clear_run (async_table a) (ok_inv _ Ht)) as (t & R & I & HA).
  apply (table_ok_exec OpClear _ _ Ht Logic.I) in I; [|exact HA].
  exists tt, (a <| async_table := t |>), (AsyncTable <$> [AdvMutexLock; AdvMutexUnlock]).
  split_and!; [by apply in_table_run|by split|by rewrite resources_table].
Qed.

Lemma good_comm env : async_env_ok env → good (in_async (adv_post_do_async_comm env)).
Proof. intros He. apply good_async. intros a Ha. destruct (comm_step env a He Ha) as (a' & es & H). by exists tt, a', es. Qed.

(** Steps of the cache and of the network watchdog. *)
Lemma in_cfg_cache_run {A} (m : ccprog A) st x c' es :
  run m (all_cfg_cache st) x c' es →
  run (in_cfg_cache m) st x (st <| all_cfg_cache := c' |>) ((λ e, AllCfgCache e) <$> es).
Proof.
  intros R. rewrite <- bind_singletons. apply (run_zoom all_cfg_cache (λ t st, st <| all_cfg_cache := t |>)).
  by apply run_map_events.
Qed.

Lemma cfg_cache_silent r es : all_resources r ((λ e, AllCfgCache e) <$> es) = Some r.
Proof. unfold all_resources. replace (omap _ _) with (@nil async_ev); [done|]. induction es as [|e es IH]; [done|exact IH]. Qed.

Lemma good_cfg_cache {A} (m : ccprog A) :
  (∀ c, cfg_cache_inv c → ∃ x c' es, run m c x c' es ∧ cfg_cache_inv c') → good (in_cfg_cache m).
Proof.
  intros Hm st [Ha Hg Hc]. destruct (Hm _ Hc) as (x & c' & es & R & I).
  exists x, (st <| all_cfg_cache := c' |>), ((λ e, AllCfgCache e) <$> es).
  split_and!; [by apply in_cfg_cache_run|by split|apply cfg_cache_silent].
Qed.

Lemma good_network {A} (m : ntprog A) : (∀ n, ∃ x n' es, run m n x n' es) → good (in_network m).
Proof.
  intros Hm st [Ha Hg Hc]. destruct (Hm (all_network st)) as (x & n' & es & R).
  exists x, (st <| all_network := n' |>), ((λ e, AllNetwork e) <$> es). split_and!; [|by split|].
  - rewrite <- bind_singletons. apply (run_zoom all_network (λ t st, st <| all_network := t |>)). by apply run_map_events.
  - unfold all_resources. replace (omap _ _) with (@nil async_ev); [done|]. clear. induction es as [|e es IH]; [done|exact IH].
Qed.

(** Steps of the LED and of the nRF52, and the clearing of the table they call for. *)
Lemma good_green_led_evs es : good (for_each es on_green_led_ev).
Proof.
  induction es as [|e es IH]; [apply good_skip|]. cbn [for_each]. apply good_bind; [|intros _; exact IH].
  destruct e as [| | |e|[]]; try by apply good_emit. apply good_clear_table.
Qed.

Lemma good_green_led {A} (m : glprog A) :
  (∀ g, green_led_inv task g → ∃ x g' es, run m g x g' es ∧ green_led_inv task g') → good (in_green_led m).
Proof.
  intros Hm st [Ha Hg Hc]. destruct (Hm _ Hg) as (x & g' & es & R & I).
  destruct (good_green_led_evs es (st <| all_green_led := g' |>)) as ([] & st' & es' & R' & I' & Q'); [by split|].
  exists x, st', es'. split_and!; [by eapply run_interp|done|exact Q'].
Qed.
End good.

(** ** The handlers *)

Section handlers_good.
Context `{CaUart, FreeRtos} (task : os_task_handle_t) (env : sig_env) (Henv : sig_env_ok task env).

Local Notation good := (good task).

Lemma good_nrf52 op : nrf52_op_ok task (env_nrf52 env) op → good (in_nrf52 (exec_nrf52_op (env_nrf52 env) op)).
Proof.
  intros Ho. apply good_green_led. intros g [Ht Hm Hn].
  destruct (nrf52_step task (env_nrf52 env) op _ Hn Ho) as (n' & es & R & Hp).
  eexists tt, (g <| green_led_nrf52 := n' |>), _. split; [|split; [done|done|apply Hp]].
  apply (run_zoom green_led_nrf52 (λ t st, st <| green_led_nrf52 := t |>)). apply run_map_events, R.
Qed.

Lemma good_nrf52_sig op :
  match op with NrfLedCtrl _ => False | _ => True end → good (in_nrf52 (exec_nrf52_op (env_nrf52 env) op)).
Proof. intros Ho. apply good_nrf52. split; [apply (env_task _ _ Henv)|by destruct op]. Qed.

Lemma good_network_update ticks : good (in_network (network_timeout_update_timestamp ticks)).
Proof.
  apply good_network. intros [ts []]; eexists _, _, _; reflexivity.
Qed.

Lemma good_network_check ticks : good (in_network (network_timeout_check ticks)).
Proof. apply good_network. intros [ts []]; eexists _, _, _; reflexivity. Qed.

Lemma good_lock : good (in_cfg_cache adv_post_cfg_cache_mutex_lock).
Proof. apply good_cfg_cache. intros [n l len a []] Hc; eexists _, _, _; (split; [reflexivity|exact Hc]). Qed.

Lemma good_unlock : good (in_cfg_cache adv_post_cfg_cache_mutex_unlock).
Proof. apply good_cfg_cache. intros c Hc; eexists _, _, _; (split; [reflexivity|exact Hc]). Qed.

Lemma good_set_ntp b : good (in_cfg_cache (modify (λ c, c <| flag_use_ntp := b |>))).
Proof. apply good_cfg_cache. intros c Hc; eexists _, _, _; (split; [reflexivity|exact Hc]). Qed.

Lemma good_drop_filter : good (in_cfg_cache cfg_cache_drop_filter).
Proof.
  apply good_cfg_cache. intros [n l len [a|] m] Hc; eexists _, _, _; (split; [reflexivity|]).
  - split; [done|by left].
  - exact Hc.
Qed.

Lemma copy_macs_some n src dst :
  (n ≤ length src)%nat → (n ≤ length dst)%nat → ∃ a, copy_macs n src dst = Some a ∧ length a = length dst.
Proof.
  revert src dst. induction n as [|n IH]; intros src dst Hs Hd; [by exists dst|].
  destruct src as [|m src]; [cbn in Hs; lia|]. destruct dst as [|d dst]; [cbn in Hd; lia|].
  destruct (IH src dst) as (a & Ha & Hl); [cbn in Hs; lia|cbn in Hd; lia|].
  exists (m :: a). cbn. rewrite Ha. by rewrite Hl.
Qed.

(** The filter is rebuilt from no filter; the array has the configured length. *)
Lemma scan_filter_run ok f c :
  scan_filter_ok f → p_arr_of_scan_filter_mac c = None →
  ∃ b c' es, run (adv_post_on_gw_cfg_change_handle_scan_filter ok f) c b c' es ∧ cfg_cache_inv c'.
Proof.
  intros [Hf0 Hf] Ha. unfold adv_post_on_gw_cfg_change_handle_scan_filter.
  set (c1 := c <| scan_filter_allow_listed := cfg_scan_filter_allow_listed f |>).
  destruct (0 =? cfg_scan_filter_length f) eqn:Hz; [|destruct ok].
  - exists true, (c1 <| scan_filter_length := 0 |>), []. split; [|split; [done|by left]].
    run_step. eapply run_bind_silent; [apply run_ret|]. cbn [negb]. run_step.
    fold c1. same_field p_arr_of_scan_filter_mac c1 c. rewrite Ha. run_step. apply run_ret.
  - apply Z.eqb_neq in Hz. set (n := Z.to_nat (cfg_scan_filter_length f)).
    destruct (copy_macs_some n (cfg_scan_filter_list f) (replicate n zero_mac)) as (a & Hcp & Hl);
      [unfold n; lia|rewrite length_replicate; lia|].
    eexists true, (c1 <| p_arr_of_scan_filter_mac := Some a |> <| scan_filter_length := cfg_scan_filter_length f |>), ([CcAlloc] ++ []).
    split.
    + run_step. eapply run_bind; [apply run_bind_emit; run_step; apply run_ret|]. cbn [negb]. run_step.
      fold n. change (p_arr_of_scan_filter_mac (_ <| p_arr_of_scan_filter_mac := ?v |>)) with v. cbv iota.
      rewrite Hcp. run_step. run_step. apply run_ret.
    + split; [exact Hf0|right]. exists a. split; [done|]. cbn. rewrite Hl, length_replicate. unfold n. lia.
  - eexists false, _, []. split.
    + run_step. eapply run_bind_silent; [run_step; run_step; apply run_ret|]. apply run_ret.
    + split; [done|by left].
Qed.
Lemma drop_filter_run c :
  ∃ c' es, run cfg_cache_drop_filter c tt c' es ∧ (cfg_cache_inv c → cfg_cache_inv c') ∧ p_arr_of_scan_filter_mac c' = None.
Proof.
  destruct c as [n l len [a|] m]; eexists _, _; (split; [reflexivity|split; [|done]]); [|done].
  intros _. split; [done|by left].
Qed.

Lemma good_rebuild_filter {A} (k : bool → allprog A) :
  (∀ b, good (k b)) →
  good (in_cfg_cache cfg_cache_drop_filter ;;
        res ← in_cfg_cache (adv_post_on_gw_cfg_change_handle_scan_filter (cache_alloc_ok env) (gw_cfg_scan_filter env));
        k res).
Proof.
  intros Hk st Hi. destruct (drop_filter_run (all_cfg_cache st)) as (c1 & e1 & R1 & I1 & N1).
  destruct (scan_filter_run (cache_alloc_ok env) (gw_cfg_scan_filter env) c1 (env_scan_filter _ _ Henv) N1)
    as (b & c2 & e2 & R2 & I2).
  set (st2 := st <| all_cfg_cache := c1 |> <| all_cfg_cache := c2 |>).
  destruct (Hk b st2) as (a & st3 & e3 & R3 & I3 & Q3); [destruct Hi; by split|].
  eexists a, st3, (_ ++ _ ++ e3). split_and!; [|done|].
  - eapply run_bind; [apply in_cfg_cache_run, R1|]. eapply run_bind; [|exact R3].
    apply in_cfg_cache_run. exact R2.
  - rewrite all_resources_app, cfg_cache_silent. cbn [mbind option_bind].
    rewrite all_resources_app, cfg_cache_silent. exact Q3.
Qed.

(** The LED runs in the same task, and its intervals are valid. *)
Lemma on_green_led_update_run cmd g :
  green_led_inv task g →
  ∃ g' es, run (adv_post_on_green_led_update (env_nrf52 env) (env_timer env) cmd) g tt g' es ∧ green_led_inv task g'.
Proof.
  intros [Ht Hm Hn]. pose proof (env_task _ _ Henv) as He.
  set (g1 := match cmd with
             | ADV_POST_GREEN_LED_CMD_UPDATE => g
             | ADV_POST_GREEN_LED_CMD_OFF => g <| g_adv_post_green_led_state := false |>
             | ADV_POST_GREEN_LED_CMD_ON => g <| g_adv_post_green_led_state := true |>
             end).
  assert (I1 : green_led_inv task g1) by (unfold g1; destruct cmd; by split).
  assert (Hcmd : ∀ (k : unit → glprog unit) g' es, run (k tt) g1 tt g' es →
    run ((match cmd with
         | ADV_POST_GREEN_LED_CMD_UPDATE => skip
         | ADV_POST_GREEN_LED_CMD_OFF => modify (λ st, st <| g_adv_post_green_led_state := false |>)
         | ADV_POST_GREEN_LED_CMD_ON => modify (λ st, st <| g_adv_post_green_led_state := true |>)
         end : glprog unit) ≫= k) g tt g' es).
  { intros k g' es Hk. unfold g1 in Hk. destruct cmd; by run_step. }
  assert (Hdis : run adv_post_green_led_is_disabled g1 (g_adv_post_green_led_disabled g1) g1 [GlMutexLock; GlMutexUnlock])
    by reflexivity.
  set (t := if g_adv_post_green_led_state g1 then ADV_POST_GREEN_LED_ON_INTERVAL_MS else 0).
  destruct (led_ctrl_step task (env_nrf52 env) _ (gl_nrf52 _ _ I1) He t) as (n' & es & R & Hp).
  { unfold t. by destruct (g_adv_post_green_led_state g1). }
  set (timers := if negb (periodic_is_active (env_timer env) GL_TIMER) then [GlTimer (PeriodicStart GL_TIMER)]
                 else if negb (bool_decide (cmd = ADV_POST_GREEN_LED_CMD_UPDATE))
                 then [GlTimer (PeriodicRelaunch GL_TIMER true)] else []).
  destruct (g_adv_post_green_led_disabled g1) eqn:Hd.
  - eexists g1, ([GlMutexLock; GlMutexUnlock] ++ if periodic_is_active (env_timer env) GL_TIMER then [_] else []).
    split; [|done]. unfold adv_post_on_green_led_update. run_step.
    eapply run_bind_silent; [rewrite bool_decide_true by congruence; apply run_skip|]. apply Hcmd.
    eapply run_bind; [exact Hdis|]. cbv beta iota. destruct (periodic_is_active (env_timer env) GL_TIMER); reflexivity.
  - exists (g1 <| green_led_nrf52 := n' |>), ([GlMutexLock; GlMutexUnlock] ++ timers ++ (GlNrf52 <$> es)).
    split; [|destruct I1; split; [done|done|apply Hp]].
    unfold adv_post_on_green_led_update. run_step.
    eapply run_bind_silent; [rewrite bool_decide_true by congruence; apply run_skip|]. apply Hcmd.
    eapply run_bind; [exact Hdis|]. cbv beta iota. eapply run_bind with (a := tt).
    { unfold timers. repeat case_match; reflexivity. }
    run_step. rewrite <- bind_singletons.
    apply (run_zoom green_led_nrf52 (λ t st, st <| green_led_nrf52 := t |>)). apply run_map_events, R.
Qed.

Lemma green_led_enable_run g :
  green_led_inv task g →
  ∃ g' es, run (adv_post_green_led_enable (env_nrf52 env) (env_timer env)) g tt g' es ∧ green_led_inv task g'.
Proof.
  intros [Ht Hm Hn]. pose proof (env_task _ _ Henv) as He.
  eexists (g <| g_adv_post_green_led_disabled := false |>), ([GlMutexLock; GlMutexUnlock] ++ _). split; [|by split].
  unfold adv_post_green_led_enable. run_step. eapply run_bind_silent; [rewrite Hm; apply run_skip|].
  eapply run_bind_silent; [rewrite bool_decide_true by congruence; apply run_skip|].
  apply run_bind_emit. run_step. apply run_bind_emit.
  instantiate (1 := if negb (periodic_is_active (env_timer env) GL_TIMER) then [GlTimer (PeriodicStart GL_TIMER)] else []).
  by destruct (periodic_is_active (env_timer env) GL_TIMER).
Qed.
(** ** All the handlers *)

Lemma good_flags {A} (k : adv_post_state_t → allprog A) : (∀ s, good (k s)) → good (flags ≫= k).
Proof. intros Hk. apply good_bind; [apply good_gets|exact Hk]. Qed.

Lemma good_send_do_async : good send_do_async_comm.
Proof. apply good_emit_async; [done|by intros []]. Qed.

Ltac good_step :=
  match goal with
  | |- AdvPostTaskInv.good _ (flags ≫= _) => apply good_flags; intros ?
  | |- AdvPostTaskInv.good _ (in_cfg_cache cfg_cache_drop_filter ≫= λ _, in_cfg_cache (adv_post_on_gw_cfg_change_handle_scan_filter _ _) ≫= _) =>
      apply good_rebuild_filter; intros ?
  | |- AdvPostTaskInv.good _ (_ ≫= _) => apply good_bind; [|intros ?]
  | |- AdvPostTaskInv.good _ (if _ then _ else _) => apply good_if
  | |- AdvPostTaskInv.good _ skip => apply good_skip
  | |- AdvPostTaskInv.good _ (mret _) => apply good_ret
  | |- AdvPostTaskInv.good _ (gets _) => apply good_gets
  | |- AdvPostTaskInv.good _ (set_flags _) => apply good_set_flags; done
  | |- AdvPostTaskInv.good _ clear_table => apply good_clear_table
  | |- AdvPostTaskInv.good _ send_do_async_comm => apply good_send_do_async
  | |- AdvPostTaskInv.good _ (emit _) => apply good_emit; done
  | |- AdvPostTaskInv.good _ (in_network (network_timeout_update_timestamp _)) => apply good_network_update
  | |- AdvPostTaskInv.good _ (in_network (network_timeout_check _)) => apply good_network_check
  | |- AdvPostTaskInv.good _ (in_cfg_cache adv_post_cfg_cache_mutex_lock) => apply good_lock
  | |- AdvPostTaskInv.good _ (in_cfg_cache adv_post_cfg_cache_mutex_unlock) => apply good_unlock
  | |- AdvPostTaskInv.good _ (in_cfg_cache cfg_cache_drop_filter) => apply good_drop_filter
  | |- AdvPostTaskInv.good _ (in_cfg_cache (modify _)) => apply good_set_ntp
  | |- AdvPostTaskInv.good _ (tm _) => apply good_timer; intros ?; eexists _, _, _; reflexivity
  end.

Lemma good_restart_pending : good adv_post_restart_pending_retransmissions.
Proof. unfold adv_post_restart_pending_retransmissions. repeat good_step. Qed.

Lemma good_send_settings : good (ruuvi_send_nrf_settings_from_gw_cfg env).
Proof. by apply (good_nrf52_sig (NrfCfgUpdate _ _)). Qed.

Lemma good_on_gw_cfg_change : good (adv_post_on_gw_cfg_change env).
Proof.
  unfold adv_post_on_gw_cfg_change, on_gw_cfg_change_http_ruuvi, on_gw_cfg_change_http, on_gw_cfg_change_mqtt,
    on_gw_cfg_change_statistics. repeat good_step.
Qed.

(** All the handlers but the one that may abort a transfer. *)
Lemma good_sig_handler sig :
  sig ≠ ADV_POST_SIG_RELAYING_MODE_CHANGED → good (adv_post_sig_handler env sig).
Proof.
  intros Hs. destruct sig; cbn [adv_post_sig_handler].
  - unfold adv_post_handle_sig_stop. repeat good_step.
  - unfold adv_post_handle_sig_network_disconnected. repeat good_step.
  - apply good_bind; [good_step|intros _; apply good_restart_pending].
  - apply good_flags; intros s. apply good_bind; [repeat good_step|intros _; apply good_restart_pending].
  - unfold adv_post_handle_sig_retransmit. repeat good_step.
  - unfold adv_post_handle_sig_retransmit2. repeat good_step.
  - unfold adv_post_handle_sig_retransmit_mqtt. repeat good_step.
  - unfold adv_post_handle_sig_send_statistics. repeat good_step.
  - apply good_comm, (env_async_ok _ _ Henv).
  - done.
  - unfold adv_post_handle_sig_network_watchdog. repeat good_step.
  - unfold adv_post_handle_sig_task_watchdog_feed. apply good_bind; [|intros _; good_step].
    intros st [Ha Hg Hc]. eexists _, _, []. by split_and!; [reflexivity|split|].
  - unfold adv_post_handle_sig_gw_cfg_ready, update_http_server_mutex.
    repeat first [apply good_send_settings|apply good_on_gw_cfg_change|good_step].
  - unfold adv_post_handle_sig_gw_cfg_changed_ruuvi, update_http_server_mutex.
    repeat first [apply good_send_settings|apply good_on_gw_cfg_change|good_step].
  - apply good_clear_table.
  - unfold adv_post_handle_sig_cfg_mode_activated. repeat good_step.
  - unfold adv_post_handle_sig_cfg_mode_deactivated.
    repeat first [apply good_send_settings|apply good_on_gw_cfg_change|good_step].
  - by apply (good_nrf52_sig NrfSigRebooted).
  - by apply (good_nrf52_sig NrfSigConfigured).
  - by apply (good_nrf52_sig NrfSyncAckLedCtrl).
  - apply good_bind; [by apply (good_nrf52_sig NrfSyncAckCfg)|intros _].
    apply good_green_led. intros g Hg. destruct (green_led_enable_run g Hg) as (g' & es & H'). by exists tt, g', es.
  - by apply (good_nrf52_sig NrfSyncAckTimeout).
  - by apply (good_nrf52_sig NrfSigCfgUpdate).
  - by apply (good_nrf52_sig NrfSigHwResetOff).
  - by apply (good_nrf52_sig NrfSigCfgReqTimeout).
  - apply good_green_led. intros g Hg. destruct (on_green_led_update_run
      (if leds_green_led_state env then ADV_POST_GREEN_LED_CMD_ON else ADV_POST_GREEN_LED_CMD_OFF) g Hg) as (g' & es & H').
    by exists tt, g', es.
  - apply good_green_led. intros g Hg. destruct (on_green_led_update_run ADV_POST_GREEN_LED_CMD_UPDATE g Hg) as (g' & es & H').
    by exists tt, g', es.
  - unfold adv_post_handle_sig_recv_adv_timeout. repeat good_step.
Qed.
End handlers_good.

(** ** The handler that may abort a transfer, and the loop *)

Section task_good.
Context `{CaUart, FreeRtos} (task : os_task_handle_t).

Definition mqtt_in_progress (st : adv_post_all_t) : Prop :=
  flag_async_comm_in_progress (all_flags st) = true ∧
  g_adv_post_action (all_async st) = ADV_POST_ACTION_POST_ADVS_TO_MQTT.

(** The state and the calls of the handler. *)
Definition relaying_aborts env (st : adv_post_all_t) : bool :=
  negb (relaying_via_http_enabled env) && flag_async_comm_in_progress (all_flags st).

Definition relaying_state env (st : adv_post_all_t) : adv_post_all_t :=
  let a := all_async st in
  let s1 := (ap a) <| flag_relaying_enabled := relaying_via_http_enabled env |> in
  st <| all_async := a <| ap :=
    if relaying_aborts env st then s1 <| flag_async_comm_in_progress := false |> else s1 |> |>.

Definition relaying_calls env (st : adv_post_all_t) : list all_ev :=
  (if relaying_aborts env st
   then [AllAsync (AsyncTimer (OneShotStop ADV_POST_ONE_SHOT_TIMER_SIG_DO_ASYNC_COMM)); AllHttpAbort;
         AllAsync HttpServerMutexUnlock]
   else []) ++ [AllClearRelayingCmd].

Lemma relaying_run env st :
  run (adv_post_handle_sig_relaying_mode_changed env) st tt (relaying_state env st) (relaying_calls env st).
Proof.
  unfold adv_post_handle_sig_relaying_mode_changed, relaying_state, relaying_calls, relaying_aborts.
  destruct st as [[[] ? ? ? ? ? ? ? ?] g c n k]. cbn.
  destruct (relaying_via_http_enabled env); [reflexivity|]. destruct flag_async_comm_in_progress; reflexivity.
Qed.

Lemma relaying_inv env st : all_inv task st → all_inv task (relaying_state env st).
Proof.
  intros [[Ht Hq] Hg Hc]. split; [|done|done]. split; [done|].
  unfold relaying_state, relaying_aborts. cbn.
  destruct (negb (relaying_via_http_enabled env) && flag_async_comm_in_progress (all_flags st)); [done|exact Hq].
Qed.

Lemma relaying_resources env st :
  relaying_via_http_enabled env = true ∨ ¬ mqtt_in_progress st →
  all_resources (owned (all_async st)) (relaying_calls env st) = Some (owned (all_async (relaying_state env st))).
Proof.
  intros Hor. unfold relaying_calls, relaying_state, relaying_aborts, owned, all_flags.
  destruct (relaying_via_http_enabled env) eqn:He; cbn.
  - unfold owned. cbn. reflexivity.
  - destruct Hor as [[=]|Hm]. unfold mqtt_in_progress, all_flags in Hm.
    destruct (flag_async_comm_in_progress (ap (all_async st))) eqn:Hp; cbn.
    + rewrite bool_decide_false; [done|]. intros Ha. by apply Hm.
    + by rewrite Hp.
Qed.

Lemma sig_run env sig st :
  sig_env_ok task env → all_inv task st →
  ∃ b st' es, run (adv_post_handle_sig env sig) st b st' es ∧ all_inv task st' ∧
    (sig = ADV_POST_SIG_RELAYING_MODE_CHANGED → relaying_via_http_enabled env = true ∨ ¬ mqtt_in_progress st →
     all_resources (owned (all_async st)) es = Some (owned (all_async st'))) ∧
    (sig ≠ ADV_POST_SIG_RELAYING_MODE_CHANGED →
     all_resources (owned (all_async st)) es = Some (owned (all_async st'))).
Proof.
  intros He Hi. unfold adv_post_handle_sig.
  destruct (decide (sig = ADV_POST_SIG_RELAYING_MODE_CHANGED)) as [->|Hs].
  - eexists _, (relaying_state env st), (relaying_calls env st ++ []). split_and!.
    + eapply run_bind; [apply relaying_run|]. run_step. apply run_ret.
    + by apply relaying_inv.
    + intros _ Hor. rewrite app_nil_r. by apply relaying_resources.
    + done.
  - destruct (good_sig_handler task env He sig Hs st Hi) as ([] & st' & es & R & I & Q).
    eexists _, st', (es ++ []). split_and!; [eapply run_bind; [exact R|]; run_step; apply run_ret|done|done|].
    intros _. by rewrite app_nil_r.
Qed.
End task_good.
