(* ===== verification/AdvRecvInv.v ===== *)
(** * What the receiver keeps and does

    The callbacks of adv_post.c are [good], what a received advertisement does to the
    table, and the operations of the whole: a signal, a callback, or a reply. *)

From S2P Require Import Prelude AdvTable AdvTableInv AdvTableSpec AdvTableRefine EventMgr LedsBlinking GwCfg.
From S2P Require Import AdvPostSig AdvPostNrf52 AdvPostNrf52Inv AdvPostTimers AdvPostAsync AdvPostAsyncInv.
From S2P Require Import NetworkTimeout AdvPostCfgCache AdvPostGreenLed AdvPostState AdvRecv AdvRecvFacts.
From S2P Require Import AdvPostSignals AdvPostTaskInv.
Open Scope Z_scope.

Section recv.
Context `{CaUartReports} (task : os_task_handle_t).
Implicit Types (env : recv_env) (msg : re_ca_uart_payload_t).

Local Notation good := (good task).

(** ** Specifications *)

(** A message the parser accepts; the driver delivers the bytes it announces. *)
Definition is_report msg : bool :=
  ((RE_CA_UART_ADV_RPRT =? uart_cmd msg) || (RE_CA_UART_ADV_RPRT2 =? uart_cmd msg)) &&
  (0 <? uart_adv_len (uart_params_adv msg)) && (uart_adv_len (uart_params_adv msg) <=? 48).

Definition msg_ok msg : Prop :=
  0 ≤ uart_adv_len (uart_params_adv msg) ≤ Z.of_nat (length (uart_adv (uart_params_adv msg))).

(** The report of a message: its data followed by zeros. *)
Definition report_of_msg (timestamp : Z) msg : adv_report_t :=
  let m := uart_params_adv msg in
  AdvReport timestamp 0 (mac_address_bin_init (uart_mac m)) (uart_rssi_db m) (uart_primary_phy m)
    (uart_secondary_phy m) (uart_ch_index m) (uart_is_coded_phy m) (uart_tx_power m) (uart_adv_len m)
    (take (Z.to_nat (uart_adv_len m)) (uart_adv m) ++ drop (Z.to_nat (uart_adv_len m)) (replicate 48 0)).

(** Whether the filter lets an address through. *)
Definition mac_allowed (c : adv_post_cfg_cache_t) (m : mac_address_bin_t) : bool :=
  match scan_filter_length c with
  | 0 => true
  | _ => Bool.eqb (scan_filter_allow_listed c) (bool_decide (m ∈ default [] (p_arr_of_scan_filter_mac c)))
  end.

(** The timestamp: the time, 0 while it is unknown, or the count of reports. *)
Definition recv_timestamp env (c : adv_post_cfg_cache_t) : Z :=
  if flag_use_ntp c then if recv_time_is_synchronized env then recv_time env else 0 else metrics_received_advs_get env.

(** The receiver is ready for reports. *)
Definition recv_ready env (st : adv_post_all_t) : bool :=
  flag_nrf52_configured (all_nrf52 st) && gw_cfg_is_initialized env && cfg_cache_free env.

(** ** Runs *)

Lemma parse_run msg ts :
  msg_ok msg →
  parse_adv_report_from_uart (Some msg) ts zero_report =
    Done (if is_report msg then Some (report_of_msg ts msg) else None).
Proof.
  intros [H0 Hl]. unfold parse_adv_report_from_uart, is_report. cbn [data_buf zero_report].
  rewrite length_replicate. change (Z.of_nat 48) with 48.
  set (len := uart_adv_len (uart_params_adv msg)) in *.
  rewrite <- negb_orb. destruct (_ || _); cbn [negb andb]; [|done].
  destruct (Z.ltb_spec 48 len), (Z.eqb_spec 0 len), (Z.ltb_spec 0 len), (Z.leb_spec len 48); try lia; cbn [andb]; try done.
  by rewrite (proj2 (Z.ltb_ge _ _)) by lia.
Qed.

Lemma filtered_out_run c m :
  cfg_cache_inv c → adv_post_check_if_mac_filtered_out c m = Done (negb (mac_allowed c m)).
Proof.
  intros [H0 Hor]. unfold adv_post_check_if_mac_filtered_out, mac_allowed.
  destruct (scan_filter_length c) as [|p|p] eqn:Hl; [done| |lia].
  destruct Hor as [?|(a & Ha & Hla)]; [done|]. cbn [Z.eqb]. rewrite Ha, Hla, Nat2Z.id, mac_in_filter_all. cbn.
  destruct (scan_filter_allow_listed c), (bool_decide (m ∈ a)); done.
Qed.

(** Whether reports of an address are logged: one of at most three allowed ones. *)
Definition mac_logged (c : adv_post_cfg_cache_t) (m : mac_address_bin_t) : bool :=
  scan_filter_allow_listed c && (0 <? scan_filter_length c) &&
  (scan_filter_length c <=? ADV_POST_MAX_NUM_SCAN_FILTERS_FOR_LOGGING) &&
  bool_decide (m ∈ default [] (p_arr_of_scan_filter_mac c)).

(** Logging does not fail if the chunks of the data can be read. *)
Lemma log_run c r st :
  cfg_cache_inv c → (mac_logged c (tag_mac r) = true → ∃ id, get_ble_manuf_id r = Done id) →
  run (adv_post_log_adv_report r c) st tt st [].
Proof.
  intros [H0 Hor] Hid. unfold adv_post_log_adv_report. unfold mac_logged in Hid.
  destruct (scan_filter_allow_listed c && (0 <? scan_filter_length c) && _) eqn:E; [|apply run_skip].
  apply andb_true_iff in E as [[_ E%Z.ltb_lt]%andb_true_iff _].
  destruct Hor as [?|(a & Ha & Hla)]; [lia|]. rewrite Ha, Hla, Nat2Z.id, mac_in_filter_all. cbn [lift].
  eapply run_bind_silent; [apply run_ret|]. cbv beta. rewrite Ha in Hid. cbn [default andb] in Hid.
  destruct (bool_decide _); [|apply run_skip]. destruct Hid as [id ->]; [done|]. eapply run_bind_silent; [apply run_ret|apply run_skip].
Qed.
Lemma is_configured_run st :
  run (in_nrf52 adv_post_nrf52_is_configured) st (flag_nrf52_configured (all_nrf52 st)) st
    [AllGreenLed (GlNrf52 NrfMutexLock); AllGreenLed (GlNrf52 NrfMutexUnlock)].
Proof. by destruct st as [a [? ? ? ? n] c w k]. Qed.

Definition cache_locked (c : adv_post_cfg_cache_t) : adv_post_cfg_cache_t :=
  c <| g_p_adv_post_cfg_cache_access_mutex := true |>.

Lemma try_lock_run free c :
  run (adv_post_cfg_cache_mutex_try_lock free) c free (cache_locked c)
    ((if g_p_adv_post_cfg_cache_access_mutex c then [] else [CcMutexCreate]) ++ [CcMutexTryLock free]).
Proof. by destruct c as [? ? ? ? []]. Qed.

Lemma unlock_run st :
  run (in_cfg_cache adv_post_cfg_cache_mutex_unlock) st tt st [AllCfgCache CcMutexUnlock].
Proof. by destruct st. Qed.

(** The report that reaches the table. *)
Definition recv_accepts env (st : adv_post_all_t) msg : bool :=
  let c := all_cfg_cache st in
  is_report msg && mac_allowed c (tag_mac (report_of_msg (recv_timestamp env c) msg)) &&
  (negb (flag_use_ntp c) || recv_time_is_synchronized env).

Definition recv_table (st : adv_post_all_t) : adv_table_t := async_table (all_async st).

(** The report is logged before it is put into the table: its tag is one of at most
    three allowed ones. *)
Definition recv_logs (st : adv_post_all_t) msg : bool :=
  is_report msg && mac_logged (all_cfg_cache st) (tag_mac (report_of_msg 0 msg)).

(** What a program of the receiver does: it keeps the invariant and the resources,
    it does [accepted] to the table, and notifies as told. *)
Definition recv_does (m : allprog unit) (st : adv_post_all_t) (r : adv_report_t) (accepted : bool) : Prop :=
  ∃ st' es, run m st tt st' es ∧ all_inv task st' ∧
    all_resources (owned (all_async st)) es = Some (owned (all_async st')) ∧
    absr (recv_table st') ≡ (if accepted then snd (spec_put r (absr (recv_table st))) else absr (recv_table st)) ∧
    (AllEventNotify EVENT_MGR_EV_RECV_ADV ∈ es ↔ accepted && fst (spec_put r (absr (recv_table st))) = true).

Lemma put_run r st :
  async_inv (all_async st) → data_len r ≤ ADV_DATA_MAX_LEN →
  ∃ b t, run (adv_put_to_table r) st b (st <| all_async := (all_async st) <| async_table := t |> |>)
      (AllMetricsReceivedInc (secondary_phy r) :: [AllAsync (AsyncTable AdvMutexLock); AllAsync (AsyncTable AdvMutexUnlock)]) ∧
    table_ok t ∧ b = fst (spec_put r (absr (recv_table st))) ∧ absr t ≡ snd (spec_put r (absr (recv_table st))).
Proof.
  intros [[Ht Hok] _] Hr. destruct (put_unsafe_run _ r Ht Hok) as (b & t & R & I & B & A).
  assert (It : table_ok t) by (split; [done|]; rewrite A; by apply reports_ok_put).
  exists b, t. split_and!; try done.
  unfold adv_put_to_table. apply run_bind_emit.
  apply with_mutex_run, in_table_run in R.
  change [AllAsync (AsyncTable AdvMutexLock); AllAsync (AsyncTable AdvMutexUnlock)]
    with ((λ e, AllAsync e) <$> (AsyncTable <$> [AdvMutexLock; AdvMutexUnlock])).
  rewrite <- (bind_singletons AllAsync).
  apply (run_zoom all_async (λ t st, st <| all_async := t |>)). apply run_map_events, R.
Qed.
(** Calls and a step of the state that concern neither table nor transfers. *)
Record quiet (st st' : adv_post_all_t) (es : list all_ev) : Prop := Quiet {
  quiet_inv : all_inv task st';
  quiet_async : owned (all_async st') = owned (all_async st);
  quiet_table : recv_table st' = recv_table st;
  quiet_resources : ∀ r, all_resources r es = Some r;
  quiet_notify : AllEventNotify EVENT_MGR_EV_RECV_ADV ∉ es;
}.

Lemma quiet_bind {A} (m : allprog A) (k : A → allprog unit) st a st1 es r b :
  run m st a st1 es → quiet st st1 es → recv_does (k a) st1 r b → recv_does (m ≫= k) st r b.
Proof.
  intros Hm [Hi Ho Ht Hr Hn] (st' & es' & R & I & Q & T & N). exists st', (es ++ es'). split_and!.
  - by eapply run_bind.
  - done.
  - by rewrite all_resources_app, Hr, <- Ho.
  - by rewrite <- Ht.
  - rewrite <- Ht, <- N. rewrite elem_of_app. naive_solver.
Qed.

Lemma quiet_end (m : allprog unit) st st' es r :
  run m st tt st' es → quiet st st' es → recv_does m st r false.
Proof.
  intros Hm [Hi Ho Ht Hr Hn]. exists st', es. split_and!; [done|done|by rewrite Hr, Ho|by rewrite Ht|].
  split; [|intros E; by rewrite andb_false_l in E].  intros E. by destruct Hn.
Qed.

Lemma quiet_calls st es :
  all_inv task st → (∀ r, all_resources r es = Some r) → AllEventNotify EVENT_MGR_EV_RECV_ADV ∉ es → quiet st st es.
Proof. by split. Qed.

Ltac quiet_es := first [by intros [] | by intros []; cbn; repeat case_match | set_solver].

Lemma recv_end_does st r : all_inv task st → recv_does (in_cfg_cache adv_post_cfg_cache_mutex_unlock) st r false.
Proof. intros Hi. eapply quiet_end; [apply unlock_run|]. apply quiet_calls; [done|by intros []|set_solver]. Qed.

Lemma recv_skip_does st r : all_inv task st → recv_does skip st r false.
Proof. intros Hi. eapply quiet_end; [apply run_skip|]. by apply quiet_calls; [|intros []|set_solver]. Qed.

(** The last step: the report is put into the table. *)
Lemma recv_put_does r st :
  data_len r ≤ ADV_DATA_MAX_LEN → all_inv task st →
  recv_does (put ← adv_put_to_table r;
             (if negb put then skip else emit (AllEventNotify EVENT_MGR_EV_RECV_ADV)) ;;
             in_cfg_cache adv_post_cfg_cache_mutex_unlock) st r true.
Proof.
  intros Hr [Ha Hg Hc]. destruct (put_run r st Ha Hr) as (b & t & R & I & B & A).
  set (st1 := st <| all_async := (all_async st) <| async_table := t |> |>) in *.
  exists st1. eexists (_ ++ (if b then [AllEventNotify EVENT_MGR_EV_RECV_ADV] else []) ++ [AllCfgCache CcMutexUnlock]).
  split_and!.
  - eapply run_bind; [exact R|]. eapply run_bind with (a := tt); [|apply unlock_run]. by destruct b.
  - split; [|done|done]. destruct Ha. by split.
  - by destruct b.
  - exact A.
  - rewrite <- B. destruct b; split; try done; [intros _|]; set_solver.
Qed.

Lemma recv_adv_does env msg st :
  all_inv task st → msg_ok msg →
  (recv_ready env st = true → recv_logs st msg = true → ∃ id, get_ble_manuf_id (report_of_msg 0 msg) = Done id) →
  recv_does (adv_post_nrf52_cb_on_recv_adv env (Some msg)) st
    (report_of_msg (recv_timestamp env (all_cfg_cache st)) msg) (recv_ready env st && recv_accepts env st msg).
Proof.
  intros Hi Hmsg Hid. set (c := all_cfg_cache st). set (r := report_of_msg (recv_timestamp env c) msg).
  unfold adv_post_nrf52_cb_on_recv_adv, recv_ready in *.
  eapply quiet_bind; [apply is_configured_run|apply quiet_calls; [done|by intros []|set_solver]|].
  destruct (flag_nrf52_configured (all_nrf52 st)); cbn [negb andb]; [|by apply recv_skip_does].
  destruct (gw_cfg_is_initialized env); cbn [negb andb]; [|by apply recv_skip_does].
  set (st1 := st <| g_adv_post_advs_cnt := u32 (g_adv_post_advs_cnt st + 1) |>).
  assert (I1 : all_inv task st1) by (destruct Hi; by split).
  eapply (quiet_bind _ _ _ tt st1 []); [reflexivity|split; [done|done|done|by intros []|set_solver]|].
  set (c1 := cache_locked c). set (st2 := st1 <| all_cfg_cache := c1 |>).
  assert (I2 : all_inv task st2) by (destruct I1 as [? ? Hc]; split; [done|done|exact Hc]).
  eapply (quiet_bind _ _ _ (cfg_cache_free env) st2).
  { apply in_cfg_cache_run. apply try_lock_run. }
  { split; [done|done|done|intros ?; apply cfg_cache_silent|]. destruct (g_p_adv_post_cfg_cache_access_mutex _); set_solver. }
  destruct (cfg_cache_free env); cbn [negb andb]; [|by apply recv_skip_does].
  eapply (quiet_bind _ _ _ c1 st2 []); [reflexivity|apply quiet_calls; [done|by intros []|set_solver]|].
  cbv zeta. change (if flag_use_ntp c1 then _ else _) with (recv_timestamp env c). rewrite parse_run by done.
  cbn [lift]. eapply (quiet_bind _ _ _ _ st2 []); [apply run_ret|apply quiet_calls; [done|by intros []|set_solver]|].
  unfold recv_accepts. unfold recv_logs in Hid. fold c r. fold c in Hid.
  destruct (is_report msg) eqn:Hrep; cbn [andb]; [|by apply recv_end_does]. cbn [andb] in Hid.
  assert (Hlen : data_len r ≤ ADV_DATA_MAX_LEN).
  { unfold is_report in Hrep. apply andb_true_iff in Hrep as [_ Hrep%Z.leb_le]. exact Hrep. }
  fold r. rewrite filtered_out_run by apply (all_cfg_cache_inv _ _ I2).
  change (mac_allowed c1) with (mac_allowed c).
  cbn [lift]. eapply (quiet_bind _ _ _ _ st2 []); [apply run_ret|apply quiet_calls; [done|by intros []|set_solver]|].
  cbv beta. destruct (mac_allowed c (tag_mac r)); cbn [negb andb]; [|by apply recv_end_does].
  eapply (quiet_bind _ _ _ tt st2 [AllAsync (AsyncTimer (OneShotRelaunch ADV_POST_ONE_SHOT_TIMER_SIG_RECV_ADV_TIMEOUT true))]);
    [by destruct st as [[]]|apply quiet_calls; [done|by intros []|set_solver]|].
  eapply (quiet_bind _ _ _ tt st2 []);
    [apply log_run; [apply (all_cfg_cache_inv _ _ I2)|exact (Hid eq_refl)]|apply quiet_calls; [done|by intros []|set_solver]|].
  change (flag_use_ntp c1) with (flag_use_ntp c).
  destruct (flag_use_ntp c); cbn [negb andb orb]; [destruct (recv_time_is_synchronized env); cbn [negb]|].
  - by apply recv_put_does.
  - by apply recv_end_does.
  - by apply recv_put_does.
Qed.
End recv.

(** ** The firmware part as a whole: signals and callbacks, in any order *)

Inductive all_op :=
| OpSig (env : sig_env) (sig : adv_post_sig_e)
| OpRecvAdv (env : recv_env) (msg : re_ca_uart_payload_t)
| OpRecvAck (ack_cmd ack_state : Z)
| OpRecvDeviceId (id addr : Z)
| OpRecvGetAll
| OpSetDefaultPeriod (period_ms : Z)
| OpSetHmacKey (env : async_env) (key : string).

Section all_ops.
Context `{CaUart, FreeRtos, CaUartReports} (task : os_task_handle_t).

Definition exec_all_op (op : all_op) : allprog unit :=
  match op with
  | OpSig env sig => adv_post_handle_sig env sig ;; skip
  | OpRecvAdv env msg => adv_post_nrf52_cb_on_recv_adv env (Some msg)
  | OpRecvAck cmd s => adv_post_nrf52_cb_on_recv_ack cmd s
  | OpRecvDeviceId id addr => adv_post_nrf52_cb_on_recv_device_id id addr
  | OpRecvGetAll => adv_post_nrf52_cb_on_recv_get_all
  | OpSetDefaultPeriod p => in_async (adv_post_set_default_period p)
  | OpSetHmacKey env key => in_async (adv_post_set_hmac_sha256_key env key) ;; skip
  end.

(** The data of a received advertisement is made of whole chunks. *)
Definition adv_well_formed (msg : re_ca_uart_payload_t) : Prop :=
  ∃ cs, take (Z.to_nat (uart_adv_len (uart_params_adv msg))) (uart_adv (uart_params_adv msg)) = encode_chunks cs ∧
    Forall (λ c, Forall byte c.2) cs.

Definition all_op_ok (op : all_op) : Prop :=
  match op with
  | OpSig env _ => sig_env_ok task env
  | OpRecvAdv _ msg => msg_ok msg ∧ byte (uart_adv_len (uart_params_adv msg)) ∧ adv_well_formed msg
  | _ => True
  end.

(** Relaying is not switched off while reports are published by MQTT. *)
Definition relaying_kept (op : all_op) (st : adv_post_all_t) : Prop :=
  match op with
  | OpSig env ADV_POST_SIG_RELAYING_MODE_CHANGED => relaying_via_http_enabled env = true ∨ ¬ mqtt_in_progress st
  | _ => True
  end.

Lemma get_ble_manuf_id_chunks r cs :
  Forall (λ c, Forall byte c.2) cs → data_len r = Z.of_nat (length (encode_chunks cs)) →
  take (length (encode_chunks cs)) (data_buf r) = encode_chunks cs → Z.of_nat (length (data_buf r)) < 2 ^ 31 →
  get_ble_manuf_id r = Done (manuf_of cs).
Proof.
  intros Hb Hn Ht Hl. unfold get_ble_manuf_id.
  assert (Hle : (length (encode_chunks cs) ≤ length (data_buf r))%nat) by (rewrite <- Ht at 1; rewrite length_take; lia).
  destruct (Z.ltb_spec (data_len r) BLE_MSG_CHUNK_DATA_OFFSET) as [Hs|Hs].
  - destruct cs as [|[ty pl] cs]; [done|]. unfold BLE_MSG_CHUNK_DATA_OFFSET in Hs. rewrite Hn in Hs. cbn in Hs. lia.
  - rewrite <- (take_drop (length (encode_chunks cs)) (data_buf r)) at 2. rewrite Ht, Hn.
    apply (manuf_loop_run cs _ []); [done|lia|cbn; lia].
Qed.

Lemma well_formed_manuf msg ts :
  msg_ok msg → byte (uart_adv_len (uart_params_adv msg)) → adv_well_formed msg →
  ∃ id, get_ble_manuf_id (report_of_msg ts msg) = Done id.
Proof.
  intros [Hge Hl] H255 (cs & Hcs & Hb). exists (manuf_of cs).
  set (n := Z.to_nat (uart_adv_len (uart_params_adv msg))) in *.
  assert (Hn : length (encode_chunks cs) = n) by (rewrite <- Hcs, length_take; lia).
  apply get_ble_manuf_id_chunks; [done|cbn; lia| |].
  - cbn [report_of_msg data_buf]. fold n. by rewrite Hcs, take_app_length' by done.
  - cbn [report_of_msg data_buf]. fold n. rewrite length_app, length_take, length_drop, length_replicate. unfold byte in H255. lia.
Qed.

Lemma async_inv_timers a t : async_inv a → async_inv (a <| async_timers := t |>).
Proof. intros [Ht Hq]. by split. Qed.

Lemma good_default_period p : good task (in_async (adv_post_set_default_period p)).
Proof.
  apply good_async. intros a Hi. unfold adv_post_set_default_period.
  assert (Hgo : ∀ m : tmprog unit, (∀ t, ∃ t', run m t tt t' []) →
    ∃ x a' es, run (in_timers m) a x a' es ∧ async_inv a' ∧ resources (owned a) es = Some (owned a')).
  { intros m Hm. destruct (Hm (async_timers a)) as (t' & R).
    exists tt, (a <| async_timers := t' |>), []. split_and!; [by apply (in_timers_run m a tt t' [])|by apply async_inv_timers|done]. }
  destruct (g_adv_post_action a) eqn:Ha.
  1,4,5: exists tt, a, []; split_and!; [run_step; rewrite Ha; apply run_skip|done|done].
  - destruct (Hgo (adv1_post_timer_set_default_period_by_server_resp p)) as (x & a' & es & R & H');
      [intros t; eexists; reflexivity|]. exists x, a', es. split; [run_step; rewrite Ha; exact R|done].
  - destruct (Hgo (adv2_post_timer_set_default_period_by_server_resp p)) as (x & a' & es & R & H');
      [intros t; eexists; reflexivity|]. exists x, a', es. split; [run_step; rewrite Ha; exact R|done].
Qed.

Lemma good_hmac_key env key : good task (in_async (adv_post_set_hmac_sha256_key env key)).
Proof.
  apply good_async. intros a Hi. unfold adv_post_set_hmac_sha256_key.
  destruct (g_adv_post_action a) eqn:Ha; eexists _, a, _;
    (split; [run_step; rewrite Ha; first [apply run_ret|apply run_bind_emit, run_ret]|]); (split; [done|]);
    unfold owned; by repeat case_match.
Qed.

Lemma good_recv_ack cmd s : good task (adv_post_nrf52_cb_on_recv_ack cmd s).
Proof.
  apply good_green_led. intros g [Ht Hm Hn]. set (env := Nrf52Env task false false).
  destruct (nrf52_step task env (NrfAsyncAck cmd s) _ Hn) as (n' & es & R & Hp); [by split|].
  eexists tt, (g <| green_led_nrf52 := n' |>), _. split; [|split; [done|done|apply Hp]].
  apply (run_zoom green_led_nrf52 (λ t st, st <| green_led_nrf52 := t |>)). apply run_map_events, R.
Qed.

Lemma good_recv_get_all : good task adv_post_nrf52_cb_on_recv_get_all.
Proof.
  apply good_bind; [|intros _; by apply good_emit]. apply good_green_led. intros g [Ht Hm Hn].
  eexists tt, (g <| g_adv_post_green_led_disabled := true |>), _. split; [|by split].
  unfold adv_post_green_led_async_disable. run_step. rewrite Hm. apply run_bind_emit. run_step. apply run_emit.
Qed.

Lemma good_device_id id addr : good task (adv_post_nrf52_cb_on_recv_device_id id addr).
Proof.
  unfold adv_post_nrf52_cb_on_recv_device_id.
  pose proof (u64_loop_run id 8 8 [] (replicate 8 0) eq_refl eq_refl ltac:(lia)) as E1.
  pose proof (u64_loop_run addr 6 6 [] (replicate 6 0) eq_refl eq_refl ltac:(lia)) as E2.
  unfold u64_to_array. cbn [app] in E1, E2.
  change (u8 (8 - 1)) with (Z.of_nat 8 - 1). change (u8 (6 - 1)) with (Z.of_nat 6 - 1).
  change (Z.to_nat 8) with 8%nat. change (Z.to_nat 6) with 6%nat. rewrite E1, E2. cbn [lift].
  apply good_bind; [apply good_ret|intros l1]. apply good_bind; [apply good_ret|intros l2]. by apply good_emit.
Qed.

(** Every operation ends without fault and keeps the invariant; the resources are
    those of the transfer unless relaying is switched off during MQTT. *)
Lemma all_op_run op st :
  all_inv task st → all_op_ok op →
  ∃ st' es, run (exec_all_op op) st tt st' es ∧ all_inv task st' ∧
    (relaying_kept op st → all_resources (owned (all_async st)) es = Some (owned (all_async st'))).
Proof.
  intros Hi Ho. destruct op as [env sig|env msg|cmd s|id addr| |p|env key]; cbn [all_op_ok exec_all_op] in *.
  - destruct (sig_run task env sig st Ho Hi) as (b & st' & es & R & I & Q1 & Q2). exists st', (es ++ []).
    split_and!; [eapply run_bind; [exact R|apply run_skip]|done|]. rewrite app_nil_r. intros Hk.
    destruct (decide (sig = ADV_POST_SIG_RELAYING_MODE_CHANGED)) as [->|Hs]; auto.
  - destruct Ho as (Hm & Hb & Hw). destruct (recv_adv_does task env msg st Hi Hm (λ _ _, well_formed_manuf msg 0 Hm Hb Hw))
      as (st' & es & R & I & Q & _). by exists st', es.
  - destruct (good_recv_ack cmd s st Hi) as ([] & st' & es & R & I & Q). by exists st', es.
  - destruct (good_device_id id addr st Hi) as ([] & st' & es & R & I & Q). by exists st', es.
  - destruct (good_recv_get_all st Hi) as ([] & st' & es & R & I & Q). by exists st', es.
  - destruct (good_default_period p st Hi) as ([] & st' & es & R & I & Q). by exists st', es.
  - destruct (good_bind _ _ (λ _, skip) (good_hmac_key env key) (λ _, good_skip task) st Hi) as ([] & st' & es & R & I & Q).
    by exists st', es.
Qed.
End all_ops.
