(* ===== verification/Examples.v ===== *)
(** * Concrete values for the examples of the advertisement task *)

From S2P Require Import Prelude AdvTable AdvTableInv AdvTableSpec AdvTableRefine EventMgr LedsBlinking GwCfg.
From S2P Require Import AdvPostSig AdvPostNrf52 AdvPostNrf52Inv AdvPostTimers AdvPostAsync AdvPostAsyncInv.
From S2P Require Import NetworkTimeout AdvPostCfgCache AdvPostGreenLed AdvPostState AdvRecv AdvRecvFacts.
From S2P Require Import AdvPostSignals AdvPostTaskInv AdvRecvInv.
Open Scope Z_scope.

Definition ex_ca_uart : CaUart :=
  {| RE_CA_UART_LED_CTRL := 16; RE_CA_UART_SET_ALL := 14; RE_CA_BOOL_ENABLE := 1; RE_CA_BOOL_DISABLE := 0 |}.
Definition ex_task : os_task_handle_t := Some 1%nat.
Definition ex_env : nrf52_env := Nrf52Env ex_task false false.
Definition ex_scan : ruuvi_gw_cfg_scan_t := RuuviGwCfgScan false true true true true true false.
Definition ex_filter : ruuvi_gw_cfg_filter_t := RuuviGwCfgFilter 1177 true.

Definition ex_report : adv_report_t :=
  AdvReport 1700000000 0 [1; 2; 3; 4; 5; 6] (-60) 1 0 37 false 0 3 ([2; 1; 6] ++ replicate 45 0).

Definition ex_table : adv_table_t :=
  match adv_table_put ex_report init_state with Done (_, t, _) => t | Fault _ => init_state end.

Lemma ex_table_ok : table_ok ex_table.
Proof.
  destruct (put_unsafe_run init_state ex_report init_inv init_reports_ok) as (b & t & R & I & _ & HA).
  apply with_mutex_run in R. unfold ex_table, adv_table_put. unfold run in R. rewrite R. split; [exact I|].
  rewrite HA. apply reports_ok_put; [discriminate|apply init_reports_ok].
Qed.

Definition ex_flags : adv_post_state_t := AdvPostState true true false false false false true true true false.
Definition ex_async (t : adv_table_t) : async_t :=
  AsyncState ex_flags 5 ADV_POST_ACTION_NONE None 0 0 9 t g_adv_post_timers_init.
Definition ex_stat : http_json_statistics_info_t :=
  StatisticsInfo "AA:BB:CC:DD:EE:FF" "v1.15.0" "v1.0.0" 3600 0 true true 0 0 0 0 0 100000 90000 50000 40000
    "ESP_RST_POWERON" 1 EmptyString.
Definition ex_async_env : async_env :=
  AsyncEnv true true true true true true true None (Some EmptyString) true ex_stat true true true true true 1700000100 true true.

Lemma ex_async_inv t : table_ok t → async_inv (ex_async t).
Proof. by split. Qed.

Definition ex_freertos : FreeRtos := {| pdMS_TO_TICKS := λ ms, ms |}.

Definition ex_uart_reports : CaUartReports :=
  {| RE_CA_UART_ADV_RPRT := 10; RE_CA_UART_ADV_RPRT2 := 11; mac_address_bin_init := λ l, l |}.

(** A state in which everything is configured; the filter allows one tag. *)
Definition ex_mac : mac_address_bin_t := [1; 2; 3; 4; 5; 6].
Definition ex_nrf52 : adv_post_nrf52_t :=
  AdvPostNrf52State ex_scan ex_filter true true true false ex_task 0 false false 0 65535.
Definition ex_all (a : async_t) : adv_post_all_t :=
  AdvPostAll a (GreenLedState false ex_task false true ex_nrf52) (AdvPostCfgCache true true 1 (Some [ex_mac]) true)
    (NetworkTimeoutState 0 true) 0.

Lemma ex_all_inv a : async_inv a → all_inv ex_task (ex_all a).
Proof. intros Ha. split; [done|by split|]. split; [done|right; by exists [ex_mac]]. Qed.

Definition ex_timer_env : timer_env := TimerEnv (λ _, true) (λ _, 10000) 5000.
Definition ex_sig_env (relaying : bool) : sig_env :=
  SigEnv ex_env ex_timer_env ex_async_env true false 10 5 false ex_scan ex_filter
    (RuuviGwCfgScanFilter true 1 [ex_mac; ex_mac]) true relaying true.

Lemma ex_sig_env_ok b : sig_env_ok ex_task (ex_sig_env b).
Proof. split; [done|done|]. split; cbn; lia. Qed.

Definition ex_msg : re_ca_uart_payload_t :=
  CaUartPayload 10 (CaUartBleAdv ex_mac [2; 1; 6; 5; 255; 153; 4; 5; 18] 9 (-60) 1 0 37 false 4).
Definition ex_recv_env : recv_env := RecvEnv true true true 1700000000 7.

(** MQTT is in progress, before its first report. *)
Definition ex_publishing : async_t :=
  AsyncState (ex_flags <| flag_async_comm_in_progress := true |>) 5 ADV_POST_ACTION_POST_ADVS_TO_MQTT (Some zero_reports)
    0 0 9 init_state g_adv_post_timers_init.

Lemma ex_publishing_inv : async_inv ex_publishing.
Proof. split; [apply init_ok|]. intros _ _. exists zero_reports. split_and!; cbn; try done; lia. Qed.
