(* ===== verification/AdvPostNrf52Props.v ===== *)
(** * Properties of the commands to the nRF52 *)

From S2P Require Import Prelude EventMgr LedsBlinking GwCfg AdvPostSig AdvPostNrf52 AdvPostNrf52Inv Examples.
Open Scope Z_scope.

(** The static variables before the initialisation. *)
Definition nrf52_bss (scan : ruuvi_gw_cfg_scan_t) (filter : ruuvi_gw_cfg_filter_t) : adv_post_nrf52_t :=
  AdvPostNrf52State scan filter false false false false None 0 false false 0 0.

Section traces.
Context `{CaUart}.

(** ** Traces: each operation with the calls it makes *)

Inductive nrf52_trace : adv_post_nrf52_t → list (nrf52_env * nrf52_op) → adv_post_nrf52_t →
    list (nrf52_op * list nrf52_ev) → Prop :=
| nrf52_trace_nil st : nrf52_trace st [] st []
| nrf52_trace_cons st env op st1 es ops st2 tr :
    run (exec_nrf52_op env op) st tt st1 es → nrf52_trace st1 ops st2 tr →
    nrf52_trace st ((env, op) :: ops) st2 ((op, es) :: tr).

(** The same as a function. *)
Fixpoint nrf52_exec (st : adv_post_nrf52_t) (ops : list (nrf52_env * nrf52_op))
    : option (adv_post_nrf52_t * list (nrf52_op * list nrf52_ev)) :=
  match ops with
  | [] => Some (st, [])
  | (env, op) :: ops' =>
      match exec_nrf52_op env op st with
      | Done (_, st1, es) =>
          match nrf52_exec st1 ops' with Some (st2, tr) => Some (st2, (op, es) :: tr) | None => None end
      | Fault _ => None
      end
  end.

Lemma nrf52_exec_trace ops st st2 tr : nrf52_exec st ops = Some (st2, tr) → nrf52_trace st ops st2 tr.
Proof.
  revert st tr. induction ops as [|[env op] ops IH]; intros st tr He; cbn [nrf52_exec] in He.
  - simplify_eq. constructor.
  - destruct (exec_nrf52_op env op st) as [[[[] st1] es]|] eqn:R; [|done].
    destruct (nrf52_exec st1 ops) as [[st2' tr']|] eqn:E; simplify_eq. econstructor; [exact R|by apply IH].
Qed.

(** A new command is sent only if no acknowledgement is awaited. *)
Fixpoint one_at_a_time (waiting : bool) (tr : list (nrf52_op * list nrf52_ev)) : bool :=
  match tr with
  | [] => true
  | (op, es) :: tr' =>
      let w := waiting && negb (ends_wait op) in
      match commands es with
      | [] => one_at_a_time w tr'
      | [_] => negb w && one_at_a_time true tr'
      | _ => false
      end
  end.

(** The acknowledgement timer after an operation; the timeout is its expiry. *)
Definition timer_after (armed : bool) (x : nrf52_op * list nrf52_ev) : bool :=
  match last (timer_calls x.2) with
  | Some AckTimerRelaunch => true
  | Some _ => false
  | None => match x.1 with NrfSyncAckTimeout => false | _ => armed end
  end.

(** The timeouts since the last acknowledgement. *)
Fixpoint timeouts_since_ack (n : Z) (ops : list nrf52_op) : Z :=
  match ops with
  | [] => n
  | NrfSyncAckLedCtrl :: ops' | NrfSyncAckCfg :: ops' => timeouts_since_ack 0 ops'
  | NrfSyncAckTimeout :: ops' => timeouts_since_ack (n + 1) ops'
  | _ :: ops' => timeouts_since_ack n ops'
  end.

Definition ops_ok (task : os_task_handle_t) (ops : list (nrf52_env * nrf52_op)) : Prop :=
  Forall (λ x, nrf52_op_ok task x.1 x.2) ops.

Lemma nrf52_trace_det st ops s1 t1 s2 t2 :
  nrf52_trace st ops s1 t1 → nrf52_trace st ops s2 t2 → s1 = s2 ∧ t1 = t2.
Proof.
  intros H1. revert s2 t2. induction H1 as [|st env op st1 es ops st2 tr R T IH]; intros s2 t2 H2; inversion H2; subst.
  - done.
  - match goal with R' : run (exec_nrf52_op env op) st _ _ _ |- _ => destruct (run_det _ _ _ _ _ _ _ _ R R') as (_ & -> & ->) end.
    match goal with T' : nrf52_trace _ ops s2 _ |- _ => by destruct (IH _ _ T') as [-> ->] end.
Qed.

(** Induction over a trace that carries the postcondition of each operation. *)
Lemma nrf52_trace_ind_post task (P : adv_post_nrf52_t → list (nrf52_env * nrf52_op) → adv_post_nrf52_t →
    list (nrf52_op * list nrf52_ev) → Prop) :
  (∀ st, nrf52_inv task st → P st [] st []) →
  (∀ st env op st1 es ops st2 tr, nrf52_inv task st → nrf52_post task env op st st1 es →
     P st1 ops st2 tr → P st ((env, op) :: ops) st2 ((op, es) :: tr)) →
  ∀ ops st st2 tr, nrf52_inv task st → ops_ok task ops → nrf52_trace st ops st2 tr → P st ops st2 tr.
Proof.
  intros H0 H1 ops st st2 tr Hi Ho T. induction T as [st|st env op st1 es ops st2 tr R T IH]; [by apply H0|].
  inversion Ho as [|? ? Hop Hops]; subst.
  destruct (nrf52_step task env op st Hi Hop) as (st1' & es' & R' & Hp).
  destruct (run_det _ _ _ _ _ _ _ _ R R') as (_ & <- & <-).
  eapply H1; [done|done|]. apply IH; [apply Hp|done].
Qed.

Lemma nrf52_trace_exists task ops st :
  nrf52_inv task st → ops_ok task ops → ∃ st2 tr, nrf52_trace st ops st2 tr ∧ nrf52_inv task st2.
Proof.
  revert st. induction ops as [|[env op] ops IH]; intros st Hi Ho.
  - exists st, []. by split; [constructor|].
  - inversion Ho as [|? ? Hop Hops]; subst.
    destruct (nrf52_step task env op st Hi Hop) as (st1 & es & R & Hp).
    destruct (IH st1 (post_inv _ _ _ _ _ _ Hp) Hops) as (st2 & tr & T & I2).
    exists st2, ((op, es) :: tr). split; [by econstructor|done].
Qed.

Lemma nrf52_init_ok task env scan filter sc0 fi0 :
  cur_task env = task →
  ∃ st es, run (adv_post_nrf52_init env scan filter) (nrf52_bss sc0 fi0) tt st es ∧ nrf52_inv task st ∧
    g_adv_post_nrf52_is_waiting_ack st = false ∧ g_adv_post_nrf52_ack_timeout_cnt st = 0 ∧
    led_interval_valid st = false.
Proof.
  intros <-. destruct (nrf52_init_run env scan filter (nrf52_bss sc0 fi0) eq_refl) as (st & R & Hst).
  by exists st, nrf52_init_calls.
Qed.

Lemma timeouts_mod ops n :
  timeouts_since_ack n ops mod 10 = fold_left (λ n op, next_timeouts op n) ops (n mod 10).
Proof.
  revert n. induction ops as [|op ops IH]; intros n; [done|]. cbn [fold_left].
  destruct op; cbn [timeouts_since_ack next_timeouts]; try apply IH.
  rewrite IH. f_equal. change (ADV_POST_NRF52_NO_ACK_MAX_CNT - 1) with 9.
  destruct (n mod 10 =? 9) eqn:E; apply Z.eqb_eq in E || apply Z.eqb_neq in E;
    pose proof (Z.mod_pos_bound n 10); rewrite (Z.div_mod n 10) at 1 by lia.
  - rewrite E. symmetry. apply (Z.mod_unique_pos _ _ (n / 10 + 1)); lia.
  - symmetry. apply (Z.mod_unique_pos _ _ (n / 10)); lia.
Qed.

Lemma mod10_next n : (n mod 10 =? 9) = ((n + 1) mod 10 =? 0).
Proof.
  apply eq_bool_prop_intro. rewrite !Is_true_true, !Z.eqb_eq.
  pose proof (Z.mod_pos_bound n 10) as B1. pose proof (Z.div_mod n 10) as D1.
  pose proof (Z.mod_pos_bound (n + 1) 10) as B2. pose proof (Z.div_mod (n + 1) 10) as D2. lia.
Qed.

(** From the start: the initialisation, then any operations. *)
Inductive nrf52_run (task : os_task_handle_t) (ops : list (nrf52_env * nrf52_op)) (st : adv_post_nrf52_t)
    (tr : list (nrf52_op * list nrf52_ev)) : Prop :=
| Nrf52Run env0 sc0 fi0 scan filter st0 es0 :
    cur_task env0 = task → ops_ok task ops →
    run (adv_post_nrf52_init env0 scan filter) (nrf52_bss sc0 fi0) tt st0 es0 →
    nrf52_trace st0 ops st tr → nrf52_run task ops st tr.

Lemma nrf52_run_start task ops st tr :
  nrf52_run task ops st tr →
  ∃ st0, nrf52_inv task st0 ∧ g_adv_post_nrf52_is_waiting_ack st0 = false ∧
         g_adv_post_nrf52_ack_timeout_cnt st0 = 0 ∧ ops_ok task ops ∧ nrf52_trace st0 ops st tr.
Proof.
  intros [env0 sc0 fi0 scan filter st0 es0 Ht Ho R T].
  destruct (nrf52_init_ok task env0 scan filter sc0 fi0 Ht) as (st0' & es0' & R' & Hi & Hw & Hc & _).
  destruct (run_det _ _ _ _ _ _ _ _ R R') as (_ & <- & <-). by exists st0.
Qed.

Lemma ops_ok_app task ops1 ops2 : ops_ok task (ops1 ++ ops2) ↔ ops_ok task ops1 ∧ ops_ok task ops2.
Proof. apply Forall_app. Qed.

Lemma nrf52_trace_app st ops1 ops2 st2 tr :
  nrf52_trace st (ops1 ++ ops2) st2 tr ↔
  ∃ st1 tr1 tr2, nrf52_trace st ops1 st1 tr1 ∧ nrf52_trace st1 ops2 st2 tr2 ∧ tr = tr1 ++ tr2.
Proof.
  split.
  - revert st tr. induction ops1 as [|[env op] ops1 IH]; intros st tr T; cbn in T.
    + exists st, [], tr. by split; [constructor|].
    + inversion T as [|? ? ? st1 es ? ? tr' R T']; subst.
      destruct (IH _ _ T') as (st1' & tr1 & tr2 & T1 & T2 & ->).
      exists st1', ((op, es) :: tr1), tr2. split; [by econstructor|done].
  - intros (st1 & tr1 & tr2 & T1 & T2 & ->). induction T1; [done|]. cbn. econstructor; eauto.
Qed.

(** ** What the traces satisfy *)

Lemma one_at_a_time_weaken tr : one_at_a_time true tr = true → one_at_a_time false tr = true.
Proof.
  induction tr as [|[op es] tr IH]; [done|]. cbn. destruct (commands es) as [|c [|? ?]]; [|destruct (ends_wait op)|]; try done.
  destruct (ends_wait op); auto.
Qed.

Lemma trace_one_at_a_time task ops st st2 tr :
  nrf52_inv task st → ops_ok task ops → nrf52_trace st ops st2 tr →
  one_at_a_time (g_adv_post_nrf52_is_waiting_ack st) tr = true.
Proof.
  revert ops st st2 tr. apply (nrf52_trace_ind_post task (λ st _ _ tr, one_at_a_time _ tr = true)); [done|].
  intros st env op st1 es ops st2 tr Hi [_ Hc Hn _ _ _ _ _] IH. cbn.
  destruct (g_adv_post_nrf52_is_waiting_ack st && negb (ends_wait op)) eqn:Hw.
  - apply andb_true_iff in Hw as [Hw He%negb_true_iff]. destruct (Hn Hw He) as [-> Hw1].
    by rewrite Hw1 in IH.
  - destruct Hc as [->|(c & -> & Hw1 & _)].
    + destruct (g_adv_post_nrf52_is_waiting_ack st1); [by apply one_at_a_time_weaken|done].
    + by rewrite Hw1 in IH.
Qed.

Lemma trace_timer task ops st st2 tr b :
  nrf52_inv task st → ops_ok task ops → nrf52_trace st ops st2 tr →
  (g_adv_post_nrf52_is_waiting_ack st = true → b = true) →
  g_adv_post_nrf52_is_waiting_ack st2 = true → fold_left timer_after tr b = true.
Proof.
  intros Hi Ho T. revert b. pattern st, ops, st2, tr.
  apply (nrf52_trace_ind_post task); [| |done..].
  - intros s _ b Hb Hw. by apply Hb.
  - clear. intros st env op st1 es ops st2 tr Hi Hp IH b Hb Hw. cbn. apply IH; [|done].
    intros Hw1. destruct (post_timer _ _ _ _ _ _ Hp Hw1) as [(Hw0 & He & Ht)|Ht]; unfold timer_after; cbn [snd fst].
    + rewrite Ht. cbn. destruct op; try by apply Hb. discriminate He.
    + by rewrite Ht.
Qed.

Lemma trace_timeouts task ops st st2 tr :
  nrf52_inv task st → ops_ok task ops → nrf52_trace st ops st2 tr →
  g_adv_post_nrf52_ack_timeout_cnt st2 =
    fold_left (λ n op, next_timeouts op n) (ops.*2) (g_adv_post_nrf52_ack_timeout_cnt st).
Proof.
  revert ops st st2 tr.
  apply (nrf52_trace_ind_post task (λ st ops st2 _, _ st2 = fold_left _ (ops.*2) (_ st))); [done|].
  intros st env op st1 es ops st2 tr Hi Hp IH. cbn. by rewrite <- (post_timeouts _ _ _ _ _ _ Hp).
Qed.


Lemma trace_inv task ops st st2 tr :
  nrf52_inv task st → ops_ok task ops → nrf52_trace st ops st2 tr → nrf52_inv task st2.
Proof.
  intros Hi Ho T. destruct (nrf52_trace_exists task ops st Hi Ho) as (st2' & tr' & T' & Hi').
  by destruct (nrf52_trace_det _ _ _ _ _ _ T T') as [-> _].
Qed.



(** The last operation of a trace, with its postcondition. *)
Lemma trace_last task env op ops st st2 tr es :
  nrf52_inv task st → ops_ok task (ops ++ [(env, op)]) →
  nrf52_trace st (ops ++ [(env, op)]) st2 (tr ++ [(op, es)]) →
  ∃ st1, ops_ok task ops ∧ nrf52_trace st ops st1 tr ∧ nrf52_inv task st1 ∧ nrf52_post task env op st1 st2 es.
Proof.
  intros Hi [Ho1 Ho2]%ops_ok_app (st1 & tr1 & tr2 & T1 & T2 & Htr)%nrf52_trace_app.
  inversion T2 as [|? ? ? st2' es' ? ? tr' R T2']; subst. inversion T2'; subst.
  apply app_inj_tail in Htr as [-> [= ->]].
  assert (I1 : nrf52_inv task st1) by exact (trace_inv _ _ _ _ _ Hi Ho1 T1).
  apply Forall_cons in Ho2 as [Hop _].
  destruct (nrf52_step task env op st1 I1 Hop) as (st2' & es'' & R' & Hp).
  destruct (run_det _ _ _ _ _ _ _ _ R R') as (_ & <- & <-). by exists st1.
Qed.

Lemma run_keeps_inv task env op st st' es :
  run (exec_nrf52_op env op) st tt st' es → nrf52_inv task st → nrf52_op_ok task env op → nrf52_inv task st'.
Proof.
  intros R Hi Ho. destruct (nrf52_step task env op st Hi Ho) as (st2 & es2 & R2 & Hp).
  destruct (run_det _ _ _ _ _ _ _ _ R R2) as (_ & -> & _). apply Hp.
Qed.

(** ** Runs of single operations *)

(** What an update of the configuration leaves alone. *)
Definition same_wait (st st' : adv_post_nrf52_t) : Prop :=
  g_adv_post_nrf52_is_waiting_ack st' = g_adv_post_nrf52_is_waiting_ack st ∧
  g_adv_post_nrf52_last_cmd st' = g_adv_post_nrf52_last_cmd st.
Definition same_cfg (st st' : adv_post_nrf52_t) : Prop :=
  cfg_scan st' = cfg_scan st ∧ cfg_filter st' = cfg_filter st ∧ led_interval_valid st' = led_interval_valid st.

Lemma cfg_update_run env scan filter st :
  cfg_mutex st = true →
  ∃ st', run (exec_nrf52_op env (NrfCfgUpdate scan filter)) st tt st'
      [NrfMutexLock; NrfMutexUnlock; AdvTableClear; NrfSendSig ADV_POST_SIG_NRF52_CFG_UPDATE] ∧
    cfg_scan st' = scan ∧ cfg_filter st' = filter ∧ same_wait st st' ∧
    led_interval_valid st' = led_interval_valid st.
Proof.
  intros Hm. exists (st <| cfg_scan := scan |> <| cfg_filter := filter |> <| flag_nrf52_configured := false |>
    <| flag_nrf52_in_hw_reset_state := false |> <| flag_cfg_ready := true |>). split; [|by unfold same_wait; split_and!].
  cbn [exec_nrf52_op]. unfold adv_post_nrf52_cfg_update. apply assert_mutex_run; [done|].
  change [NrfMutexLock; NrfMutexUnlock; ?x; ?y] with ([NrfMutexLock; NrfMutexUnlock] ++ [x; y]).
  eapply run_bind; [apply assert_mutex_run; [done|apply with_cfg_mutex_run, run_modify]|].
  apply run_bind_emit. apply run_emit.
Qed.

Lemma sig_cfg_update_run env st :
  cfg_mutex st = true → g_adv_post_nrf52_task_handle st = cur_task env → nrf52fw_manual_reset_mode env = false →
  ∃ st', run (exec_nrf52_op env NrfSigCfgUpdate) st tt st'
      ([NrfMutexLock; NrfMutexUnlock] ++
       if g_adv_post_nrf52_is_waiting_ack st then []
       else [NrfMutexLock; NrfMutexUnlock; AckTimerRelaunch; send_all_call (cfg_scan st) (cfg_filter st)]) ∧
    same_cfg st st' ∧ g_adv_post_nrf52_is_waiting_ack st' = true ∧
    (if g_adv_post_nrf52_is_waiting_ack st then same_wait st st'
     else g_adv_post_nrf52_last_cmd st' = RE_CA_UART_SET_ALL).
Proof.
  intros Hm Ht Hn. set (st1 := st <| flag_nrf52_configured := false |> <| g_adv_post_nrf52_flag_cfg_required := true |>).
  exists (if g_adv_post_nrf52_is_waiting_ack st then st1 else send_cfg_state env st1). split.
  - cbn [exec_nrf52_op]. unfold adv_post_nrf52_on_sig_nrf52_cfg_update. apply assert_task_run; [done|].
    eapply run_bind; [apply assert_mutex_run; [done|apply with_cfg_mutex_run, run_modify]|].
    run_step. run_step. fold st1. same_field g_adv_post_nrf52_is_waiting_ack st1 st.
    destruct (g_adv_post_nrf52_is_waiting_ack st) eqn:Hw; [apply run_skip|].
    pose proof (send_cfg_run env st1 Hm Hw eq_refl eq_refl) as R. unfold send_cfg_calls in R. by rewrite Hn in R.
  - unfold send_cfg_state, same_wait, same_cfg. rewrite Hn.
    destruct (g_adv_post_nrf52_is_waiting_ack st) eqn:Hw; by split_and!.
Qed.

Lemma async_ack_set_all_run env st :
  RE_CA_UART_LED_CTRL ≠ RE_CA_UART_SET_ALL → g_adv_post_nrf52_last_cmd st = RE_CA_UART_SET_ALL →
  run (exec_nrf52_op env (NrfAsyncAck RE_CA_UART_SET_ALL 0)) st tt (st <| g_adv_post_nrf52_last_cmd := 0 |>)
    [NrfSendSig ADV_POST_SIG_NRF52_ACK_CFG].
Proof.
  intros Hne Hl. cbn [exec_nrf52_op]. unfold adv_post_nrf52_on_async_ack. run_step. run_step.
  rewrite Hl, Z.eqb_refl. cbn [negb]. rewrite (proj2 (Z.eqb_neq _ _)) by congruence. apply run_emit.
Qed.

Lemma sync_ack_cfg_run env st :
  cfg_mutex st = true → led_interval_valid st = false →
  ∃ st', run (exec_nrf52_op env NrfSyncAckCfg) st tt st'
      [AckTimerStop; NrfMutexLock; NrfMutexUnlock; AdvTableClear; NrfEventNotify EVENT_MGR_EV_NRF52_CONFIGURED] ∧
    same_cfg st st' ∧ flag_nrf52_configured st' = true ∧ g_adv_post_nrf52_flag_cfg_required st' = false ∧
    g_adv_post_nrf52_is_waiting_ack st' = false.
Proof.
  intros Hm Hl. exists (st <| g_adv_post_nrf52_ack_timeout_cnt := 0 |>
    <| g_adv_post_nrf52_is_waiting_ack := false |> <| g_adv_post_nrf52_flag_cfg_required := false |>
    <| flag_nrf52_configured := true |>). split; [|by unfold same_cfg; split_and!].
  cbn [exec_nrf52_op]. unfold adv_post_nrf52_on_sync_ack_cfg. run_step. apply run_bind_emit. run_step. run_step.
  change [NrfMutexLock; NrfMutexUnlock; ?x; ?y] with ([NrfMutexLock; NrfMutexUnlock] ++ [x; y]).
  eapply run_bind; [apply assert_mutex_run; [done|apply with_cfg_mutex_run, run_modify]|].
  apply run_bind_emit. rewrite <- (app_nil_r [_]). eapply run_bind; [apply run_emit|]. run_step.
  same_field led_interval_valid (st <| g_adv_post_nrf52_ack_timeout_cnt := 0 |>
    <| g_adv_post_nrf52_is_waiting_ack := false |> <| g_adv_post_nrf52_flag_cfg_required := false |>
    <| flag_nrf52_configured := true |>) st. rewrite Hl. apply run_skip.
Qed.

(** ** Claims *)

(** C10. After the initialisation no assertion of adv_post_nrf52.c fails, whatever
    signals, acknowledgements, timeouts and configuration updates arrive and in
    whatever order, as long as the task of the component handles them and never
    asks for the reserved LED interval. *)
Theorem nrf52_never_asserts task env0 scan filter sc0 fi0 ops :
  cur_task env0 = task → ops_ok task ops →
  ∃ st0 es0 st tr, run (adv_post_nrf52_init env0 scan filter) (nrf52_bss sc0 fi0) tt st0 es0 ∧
    nrf52_trace st0 ops st tr ∧ nrf52_inv task st.
Proof.
  intros Ht Ho. destruct (nrf52_init_ok task env0 scan filter sc0 fi0 Ht) as (st0 & es0 & R & Hi & _).
  destruct (nrf52_trace_exists task ops st0 Hi Ho) as (st & tr & T & I). by exists st0, es0, st, tr.
Qed.

(** C11. The nRF52 is sent one command at a time: between two commands there is an
    acknowledgement, a timeout, or a reset or reboot of the nRF52. *)
Theorem nrf52_one_command_at_a_time task ops st tr :
  nrf52_run task ops st tr → one_at_a_time false tr = true.
Proof.
  intros (st0 & Hi & Hw & _ & Ho & T)%nrf52_run_start. rewrite <- Hw. by eapply trace_one_at_a_time.
Qed.

(** C12. Whenever an acknowledgement is awaited, the acknowledgement timer runs (or
    its expiry is still to be handled). *)
Theorem nrf52_wait_has_timer task ops st tr :
  nrf52_run task ops st tr → g_adv_post_nrf52_is_waiting_ack st = true →
  fold_left timer_after tr false = true.
Proof.
  intros (st0 & Hi & Hw & _ & Ho & T)%nrf52_run_start. eapply trace_timer; [done..|]. by rewrite Hw.
Qed.

(** C13. A timeout of the acknowledgement resets the nRF52 if and only if it is the
    tenth in a row (the twentieth, and so on): only acknowledgements interrupt the row. *)
Theorem nrf52_reset_every_tenth_timeout task env ops st tr es :
  nrf52_run task (ops ++ [(env, NrfSyncAckTimeout)]) st (tr ++ [(NrfSyncAckTimeout, es)]) →
  resets es = ((timeouts_since_ack 0 (ops.*2) + 1) mod 10 =? 0).
Proof.
  intros (st0 & Hi & _ & Hc & Ho & T)%nrf52_run_start.
  destruct (trace_last _ _ _ _ _ _ _ _ Hi Ho T) as (st1 & Ho1 & T1 & _ & Hp).
  rewrite (post_reset _ _ _ _ _ _ Hp). cbn [op_resets].
  rewrite (trace_timeouts _ _ _ _ _ Hi Ho1 T1), Hc.
  pose proof (timeouts_mod (ops.*2) 0) as E. change (0 mod 10) with 0 in E. rewrite <- E. apply mod10_next.
Qed.


(** C29. A configuration that is updated while the acknowledgement of the previous
    one is awaited is lost: the acknowledgement clears the request and marks the
    nRF52 as configured, though only the previous configuration was sent. *)
Theorem nrf52_config_lost_on_earlier_ack task env scan1 filter1 scan2 filter2 :
  cur_task env = task → nrf52fw_manual_reset_mode env = false → RE_CA_UART_LED_CTRL ≠ RE_CA_UART_SET_ALL →
  ∃ st tr,
    nrf52_run task (map (pair env)
      [NrfCfgUpdate scan1 filter1; NrfSigCfgUpdate; NrfCfgUpdate scan2 filter2; NrfSigCfgUpdate;
       NrfAsyncAck RE_CA_UART_SET_ALL 0; NrfSyncAckCfg]) st tr ∧
    commands (concat (tr.*2)) = [send_all_call scan1 filter1] ∧
    cfg_scan st = scan2 ∧ cfg_filter st = filter2 ∧ flag_nrf52_configured st = true ∧
    g_adv_post_nrf52_flag_cfg_required st = false ∧ g_adv_post_nrf52_is_waiting_ack st = false.
Proof.
  intros Ht Hm Hne.
  destruct (nrf52_init_ok task env scan1 filter1 scan1 filter1 Ht) as (s0 & es0 & R0 & I0 & W0 & _ & L0).
  destruct (cfg_update_run env scan1 filter1 s0 (nrf52_mutex _ _ I0)) as (s1 & R1 & <- & <- & [W1 _] & L1).
  assert (I1 := run_keeps_inv task env _ _ _ _ R1 I0 (conj Ht I)).
  destruct (sig_cfg_update_run env s1 (nrf52_mutex _ _ I1)) as (s2 & R2 & (_ & _ & L2) & W2 & C2);
    [by rewrite (nrf52_task _ _ I1)|done|].
  assert (I2 := run_keeps_inv task env _ _ _ _ R2 I1 (conj Ht I)).
  rewrite W1, W0 in R2, C2.
  destruct (cfg_update_run env scan2 filter2 s2 (nrf52_mutex _ _ I2)) as (s3 & R3 & <- & <- & [W3 C3] & L3).
  assert (I3 := run_keeps_inv task env _ _ _ _ R3 I2 (conj Ht I)).
  destruct (sig_cfg_update_run env s3 (nrf52_mutex _ _ I3)) as (s4 & R4 & (S4 & F4 & L4) & W4 & C4);
    [by rewrite (nrf52_task _ _ I3)|done|].
  assert (I4 := run_keeps_inv task env _ _ _ _ R4 I3 (conj Ht I)).
  rewrite W3, W2 in R4, C4. destruct C4 as [_ C4].
  assert (R5 := async_ack_set_all_run env s4 Hne ltac:(congruence)).
  set (s5 := s4 <| g_adv_post_nrf52_last_cmd := 0 |>) in R5.
  destruct (sync_ack_cfg_run env s5 (nrf52_mutex _ _ I4)) as (s6 & R6 & (S6 & F6 & _) & Hc & Hr & Hw);
    [transitivity (led_interval_valid s4); [done|congruence]|].
  eexists s6, _. split.
  - eapply Nrf52Run; [exact Ht| |exact R0|cbn [map];
      eapply nrf52_trace_cons, nrf52_trace_cons, nrf52_trace_cons, nrf52_trace_cons, nrf52_trace_cons, nrf52_trace_cons,
        nrf52_trace_nil; [exact R1|exact R2|exact R3|exact R4|exact R5|exact R6]].
    by repeat constructor.
  - split_and!; [reflexivity|by rewrite S6|by rewrite F6|done..].
Qed.
End traces.

(** ** Concrete runs *)

(** The state after the initialisation. *)
Definition ex_start : adv_post_nrf52_t :=
  AdvPostNrf52State ex_scan ex_filter true false false true ex_task 0 false false 0 65535.

Lemma ex_run ops st tr :
  ops_ok ex_task (map (pair ex_env) ops) →
  nrf52_exec (H:=ex_ca_uart) ex_start (map (pair ex_env) ops) = Some (st, tr) →
  nrf52_run (H:=ex_ca_uart) ex_task (map (pair ex_env) ops) st tr.
Proof.
  intros Ho He. eapply (Nrf52Run _ _ _ _ ex_env ex_scan ex_filter ex_scan ex_filter ex_start); [done|done|reflexivity|].
  by apply nrf52_exec_trace.
Qed.

Definition ex_ops : list nrf52_op :=
  [NrfSigHwResetOff; NrfCfgUpdate ex_scan ex_filter; NrfSigCfgUpdate; NrfLedCtrl 1000; NrfSyncAckTimeout;
   NrfSyncAckCfg; NrfSyncAckLedCtrl; NrfLedCtrl 500].

Definition ex_result (ops : list nrf52_op) : adv_post_nrf52_t * list (nrf52_op * list nrf52_ev) :=
  default (ex_start, []) (nrf52_exec (H:=ex_ca_uart) ex_start (map (pair ex_env) ops)).

Definition ex_timeouts : list nrf52_op :=
  [NrfLedCtrl 1000; NrfSyncAckTimeout; NrfSyncAckLedCtrl; NrfCfgUpdate ex_scan ex_filter; NrfSigCfgUpdate] ++
  repeat NrfSyncAckTimeout 9.

Lemma nrf52_never_asserts_witness :
  ∃ st0 es0 st tr, run (adv_post_nrf52_init ex_env ex_scan ex_filter) (nrf52_bss ex_scan ex_filter) tt st0 es0 ∧
    nrf52_trace (H:=ex_ca_uart) st0 (map (pair ex_env) ex_ops) st tr ∧ nrf52_inv ex_task st.
Proof.
  apply (nrf52_never_asserts (H:=ex_ca_uart) ex_task ex_env ex_scan ex_filter ex_scan ex_filter (map (pair ex_env) ex_ops)).
  - reflexivity.
  - by repeat constructor.
Defined.

Lemma nrf52_one_command_at_a_time_witness : one_at_a_time false (ex_result ex_ops).2 = true.
Proof.
  apply (nrf52_one_command_at_a_time (H:=ex_ca_uart) ex_task (map (pair ex_env) ex_ops) (ex_result ex_ops).1).
  apply ex_run; [by repeat constructor|]. vm_compute. reflexivity.
Defined.

Lemma nrf52_wait_has_timer_witness : fold_left timer_after (ex_result ex_ops).2 false = true.
Proof.
  apply (nrf52_wait_has_timer (H:=ex_ca_uart) ex_task (map (pair ex_env) ex_ops) (ex_result ex_ops).1).
  - apply ex_run; [by repeat constructor|]. vm_compute. reflexivity.
  - vm_compute. reflexivity.
Defined.

Lemma nrf52_reset_every_tenth_timeout_witness :
  resets [MetricsNrfLostAckInc; MetricsNrfExtHwResetInc; NrfHwReset true; NrfMutexLock; NrfMutexUnlock; ResetTimerStart]
  = true.
Proof.
  exact (nrf52_reset_every_tenth_timeout (H:=ex_ca_uart) ex_task ex_env (map (pair ex_env) ex_timeouts)
    (ex_result (ex_timeouts ++ [NrfSyncAckTimeout])).1 (ex_result ex_timeouts).2
    [MetricsNrfLostAckInc; MetricsNrfExtHwResetInc; NrfHwReset true; NrfMutexLock; NrfMutexUnlock; ResetTimerStart]
    (ex_run (ex_timeouts ++ [NrfSyncAckTimeout]) _ _ ltac:(by repeat constructor) ltac:(vm_compute; reflexivity))).
Defined.


Lemma nrf52_config_lost_on_earlier_ack_witness :
  ∃ st tr,
    nrf52_run (H:=ex_ca_uart) ex_task (map (pair ex_env)
      [NrfCfgUpdate ex_scan ex_filter; NrfSigCfgUpdate; NrfCfgUpdate ex_scan (RuuviGwCfgFilter 76 true); NrfSigCfgUpdate;
       NrfAsyncAck 14 0; NrfSyncAckCfg]) st tr ∧
    commands (concat (tr.*2)) = [send_all_call (H:=ex_ca_uart) ex_scan ex_filter] ∧
    cfg_scan st = ex_scan ∧ cfg_filter st = RuuviGwCfgFilter 76 true ∧ flag_nrf52_configured st = true ∧
    g_adv_post_nrf52_flag_cfg_required st = false ∧ g_adv_post_nrf52_is_waiting_ack st = false.
Proof. by apply (nrf52_config_lost_on_earlier_ack (H:=ex_ca_uart)). Defined.
