(* ===== verification/AdvPostAsyncProps.v ===== *)
(** * Properties of the asynchronous communication *)

From S2P Require Import Prelude AdvTable AdvTableInv AdvTableSpec AdvTableRefine AdvPostSig AdvPostTimers.
From S2P Require Import AdvPostAsync AdvPostAsyncInv Examples.
Open Scope Z_scope.

(** ** Publishing by MQTT *)

Definition published (es : list async_ev) : list adv_report_t :=
  omap (λ e, match e with MqttPublishAdv r _ _ => Some r | _ => None end) es.

Lemma published_app es1 es2 : published (es1 ++ es2) = published es1 ++ published es2.
Proof. apply omap_app. Qed.

(** The reports waiting for MQTT. *)
Definition mqtt_pending (st : async_t) : list adv_report_t :=
  omap (spec_lookup (absr (async_table st))) (rl_list RL3 (async_table st)).

(** MQTT is possible and succeeds. *)
Definition mqtt_works (env : async_env) (st : async_t) : Prop :=
  mqtt_use_mqtt env = true ∧ mqtt_is_connected env = true ∧ mqtt_publish_ok env = true ∧ alloc_ok env = true ∧
  flag_network_connected (ap st) = true ∧ (flag_use_timestamps (ap st) = true → time_is_synchronized env = true).

(** Only MQTT is asked for, and nothing is in progress. *)
Definition only_mqtt (st : async_t) : Prop :=
  flag_relaying_enabled (ap st) = true ∧ flag_async_comm_in_progress (ap st) = false ∧
  flag_need_to_send_advs1 (ap st) = false ∧ flag_need_to_send_advs2 (ap st) = false ∧
  flag_need_to_send_statistics (ap st) = false ∧ flag_need_to_send_mqtt_periodic (ap st) = true.

(** A state in which [k] reports of [buf] are published and nothing else waits. *)
Record publishing (buf : adv_report_table_t) (k : nat) (st : async_t) : Prop := Publishing {
  pub_flags : ap st = (ap st) <| flag_async_comm_in_progress := true |> <| flag_need_to_send_advs1 := false |>
    <| flag_need_to_send_advs2 := false |> <| flag_need_to_send_statistics := false |>
    <| flag_need_to_send_mqtt_periodic := false |>;
  pub_action : g_adv_post_action st = ADV_POST_ACTION_POST_ADVS_TO_MQTT;
  pub_buf : g_p_adv_post_reports_mqtt st = Some buf;
  pub_idx : g_adv_post_reports_mqtt_idx st = Z.of_nat k;
}.

(** Nothing in progress and nothing asked for. *)
Definition idle (st : async_t) : Prop :=
  flag_async_comm_in_progress (ap st) = false ∧ flag_need_to_send_advs1 (ap st) = false ∧
  flag_need_to_send_advs2 (ap st) = false ∧ flag_need_to_send_statistics (ap st) = false ∧
  flag_need_to_send_mqtt_periodic (ap st) = false.

Lemma comm_start_idle env st : idle st → run (adv_post_do_async_comm_start env) st tt st [].
Proof.
  intros (_ & H1 & H2 & H3 & H4). unfold adv_post_do_async_comm_start. run_step.
  destruct (flag_relaying_enabled (ap st)); [|apply run_skip]. rewrite H1, H2, H3, H4. apply run_skip.
Qed.

Lemma publish_step env buf k r st :
  publishing buf k st → mqtt_publish_ok env = true → (k < MAX_ADVS_TABLE)%nat → table buf !! k = Some r →
  ∃ st' es, run (adv_post_do_async_comm env) st tt st' es ∧ published es = [r] ∧
    resources (false, 1%nat) es = Some (false, if num_of_advs buf <=? Z.of_nat k + 1 then 0%nat else 1%nat) ∧
    if num_of_advs buf <=? Z.of_nat k + 1
    then idle st' ∧ g_p_adv_post_reports_mqtt st' = None else publishing buf (S k) st'.
Proof.
  intros [Hf Ha Hb Hi] Hok Hk Hr.
  assert (R := mqtt_progress_run env st buf r Ha Hb ltac:(lia) ltac:(by rewrite Hi, Nat2Z.id)).
  assert (Hfin : mqtt_finished env buf st = (num_of_advs buf <=? Z.of_nat k + 1)).
  { unfold mqtt_finished. by rewrite Hok, Hi. }
  rewrite Hfin in R. assert (Hp : flag_async_comm_in_progress (ap st) = true) by by rewrite Hf.
  destruct (num_of_advs buf <=? Z.of_nat k + 1).
  - set (st1 := st <| g_p_adv_post_reports_mqtt := None |> <| g_adv_post_reports_mqtt_idx := 0 |>) in *.
    set (st2 := st1 <| ap := (ap st1) <| flag_async_comm_in_progress := false |> |>).
    assert (Id : idle st2) by (unfold idle, st2, st1; cbn; rewrite Hf; by split_and!).
    exists st2, ([report_sent env st r; ReportsFree] ++ []). split_and!; [|done|done|done|done].
    unfold adv_post_do_async_comm. run_step. rewrite Hp. eapply run_bind; [exact R|]. cbn [negb].
    eapply run_bind_silent; [apply set_ap_run|]. by apply comm_start_idle.
  - eexists _, (_ ++ []). split_and!.
    + unfold adv_post_do_async_comm. run_step. rewrite Hp. eapply run_bind; [exact R|apply run_skip].
    + done.
    + done.
    + split; [done|done|done|]. cbn. rewrite Hi. lia.
Qed.


(** Starting MQTT reads the pending reports into a buffer. *)
Lemma mqtt_start_run env st :
  async_inv st → only_mqtt st → mqtt_works env st →
  ∃ buf st' es, run (adv_post_do_async_comm env) st tt st' es ∧ publishing buf 0 st' ∧ filled buf (mqtt_pending st) ∧
    published es = [] ∧ resources (false, 0%nat) es = Some (false, 1%nat) ∧
    ∃ t, run (read_rl_op RL3 zero_reports) (async_table st) buf t locked.
Proof.
  intros [Ht _] (Hre & Hp & H1 & H2 & H3 & H4) (Hu & Hc & Hok & Ha & Hn & Hs).
  destruct (do_retransmission_mqtt_run env (flag_use_timestamps (ap st)) st Ht Ha) as (buf & t & es & R & I & F & Q & -> & R3).
  eexists buf, _, (((ReportsAlloc :: (AsyncTable <$> locked)) ++ [AsyncSendSig ADV_POST_SIG_DO_ASYNC_COMM]) ++
    [AsyncTimer (OneShotStart ADV_POST_ONE_SHOT_TIMER_SIG_DO_ASYNC_COMM)]). split_and!.
  - unfold adv_post_do_async_comm. run_step. rewrite Hp. unfold adv_post_do_async_comm_start. run_step.
    rewrite Hre, H1, H2, H3, H4. cbn [negb]. eapply run_bind; [|apply start_timer_run].
    unfold adv_post_do_async_comm_start_sending_periodic_mqtt. run_step. rewrite Hu, Hn, Hc. cbn [negb].
    replace (flag_use_timestamps (ap st) && negb (time_is_synchronized env)) with false
      by (destruct (flag_use_timestamps (ap st)); [by rewrite Hs|done]).
    run_step. eapply run_bind; [exact R|]. cbn [negb].
    eapply run_bind_silent; [apply set_ap_run|]. eapply run_bind_silent; [apply set_ap_run|apply run_emit].
  - split; [|done|done|done]. cbn. destruct (ap st); cbn in *. by subst.
  - exact F.
  - done.
  - done.
  - by exists t.
Qed.

(** Reading an empty list leaves the new buffer as it is. *)
Lemma read_empty_run k st :
  rl_list k st = [] → run (read_rl_op k zero_reports) st (zero_reports <| num_of_advs := 0 |>) st locked.
Proof.
  intros Hl. assert (run (read_rl_and_clear k zero_reports) st (zero_reports <| num_of_advs := 0 |>) st []).
  { unfold read_rl_and_clear. run_step. rewrite Hl. apply run_ret. }
  destruct k; by apply with_mutex_run.
Qed.

(** ** Claims *)


(** C30. If no report waits for MQTT, the transfer nevertheless publishes one: the
    zeros of the new buffer, as the report of the tag 00:00:00:00:00:00.  (MQTT is
    the only transfer requested, and works.) *)
Theorem mqtt_publishes_zero_report env st :
  async_inv st → only_mqtt st → mqtt_works env st → rl_list RL3 (async_table st) = [] →
  ∃ st' es, run (for_each (replicate 2 tt) (λ _, adv_post_do_async_comm env)) st tt st' es ∧
    published es = [zero_report] ∧ idle st'.
Proof.
  intros Hi Hm Hw Hl. destruct (mqtt_start_run env st Hi Hm Hw) as (buf & s1 & e1 & R1 & P1 & F & N1 & Q1 & t & R3).
  destruct (run_det _ _ _ _ _ _ _ _ R3 (read_empty_run RL3 _ Hl)) as (-> & _ & _).
  destruct Hw as (_ & _ & Hok & _).
  destruct (publish_step env _ 0 zero_report s1 P1 Hok ltac:(unfold MAX_ADVS_TABLE; lia) eq_refl)
    as (s2 & e2 & R2 & P2 & _ & Id & _).
  exists s2, (e1 ++ e2 ++ []). split_and!; [|by rewrite !published_app, N1, P2|done].
  eapply run_bind; [exact R1|]. eapply run_bind; [exact R2|apply run_skip].
Qed.

(** ** A concrete transfer *)

Lemma ex_mqtt_works t : mqtt_works ex_async_env (ex_async t).
Proof. by split_and!. Qed.


Lemma mqtt_publishes_zero_report_witness :
  ∃ st' es, run (for_each (replicate 2 tt) (λ _, adv_post_do_async_comm ex_async_env)) (ex_async init_state) tt st' es ∧
    published es = [zero_report] ∧ idle st'.
Proof.
  apply (mqtt_publishes_zero_report ex_async_env (ex_async init_state)).
  - exact (ex_async_inv _ init_ok).
  - by split_and!.
  - apply ex_mqtt_works.
  - reflexivity.
Defined.
