(* ===== verification/AdvRecvProps.v ===== *)
(** * Properties of the receiver and of the network watchdog *)

From S2P Require Import Prelude AdvTable AdvTableInv AdvTableSpec AdvTableRefine EventMgr LedsBlinking GwCfg.
From S2P Require Import AdvPostSig AdvPostNrf52 AdvPostNrf52Inv AdvPostTimers AdvPostAsync AdvPostAsyncInv.
From S2P Require Import NetworkTimeout AdvPostCfgCache AdvPostGreenLed AdvPostState AdvRecv AdvRecvFacts.
From S2P Require Import AdvPostSignals AdvPostTaskInv AdvRecvInv Examples.
Open Scope Z_scope.

(** C8. A received advertisement reaches the table if and only if the nRF52 is
    configured, the configuration is loaded and not being changed, the message is
    an advertisement report of 1 to 48 bytes, its address passes the filter, and
    the time is known if it is needed.  The table then does what its specification
    says for the report with the data of the message, and the reception is
    announced exactly when the table took the report as new.  The report of a tag
    that is logged, one of at most three allowed ones, is assumed to be one whose
    chunks [get_ble_manuf_id] can read (C24); where it cannot, the logging that comes
    before the table fails (C31).  For all other tags nothing is assumed of the data. *)
Theorem recv_adv_reaches_table `{CaUartReports} task env msg st :
  all_inv task st → msg_ok msg →
  (recv_ready env st = true → recv_logs st msg = true → ∃ id, get_ble_manuf_id (report_of_msg 0 msg) = Done id) →
  let r := report_of_msg (recv_timestamp env (all_cfg_cache st)) msg in
  let accepted := recv_ready env st && recv_accepts env st msg in
  ∃ st' es, run (adv_post_nrf52_cb_on_recv_adv env (Some msg)) st tt st' es ∧
    absr (recv_table st') ≡ (if accepted then snd (spec_put r (absr (recv_table st))) else absr (recv_table st)) ∧
    (AllEventNotify EVENT_MGR_EV_RECV_ADV ∈ es ↔ accepted && fst (spec_put r (absr (recv_table st))) = true).
Proof.
  intros Hi Hm Hid r accepted. destruct (recv_adv_does task env msg st Hi Hm Hid) as (st' & es & R & _ & _ & T & N).
  by exists st', es.
Qed.

(** C24. For an advertisement made of whole chunks [get_ble_manuf_id] ends within the
    data and returns the identifier in the first manufacturer chunk, 0 if that
    chunk is too short for one or if there is none. *)
Theorem get_ble_manuf_id_first_chunk r cs :
  Forall (λ c, Forall byte c.2) cs → data_len r = Z.of_nat (length (encode_chunks cs)) →
  take (length (encode_chunks cs)) (data_buf r) = encode_chunks cs → Z.of_nat (length (data_buf r)) < 2 ^ 31 →
  get_ble_manuf_id r = Done (manuf_of cs).
Proof. apply get_ble_manuf_id_chunks. Qed.

(** C31. If the first chunk is not a manufacturer chunk and announces more bytes than
    the report has, [get_ble_manuf_id] reads past the end of the 48 bytes of the
    buffer, which holds zeros after the data as the receiver leaves it: the number of
    bytes left becomes negative, and is compared as an unsigned number.  So does the
    logging of the report of a tag that is one of at most three allowed ones.  (At a
    first chunk that is a manufacturer chunk the loop stops.) *)
Theorem get_ble_manuf_id_truncated r len type c a (st : adv_post_all_t) :
  length (data_buf r) = 48%nat → 2 ≤ data_len r ≤ 48 →
  data_buf r !! 0%nat = Some len → data_buf r !! 1%nat = Some type →
  data_len r < len + 1 < 2 ^ 31 → type ≠ BLE_MSG_CHUNK_TYPE_MANUFACTURED_SPECIFIC_DATA →
  (∀ i b, data_len r ≤ i → data_buf r !! Z.to_nat i = Some b → b = 0) →
  scan_filter_allow_listed c = true → p_arr_of_scan_filter_mac c = Some a →
  scan_filter_length c = Z.of_nat (length a) → (length a ≤ 3)%nat → tag_mac r ∈ a →
  get_ble_manuf_id r = Fault OutOfBounds ∧ adv_post_log_adv_report r c st = Fault OutOfBounds.
Proof.
  intros Hl Hd H0 H1 Hlen Ht Hz Hal Ha Hn H3 Hin.
  assert (Hf : get_ble_manuf_id r = Fault OutOfBounds).
  { unfold get_ble_manuf_id. rewrite (proj2 (Z.ltb_ge _ _)) by (unfold BLE_MSG_CHUNK_DATA_OFFSET; lia).
    cbn [get_ble_manuf_id_loop]. change (data_len r) with (0 + data_len r) at 1. rewrite chunk_left_pos by lia.
    rewrite (proj2 (Z.leb_le _ _)) by lia. cbn [negb]. unfold buf_at at 1 2. cbn [Z.ltb Z.compare].
    change (Z.to_nat 0) with 0%nat. change (Z.to_nat (0 + 1)) with 1%nat. rewrite H0, H1. change (0 + 1 <? 0) with false. cbv beta iota.
    rewrite (proj2 (Z.eqb_neq _ _)) by done. cbn [negb].
    apply manuf_loop_past; try lia; done. }
  split; [done|]. unfold adv_post_log_adv_report. rewrite Hal, Ha, Hn.
  destruct a as [|m a]; [by apply not_elem_of_nil in Hin|].
  rewrite (proj2 (Z.ltb_lt _ _)) by (cbn; lia).
  rewrite (proj2 (Z.leb_le _ _)) by (unfold ADV_POST_MAX_NUM_SCAN_FILTERS_FOR_LOGGING; lia). cbn [andb].
  rewrite Nat2Z.id, mac_in_filter_all, bool_decide_true by done. cbn [lift mbind prog_bind mret prog_ret]. 
  by rewrite Hf.
Qed.

(** C25. [u64_to_array] writes the lowest bytes of a 64-bit number, at most eight of
    them, most significant first, and stays within the array: decoding the array
    gives the number back, modulo the width of the array. *)
Theorem u64_to_array_decodes u arr n :
  0 < n ≤ 8 → 0 ≤ u < 2 ^ 64 → length arr = Z.to_nat n →
  ∃ l, u64_to_array u arr n = Done l ∧ length l = Z.to_nat n ∧ be_decode l = u mod 2 ^ (8 * n).
Proof.
  intros Hn _ Hl. exists (be_bytes u (Z.to_nat n)). unfold u64_to_array, u8. rewrite Z.mod_small by lia. split_and!.
  - rewrite <- (Z2Nat.id n) at 1 by lia. apply (u64_loop_run u (Z.to_nat n) _ [] arr); [done|cbn; lia|lia].
  - apply be_bytes_length.
  - unfold be_decode. rewrite be_decode_acc, Z2Nat.id by lia. lia.
Qed.

(** C26. The network watchdog fires exactly when more ticks than its timeout have
    passed since the last update, also across an overflow of the tick counter, as
    long as fewer than 2^32 ticks have passed. *)
Theorem network_watchdog_fires `{FreeRtos} st t0 d :
  0 ≤ t0 < 2 ^ 32 → 0 ≤ d < 2 ^ 32 →
  ∃ st1 es1 st2 es2, run (network_timeout_update_timestamp t0) st tt st1 es1 ∧
    run (network_timeout_check (u32 (t0 + d))) st1
      (u32 (pdMS_TO_TICKS RUUVI_NETWORK_WATCHDOG_TIMEOUT_SECONDS * 1000) <? d) st2 es2.
Proof.
  intros Ht Hd. destruct st as [ts b].
  exists (NetworkTimeoutState t0 true), ((if b then [] else [NtMutexCreate]) ++ [NtMutexLock; NtMutexUnlock]).
  exists (NetworkTimeoutState t0 true), [NtMutexLock; NtMutexUnlock].
  split; [by destruct b|].
  replace d with (u32 (u32 (t0 + d) - t0)) at 2; [reflexivity|].
  unfold u32. rewrite Zminus_mod_idemp_l. replace (t0 + d - t0) with d by lia. by apply Z.mod_small.
Qed.

(** ** Concrete inputs *)

Lemma recv_adv_reaches_table_witness :
  ∃ st' es, run (adv_post_nrf52_cb_on_recv_adv (H:=ex_uart_reports) ex_recv_env (Some ex_msg)) (ex_all (ex_async init_state)) tt st' es ∧
    absr (recv_table st') ≡ snd (spec_put (report_of_msg (H:=ex_uart_reports) 1700000000 ex_msg) (absr init_state)) ∧
    (AllEventNotify EVENT_MGR_EV_RECV_ADV ∈ es ↔
     fst (spec_put (report_of_msg (H:=ex_uart_reports) 1700000000 ex_msg) (absr init_state)) = true).
Proof.
  exact (recv_adv_reaches_table (H:=ex_uart_reports) ex_task ex_recv_env ex_msg (ex_all (ex_async init_state))
    (ex_all_inv _ (ex_async_inv _ init_ok)) ltac:(split; cbn; lia) ltac:(intros _ _; exists 1177; reflexivity)).
Defined.

Lemma get_ble_manuf_id_first_chunk_witness :
  get_ble_manuf_id (report_of_msg (H:=ex_uart_reports) 0 ex_msg) = Done (4 * 256 + 153).
Proof.
  apply (get_ble_manuf_id_first_chunk _ [(1, [6]); (255, [153; 4; 5; 18])]).
  - repeat constructor; cbn; lia.
  - reflexivity.
  - reflexivity.
  - reflexivity.
Defined.

Definition ex_truncated : adv_report_t :=
  AdvReport 0 0 ex_mac 0 1 0 37 false 0 3 ([7; 9; 65] ++ replicate 45 0).

Lemma get_ble_manuf_id_truncated_witness :
  get_ble_manuf_id ex_truncated = Fault OutOfBounds ∧
  adv_post_log_adv_report ex_truncated (AdvPostCfgCache true true 1 (Some [ex_mac]) true) (ex_all (ex_async init_state))
    = Fault OutOfBounds.
Proof.
  apply (get_ble_manuf_id_truncated ex_truncated 7 9 _ [ex_mac]); try reflexivity; try (cbn; lia).
  - discriminate.
  - intros i b Hi. change (3 ≤ i) in Hi. replace (Z.to_nat i) with (3 + (Z.to_nat i - 3))%nat by lia.
    intros Hx. exact (proj1 (proj1 (lookup_replicate 45 0 b (Z.to_nat i - 3)) Hx)).
  - apply elem_of_cons. by left.
Defined.

Lemma u64_to_array_decodes_witness :
  ∃ l, u64_to_array 1311768467463790320 (replicate 6 0) 6 = Done l ∧ length l = 6%nat ∧
    be_decode l = 1311768467463790320 mod 2 ^ 48.
Proof. apply (u64_to_array_decodes 1311768467463790320 (replicate 6 0) 6); [lia|lia|reflexivity]. Defined.

Lemma network_watchdog_fires_witness :
  ∃ st1 es1 st2 es2, run (network_timeout_update_timestamp 4294967000) (NetworkTimeoutState 0 false) tt st1 es1 ∧
    run (network_timeout_check (H:=ex_freertos) (u32 (4294967000 + 3600001))) st1 true st2 es2.
Proof. exact (network_watchdog_fires (H:=ex_freertos) (NetworkTimeoutState 0 false) 4294967000 3600001 ltac:(lia) ltac:(lia)). Defined.
