(* ===== verification/AdvPostTaskProps.v ===== *)
(** * Properties of the advertisement task *)

From S2P Require Import Prelude AdvTable AdvTableInv AdvTableSpec AdvTableRefine EventMgr LedsBlinking GwCfg.
From S2P Require Import AdvPostSig AdvPostNrf52 AdvPostNrf52Inv AdvPostTimers AdvPostAsync AdvPostAsyncInv.
From S2P Require Import NetworkTimeout AdvPostCfgCache AdvPostGreenLed AdvPostState AdvRecv AdvRecvFacts.
From S2P Require Import AdvPostSignals AdvPostTaskInv AdvRecvInv Examples.
Open Scope Z_scope.

(** ** From the start *)

(** The static variables before [adv_post_init]. *)
Definition all_bss : adv_post_all_t :=
  AdvPostAll
    (AsyncState adv_post_state_init 0 ADV_POST_ACTION_NONE None 0 0 0 init_state g_adv_post_timers_init)
    (GreenLedState false None false false
       (AdvPostNrf52State (RuuviGwCfgScan false false false false false false false) (RuuviGwCfgFilter 0 false)
          false false false false None 0 false false 0 0))
    (AdvPostCfgCache false false 0 None false) (NetworkTimeoutState 0 false) 0.

Section props.
Context `{CaUart, FreeRtos, CaUartReports}.

Definition boot (random random_stat : Z) (env : sig_env) : allprog unit :=
  adv_post_init random random_stat ;; adv_post_task_start env.

Lemma task_init_run r1 r2 :
  ∃ st es, run (adv_post_init r1 r2) all_bss tt st es ∧ async_inv (all_async st) ∧
    all_green_led st = all_green_led all_bss ∧ all_cfg_cache st = all_cfg_cache all_bss ∧
    owned (all_async st) = (false, 0%nat) ∧ all_resources (false, 0%nat) es = Some (false, 0%nat).
Proof. eexists _, _. split; [reflexivity|]. split_and!; try done. split; [apply init_ok|done]. Qed.

Lemma task_subscribe_run st : ∃ es, run adv_post_subscribe_events st tt st es ∧ ∀ r, all_resources r es = Some r.
Proof. eexists. split; [reflexivity|by intros []]. Qed.

Lemma create_timers_run st : ∃ es, run (tm adv_post_create_timers) st tt st es ∧ ∀ r, all_resources r es = Some r.
Proof. eexists. split; [by destruct st as [[]]|by intros []]. Qed.

Lemma nrf52_evs_run (es : list nrf52_ev) st :
  AdvTableClear ∉ es → run (for_each (GlNrf52 <$> es) on_green_led_ev) st tt st ((λ e, AllGreenLed (GlNrf52 e)) <$> es).
Proof.
  induction es as [|e es IH]; intros Hn; [apply run_skip|]. cbn [fmap list_fmap for_each].
  change (AllGreenLed (GlNrf52 e) :: ?l) with ([AllGreenLed (GlNrf52 e)] ++ l).
  eapply run_bind; [|apply IH; set_solver]. destruct e; try apply run_emit. set_solver.
Qed.

(** The nRF52 component is initialised in a state whose other components are. *)
Lemma nrf52_start_run env st :
  async_inv (all_async st) → cfg_cache_inv (all_cfg_cache st) →
  g_adv_post_task_handle (all_green_led st) = cur_task (env_nrf52 env) →
  g_adv_post_green_led_disabled_mutex (all_green_led st) = true →
  g_adv_post_nrf52_task_handle (all_nrf52 st) = None →
  ∃ st' es, run (in_nrf52 (adv_post_nrf52_init (env_nrf52 env) (gw_cfg_scan env) (gw_cfg_filter env))) st tt st' es ∧
    all_inv (cur_task (env_nrf52 env)) st' ∧ all_async st' = all_async st ∧ ∀ r, all_resources r es = Some r.
Proof.
  intros Ha Hc Ht Hm Hh.
  destruct (nrf52_init_run (env_nrf52 env) (gw_cfg_scan env) (gw_cfg_filter env) (all_nrf52 st) Hh)
    as (n' & R & I & _).
  set (g' := (all_green_led st) <| green_led_nrf52 := n' |>).
  exists (st <| all_green_led := g' |>), ((λ e, AllGreenLed (GlNrf52 e)) <$> nrf52_init_calls).
  split_and!; [|by split|done|by intros []].
  eapply run_interp; [|apply nrf52_evs_run; set_solver].
  rewrite <- bind_singletons. apply (run_zoom green_led_nrf52 (λ t st, st <| green_led_nrf52 := t |>)).
  by apply run_map_events.
Qed.

Lemma start_rest_run env task st :
  all_inv task st →
  ∃ st' es, run (emit AllSignalsRegister ;;
      start_network_watchdog (env_timer env) ;;
      tm adv_post_timers_start_timer_sig_recv_adv_timeout ;;
      adv_post_wdt_add_and_start ;;
      set_flags (λ _, adv_post_state_init)) st tt st' es ∧
    all_inv task st' ∧ all_flags st' = adv_post_state_init ∧ ∀ r, all_resources r es = Some r.
Proof.
  intros [[Ht Hq] Hg Hc]. destruct st as [[] g c [ts []] k];
    (eexists _, _; split; [reflexivity|]; split_and!; [|done|by intros []]); by split.
Qed.

Lemma boot_run r1 r2 env :
  sig_env_ok (cur_task (env_nrf52 env)) env →
  ∃ st es, run (boot r1 r2 env) all_bss tt st es ∧ all_inv (cur_task (env_nrf52 env)) st ∧
    all_flags st = adv_post_state_init ∧ all_resources (false, 0%nat) es = Some (false, 0%nat).
Proof.
  intros He. destruct (task_init_run r1 r2) as (s0 & e0 & R0 & A0 & G0 & C0 & O0 & Q0).
  set (g1 := (all_green_led s0) <| g_adv_post_green_led_disabled_mutex := true |>
    <| g_adv_post_task_handle := cur_task (env_nrf52 env) |>
    <| g_adv_post_green_led_state := false |> <| g_adv_post_green_led_disabled := false |>).
  set (s1 := s0 <| all_green_led := g1 |>).
  assert (R1 : run (in_green_led (adv_post_green_led_init (env_nrf52 env))) s0 tt s1 [AllGreenLed GlMutexCreate]) by reflexivity.
  destruct (task_subscribe_run s1) as (e2 & R2 & Q2). destruct (create_timers_run s1) as (e3 & R3 & Q3).
  destruct (nrf52_start_run env s1) as (s4 & e4 & R4 & I4 & H4 & Q4); [done|same_field all_cfg_cache s1 s0; rewrite C0; by split; [|left]|done|done| |].
  { unfold all_nrf52. cbn. by rewrite G0. }
  destruct (start_rest_run env _ s4 I4) as (s5 & e5 & R5 & I5 & F5 & Q5).
  eexists s5, (e0 ++ [AllGreenLed GlMutexCreate] ++ [AllSignalsInit] ++ e2 ++ e3 ++ e4 ++ e5). split_and!; [|done|done|].
  - eapply run_bind; [exact R0|]. unfold adv_post_task_start. eapply run_bind; [exact R1|].
    eapply run_bind; [apply run_emit|]. eapply run_bind; [exact R2|]. eapply run_bind; [exact R3|].
    eapply run_bind; [exact R4|exact R5].
  - rewrite all_resources_app, Q0. cbn. change (omap async_part _) with (omap async_part (e2 ++ e3 ++ e4 ++ e5)).
    change (resources ?r (omap async_part ?l)) with (all_resources r l).
    rewrite all_resources_app, Q2. cbn. rewrite all_resources_app, Q3. cbn. rewrite all_resources_app, Q4. cbn. apply Q5.
Qed.
(** ** Sequences of operations *)

(** Relaying is never switched off while reports are published by MQTT. *)
Fixpoint relaying_kept_run (ops : list all_op) (st : adv_post_all_t) : Prop :=
  match ops with
  | [] => True
  | op :: ops' => relaying_kept op st ∧ ∀ st' es, run (exec_all_op op) st tt st' es → relaying_kept_run ops' st'
  end.

Lemma all_ops_run task ops st :
  all_inv task st → Forall (all_op_ok task) ops →
  ∃ st' es, run (for_each ops exec_all_op) st tt st' es ∧ all_inv task st' ∧
    (relaying_kept_run ops st → all_resources (owned (all_async st)) es = Some (owned (all_async st'))).
Proof.
  revert st. induction ops as [|op ops IH]; intros st Hi Ho; [by exists st, []|].
  apply Forall_cons in Ho as [Hop Ho].
  destruct (all_op_run task op st Hi Hop) as (s1 & e1 & R1 & I1 & Q1).
  destruct (IH s1 I1 Ho) as (s2 & e2 & R2 & I2 & Q2). exists s2, (e1 ++ e2).
  split_and!; [by eapply run_bind|done|]. intros [Hk Hk']. rewrite all_resources_app, Q1 by done. cbn. eauto.
Qed.

(** ** Claims *)

(** C2. From the start of the firmware no signal handler of the advertisement task
    and no callback of the nRF52 fails: no assertion, no null pointer, no access
    outside an array, whatever the order of signals, received advertisements,
    acknowledgements and replies of the servers.  The received advertisements are
    made of whole chunks. *)
Theorem adv_post_never_faults r1 r2 env ops :
  sig_env_ok (cur_task (env_nrf52 env)) env → Forall (all_op_ok (cur_task (env_nrf52 env))) ops →
  ∃ st es, run (boot r1 r2 env ;; for_each ops exec_all_op) all_bss tt st es ∧
    all_inv (cur_task (env_nrf52 env)) st.
Proof.
  intros He Ho. destruct (boot_run r1 r2 env He) as (s1 & e1 & R1 & I1 & _).
  destruct (all_ops_run _ ops s1 I1 Ho) as (s2 & e2 & R2 & I2 & _).
  exists s2, (e1 ++ e2). split; [by eapply run_bind|done].
Qed.

(** C3. The mutex of the HTTP server and the buffers of reports are used in pairs:
    along every run the mutex is locked only when free and unlocked only when
    held, no buffer is freed twice, and what is held after the run is what the
    transfer in progress owns: the mutex for HTTP, the buffer for MQTT, nothing
    if there is none.  Relaying must not be switched off during MQTT. *)
Theorem transfer_resources_balanced r1 r2 env ops s1 e1 st es :
  sig_env_ok (cur_task (env_nrf52 env)) env → Forall (all_op_ok (cur_task (env_nrf52 env))) ops →
  run (boot r1 r2 env) all_bss tt s1 e1 → relaying_kept_run ops s1 →
  run (for_each ops exec_all_op) s1 tt st es →
  all_resources (false, 0%nat) (e1 ++ es) = Some (owned (all_async st)).
Proof.
  intros He Ho Rb Hk R. destruct (boot_run r1 r2 env He) as (s1' & e1' & R1 & I1 & F1 & Q1).
  destruct (run_det _ _ _ _ _ _ _ _ Rb R1) as (_ & <- & <-).
  destruct (all_ops_run _ ops s1 I1 Ho) as (s2 & e2 & R2 & I2 & Q2).
  destruct (run_det _ _ _ _ _ _ _ _ R R2) as (_ & <- & <-).
  rewrite all_resources_app, Q1. cbn. rewrite <- Q2 by done. f_equal. unfold owned. unfold all_flags in F1. by rewrite F1.
Qed.

(** C27. Switching relaying off while reports are published by MQTT unlocks the mutex
    of the HTTP server although the task does not hold it, ends the transfer, and
    keeps the buffer of reports allocated with nobody left to free it. *)
Theorem relaying_off_during_mqtt task env st buf :
  all_inv task st → mqtt_in_progress st → g_p_adv_post_reports_mqtt (all_async st) = Some buf →
  relaying_via_http_enabled env = false →
  ∃ b st' es, run (adv_post_handle_sig env ADV_POST_SIG_RELAYING_MODE_CHANGED) st b st' es ∧
    owned (all_async st) = (false, 1%nat) ∧ AllAsync HttpServerMutexUnlock ∈ es ∧
    all_resources (owned (all_async st)) es = None ∧ AllAsync ReportsFree ∉ es ∧
    owned (all_async st') = (false, 0%nat) ∧ g_p_adv_post_reports_mqtt (all_async st') = Some buf.
Proof.
  intros Hi [Hp Hm] Hb He. eexists _, (relaying_state env st), (relaying_calls env st ++ []). split.
  { unfold adv_post_handle_sig. eapply run_bind; [apply relaying_run|]. run_step. apply run_ret. }
  assert (Ha : relaying_aborts env st = true) by (unfold relaying_aborts; by rewrite He, Hp).
  assert (Ho : owned (all_async st) = (false, 1%nat)).
  { unfold owned. unfold all_flags in Hp. by rewrite Hp, Hm. }
  rewrite app_nil_r, Ho. unfold relaying_calls, relaying_state. rewrite Ha.
  split_and!; [done|set_solver|done|set_solver|done|done].
Qed.
End props.

(** ** Concrete runs *)

Definition ex_all_ops : list all_op :=
  [OpSig (ex_sig_env true) ADV_POST_SIG_NETWORK_CONNECTED; OpSig (ex_sig_env true) ADV_POST_SIG_GW_CFG_READY;
   OpRecvAdv ex_recv_env ex_msg; OpSig (ex_sig_env true) ADV_POST_SIG_RETRANSMIT_MQTT;
   OpSig (ex_sig_env true) ADV_POST_SIG_DO_ASYNC_COMM; OpSig (ex_sig_env true) ADV_POST_SIG_DO_ASYNC_COMM;
   OpSetDefaultPeriod 5000; OpRecvGetAll].

Lemma ex_all_ops_ok : Forall (all_op_ok ex_task) ex_all_ops.
Proof.
  repeat constructor; cbn; try apply ex_sig_env_ok; try lia; try done.
  exists [(1, [6]); (255, [153; 4; 5; 18])]. split; [done|]. repeat constructor; cbn; lia.
Qed.

Lemma adv_post_never_faults_witness :
  ∃ st es, run (boot (H0:=ex_freertos) 1 2 (ex_sig_env true) ;;
      for_each ex_all_ops (exec_all_op (H:=ex_ca_uart) (H0:=ex_freertos) (H1:=ex_uart_reports))) all_bss tt st es ∧
    all_inv ex_task st.
Proof.
  apply (adv_post_never_faults (H:=ex_ca_uart) (H0:=ex_freertos) (H1:=ex_uart_reports) 1 2 (ex_sig_env true) ex_all_ops).
  - apply ex_sig_env_ok.
  - exact ex_all_ops_ok.
Defined.

Lemma relaying_kept_always `{CaUart, FreeRtos, CaUartReports} ops :
  Forall (λ op, ∀ st, relaying_kept op st) ops → ∀ st, relaying_kept_run ops st.
Proof. induction 1 as [|op ops Hop _ IH]; [done|]. intros st. by split. Qed.

Lemma ex_all_ops_kept : Forall (λ op, ∀ st, relaying_kept op st) ex_all_ops.
Proof. by repeat constructor. Qed.

Lemma transfer_resources_balanced_witness :
  ∃ s1 e1 st es, run (boot (H0:=ex_freertos) 1 2 (ex_sig_env true)) all_bss tt s1 e1 ∧
    run (for_each ex_all_ops (exec_all_op (H:=ex_ca_uart) (H0:=ex_freertos) (H1:=ex_uart_reports))) s1 tt st es ∧
    all_resources (false, 0%nat) (e1 ++ es) = Some (owned (all_async st)).
Proof.
  destruct (boot_run (H0:=ex_freertos) 1 2 (ex_sig_env true) (ex_sig_env_ok true)) as (s1 & e1 & R1 & I1 & _).
  destruct (all_ops_run (H:=ex_ca_uart) (H0:=ex_freertos) (H1:=ex_uart_reports) ex_task ex_all_ops s1 I1 ex_all_ops_ok)
    as (st & es & R & _).
  exists s1, e1, st, es. split; [exact R1|]. split; [exact R|].
  exact (transfer_resources_balanced (H:=ex_ca_uart) (H0:=ex_freertos) (H1:=ex_uart_reports) 1 2 (ex_sig_env true)
    ex_all_ops s1 e1 st es (ex_sig_env_ok true) ex_all_ops_ok R1
    (relaying_kept_always (H:=ex_ca_uart) (H0:=ex_freertos) (H1:=ex_uart_reports) _ ex_all_ops_kept s1) R).
Defined.

Lemma relaying_off_during_mqtt_witness :
  ∃ b st' es, run (adv_post_handle_sig (H:=ex_ca_uart) (H0:=ex_freertos) (ex_sig_env false) ADV_POST_SIG_RELAYING_MODE_CHANGED)
      (ex_all (ex_publishing)) b st' es ∧
    owned (all_async (ex_all ex_publishing)) = (false, 1%nat) ∧ AllAsync HttpServerMutexUnlock ∈ es ∧
    all_resources (owned (all_async (ex_all ex_publishing))) es = None ∧ AllAsync ReportsFree ∉ es ∧
    owned (all_async st') = (false, 0%nat) ∧ g_p_adv_post_reports_mqtt (all_async st') = Some zero_reports.
Proof.
  apply (relaying_off_during_mqtt (H:=ex_ca_uart) (H0:=ex_freertos) ex_task (ex_sig_env false) (ex_all ex_publishing) zero_reports).
  - exact (ex_all_inv _ ex_publishing_inv).
  - by split.
  - reflexivity.
  - reflexivity.
Defined.
